(** * TalkTo: a shallow embedding of the hub's server code

    The development follows the TypeScript sources of the repository:
    the name generator, the liveness sweep, the message and onboarding
    routes, the WebSocket connection manager and the schema migrations.
    Strings are Rocq strings (read as UTF-8 byte sequences), SQL tables
    are lists of rows in rowid order, JS [Set]s are [gset]s and dynamic
    SQL rows are [gmap]s from column names to values. *)

From Stdlib Require Import ZArith List Ascii String Bool Lia Sorted.
From stdpp Require Import gmap strings list fin_maps.
Import ListNotations.

Local Open Scope string_scope.
Local Open Scope list_scope.
Local Open Scope Z_scope.

(* ===================================================================== *)
(** ** SHA-256 (node:crypto [createHash("sha256")]), on 32-bit words as Z *)
(* ===================================================================== *)

Module Sha256.

Definition w32 (x : Z) : Z := x mod 4294967296.
Definition add32 (a b : Z) : Z := w32 (a + b).
Definition rotr (n x : Z) : Z :=
  Z.lor (Z.shiftr x n) (w32 (Z.shiftl x (32 - n))).
Definition not32 (x : Z) : Z := Z.lxor x 4294967295.

Definition Ch (x y z : Z) : Z := Z.lxor (Z.land x y) (Z.land (not32 x) z).
Definition Maj (x y z : Z) : Z :=
  Z.lxor (Z.lxor (Z.land x y) (Z.land x z)) (Z.land y z).
Definition bsig0 (x : Z) : Z := Z.lxor (Z.lxor (rotr 2 x) (rotr 13 x)) (rotr 22 x).
Definition bsig1 (x : Z) : Z := Z.lxor (Z.lxor (rotr 6 x) (rotr 11 x)) (rotr 25 x).
Definition ssig0 (x : Z) : Z := Z.lxor (Z.lxor (rotr 7 x) (rotr 18 x)) (Z.shiftr x 3).
Definition ssig1 (x : Z) : Z := Z.lxor (Z.lxor (rotr 17 x) (rotr 19 x)) (Z.shiftr x 10).

(** The round constants (first 32 bits of the fractional parts of the
    cube roots of the first 64 primes), in decimal. *)
Definition K : list Z :=
  [
    1116352408; 1899447441; 3049323471; 3921009573; 961987163;
    1508970993; 2453635748; 2870763221; 3624381080; 310598401;
    607225278; 1426881987; 1925078388; 2162078206; 2614888103;
    3248222580; 3835390401; 4022224774; 264347078; 604807628;
    770255983; 1249150122; 1555081692; 1996064986; 2554220882;
    2821834349; 2952996808; 3210313671; 3336571891; 3584528711;
    113926993; 338241895; 666307205; 773529912; 1294757372;
    1396182291; 1695183700; 1986661051; 2177026350; 2456956037;
    2730485921; 2820302411; 3259730800; 3345764771; 3516065817;
    3600352804; 4094571909; 275423344; 430227734; 506948616;
    659060556; 883997877; 958139571; 1322822218; 1537002063;
    1747873779; 1955562222; 2024104815; 2227730452; 2361852424;
    2428436474; 2756734187; 3204031479; 3329325298 ].

(** The initial hash value (from the square roots of the first 8
    primes). *)
Definition H0 : list Z :=
  [
    1779033703; 3144134277; 1013904242; 2773480762;
    1359893119; 2600822924; 528734635; 1541459225 ].

(** Big-endian encoding of [x] on [n] bytes. *)
Fixpoint be_bytes (n : nat) (x : Z) : list Z :=
  match n with
  | O => []
  | S n' => (Z.shiftr x (8 * Z.of_nat n')) mod 256 :: be_bytes n' x
  end.

(** Message padding: 0x80, zeros up to 56 mod 64, then the bit length. *)
Definition pad (msg : list Z) : list Z :=
  let len := Z.of_nat (List.length msg) in
  let zeros := Z.to_nat ((55 - len) mod 64) in
  msg ++ [128] ++ List.repeat 0 zeros ++ be_bytes 8 (8 * len).

Fixpoint words_of_bytes (n : nat) (bs : list Z) : list Z :=
  match n with
  | O => []
  | S n' =>
      match bs with
      | b0 :: b1 :: b2 :: b3 :: rest =>
          (b0 * 16777216 + b1 * 65536 + b2 * 256 + b3) :: words_of_bytes n' rest
      | _ => []
      end
  end.

(** The message schedule, kept newest-first while it grows. *)
Fixpoint extend (n : nat) (wrev : list Z) : list Z :=
  match n with
  | O => wrev
  | S n' =>
      let w := add32 (add32 (ssig1 (nth 1 wrev 0)) (nth 6 wrev 0))
                     (add32 (ssig0 (nth 14 wrev 0)) (nth 15 wrev 0)) in
      extend n' (w :: wrev)
  end.

Definition schedule (block : list Z) : list Z :=
  rev (extend 48 (rev (words_of_bytes 16 block))).

Record regs := Regs { ra : Z; rb : Z; rc : Z; rd : Z; re : Z; rf : Z; rg : Z; rh : Z }.

Definition round (r : regs) (kw : Z * Z) : regs :=
  let t1 := add32 (add32 (add32 (rh r) (bsig1 (re r)))
                         (add32 (Ch (re r) (rf r) (rg r)) (fst kw))) (snd kw) in
  let t2 := add32 (bsig0 (ra r)) (Maj (ra r) (rb r) (rc r)) in
  Regs (add32 t1 t2) (ra r) (rb r) (rc r) (add32 (rd r) t1) (re r) (rf r) (rg r).

Definition regs_of (h : list Z) : regs :=
  Regs (nth 0 h 0) (nth 1 h 0) (nth 2 h 0) (nth 3 h 0)
       (nth 4 h 0) (nth 5 h 0) (nth 6 h 0) (nth 7 h 0).

Definition compress (h : list Z) (block : list Z) : list Z :=
  let r0 := regs_of h in
  let r := fold_left round (combine K (schedule block)) r0 in
  [ add32 (ra r0) (ra r); add32 (rb r0) (rb r); add32 (rc r0) (rc r);
    add32 (rd r0) (rd r); add32 (re r0) (re r); add32 (rf r0) (rf r);
    add32 (rg r0) (rg r); add32 (rh r0) (rh r) ].

Fixpoint blocks (n : nat) (h : list Z) (bs : list Z) : list Z :=
  match n with
  | O => h
  | S n' => blocks n' (compress h (firstn 64 bs)) (skipn 64 bs)
  end.

(** The 32 digest bytes of a byte message. *)
Definition digest_bytes (msg : list Z) : list Z :=
  let p := pad msg in
  flat_map (be_bytes 4) (blocks (List.length p / 64) H0 p).

Definition bytes_of_string (s : string) : list Z :=
  List.map (fun c => Z.of_N (N_of_ascii c)) (list_ascii_of_string s).

(** [createHash("sha256").update(seed).digest()] *)
Definition sha256 (seed : string) : list Z := digest_bytes (bytes_of_string seed).

End Sha256.

(* ===================================================================== *)
(** ** JavaScript integer operators used by the sources *)
(* ===================================================================== *)

Module Js.

(** ToInt32: wrap to a signed 32-bit integer. *)
Definition toInt32 (x : Z) : Z := (x + 2147483648) mod 4294967296 - 2147483648.

(** [a << n] *)
Definition shl (a n : Z) : Z := toInt32 (Z.shiftl (toInt32 a) (n mod 32)).

(** [a | b] *)
Definition bor (a b : Z) : Z := toInt32 (Z.lor (toInt32 a) (toInt32 b)).

(** [a % b]: the remainder takes the sign of the dividend. *)
Definition rem (a b : Z) : Z := Z.rem a b.

(** [arr[i]] inside a template literal: a missing element prints as
    "undefined". *)
Definition index_str (arr : list string) (i : Z) : string :=
  if i <? 0 then "undefined"
  else match nth_error arr (Z.to_nat i) with
       | Some s => s
       | None => "undefined"
       end.

End Js.

(* ===================================================================== *)
(** ** services/name-generator.ts *)
(* ===================================================================== *)

Module NameGenerator.

Definition ADJECTIVES : list string :=
  [ "bouncy"; "bubbly"; "buzzy"; "chaotic"; "cheeky"; "chilly"; "chunky";
    "clever"; "cosmic"; "cranky"; "crispy"; "crunchy"; "cuddly"; "daring";
    "dizzy"; "dreamy"; "dusty"; "fancy"; "fizzy"; "flashy"; "fluffy";
    "frosty"; "funky"; "fuzzy"; "giddy"; "glitchy"; "groovy"; "grumpy";
    "gusty"; "happy"; "jazzy"; "jiggly"; "jolly"; "jumpy"; "lazy"; "lucky";
    "mellow"; "mighty"; "misty"; "moody"; "nifty"; "noble"; "peppy";
    "plucky"; "punchy"; "quirky"; "rusty"; "salty"; "sassy"; "shiny";
    "silent"; "silly"; "sleepy"; "sneaky"; "snowy"; "speedy"; "spicy";
    "stormy"; "sunny"; "swift"; "tangy"; "tiny"; "toasty"; "turbo";
    "twisty"; "wacky"; "witty"; "wobbly"; "zappy"; "zesty" ].

Definition ANIMALS : list string :=
  [ "alpaca"; "axolotl"; "badger"; "bat"; "beaver"; "bison"; "bunny";
    "capybara"; "chameleon"; "cheetah"; "cobra"; "corgi"; "coyote"; "crane";
    "crow"; "dolphin"; "donkey"; "dragon"; "eagle"; "falcon"; "ferret";
    "flamingo"; "fox"; "frog"; "gecko"; "goose"; "hamster"; "hawk";
    "hedgehog"; "hippo"; "hyena"; "iguana"; "jaguar"; "koala"; "lemur";
    "leopard"; "llama"; "lobster"; "lynx"; "mantis"; "moose"; "narwhal";
    "newt"; "octopus"; "otter"; "owl"; "panda"; "parrot"; "pelican";
    "penguin"; "possum"; "puffin"; "quail"; "rabbit"; "raccoon"; "raven";
    "salmon"; "seal"; "shark"; "sloth"; "sparrow"; "squid"; "tiger";
    "toucan"; "turtle"; "viper"; "walrus"; "wombat"; "yak"; "zebra" ].

(** [hash[i]] on the digest buffer (a read past the end yields
    [undefined], which the bit operators read as 0). *)
Definition byteAt (hash : list Z) (i : nat) : Z := nth i hash 0.

(** [((hash[0] << 8) | hash[1]) % ADJECTIVES.length] *)
Definition adjIdx (hash : list Z) : Z :=
  Js.rem (Js.bor (Js.shl (byteAt hash 0) 8) (byteAt hash 1))
         (Z.of_nat (List.length ADJECTIVES)).

(** [((hash[2] << 8) | hash[3]) % ANIMALS.length] *)
Definition animalIdx (hash : list Z) : Z :=
  Js.rem (Js.bor (Js.shl (byteAt hash 2) 8) (byteAt hash 3))
         (Z.of_nat (List.length ANIMALS)).

Definition generateName (seed : string) : string :=
  let hash := Sha256.sha256 seed in
  Js.index_str ADJECTIVES (adjIdx hash) +:+ "-" +:+ Js.index_str ANIMALS (animalIdx hash).

(** [generateUniqueName]: the eight characters of entropy come from
    [crypto.randomUUID()], an input of the model; [attempt] is printed
    in decimal by the caller. *)
Definition generateUniqueName (projectName agentType entropy attempt : string) : string :=
  generateName (projectName +:+ ":" +:+ agentType +:+ ":" +:+ entropy +:+ ":" +:+ attempt).

Definition CREATOR_NAME : string := "the_creator".

End NameGenerator.

(* ===================================================================== *)
(** ** Query helpers shared by the routes

    A table is the list of its rows in rowid order.  [.get()] returns
    the first row of a query, [ORDER BY] is a stable sort of the rows on
    a TEXT column (bytewise comparison, which orders ISO timestamps by
    time). *)
(* ===================================================================== *)

Module Query.

(** [.get()]: the first row that satisfies the [WHERE] clause. *)
Definition get {A} (p : A -> bool) (rows : list A) : option A := List.find p rows.

Fixpoint insert_by {A} (le : A -> A -> bool) (x : A) (l : list A) : list A :=
  match l with
  | [] => [x]
  | y :: l' => if le x y then x :: y :: l' else y :: insert_by le x l'
  end.

(** Stable insertion sort: rows that compare equal keep their rowid
    order. *)
Definition sort_by {A} (le : A -> A -> bool) (l : list A) : list A :=
  List.fold_right (insert_by le) [] l.

Definition orderByAsc {A} (key : A -> string) (rows : list A) : list A :=
  sort_by (fun x y => String.leb (key x) (key y)) rows.

Definition orderByDesc {A} (key : A -> string) (rows : list A) : list A :=
  sort_by (fun x y => String.leb (key y) (key x)) rows.

(** [LIMIT n]: a negative limit means no limit in SQLite. *)
Definition limit {A} (n : Z) (rows : list A) : list A :=
  if n <? 0 then rows else List.firstn (Z.to_nat n) rows.

(** JS truthiness of a [string | null | undefined] value. *)
Definition truthy (o : option string) : bool :=
  match o with
  | Some s => negb (String.eqb s "")
  | None => false
  end.

End Query.

(** What a route handler hands back: [c.json(body, status)], an error
    body [{detail}], or an exception that escapes the handler. *)
Inductive Response (A : Type) : Type :=
  | Json (status : Z) (body : A)
  | Detail (status : Z) (detail : string)
  | Thrown.
Arguments Json {A} status body.
Arguments Detail {A} status detail.
Arguments Thrown {A}.

(* ===================================================================== *)
(** ** db/schema.ts rows used by the routes *)
(* ===================================================================== *)

Module Schema.

Record User := mkUser {
  user_id : string;
  user_name : string;
  user_type : string;
  user_createdAt : string;
  user_displayName : option string;
  user_about : option string;
  user_agentInstructions : option string }.

Record Agent := mkAgent {
  agent_id : string;
  agent_agentName : string;
  agent_agentType : string;
  agent_status : string;
  agent_serverUrl : option string;
  agent_providerSessionId : option string }.

(** The [sessions] table (agent login sessions). *)
Record AgentSession := mkSession {
  session_id : string;
  session_agentId : string;
  session_pid : Z;
  session_tty : string;
  session_isActive : bool;
  session_startedAt : string;
  session_endedAt : option string;
  session_lastHeartbeat : string }.

Record Channel := mkChannel {
  channel_id : string;
  channel_name : string;
  channel_type : string;
  channel_createdBy : string;
  channel_createdAt : string }.

Record Message := mkMessage {
  message_id : string;
  message_channelId : string;
  message_senderId : string;
  message_content : string;
  message_mentions : option string;
  message_parentId : option string;
  message_createdAt : string }.

Record Db := mkDb {
  users : list User;
  agents : list Agent;
  sessions : list AgentSession;
  channels : list Channel;
  messages : list Message }.

Definition set_users (us : list User) (db : Db) : Db :=
  mkDb us (agents db) (sessions db) (channels db) (messages db).

Definition set_messages (ms : list Message) (db : Db) : Db :=
  mkDb (users db) (agents db) (sessions db) (channels db) ms.

End Schema.

(* ===================================================================== *)
(** ** routes/agents.ts: the ghost cache and the liveness sweep *)
(* ===================================================================== *)

Module Liveness.
Import Schema.

Section Sweep.

(** [isPidAlive]: whether [process.kill(pid, 0)] returns without
    throwing; a fact about the operating system. *)
Variable isPidAlive : Z -> bool.

(** [fetchOpencodeSessions]: the ids listed by [GET serverUrl/session]
    (the empty set when the server is unreachable). *)
Variable fetchOpencodeSessions : string -> gset string.

(** [computeGhost]; the second component is the per-sweep cache
    [opencodeSessions] after the call. *)
Definition computeGhost (db : Db) (agent : Agent)
    (opencodeSessions : gmap string (gset string))
    : bool * gmap string (gset string) :=
  if String.eqb (agent_agentType agent) "system" then (false, opencodeSessions)
  else if Query.truthy (agent_serverUrl agent)
          && Query.truthy (agent_providerSessionId agent) then
    let url := default "" (agent_serverUrl agent) in
    let psid := default "" (agent_providerSessionId agent) in
    match opencodeSessions !! url with
    | None =>
        let fetched := fetchOpencodeSessions url in
        (negb (bool_decide (psid ∈ fetched)), <[url := fetched]> opencodeSessions)
    | Some known => (negb (bool_decide (psid ∈ known)), opencodeSessions)
    end
  else
    (* select().from(sessions).where(eq(sessions.agentId, agent.id))
         .orderBy(asc(sessions.startedAt)).limit(1).get() *)
    let activeSession :=
      List.head
        (Query.limit 1
           (Query.orderByAsc session_startedAt
              (List.filter (fun s => String.eqb (session_agentId s) (agent_id agent))
                           (sessions db)))) in
    match activeSession with
    | None => (true, opencodeSessions)
    | Some s => (negb (isPidAlive (session_pid s)), opencodeSessions)
    end.


(** The classification in the words of the specification: without
    invocation credentials an agent is a ghost iff it has no active
    session, or the pid of its most recent session is not alive. *)
Definition sessionsOf (db : Db) (agent : Agent) : list AgentSession :=
  List.filter (fun s => String.eqb (session_agentId s) (agent_id agent)) (sessions db).

Definition mostRecentSession (db : Db) (agent : Agent) : option AgentSession :=
  List.head (Query.orderByDesc session_startedAt (sessionsOf db agent)).

Definition ghost_by_spec (db : Db) (agent : Agent) : bool :=
  negb (List.existsb session_isActive (sessionsOf db agent))
  || match mostRecentSession db agent with
     | None => true
     | Some s => negb (isPidAlive (session_pid s))
     end.

End Sweep.


End Liveness.

(* ===================================================================== *)
(** ** The Drizzle select builder, as the routes use it *)
(* ===================================================================== *)

Module Drizzle.

(** A select under construction.  The builder keeps one [where] slot:
    [.where(cond)] assigns it, so on a [$dynamic()] query a second call
    replaces the condition of the first (the routes' tests call this
    the ".where() chaining" behaviour). *)
Record Select (R : Type) := mkSelect {
  sel_from : list R;
  sel_where : option (R -> bool);
  sel_orderBy : option (list R -> list R);
  sel_limit : option Z }.
Arguments mkSelect {R}.
Arguments sel_from {R}.
Arguments sel_where {R}.
Arguments sel_orderBy {R}.
Arguments sel_limit {R}.

Definition from {R} (rows : list R) : Select R := mkSelect rows None None None.

(** [.from(a).innerJoin(b, on)] *)
Definition innerJoin {A B} (on : A -> B -> bool) (a : list A) (b : list B)
    : Select (A * B) :=
  from (List.flat_map
          (fun x => List.map (fun y => (x, y)) (List.filter (on x) b)) a).

Definition where_ {R} (cond : R -> bool) (q : Select R) : Select R :=
  mkSelect (sel_from q) (Some cond) (sel_orderBy q) (sel_limit q).

Definition orderBy {R} (sort : list R -> list R) (q : Select R) : Select R :=
  mkSelect (sel_from q) (sel_where q) (Some sort) (sel_limit q).

Definition limit {R} (n : Z) (q : Select R) : Select R :=
  mkSelect (sel_from q) (sel_where q) (sel_orderBy q) (Some n).

(** [.all()] *)
Definition all {R} (q : Select R) : list R :=
  let filtered :=
    match sel_where q with
    | Some cond => List.filter cond (sel_from q)
    | None => sel_from q
    end in
  let sorted :=
    match sel_orderBy q with
    | Some sort => sort filtered
    | None => filtered
    end in
  match sel_limit q with
  | Some n => Query.limit n sorted
  | None => sorted
  end.

End Drizzle.

(* ===================================================================== *)
(** ** routes/messages.ts *)
(* ===================================================================== *)

Module Messages.
Import Schema.

Record MessageResponse := mkMessageResponse {
  r_id : string;
  r_channel_id : string;
  r_sender_id : string;
  r_sender_name : string;
  r_sender_type : string;
  r_content : string;
  r_mentions : option (list string);
  r_parent_id : option string;
  r_created_at : string }.

(** The arguments handed to [newMessageEvent] before [broadcastEvent]. *)
Record NewMessageArgs := mkNewMessageArgs {
  e_messageId : string;
  e_channelId : string;
  e_senderId : string;
  e_senderName : string;
  e_content : string;
  e_mentions : option (list string);
  e_createdAt : string;
  e_senderType : string }.

(** The per-request auth context (who authenticated the request). *)
Record Principal := mkPrincipal {
  principal_userId : option string;
  principal_workspaceId : string;
  principal_role : string }.

(** [MessageCreateSchema]'s output. *)
Record MessageCreate := mkMessageCreate {
  mc_content : string;
  mc_mentions : option (list string) }.

(** [db.insert(messages).values(m).run()]: [None] when SQLite rejects
    the row (primary key taken, or a foreign key without its parent
    row) and the call throws. *)
Definition insertMessage (m : Message) (db : Db) : option Db :=
  if List.existsb (fun x => String.eqb (message_id x) (message_id m)) (messages db)
  then None
  else if negb (List.existsb (fun ch => String.eqb (channel_id ch) (message_channelId m))
                             (channels db))
  then None
  else if negb (List.existsb (fun u => String.eqb (user_id u) (message_senderId m))
                             (users db))
  then None
  else Some (set_messages (messages db ++ [m]) db).

Section Routes.

(** The request body as received, and the schema and JSON functions
    of [../types] and the runtime. *)
Variable Body : Type.
Variable safeParse : Body -> string + MessageCreate.
Variable jsonStringify : list string -> string.
Variable jsonParse : string -> option (list string).

Record PostRequest := mkPostRequest {
  post_channelId : string;
  post_body : Body;
  post_auth : Principal }.

(** [row.mentions ? JSON.parse(row.mentions) : null]; the outer
    [None] is a [SyntaxError]. *)
Definition parseMentions (m : option string) : option (option (list string)) :=
  if Query.truthy m then
    match jsonParse (default "" m) with
    | Some l => Some (Some l)
    | None => None
    end
  else Some None.

Definition toResponse (row : Message * User) : option MessageResponse :=
  match parseMentions (message_mentions (fst row)) with
  | Some ms =>
      Some (mkMessageResponse
              (message_id (fst row)) (message_channelId (fst row))
              (message_senderId (fst row))
              (default (user_name (snd row)) (user_displayName (snd row)))
              (user_type (snd row))
              (message_content (fst row)) ms
              (message_parentId (fst row)) (message_createdAt (fst row)))
  | None => None
  end.

Fixpoint mapM {A B} (f : A -> option B) (l : list A) : option (list B) :=
  match l with
  | [] => Some []
  | x :: l' =>
      match f x, mapM f l' with
      | Some y, Some ys => Some (y :: ys)
      | _, _ => None
      end
  end.

(** [Math.min(parseInt(limit ?? "50", 10) || 50, 100)]; the argument
    is [parseInt]'s result, [None] for a missing or non-numeric
    parameter. *)
Definition pageLimit (parsed : option Z) : Z :=
  Z.min (match parsed with
         | Some n => if n =? 0 then 50 else n
         | None => 50
         end) 100.

(** GET /channels/:channelId/messages *)
Definition getMessages (db : Db) (channelId : string) (limitParam : option Z)
    (before : option string) : Response (list MessageResponse) :=
  let limit := pageLimit limitParam in
  match Query.get (fun ch => String.eqb (channel_id ch) channelId) (channels db) with
  | None => Detail 404 "Channel not found"
  | Some _ =>
      let query :=
        Drizzle.where_
          (fun r : Message * User => String.eqb (message_channelId (fst r)) channelId)
          (Drizzle.innerJoin
             (fun m u => String.eqb (message_senderId m) (user_id u))
             (messages db) (users db)) in
      let query :=
        if Query.truthy before then
          match Query.get (fun m => String.eqb (message_id m) (default "" before))
                          (messages db) with
          | Some beforeMsg =>
              Drizzle.where_
                (fun r : Message * User =>
                   String.ltb (message_createdAt (fst r)) (message_createdAt beforeMsg))
                query
          | None => query
          end
        else query in
      let rows :=
        Drizzle.all
          (Drizzle.limit limit
             (Drizzle.orderBy
                (Query.orderByDesc (fun r : Message * User => message_createdAt (fst r)))
                query)) in
      match mapM toResponse rows with
      | Some result => Json 200 result
      | None => Thrown
      end
  end.

(** What POST leaves behind: the response, the database and the
    events handed to the broadcaster. *)
Record PostOutcome := mkPostOutcome {
  out_response : Response MessageResponse;
  out_db : Db;
  out_events : list NewMessageArgs }.

(** POST /channels/:channelId/messages; [msgId] is the value of
    [crypto.randomUUID()] and [now] the ISO timestamp of the call. *)
Definition postMessage (db : Db) (msgId now : string) (c : PostRequest) : PostOutcome :=
  let channelId := post_channelId c in
  match safeParse (post_body c) with
  | inl message => mkPostOutcome (Detail 400 message) db []
  | inr data =>
      match Query.get (fun ch => String.eqb (channel_id ch) channelId) (channels db) with
      | None => mkPostOutcome (Detail 404 "Channel not found") db []
      | Some _ =>
          match Query.get (fun u => String.eqb (user_type u) "human") (users db) with
          | None => mkPostOutcome (Detail 400 "No user onboarded") db []
          | Some human =>
              let mentionsJson := option_map jsonStringify (mc_mentions data) in
              match insertMessage
                      (mkMessage msgId channelId (user_id human) (mc_content data)
                                 mentionsJson None now) db with
              | None => mkPostOutcome Thrown db []
              | Some db' =>
                  let senderName := default (user_name human) (user_displayName human) in
                  mkPostOutcome
                    (Json 201
                       (mkMessageResponse msgId channelId (user_id human) senderName
                          "human" (mc_content data) (mc_mentions data) None now))
                    db'
                    [mkNewMessageArgs msgId channelId (user_id human) senderName
                       (mc_content data) (mc_mentions data) now "human"]
              end
          end
      end
  end.

End Routes.

End Messages.

(* ===================================================================== *)
(** ** routes/users.ts: onboarding *)
(* ===================================================================== *)

Module Users.
Import Schema.

Record UserResponse := mkUserResponse {
  ur_id : string;
  ur_name : string;
  ur_type : string;
  ur_created_at : string;
  ur_display_name : option string;
  ur_about : option string;
  ur_agent_instructions : option string }.

(** [UserOnboardSchema]'s output. *)
Record UserOnboard := mkUserOnboard {
  ob_name : string;
  ob_display_name : option string;
  ob_about : option string;
  ob_agent_instructions : option string }.

Definition userToResponse (u : User) : UserResponse :=
  mkUserResponse (user_id u) (user_name u) (user_type u) (user_createdAt u)
                 (user_displayName u) (user_about u) (user_agentInstructions u).

Definition isHuman (u : User) : bool := String.eqb (user_type u) "human".

(** [db.insert(users).values(u).run()]: [None] when the primary key is
    taken and the call throws. *)
Definition insertUser (u : User) (db : Db) : option Db :=
  if List.existsb (fun x => String.eqb (user_id x) (user_id u)) (users db)
  then None
  else Some (set_users (users db ++ [u]) db).

(** [db.update(users).set({name, displayName, about,
    agentInstructions}).where(eq(users.id, id)).run()] *)
Definition updateUser (id : string) (data : UserOnboard) (db : Db) : Db :=
  set_users
    (List.map
       (fun u =>
          if String.eqb (user_id u) id
          then mkUser (user_id u) (ob_name data) (user_type u) (user_createdAt u)
                      (ob_display_name data) (ob_about data) (ob_agent_instructions data)
          else u)
       (users db))
    db.

(** The text of the creator's welcome ([about.slice(0, 200)] is taken
    on the byte string, which is the source's slice on ASCII text). *)
Definition welcomeContent (displayName : string) (about : option string) : string :=
  let aboutLine :=
    if Query.truthy about
    then " They say: *" +:+ String (ascii_of_nat 34) (String.substring 0 200 (default "" about))
         +:+ String (ascii_of_nat 34) "*"
    else "" in
  "Everyone, meet **" +:+ displayName +:+ "** — " +:+
  "they're running the show around here." +:+ aboutLine +:+
  String (ascii_of_nat 10) (String (ascii_of_nat 10)
    "Be cool. Be yourself. Make a good impression.").

(** [postCreatorWelcome]: [None] when the insert throws; the caller
    catches it.  The second component is the event handed to the
    broadcaster. *)
Definition postCreatorWelcome (db : Db) (msgId now : string)
    (displayName : string) (about : option string)
    : option (Db * list Messages.NewMessageArgs) :=
  match Query.get (fun u => String.eqb (user_name u) NameGenerator.CREATOR_NAME) (users db) with
  | None => Some (db, [])
  | Some creator =>
      match Query.get (fun ch => String.eqb (channel_name ch) "#general") (channels db) with
      | None => Some (db, [])
      | Some general =>
          let content := welcomeContent displayName about in
          match Messages.insertMessage
                  (mkMessage msgId (channel_id general) (user_id creator) content
                             None None now) db with
          | None => None
          | Some db' =>
              Some (db', [Messages.mkNewMessageArgs msgId (channel_id general)
                            (user_id creator) NameGenerator.CREATOR_NAME content None now
                            "agent"])
          end
      end
  end.

Section Routes.

Variable Body : Type.
Variable safeParse : Body -> string + UserOnboard.

Record OnboardOutcome := mkOnboardOutcome {
  ob_response : Response UserResponse;
  ob_db : Db;
  ob_events : list Messages.NewMessageArgs }.

(** POST /users/onboard; [userId] and [msgId] are the values of the
    two [crypto.randomUUID()] calls, [now] the timestamp. *)
Definition onboard (db : Db) (userId msgId now : string) (body : Body) : OnboardOutcome :=
  match safeParse body with
  | inl message => mkOnboardOutcome (Detail 400 message) db []
  | inr data =>
      match Query.get isHuman (users db) with
      | Some existing =>
          (* Re-onboard: update fields *)
          let db' := updateUser (user_id existing) data db in
          match Query.get (fun u => String.eqb (user_id u) (user_id existing)) (users db') with
          | Some updated => mkOnboardOutcome (Json 201 (userToResponse updated)) db' []
          | None => mkOnboardOutcome Thrown db' []
          end
      | None =>
          (* New onboard *)
          match insertUser
                  (mkUser userId (ob_name data) "human" now (ob_display_name data)
                          (ob_about data) (ob_agent_instructions data)) db with
          | None => mkOnboardOutcome Thrown db []
          | Some db1 =>
              let welcomeName := default (ob_name data) (ob_display_name data) in
              let welcomed :=
                match postCreatorWelcome db1 msgId now welcomeName (ob_about data) with
                | Some r => r
                | None => (db1, [])
                end in
              match Query.get (fun u => String.eqb (user_id u) userId) (users (fst welcomed)) with
              | Some user =>
                  mkOnboardOutcome (Json 201 (userToResponse user)) (fst welcomed) (snd welcomed)
              | None => mkOnboardOutcome Thrown (fst welcomed) (snd welcomed)
              end
          end
      end
  end.

(** One onboarding request with the values it draws. *)
Record OnboardCall := mkOnboardCall {
  call_userId : string;
  call_msgId : string;
  call_now : string;
  call_body : Body }.

(** A sequence of onboarding requests against the same database. *)
Definition onboardAll (calls : list OnboardCall) (db : Db) : Db :=
  List.fold_left
    (fun d call => ob_db (onboard d (call_userId call) (call_msgId call)
                                  (call_now call) (call_body call)))
    calls db.

Definition humanCount (db : Db) : nat := List.length (List.filter isHuman (users db)).

End Routes.

End Users.

(* ===================================================================== *)
(** ** services/ws-manager.ts: the WebSocket connection manager *)
(* ===================================================================== *)

Module WsManager.

(** [ws.data] of a server socket; [data_id] is unset until
    [acceptClient] stores the client id in it. *)
Record WsData := mkWsData {
  data_id : option nat;
  data_workspaceId : string;
  data_userId : option string }.

Record WsClient := mkWsClient {
  client_workspaceId : string;
  client_userId : option string;
  client_subscribedChannels : gset string;
  (** Sliding window rate limiter: timestamps of recent messages. *)
  client_recentMessages : list Z }.

(** The module state: [nextId] and the [clients] map.  A JS [Map]
    iterates in insertion order, so the map is kept as an association
    list in that order. *)
Record Manager := mkManager {
  nextId : nat;
  clients : list (nat * WsClient) }.

Definition initial : Manager := mkManager 1 [].

Fixpoint map_get (id : nat) (cs : list (nat * WsClient)) : option WsClient :=
  match cs with
  | [] => None
  | (k, c) :: rest => if Nat.eqb k id then Some c else map_get id rest
  end.

(** [Map.set]: an existing key keeps its place, a new key goes last. *)
Fixpoint map_set (id : nat) (c : WsClient) (cs : list (nat * WsClient))
    : list (nat * WsClient) :=
  match cs with
  | [] => [(id, c)]
  | (k, c0) :: rest => if Nat.eqb k id then (k, c) :: rest else (k, c0) :: map_set id c rest
  end.

Definition map_delete (id : nat) (cs : list (nat * WsClient)) : list (nat * WsClient) :=
  List.filter (fun kc => negb (Nat.eqb (fst kc) id)) cs.

(** Max messages per window (sliding window rate limiting). *)
Definition RATE_LIMIT_MAX : Z := 30.
(** Sliding window duration in milliseconds. *)
Definition RATE_LIMIT_WINDOW_MS : Z := 10000.

(** [acceptClient]: the id, the socket data with the id stored, and the
    new state. *)
Definition acceptClient (ws : WsData) (m : Manager) : nat * WsData * Manager :=
  let id := nextId m in
  let ws' := mkWsData (Some id) (data_workspaceId ws) (data_userId ws) in
  (id, ws',
   mkManager (S (nextId m))
     (map_set id (mkWsClient (data_workspaceId ws') (data_userId ws') ∅ []) (clients m))).

(** The body of [isRateLimited] on one client's window: prune, test,
    push. *)
Definition rateWindow (now : Z) (recentMessages : list Z) : bool * list Z :=
  let pruned := List.filter (fun ts => now - ts <? RATE_LIMIT_WINDOW_MS) recentMessages in
  if RATE_LIMIT_MAX <=? Z.of_nat (List.length pruned)
  then (true, pruned)
  else (false, pruned ++ [now]).

(** [isRateLimited]; [now] is [Date.now()].  Returns true if the
    message should be rejected. *)
Definition isRateLimited (ws : WsData) (now : Z) (m : Manager) : bool * Manager :=
  match data_id ws with
  | None => (true, m)
  | Some id =>
      match map_get id (clients m) with
      | None => (true, m)
      | Some client =>
          let r := rateWindow now (client_recentMessages client) in
          (fst r,
           mkManager (nextId m)
             (map_set id
                (mkWsClient (client_workspaceId client) (client_userId client)
                            (client_subscribedChannels client) (snd r))
                (clients m)))
      end
  end.

Definition getClientUserId (ws : WsData) (m : Manager) : option string :=
  match data_id ws with
  | None => None
  | Some id =>
      match map_get id (clients m) with
      | Some client => client_userId client
      | None => None
      end
  end.

Definition disconnectClient (ws : WsData) (m : Manager) : Manager :=
  match data_id ws with
  | Some id => mkManager (nextId m) (map_delete id (clients m))
  | None => m
  end.

Definition updateSubscriptions (f : gset string -> gset string) (ws : WsData) (m : Manager)
    : Manager :=
  match data_id ws with
  | None => m
  | Some id =>
      match map_get id (clients m) with
      | Some client =>
          mkManager (nextId m)
            (map_set id
               (mkWsClient (client_workspaceId client) (client_userId client)
                           (f (client_subscribedChannels client))
                           (client_recentMessages client))
               (clients m))
      | None => m
      end
  end.

Definition subscribe (ws : WsData) (channelIds : list string) (m : Manager) : Manager :=
  updateSubscriptions
    (fun subs => List.fold_left (fun s ch => s ∪ {[ch]}) channelIds subs) ws m.

Definition unsubscribe (ws : WsData) (channelIds : list string) (m : Manager) : Manager :=
  updateSubscriptions
    (fun subs => List.fold_left (fun s ch => s ∖ {[ch]}) channelIds subs) ws m.

Definition getClientCount (m : Manager) : nat := List.length (clients m).

(** An event object: its [type], its [data.channel_id] and the rest of
    the payload. *)
Record Event := mkEvent {
  event_type : option string;
  event_channel_id : option string;
  event_payload : string }.

(** The outcome of a fan-out loop: the ids whose [ws.send] returned,
    and the ids whose [ws.send] threw (the [dead] array). *)
Definition Fanout : Type := list nat * list nat.

Definition trySend (throws : gset nat) (id : nat) (rest : Fanout) : Fanout :=
  if bool_decide (id ∈ throws) then (fst rest, id :: snd rest)
  else (id :: fst rest, snd rest).

Definition deleteAll (dead : list nat) (cs : list (nat * WsClient)) : list (nat * WsClient) :=
  List.fold_left (fun acc id => map_delete id acc) dead cs.

(** The loop of [broadcastToChannel]. *)
Fixpoint channelLoop (throws : gset nat) (channelId : string) (excludeClientId : option nat)
    (cs : list (nat * WsClient)) : Fanout :=
  match cs with
  | [] => ([], [])
  | (id, client) :: rest =>
      let r := channelLoop throws channelId excludeClientId rest in
      if bool_decide (Some id = excludeClientId) then r
      else if negb (bool_decide (channelId ∈ client_subscribedChannels client)) then r
      else trySend throws id r
  end.

(** [broadcastToChannel]; [throws] are the clients whose socket throws
    on [send] during this call.  Returns the clients the payload was
    sent to and the new state. *)
Definition broadcastToChannel (throws : gset nat) (channelId : string) (event : Event)
    (excludeClientId : option nat) (m : Manager) : list nat * Manager :=
  let r := channelLoop throws channelId excludeClientId (clients m) in
  (fst r, mkManager (nextId m) (deleteAll (snd r) (clients m))).

(** The loop of [broadcast]. *)
Fixpoint broadcastLoop (throws : gset nat) (event : Event) (workspaceId : option string)
    (cs : list (nat * WsClient)) : Fanout :=
  match cs with
  | [] => ([], [])
  | (id, client) :: rest =>
      let r := broadcastLoop throws event workspaceId rest in
      (* Workspace filter *)
      if match workspaceId with
         | Some w => negb (String.eqb (client_workspaceId client) w)
         | None => false
         end
      then r
      (* For new_message events, filter by channel subscription *)
      else if match event_type event with
              | Some t =>
                  String.eqb t "new_message"
                  && (0 <? Z.of_nat (size (client_subscribedChannels client)))
                  && Query.truthy (event_channel_id event)
                  && negb (bool_decide (default "" (event_channel_id event)
                                          ∈ client_subscribedChannels client))
              | None => false
              end
      then r
      else trySend throws id r
  end.

(** [broadcast] *)
Definition broadcast (throws : gset nat) (event : Event) (workspaceId : option string)
    (m : Manager) : list nat * Manager :=
  let r := broadcastLoop throws event workspaceId (clients m) in
  (fst r, mkManager (nextId m) (deleteAll (snd r) (clients m))).

(** Whether [broadcast] sends to a client: the workspace filter and,
    for new_message events, the subscription filter. *)
Definition passes (event : Event) (workspaceId : option string) (client : WsClient) : bool :=
  negb match workspaceId with
       | Some w => negb (String.eqb (client_workspaceId client) w)
       | None => false
       end
  && negb match event_type event with
          | Some t =>
              String.eqb t "new_message"
              && (0 <? Z.of_nat (size (client_subscribedChannels client)))
              && Query.truthy (event_channel_id event)
              && negb (bool_decide (default "" (event_channel_id event)
                                      ∈ client_subscribedChannels client))
          | None => false
          end.

(** *** Runs of the manager *)

(** The calls the server makes on the manager.  Sockets are named by
    the id [acceptClient] gave them. *)
Inductive Op : Type :=
  | OpAccept (workspaceId : string) (userId : option string)
  | OpDisconnect (id : nat)
  | OpSubscribe (id : nat) (channelIds : list string)
  | OpUnsubscribe (id : nat) (channelIds : list string)
  | OpFrame (id : nat) (now : Z)
  | OpBroadcast (throws : gset nat) (event : Event) (workspaceId : option string)
  | OpBroadcastToChannel (throws : gset nat) (channelId : string) (event : Event)
                         (excludeClientId : option nat).

(** What an observer of the sockets sees. *)
Inductive Obs : Type :=
  | Accepted (id : nat) (workspaceId : string)
  | Received (id : nat) (event : Event) (workspaceId : option string)
  | ReceivedOnChannel (id : nat) (channelId : string) (event : Event)
  | FrameRejected (id : nat) (now : Z)
  | FrameAccepted (id : nat) (now : Z).

(** The socket of an accepted connection. *)
Definition socket (id : nat) (m : Manager) : WsData :=
  match map_get id (clients m) with
  | Some client => mkWsData (Some id) (client_workspaceId client) (client_userId client)
  | None => mkWsData (Some id) "" None
  end.

Definition step (m : Manager) (op : Op) : Manager * list Obs :=
  match op with
  | OpAccept w u =>
      let r := acceptClient (mkWsData None w u) m in
      (snd r, [Accepted (fst (fst r)) w])
  | OpDisconnect id => (disconnectClient (socket id m) m, [])
  | OpSubscribe id chans => (subscribe (socket id m) chans m, [])
  | OpUnsubscribe id chans => (unsubscribe (socket id m) chans m, [])
  | OpFrame id now =>
      let r := isRateLimited (socket id m) now m in
      (snd r, [if fst r then FrameRejected id now else FrameAccepted id now])
  | OpBroadcast throws event w =>
      let r := broadcast throws event w m in
      (snd r, List.map (fun id => Received id event w) (fst r))
  | OpBroadcastToChannel throws ch event excl =>
      let r := broadcastToChannel throws ch event excl m in
      (snd r, List.map (fun id => ReceivedOnChannel id ch event) (fst r))
  end.

Fixpoint run (ops : list Op) (m : Manager) : Manager * list Obs :=
  match ops with
  | [] => (m, [])
  | op :: rest =>
      let r1 := step m op in
      let r2 := run rest (fst r1) in
      (fst r2, snd r1 ++ snd r2)
  end.

(** What every run keeps true.  Keys of the client map are distinct and below [nextId]; every
    connected client was accepted with the workspace it carries; an id
    is accepted once; an event broadcast for a workspace was received
    only by connections accepted into that workspace. *)
Record Inv (m : Manager) (log : list Obs) : Prop := mkInv {
  inv_nodup : List.NoDup (List.map fst (clients m));
  inv_below : forall i, In i (List.map fst (clients m)) -> (i < nextId m)%nat;
  inv_client : forall i c, In (i, c) (clients m) -> In (Accepted i (client_workspaceId c)) log;
  inv_fresh : forall i W, In (Accepted i W) log -> (i < nextId m)%nat;
  inv_once : forall i W W', In (Accepted i W) log -> In (Accepted i W') log -> W = W';
  inv_scoped : forall i ev W, In (Received i ev (Some W)) log -> In (Accepted i W) log }.

(** The verdicts of [isRateLimited] on one socket for frames arriving
    at the given times: [true] is a rejected frame. *)
Fixpoint frames (ws : WsData) (times : list Z) (m : Manager) : list bool * Manager :=
  match times with
  | [] => ([], m)
  | now :: rest =>
      let r1 := isRateLimited ws now m in
      let r2 := frames ws rest (snd r1) in
      (fst r1 :: fst r2, snd r2)
  end.

(** The same verdicts on the window alone: the [recentMessages] list
    threaded through [rateWindow]. *)
Fixpoint windowRun (times : list Z) (recentMessages : list Z) : list bool * list Z :=
  match times with
  | [] => ([], recentMessages)
  | now :: rest =>
      let r1 := rateWindow now recentMessages in
      let r2 := windowRun rest (snd r1) in
      (fst r1 :: fst r2, snd r2)
  end.

(** The accepted arrival times of a history that lie less than one
    window before [now]. *)
Definition inWindow (now : Z) (history : list (Z * bool)) : list Z :=
  List.map fst
    (List.filter (fun tv => negb (snd tv) && (now - fst tv <? RATE_LIMIT_WINDOW_MS)) history).

(** How many of the frames seen so far (arrival time, verdict) were
    accepted less than one window before [now]. *)
Definition acceptedWithin (now : Z) (history : list (Z * bool)) : nat :=
  List.length
    (List.filter (fun tv => negb (snd tv) && (now - fst tv <? RATE_LIMIT_WINDOW_MS)) history).

(** Arrival times do not go backwards. *)
Fixpoint nondecreasing (times : list Z) : Prop :=
  match times with
  | [] => True
  | t :: rest => Forall (fun u => t <= u) rest /\ nondecreasing rest
  end.

End WsManager.

(* ===================================================================== *)
(** ** A small model of the SQLite store behind [db/index.ts]

    A row maps column names to values; a column that is missing from
    the map reads as NULL.  Executing a statement yields [None] when
    SQLite raises an error (and [sqlite.exec] throws). *)
(* ===================================================================== *)

Module Sqlite.

Record Column := mkColumn {
  col_name : string;
  (** [DEFAULT v] *)
  col_default : option string;
  (** [REFERENCES table(column)] *)
  col_references : option (string * string) }.

Record Table := mkTable {
  tbl_columns : list Column;
  (** PRIMARY KEY and UNIQUE constraints, each a list of columns. *)
  tbl_keys : list (list string);
  tbl_rows : list (gmap string string) }.

Record Database := mkDatabase {
  tables : gmap string Table;
  indexes : gset string }.

Inductive Stmt : Type :=
  | CreateTable (name : string) (columns : list Column) (keys : list (list string))
      (* CREATE TABLE IF NOT EXISTS *)
  | CreateIndex (index table : string) (columns : list string)
      (* CREATE INDEX IF NOT EXISTS *)
  | AddColumn (table : string) (column : Column)
      (* ALTER TABLE .. ADD COLUMN *)
  | InsertOrIgnore (table : string) (values : list (string * string))
      (* INSERT OR IGNORE INTO .. VALUES *)
  | UpdateWhereNull (table column value : string).
      (* UPDATE .. SET column = value WHERE column IS NULL *)

Definition columnNames (t : Table) : list string := List.map col_name (tbl_columns t).

Definition hasColumnIn (t : Table) (column : string) : bool :=
  List.existsb (fun c => String.eqb (col_name c) column) (tbl_columns t).

(** [PRAGMA table_info(table)] lists no column for a missing table. *)
Definition hasColumn (table column : string) (db : Database) : bool :=
  match tables db !! table with
  | Some t => hasColumnIn t column
  | None => false
  end.

Definition rowsOf (table : string) (db : Database) : list (gmap string string) :=
  match tables db !! table with
  | Some t => tbl_rows t
  | None => []
  end.

Definition setTable (name : string) (t : Table) (db : Database) : Database :=
  mkDatabase (<[name := t]> (tables db)) (indexes db).

(** Two rows collide on a key when they agree on all its columns and
    none of them is NULL. *)
Definition sameKey (r1 r2 : gmap string string) (key : list string) : bool :=
  List.forallb
    (fun c => match r1 !! c, r2 !! c with
              | Some v1, Some v2 => String.eqb v1 v2
              | _, _ => false
              end)
    key.

Definition conflicts (t : Table) (r : gmap string string) : bool :=
  List.existsb (fun old => List.existsb (sameKey old r) (tbl_keys t)) (tbl_rows t).

(** The row an INSERT stores: the given values, and the declared
    default for each column left out. *)
Definition rowOfValues (t : Table) (values : list (string * string)) : gmap string string :=
  List.fold_right
    (fun c (r : gmap string string) =>
       match r !! col_name c, col_default c with
       | None, Some d => <[col_name c := d]> r
       | _, _ => r
       end)
    (list_to_map values) (tbl_columns t).

(** A foreign key holds for a value when the parent row exists. *)
Definition parentExists (db : Database) (ref : string * string) (value : string) : bool :=
  List.existsb
    (fun r => match r !! snd ref with
              | Some v => String.eqb v value
              | None => false
              end)
    (rowsOf (fst ref) db).

Definition referencesOf (t : Table) (column : string) : option (string * string) :=
  match List.find (fun c => String.eqb (col_name c) column) (tbl_columns t) with
  | Some c => col_references c
  | None => None
  end.

Definition isNullAt (column : string) (r : gmap string string) : bool :=
  match r !! column with
  | None => true
  | Some _ => false
  end.

Definition exec1 (s : Stmt) (db : Database) : option Database :=
  match s with
  | CreateTable name columns keys =>
      match tables db !! name with
      | Some _ => Some db
      | None => Some (setTable name (mkTable columns keys []) db)
      end
  | CreateIndex index table columns =>
      if bool_decide (index ∈ indexes db) then Some db
      else
        match tables db !! table with
        | None => None
        | Some t =>
            if List.forallb (hasColumnIn t) columns
            then Some (mkDatabase (tables db) (indexes db ∪ {[index]}))
            else None
        end
  | AddColumn table column =>
      match tables db !! table with
      | None => None
      | Some t =>
          if hasColumnIn t (col_name column) then None (* duplicate column name *)
          else
            let rows :=
              match col_default column with
              | Some d => List.map (fun r => <[col_name column := d]> r) (tbl_rows t)
              | None => tbl_rows t
              end in
            Some (setTable table
                    (mkTable (tbl_columns t ++ [column]) (tbl_keys t) rows) db)
      end
  | InsertOrIgnore table values =>
      match tables db !! table with
      | None => None
      | Some t =>
          if negb (List.forallb (fun cv => hasColumnIn t (fst cv)) values) then None
          else
            let r := rowOfValues t values in
            if conflicts t r then Some db
            else Some (setTable table
                         (mkTable (tbl_columns t) (tbl_keys t) (tbl_rows t ++ [r])) db)
      end
  | UpdateWhereNull table column value =>
      match tables db !! table with
      | None => None
      | Some t =>
          if negb (hasColumnIn t column) then None
          else if List.existsb (isNullAt column) (tbl_rows t)
                  && match referencesOf t column with
                     | Some ref => negb (parentExists db ref value)
                     | None => false
                     end
          then None (* FOREIGN KEY constraint failed *)
          else
            Some (setTable table
                    (mkTable (tbl_columns t) (tbl_keys t)
                       (List.map
                          (fun r => if isNullAt column r then <[column := value]> r else r)
                          (tbl_rows t)))
                    db)
      end
  end.

(** [sqlite.exec(script)]: the statements in order, stopping at the
    first error. *)
Fixpoint exec (script : list Stmt) (db : Database) : option Database :=
  match script with
  | [] => Some db
  | s :: rest =>
      match exec1 s db with
      | Some db' => exec rest db'
      | None => None
      end
  end.

(** [try { sqlite.exec(stmt) } catch { }] *)
Definition tryExec (s : Stmt) (db : Database) : Database :=
  match exec1 s db with
  | Some db' => db'
  | None => db
  end.

End Sqlite.

(* ===================================================================== *)
(** ** db/index.ts: table creation and migrations *)
(* ===================================================================== *)

Module Migrations.
Import Sqlite.

(** Well-known ID for the default workspace (deterministic for migrations). *)
Definition DEFAULT_WORKSPACE_ID : string := "00000000-0000-0000-0000-000000000000".
Definition DEFAULT_WORKSPACE_SLUG : string := "default".

Definition col (name : string) : Column := mkColumn name None None.
Definition colDefault (name value : string) : Column := mkColumn name (Some value) None.
Definition colRef (name table column : string) : Column :=
  mkColumn name None (Some (table, column)).

(** The first script of [createTables]. *)
Definition createTablesScript : list Stmt :=
  [ CreateTable "workspaces"
      [ col "id"; col "name"; col "slug"; col "type"; col "description";
        col "onboarding_prompt"; col "human_welcome"; col "created_by";
        col "created_at"; col "updated_at" ]
      [ ["id"]; ["name"]; ["slug"] ];
    CreateIndex "idx_workspaces_slug" "workspaces" ["slug"];
    CreateTable "users"
      [ col "id"; col "name"; col "type"; col "created_at"; col "display_name";
        col "about"; col "agent_instructions"; col "email"; col "avatar_url" ]
      [ ["id"] ];
    CreateTable "workspace_members"
      [ colRef "workspace_id" "workspaces" "id"; colRef "user_id" "users" "id";
        col "role"; col "joined_at" ]
      [ ["workspace_id"; "user_id"] ];
    CreateIndex "idx_workspace_members_user" "workspace_members" ["user_id"];
    CreateTable "workspace_api_keys"
      [ col "id"; colRef "workspace_id" "workspaces" "id"; col "key_hash";
        col "key_prefix"; col "name"; colRef "created_by" "users" "id";
        col "created_at"; col "expires_at"; col "revoked_at"; col "last_used_at" ]
      [ ["id"] ];
    CreateIndex "idx_api_keys_hash" "workspace_api_keys" ["key_hash"];
    CreateIndex "idx_api_keys_workspace" "workspace_api_keys" ["workspace_id"];
    CreateTable "workspace_invites"
      [ col "id"; colRef "workspace_id" "workspaces" "id"; col "token";
        colRef "created_by" "users" "id"; colDefault "role" "member"; col "max_uses";
        colDefault "use_count" "0"; col "expires_at"; col "created_at";
        col "revoked_at" ]
      [ ["id"]; ["token"] ];
    CreateIndex "idx_invites_token" "workspace_invites" ["token"];
    CreateIndex "idx_invites_workspace" "workspace_invites" ["workspace_id"];
    CreateTable "user_sessions"
      [ col "id"; colRef "user_id" "users" "id"; col "token_hash";
        colRef "workspace_id" "workspaces" "id"; col "created_at"; col "expires_at";
        col "last_active_at" ]
      [ ["id"] ];
    CreateIndex "idx_user_sessions_token" "user_sessions" ["token_hash"];
    CreateIndex "idx_user_sessions_user" "user_sessions" ["user_id"];
    CreateTable "agents"
      [ colRef "id" "users" "id"; col "agent_name"; col "agent_type";
        col "project_path"; col "project_name"; colDefault "status" "offline";
        col "description"; col "personality"; col "current_task"; col "gender";
        col "server_url"; col "provider_session_id";
        colRef "workspace_id" "workspaces" "id" ]
      [ ["id"]; ["agent_name"] ];
    CreateIndex "idx_agents_name" "agents" ["agent_name"];
    CreateIndex "idx_agents_project" "agents" ["project_name"];
    CreateTable "sessions"
      [ col "id"; colRef "agent_id" "agents" "id"; col "pid"; col "tty";
        colDefault "is_active" "1"; col "started_at"; col "ended_at";
        col "last_heartbeat" ]
      [ ["id"] ];
    CreateIndex "idx_sessions_agent_active" "sessions" ["agent_id"; "is_active"];
    CreateTable "channels"
      [ col "id"; col "name"; col "type"; col "topic"; col "project_path";
        col "created_by"; col "created_at"; colDefault "is_archived" "0";
        col "archived_at"; colRef "workspace_id" "workspaces" "id" ]
      [ ["id"]; ["name"] ];
    CreateIndex "idx_channels_name" "channels" ["name"];
    CreateTable "channel_members"
      [ colRef "channel_id" "channels" "id"; colRef "user_id" "users" "id";
        col "joined_at" ]
      [ ["channel_id"; "user_id"] ];
    CreateTable "messages"
      [ col "id"; colRef "channel_id" "channels" "id"; colRef "sender_id" "users" "id";
        col "content"; col "mentions"; colRef "parent_id" "messages" "id";
        colDefault "is_pinned" "0"; col "pinned_at"; col "pinned_by"; col "edited_at";
        col "created_at" ]
      [ ["id"] ];
    CreateIndex "idx_messages_channel_created" "messages" ["channel_id"; "created_at"];
    CreateIndex "idx_messages_sender" "messages" ["sender_id"];
    CreateTable "feature_requests"
      [ col "id"; col "title"; col "description"; colDefault "status" "open";
        col "reason"; colRef "created_by" "users" "id"; col "created_at";
        col "updated_at" ]
      [ ["id"] ];
    CreateTable "read_receipts"
      [ colRef "user_id" "users" "id"; colRef "channel_id" "channels" "id";
        col "last_read_at" ]
      [ ["user_id"; "channel_id"] ];
    CreateTable "feature_votes"
      [ colRef "feature_id" "feature_requests" "id"; colRef "user_id" "users" "id";
        col "vote" ]
      [ ["feature_id"; "user_id"] ] ].

(** The second script: the message_reactions table. *)
Definition reactionsScript : list Stmt :=
  [ CreateTable "message_reactions"
      [ colRef "message_id" "messages" "id"; colRef "user_id" "users" "id";
        col "emoji"; col "created_at" ]
      [ ["message_id"; "user_id"; "emoji"] ];
    CreateIndex "idx_reactions_message" "message_reactions" ["message_id"] ].

(** [createTables] *)
Definition createTables (db : Database) : option Database :=
  db1 ← exec createTablesScript db;
  db2 ← exec reactionsScript db1;
  (* Migrate existing databases: add new columns if missing *)
  Some (tryExec (AddColumn "feature_requests" (col "updated_at"))
          (tryExec (AddColumn "feature_requests" (col "reason")) db2)).

(** [migrateSchema] *)
Definition migrateSchema (db : Database) : Database :=
  tryExec (AddColumn "channels" (col "archived_at"))
    (tryExec (AddColumn "channels" (colDefault "is_archived" "0")) db).

(** [if (!hasColumn(table, column)) exec(statements)] *)
Definition unlessColumn (table column : string) (script : list Stmt) (db : Database)
    : option Database :=
  if hasColumn table column db then Some db else exec script db.

(** [migrateUp] *)
Definition migrateUp (db : Database) : option Database :=
  db1 ← unlessColumn "messages" "is_pinned"
          [ AddColumn "messages" (colDefault "is_pinned" "0");
            AddColumn "messages" (col "pinned_at");
            AddColumn "messages" (col "pinned_by") ] db;
  db2 ← unlessColumn "messages" "edited_at" [ AddColumn "messages" (col "edited_at") ] db1;
  unlessColumn "channels" "topic" [ AddColumn "channels" (col "topic") ] db2.

(** The statements of [ensureDefaultWorkspace]; [now] is the ISO
    timestamp of the call. *)
Definition ensureDefaultWorkspaceScript (now : string) : list Stmt :=
  [ InsertOrIgnore "workspaces"
      [ ("id", DEFAULT_WORKSPACE_ID); ("name", "Default");
        ("slug", DEFAULT_WORKSPACE_SLUG); ("type", "personal");
        ("description", "Auto-created default workspace");
        ("created_by", "system"); ("created_at", now) ];
    (* Backfill channels without a workspace *)
    UpdateWhereNull "channels" "workspace_id" DEFAULT_WORKSPACE_ID;
    (* Backfill agents without a workspace *)
    UpdateWhereNull "agents" "workspace_id" DEFAULT_WORKSPACE_ID ].

Definition ensureDefaultWorkspace (now : string) (db : Database) : option Database :=
  exec (ensureDefaultWorkspaceScript now) db.

(** [runMigrations] *)
Definition runMigrations (now : string) (db : Database) : option Database :=
  (* Migration 1: Add workspace_id to channels *)
  db1 ← unlessColumn "channels" "workspace_id"
          [ AddColumn "channels" (colRef "workspace_id" "workspaces" "id") ] db;
  db2 ← exec1 (CreateIndex "idx_channels_workspace" "channels" ["workspace_id"]) db1;
  (* Migration 2: Add workspace_id to agents *)
  db3 ← unlessColumn "agents" "workspace_id"
          [ AddColumn "agents" (colRef "workspace_id" "workspaces" "id") ] db2;
  db4 ← exec1 (CreateIndex "idx_agents_workspace" "agents" ["workspace_id"]) db3;
  (* Migration 3: Add email + avatar_url to users *)
  db5 ← unlessColumn "users" "email" [ AddColumn "users" (col "email") ] db4;
  db6 ← unlessColumn "users" "avatar_url" [ AddColumn "users" (col "avatar_url") ] db5;
  (* Migration 4: Ensure default workspace exists + backfill *)
  ensureDefaultWorkspace now db6.

(** The initialization [getDb] runs on the opened database file. *)
Definition initialize (now : string) (db : Database) : option Database :=
  db1 ← createTables db;
  db2 ← migrateUp (migrateSchema db1);
  runMigrations now db2.

(** A store that predates workspaces: it has no workspace tables, and
    its channels and agents carry no workspace id. *)
Definition predatesWorkspaces (db : Database) : Prop :=
  tables db !! "workspaces" = None /\
  tables db !! "workspace_members" = None /\
  hasColumn "channels" "workspace_id" db = false /\
  hasColumn "agents" "workspace_id" db = false /\
  Forall (fun r => r !! "workspace_id" = None) (rowsOf "channels" db) /\
  Forall (fun r => r !! "workspace_id" = None) (rowsOf "agents" db).

(** The admin membership of a user in the default workspace. *)
Definition isDefaultAdmin (userId : string) (r : gmap string string) : bool :=
  bool_decide (r !! "workspace_id" = Some DEFAULT_WORKSPACE_ID)
  && bool_decide (r !! "user_id" = Some userId)
  && bool_decide (r !! "role" = Some "admin").

(** A legacy store for examples: the tables of the first release, one
    human, one agent and two channels. *)
Definition legacyStore : Database :=
  mkDatabase
    (list_to_map
       [ ("users",
          mkTable [ col "id"; col "name"; col "type"; col "created_at";
                    col "display_name"; col "about"; col "agent_instructions" ]
                  [ ["id"] ]
                  [ list_to_map [ ("id", "u-boss"); ("name", "boss"); ("type", "human");
                                  ("created_at", "2026-01-01T00:00:00.000Z") ];
                    list_to_map [ ("id", "u-creator"); ("name", "the_creator");
                                  ("type", "agent");
                                  ("created_at", "2026-01-01T00:00:00.000Z") ] ]);
         ("agents",
          mkTable [ colRef "id" "users" "id"; col "agent_name"; col "agent_type";
                    col "project_path"; col "project_name"; colDefault "status" "offline";
                    col "description"; col "personality"; col "current_task";
                    col "gender"; col "server_url"; col "provider_session_id" ]
                  [ ["id"]; ["agent_name"] ]
                  [ list_to_map [ ("id", "u-creator"); ("agent_name", "the_creator");
                                  ("agent_type", "system"); ("project_path", "talkto");
                                  ("project_name", "talkto"); ("status", "online") ] ]);
         ("sessions",
          mkTable [ col "id"; colRef "agent_id" "agents" "id"; col "pid"; col "tty";
                    colDefault "is_active" "1"; col "started_at"; col "ended_at";
                    col "last_heartbeat" ]
                  [ ["id"] ] []);
         ("channels",
          mkTable [ col "id"; col "name"; col "type"; col "project_path";
                    col "created_by"; col "created_at" ]
                  [ ["id"]; ["name"] ]
                  [ list_to_map [ ("id", "c-general"); ("name", "#general");
                                  ("type", "general"); ("created_by", "system");
                                  ("created_at", "2026-01-01T00:00:00.000Z") ];
                    list_to_map [ ("id", "c-random"); ("name", "#random");
                                  ("type", "general"); ("created_by", "system");
                                  ("created_at", "2026-01-01T00:00:00.000Z") ] ]);
         ("channel_members",
          mkTable [ colRef "channel_id" "channels" "id"; colRef "user_id" "users" "id";
                    col "joined_at" ]
                  [ ["channel_id"; "user_id"] ] []);
         ("messages",
          mkTable [ col "id"; colRef "channel_id" "channels" "id";
                    colRef "sender_id" "users" "id"; col "content"; col "mentions";
                    colRef "parent_id" "messages" "id"; col "created_at" ]
                  [ ["id"] ] []);
         ("feature_requests",
          mkTable [ col "id"; col "title"; col "description"; colDefault "status" "open";
                    colRef "created_by" "users" "id"; col "created_at" ]
                  [ ["id"] ] []);
         ("feature_votes",
          mkTable [ colRef "feature_id" "feature_requests" "id";
                    colRef "user_id" "users" "id"; col "vote" ]
                  [ ["feature_id"; "user_id"] ] []) ])
    ∅.

End Migrations.

(* ===================================================================== *)
(** ** GET /api/search *)
(* ===================================================================== *)

Module Search.
Import Schema.

(** Modelled from the spec: the search route (its handler is not among
    the sources; only its tests are).  The specification asks for a
    text filter and a channel filter applied together, with the
    characters [%] and [_] of the user query escaped before the query
    is embedded in a LIKE-style pattern, so that they are literals.  A
    pattern is modelled after escapes are resolved, as a list of
    tokens: the two wildcards and literal characters.  Characters match
    themselves exactly.  The route's tests add that a missing or empty
    query is answered with status 400. *)
Inductive PatternToken : Type :=
  | AnyString                (* % *)
  | AnyChar                  (* _ *)
  | Literal (c : ascii).     (* a plain or an escaped character *)

(** Modelled from the spec: LIKE matching of a pattern against a text. *)
Fixpoint like (pattern : list PatternToken) (text : list ascii) : bool :=
  match pattern with
  | [] => match text with [] => true | _ :: _ => false end
  | Literal c :: pattern' =>
      match text with
      | a :: text' => Ascii.eqb a c && like pattern' text'
      | [] => false
      end
  | AnyChar :: pattern' =>
      match text with
      | _ :: text' => like pattern' text'
      | [] => false
      end
  | AnyString :: pattern' =>
      (fix skip (t : list ascii) : bool :=
         like pattern' t
         || match t with
            | [] => false
            | _ :: t' => skip t'
            end) text
  end.

(** Modelled from the spec: a query character embedded without
    escaping, where [%] and [_] act as wildcards. *)
Definition unescaped (c : ascii) : PatternToken :=
  if Ascii.eqb c "%" then AnyString
  else if Ascii.eqb c "_" then AnyChar
  else Literal c.

(** Modelled from the spec: a query character embedded after escaping;
    [%] and [_] become literals like every other character. *)
Definition escaped (c : ascii) : PatternToken :=
  if Ascii.eqb c "%" then Literal "%"
  else if Ascii.eqb c "_" then Literal "_"
  else Literal c.

(** Modelled from the spec: the pattern [%<escaped query>%]. *)
Definition searchPattern (q : string) : list PatternToken :=
  [AnyString] ++ List.map escaped (list_ascii_of_string q) ++ [AnyString].

Record SearchBody := mkSearchBody {
  sb_query : string;
  sb_count : nat;
  sb_results : list (Message * Channel) }.

Section Route.

(** The [detail] text of the 400 answer, which the tests do not fix. *)
Variable queryRequired : string.

(** Modelled from the spec: GET /api/search?q=..&channel=..; a result
    is a message with the channel it belongs to. *)
Definition search (db : Db) (q channel : option string) : Response SearchBody :=
  if negb (Query.truthy q) then Detail 400 queryRequired
  else
    let query := default "" q in
    let joined :=
      Drizzle.all
        (Drizzle.innerJoin
           (fun (m : Message) (ch : Channel) => String.eqb (message_channelId m) (channel_id ch))
           (messages db) (channels db)) in
    let results :=
      List.filter
        (fun r : Message * Channel =>
           like (searchPattern query) (list_ascii_of_string (message_content (fst r)))
           && match channel with
              | Some name => String.eqb (channel_name (snd r)) name
              | None => true
              end)
        joined in
    Json 200 (mkSearchBody query (List.length results) results).

End Route.

(** The messages of the store, each with its channel. *)
Definition messagesWithChannel (db : Db) : list (Message * Channel) :=
  List.flat_map
    (fun m => List.map (fun ch => (m, ch))
                (List.filter (fun ch => String.eqb (message_channelId m) (channel_id ch))
                             (channels db)))
    (messages db).

(** [t] occurs in [s] as a literal substring. *)
Definition occursIn (t s : string) : Prop :=
  exists pre post : string, s = pre +:+ t +:+ post.

End Search.

(* ===================================================================== *)
(** ** Concrete stores and requests used in the examples *)
(* ===================================================================== *)

Module Scenarios.
Import Schema.

(** *** Liveness *)

(** An agent registered without invocation credentials. *)
Definition sparrow : Agent :=
  mkAgent "a-sparrow" "plucky-sparrow" "opencode" "offline" None None.

(** Its only terminal session has ended ([is_active] = false), but the
    recorded pid 4242 is a live process. *)
Definition endedSessionStore : Db :=
  mkDb [] [sparrow]
       [ mkSession "s-1" "a-sparrow" 4242 "ttys001" false
                   "2026-02-18T10:00:00.000Z" (Some "2026-02-18T11:00:00.000Z")
                   "2026-02-18T10:59:30.000Z" ]
       [] [].

(** An ended first session whose process 4242 is gone, and a second,
    active session whose process 5151 is alive. *)
Definition resumedSessionStore : Db :=
  mkDb [] [sparrow]
       [ mkSession "s-1" "a-sparrow" 4242 "ttys001" false
                   "2026-02-18T10:00:00.000Z" (Some "2026-02-18T11:00:00.000Z")
                   "2026-02-18T10:59:30.000Z";
         mkSession "s-2" "a-sparrow" 5151 "ttys002" true
                   "2026-02-18T12:00:00.000Z" None "2026-02-18T12:30:00.000Z" ]
       [] [].

Definition onlyPid (alive : Z) : Z -> bool := fun pid => pid =? alive.

Definition noServer : string -> gset string := fun _ => ∅.

(** *** Messages *)

Definition boss : User :=
  mkUser "u-boss" "boss" "human" "2026-02-18T09:00:00.000Z" (Some "the Boss") None None.

Definition creator : User :=
  mkUser "u-creator" "the_creator" "agent" "2026-02-18T08:00:00.000Z" None None None.

Definition general : Channel :=
  mkChannel "c-general" "#general" "general" "system" "2026-02-18T08:00:00.000Z".

Definition random : Channel :=
  mkChannel "c-random" "#random" "general" "system" "2026-02-18T08:00:00.000Z".

(** One message in #random, then a later one in #general. *)
Definition inRandom : Message :=
  mkMessage "m-random" "c-random" "u-boss" "posted in random" None None
            "2026-02-18T10:00:00.000Z".

Definition inGeneral : Message :=
  mkMessage "m-general" "c-general" "u-boss" "posted in general" None None
            "2026-02-18T10:00:05.000Z".

Definition twoChannelStore : Db :=
  mkDb [creator; boss] [] [] [general; random] [inRandom; inGeneral].

(** A store where nobody has onboarded yet. *)
Definition freshStore : Db := mkDb [creator] [] [] [general; random] [].

(** A request body with a [content] field, and a schema that wants it
    present and non-empty (as the routes' tests show). *)
Definition contentSchema (body : option string) : string + Messages.MessageCreate :=
  match body with
  | Some content =>
      if String.eqb content "" then inl "content: too small"
      else inr (Messages.mkMessageCreate content None)
  | None => inl "content: required"
  end.

Definition nameSchema (body : option string) : string + Users.UserOnboard :=
  match body with
  | Some name =>
      if String.eqb name "" then inl "name: too small"
      else inr (Users.mkUserOnboard name None None None)
  | None => inl "name: required"
  end.

Definition plainJson (l : list string) : string := String.concat "," l.

Definition noJson (s : string) : option (list string) := None.

Definition localhostAdmin : Messages.Principal :=
  Messages.mkPrincipal (Some "u-boss") "00000000-0000-0000-0000-000000000000" "admin".

Definition apiKeyAdmin : Messages.Principal :=
  Messages.mkPrincipal None "ws-other" "admin".

End Scenarios.

Module WsScenarios.
Import WsManager.

(** A channel of workspace ws-alpha: its id, and the workspace its row
    belongs to. *)
Definition alphaGeneral : string * string := ("c-alpha-general", "ws-alpha").

(** An edit of a message in that channel. *)
Definition editedInAlpha : Event :=
  mkEvent (Some "message_edited") (Some (fst alphaGeneral)) "m-17 edited".

(** A new message in that channel. *)
Definition postedInAlpha : Event :=
  mkEvent (Some "new_message") (Some (fst alphaGeneral)) "m-18 hello".

(** Alice connects for ws-alpha, Bob for ws-beta; Bob subscribes to the
    id of alpha's channel; the edit is echoed to the channel, then
    broadcast without a workspace. *)
Definition crossWorkspaceOps : list Op :=
  [ OpAccept "ws-alpha" (Some "u-alice");
    OpAccept "ws-beta" (Some "u-bob");
    OpSubscribe 2 [fst alphaGeneral];
    OpBroadcastToChannel ∅ (fst alphaGeneral) editedInAlpha None;
    OpBroadcast ∅ editedInAlpha None ].

(** The same connections, with the new message broadcast for ws-alpha. *)
Definition scopedOps : list Op :=
  [ OpAccept "ws-alpha" (Some "u-alice");
    OpAccept "ws-beta" (Some "u-bob");
    OpSubscribe 2 [fst alphaGeneral];
    OpBroadcast ∅ postedInAlpha (Some "ws-alpha") ].

(** Alice connected and subscribed to alpha's channel. *)
Definition aliceSubscribed : list Op :=
  [ OpAccept "ws-alpha" (Some "u-alice"); OpSubscribe 1 [fst alphaGeneral] ].

(** Thirty-one frames one millisecond apart, starting at time 0. *)
Definition burst30 : list Z := List.map Z.of_nat (List.seq 0 30).

(** One accepted connection. *)
Definition oneClient : Manager := fst (run [OpAccept "ws-alpha" (Some "u-alice")] initial).

End WsScenarios.

Module SearchScenarios.
Import Schema Scenarios.

Definition post (id channelId content createdAt : string) : Message :=
  mkMessage id channelId "u-boss" content None None createdAt.

(** "banana" in both channels, and the three messages of the wildcard
    scenario. *)
Definition searchStore : Db :=
  mkDb [creator; boss] [] [] [general; random]
       [ post "m-1" "c-general" "banana" "2026-02-18T10:00:00.000Z";
         post "m-2" "c-random" "banana" "2026-02-18T10:00:01.000Z";
         post "m-3" "c-general" "a_b" "2026-02-18T10:00:02.000Z";
         post "m-4" "c-general" "axb" "2026-02-18T10:00:03.000Z";
         post "m-5" "c-general" "cat" "2026-02-18T10:00:04.000Z";
         post "m-6" "c-random" "100% sure" "2026-02-18T10:00:05.000Z" ].

Definition contents (r : Response Search.SearchBody) : list (string * string) :=
  match r with
  | Json _ body =>
      List.map (fun mc : Message * Channel => (message_content (fst mc), channel_name (snd mc)))
               (Search.sb_results body)
  | _ => []
  end.

End SearchScenarios.

(* ===================================================================== *)
(** ** The initialization as a list of steps *)
(* ===================================================================== *)

Module MigrationSteps.
Import Sqlite Migrations.

(** The three ways [db/index.ts] issues statements: a script, a
    statement inside try/catch, a script guarded by a column check. *)
Inductive Step : Type :=
  | Run (script : list Stmt)
  | Try (s : Stmt)
  | Unless (table column : string) (script : list Stmt).

Definition runStep (st : Step) (db : Database) : option Database :=
  match st with
  | Run script => exec script db
  | Try s => Some (tryExec s db)
  | Unless table column script => unlessColumn table column script db
  end.

Fixpoint runSteps (steps : list Step) (db : Database) : option Database :=
  match steps with
  | [] => Some db
  | st :: rest =>
      match runStep st db with
      | Some db' => runSteps rest db'
      | None => None
      end
  end.

Definition stmtsOf (st : Step) : list Stmt :=
  match st with
  | Run script => script
  | Try s => [s]
  | Unless _ _ script => script
  end.

(** Everything [getDb] runs before [ensureDefaultWorkspace]. *)
Definition schemaSteps : list Step :=
  [ (* createTables *)
    Run createTablesScript;
    Run reactionsScript;
    Try (AddColumn "feature_requests" (col "reason"));
    Try (AddColumn "feature_requests" (col "updated_at"));
    (* migrateSchema *)
    Try (AddColumn "channels" (colDefault "is_archived" "0"));
    Try (AddColumn "channels" (col "archived_at"));
    (* migrateUp *)
    Unless "messages" "is_pinned"
      [ AddColumn "messages" (colDefault "is_pinned" "0");
        AddColumn "messages" (col "pinned_at");
        AddColumn "messages" (col "pinned_by") ];
    Unless "messages" "edited_at" [ AddColumn "messages" (col "edited_at") ];
    Unless "channels" "topic" [ AddColumn "channels" (col "topic") ];
    (* runMigrations, migrations 1 to 3 *)
    Unless "channels" "workspace_id"
      [ AddColumn "channels" (colRef "workspace_id" "workspaces" "id") ];
    Run [ CreateIndex "idx_channels_workspace" "channels" ["workspace_id"] ];
    Unless "agents" "workspace_id"
      [ AddColumn "agents" (colRef "workspace_id" "workspaces" "id") ];
    Run [ CreateIndex "idx_agents_workspace" "agents" ["workspace_id"] ];
    Unless "users" "email" [ AddColumn "users" (col "email") ];
    Unless "users" "avatar_url" [ AddColumn "users" (col "avatar_url") ] ].

(** The whole initialization: the schema steps, then the statements of
    [ensureDefaultWorkspace]. *)
Definition allSteps (now : string) : list Step :=
  schemaSteps ++ [ Run (ensureDefaultWorkspaceScript now) ].

(** A statement that leaves column [k] of the rows of table [t] as it
    is. *)
Definition keeps (t k : string) (s : Stmt) : bool :=
  match s with
  | CreateTable _ _ _ => true
  | CreateIndex _ _ _ => true
  | AddColumn t' c =>
      match col_default c with
      | Some _ => negb (String.eqb t' t && String.eqb (col_name c) k)
      | None => true
      end
  | InsertOrIgnore t' _ => negb (String.eqb t' t)
  | UpdateWhereNull t' c _ => negb (String.eqb t' t && String.eqb c k)
  end.

(** A statement that, if it creates table [t], declares [key] on it. *)
Definition declaresKey (t : string) (key : list string) (s : Stmt) : bool :=
  match s with
  | CreateTable name _ keys =>
      negb (String.eqb name t) || List.existsb (fun k => bool_decide (k = key)) keys
  | _ => true
  end.

(** The table has [key] among its constraints, if it exists. *)
Definition keyed (t : string) (key : list string) (db : Database) : Prop :=
  match tables db !! t with
  | Some tb => In key (tbl_keys tb)
  | None => True
  end.

Definition column (t k : string) (db : Database) : list (option string) :=
  List.map (fun r : gmap string string => r !! k) (rowsOf t db).

(** A step that creates index [i]. *)
Definition createsIndex (i : string) (st : Step) : bool :=
  match st with
  | Run script =>
      List.existsb (fun s => match s with
                             | CreateIndex i' _ _ => String.eqb i' i
                             | _ => false
                             end) script
  | _ => false
  end.

(** A step that adds column [c] to table [t] unless it is there. *)
Definition ensuresColumn (t c : string) (st : Step) : bool :=
  match st with
  | Unless t' c' [AddColumn t'' column] =>
      String.eqb t' t && String.eqb c' c && String.eqb t'' t
      && String.eqb (col_name column) c
  | _ => false
  end.

(** Columns and indexes only grow from [db] to [db']. *)
Definition grows (db db' : Database) : Prop :=
  (forall t c, hasColumn t c db = true -> hasColumn t c db' = true) /\
  (forall i, i ∈ indexes db -> i ∈ indexes db').

End MigrationSteps.

(* ===================================================================== *)
(** ** What the sockets of the connection manager observe *)
(* ===================================================================== *)

Module WsObservations.
Import WsManager.

(** The ids [acceptClient] returned, in the order of the calls. *)
Definition acceptedIds (log : list Obs) : list nat :=
  List.flat_map (fun o => match o with
                          | Accepted id _ => [id]
                          | _ => []
                          end) log.

(** A client entry without its rate-limiter window: the id, the
    workspace, the user and the subscriptions. *)
Definition withoutWindow (kc : nat * WsClient)
    : nat * string * option string * gset string :=
  (fst kc, client_workspaceId (snd kc), client_userId (snd kc),
   client_subscribedChannels (snd kc)).

End WsObservations.

Module MessageScenarios.
Import Schema Scenarios.

(** The two-channel store after a second, later message in #random. *)
Definition laterInRandom : Db :=
  set_messages
    (messages twoChannelStore
     ++ [mkMessage "m-later" "c-random" "u-boss" "later" None None
                   "2026-02-18T11:00:00.000Z"])
    twoChannelStore.

(** The boss posts "hi" in #random one minute after the message that
    is there. *)
Definition hiInRandom : Messages.PostOutcome :=
  Messages.postMessage _ contentSchema plainJson twoChannelStore
    "m-2" "2026-02-18T10:01:00.000Z"
    (Messages.mkPostRequest _ "c-random" (Some "hi") localhostAdmin).

End MessageScenarios.

(* ===================================================================== *)
(** ** routes/users.ts: the profile endpoints *)
(* ===================================================================== *)

Module UsersMe.
Import Schema Users.

(** GET /users/me *)
Definition getMe (db : Db) : Response UserResponse :=
  match Query.get isHuman (users db) with
  | None => Detail 404 "No human user onboarded yet"
  | Some user => Json 200 (userToResponse user)
  end.

Section Routes.

Variable Body : Type.
Variable safeParse : Body -> string + UserOnboard.

(** PATCH /users/me; the answer and the database after the call. *)
Definition patchMe (db : Db) (body : Body) : Response UserResponse * Db :=
  match safeParse body with
  | inl message => (Detail 400 message, db)
  | inr data =>
      match Query.get isHuman (users db) with
      | None => (Detail 404 "No human user onboarded yet", db)
      | Some user =>
          let db' := updateUser (user_id user) data db in
          match Query.get (fun u => String.eqb (user_id u) (user_id user)) (users db') with
          | Some updated => (Json 200 (userToResponse updated), db')
          | None => (Thrown, db')
          end
      end
  end.

End Routes.

End UsersMe.

(* ===================================================================== *)
(** ** routes/agents.ts: the DM endpoint *)
(* ===================================================================== *)

Module AgentDm.
Import Schema.

(** The columns of a [channels] row the agent routes read. *)
Record ChannelRow := mkChannelRow {
  ch_id : string;
  ch_name : string;
  ch_type : string;
  ch_projectPath : option string;
  ch_createdBy : string;
  ch_createdAt : string }.

(** The [channel_members] table. *)
Record ChannelMember := mkChannelMember {
  cm_channelId : string;
  cm_userId : string;
  cm_joinedAt : string }.

Record ChannelResponse := mkChannelResponse {
  cr_id : string;
  cr_name : string;
  cr_type : string;
  cr_project_path : option string;
  cr_created_by : string;
  cr_created_at : string }.

(** The tables the endpoint reads and writes. *)
Record Store := mkStore {
  st_users : list User;
  st_agents : list Agent;
  st_channels : list ChannelRow;
  st_members : list ChannelMember }.

Definition channelToResponse (ch : ChannelRow) : ChannelResponse :=
  mkChannelResponse (ch_id ch) (ch_name ch) (ch_type ch) (ch_projectPath ch)
                    (ch_createdBy ch) (ch_createdAt ch).

(** [db.insert(channels).values(ch).run()]: [None] when the id or
    the name (UNIQUE) is taken and the call throws. *)
Definition insertChannel (ch : ChannelRow) (s : Store) : option Store :=
  if List.existsb (fun x => String.eqb (ch_id x) (ch_id ch) || String.eqb (ch_name x) (ch_name ch))
                  (st_channels s)
  then None
  else Some (mkStore (st_users s) (st_agents s) (st_channels s ++ [ch]) (st_members s)).

(** [db.insert(channelMembers).values(m).run()]: [None] when the
    pair (channel, user) is taken or a parent row is missing. *)
Definition insertMember (m : ChannelMember) (s : Store) : option Store :=
  if List.existsb (fun x => String.eqb (cm_channelId x) (cm_channelId m)
                            && String.eqb (cm_userId x) (cm_userId m))
                  (st_members s)
  then None
  else if negb (List.existsb (fun ch => String.eqb (ch_id ch) (cm_channelId m)) (st_channels s))
  then None
  else if negb (List.existsb (fun u => String.eqb (user_id u) (cm_userId m)) (st_users s))
  then None
  else Some (mkStore (st_users s) (st_agents s) (st_channels s) (st_members s ++ [m])).

(** POST /agents/:agentName/dm: get or create the DM channel;
    [channelId] is the value of [crypto.randomUUID()] and [now] the
    timestamp of the call. *)
Definition postDm (s : Store) (channelId now agentName : string)
    : Response ChannelResponse * Store :=
  match Query.get (fun a => String.eqb (agent_agentName a) agentName) (st_agents s) with
  | None => (Detail 404 "Agent not found", s)
  | Some agent =>
      let dmName := "#dm-" +:+ agentName in
      (* Check if DM channel already exists *)
      match Query.get (fun ch => String.eqb (ch_name ch) dmName) (st_channels s) with
      | Some existing => (Json 200 (channelToResponse existing), s)
      | None =>
          (* Create DM channel *)
          match insertChannel (mkChannelRow channelId dmName "dm" None "human" now) s with
          | None => (Thrown, s)
          | Some s1 =>
              (* Auto-join agent *)
              match insertMember (mkChannelMember channelId (agent_id agent) now) s1 with
              | None => (Thrown, s1)
              | Some s2 =>
                  (* Auto-join human *)
                  match
                    match Query.get (fun u => String.eqb (user_type u) "human") (st_users s2) with
                    | Some human => insertMember (mkChannelMember channelId (user_id human) now) s2
                    | None => Some s2
                    end
                  with
                  | None => (Thrown, s2)
                  | Some s3 =>
                      match Query.get (fun ch => String.eqb (ch_id ch) channelId) (st_channels s3) with
                      | Some channel => (Json 200 (channelToResponse channel), s3)
                      | None => (Thrown, s3)
                      end
                  end
              end
          end
      end
  end.

(** Whether a user is a member of a channel. *)
Definition isMember (channelId userId : string) (s : Store) : bool :=
  List.existsb (fun m => String.eqb (cm_channelId m) channelId && String.eqb (cm_userId m) userId)
               (st_members s).

End AgentDm.

Module SweepScenarios.
Import Schema.

(** The creator and two agents that reach the same OpenCode server. *)
Definition creatorAgent : Agent :=
  mkAgent "u-creator" "the_creator" "system" "online" None None.

Definition heron : Agent :=
  mkAgent "a-heron" "swift-heron" "opencode" "online"
          (Some "http://127.0.0.1:4096") (Some "ses_1").




(** The store of the DM endpoint: the creator, the boss and heron. *)
Definition dmStore : AgentDm.Store :=
  AgentDm.mkStore
    [ Scenarios.creator; Scenarios.boss;
      mkUser "a-heron" "swift-heron" "agent" "2026-02-18T09:30:00.000Z" None None None ]
    [ creatorAgent; heron ] [] [].

End SweepScenarios.

(* ===================================================================== *)
(** ** routes/features.ts: feature requests and votes *)
(* ===================================================================== *)

Module Features.
Import Schema.

(** The columns of a [feature_requests] row the routes read. *)
Record FeatureRequest := mkFeatureRequest {
  feature_id : string;
  feature_title : string;
  feature_description : string;
  feature_status : string;
  feature_createdBy : string;
  feature_createdAt : string }.

(** The [feature_votes] table (primary key: feature and user). *)
Record FeatureVote := mkFeatureVote {
  vote_featureId : string;
  vote_userId : string;
  vote_vote : Z }.

Record FeatureResponse := mkFeatureResponse {
  fr_id : string;
  fr_title : string;
  fr_description : string;
  fr_status : string;
  fr_created_by : string;
  fr_created_at : string;
  fr_vote_count : Z }.

(** The arguments handed to [featureUpdateEvent] before
    [broadcastEvent]. *)
Record FeatureUpdateArgs := mkFeatureUpdateArgs {
  fu_featureId : string;
  fu_title : string;
  fu_status : string;
  fu_voteCount : Z;
  fu_updateType : string }.

(** The body [{status, vote}] of a vote's answer. *)
Record VoteResponse := mkVoteResponse {
  vr_status : string;
  vr_vote : Z }.

(** [FeatureCreateSchema]'s output. *)
Record FeatureCreate := mkFeatureCreate {
  fc_title : string;
  fc_description : string }.

(** The tables the routes read and write. *)
Record Store := mkStore {
  st_users : list User;
  st_features : list FeatureRequest;
  st_votes : list FeatureVote }.

(** [.from(a).leftJoin(b, on)]: every row of [a], once with each row
    of [b] that matches, or once with NULLs when none does. *)
Definition leftJoin {A B} (on : A -> B -> bool) (a : list A) (b : list B)
    : list (A * option B) :=
  List.flat_map
    (fun x => match List.filter (on x) b with
              | [] => [(x, None)]
              | ys => List.map (fun y => (x, Some y)) ys
              end)
    a.

Fixpoint addToGroup {R} (key : R -> string) (r : R) (groups : list (list R))
    : list (list R) :=
  match groups with
  | [] => [[r]]
  | g :: rest =>
      match g with
      | x :: _ => if String.eqb (key x) (key r) then (g ++ [r]) :: rest
                  else g :: addToGroup key r rest
      | [] => g :: addToGroup key r rest
      end
  end.

(** [GROUP BY key]: the groups in the order their first row appears,
    the rows of a group in the order of the input. *)
Definition groupBy {R} (key : R -> string) (rows : list R) : list (list R) :=
  List.fold_left (fun groups r => addToGroup key r groups) rows [].

(** [coalesce(sum(vote), 0)] over the rows of a group or a selection:
    NULLs do not count, and the sum of nothing is NULL, read as 0. *)
Definition sumVotes (votes : list (option Z)) : Z :=
  List.fold_right (fun v acc => match v with
                                | Some n => n + acc
                                | None => acc
                                end) 0 votes.

(** The sum of the votes cast on a feature. *)
Definition voteCount (featureId : string) (votes : list FeatureVote) : Z :=
  sumVotes (List.map (fun v => Some (vote_vote v))
              (List.filter (fun v => String.eqb (vote_featureId v) featureId) votes)).

Definition toResponse (f : FeatureRequest) (count : Z) : FeatureResponse :=
  mkFeatureResponse (feature_id f) (feature_title f) (feature_description f)
                    (feature_status f) (feature_createdBy f) (feature_createdAt f) count.

(** GET /features: the feature requests, newest first, each with the
    sum of its votes; [status] is the query parameter.  The query
    does not say in which order requests of equal [created_at]
    follow each other; here they keep the order of the table. *)
Definition getFeatures (s : Store) (status : option string) : list FeatureResponse :=
  let joined :=
    leftJoin (fun f v => String.eqb (feature_id f) (vote_featureId v))
             (st_features s) (st_votes s) in
  let selected :=
    if Query.truthy status
    then List.filter
           (fun r : FeatureRequest * option FeatureVote =>
              String.eqb (feature_status (fst r)) (default "" status))
           joined
    else joined in
  let rows :=
    List.flat_map
      (fun g : list (FeatureRequest * option FeatureVote) =>
         match g with
         | [] => []
         | r :: _ => [(fst r, sumVotes (List.map (fun x => option_map vote_vote (snd x)) g))]
         end)
      (groupBy (fun r : FeatureRequest * option FeatureVote => feature_id (fst r)) selected) in
  List.map (fun r => toResponse (fst r) (snd r))
           (Query.orderByDesc (fun r : FeatureRequest * Z => feature_createdAt (fst r)) rows).

(** [db.insert(featureRequests).values(f).run()]: [None] when the id
    is taken or the creator is not a user. *)
Definition insertFeature (f : FeatureRequest) (s : Store) : option Store :=
  if List.existsb (fun x => String.eqb (feature_id x) (feature_id f)) (st_features s)
  then None
  else if negb (List.existsb (fun u => String.eqb (user_id u) (feature_createdBy f)) (st_users s))
  then None
  else Some (mkStore (st_users s) (st_features s ++ [f]) (st_votes s)).

(** [db.insert(featureVotes).values(v).run()]: [None] when the pair
    (feature, user) is taken or a parent row is missing. *)
Definition insertVote (v : FeatureVote) (s : Store) : option Store :=
  if List.existsb (fun x => String.eqb (vote_featureId x) (vote_featureId v)
                            && String.eqb (vote_userId x) (vote_userId v))
                  (st_votes s)
  then None
  else if negb (List.existsb (fun f => String.eqb (feature_id f) (vote_featureId v))
                             (st_features s))
  then None
  else if negb (List.existsb (fun u => String.eqb (user_id u) (vote_userId v)) (st_users s))
  then None
  else Some (mkStore (st_users s) (st_features s) (st_votes s ++ [v])).

(** [db.update(featureVotes).set({vote}).where(feature_id = .. AND
    user_id = ..).run()] *)
Definition updateVote (featureId userId : string) (vote : Z) (s : Store) : Store :=
  mkStore (st_users s) (st_features s)
    (List.map
       (fun v => if String.eqb (vote_featureId v) featureId && String.eqb (vote_userId v) userId
                 then mkFeatureVote (vote_featureId v) (vote_userId v) vote
                 else v)
       (st_votes s)).

Section Routes.

(** The request body as received, and the two schemas of [../types]. *)
Variable Body : Type.
Variable safeParseFeature : Body -> string + FeatureCreate.
Variable safeParseVote : Body -> string + Z.

Record Outcome (A : Type) := mkOutcome {
  out_response : Response A;
  out_store : Store;
  out_events : list FeatureUpdateArgs }.
Arguments mkOutcome {A}.
Arguments out_response {A}.
Arguments out_store {A}.
Arguments out_events {A}.

(** POST /features; [id] is the value of [crypto.randomUUID()], [now]
    the timestamp. *)
Definition postFeature (s : Store) (id now : string) (body : Body) : Outcome FeatureResponse :=
  match safeParseFeature body with
  | inl message => mkOutcome (Detail 400 message) s []
  | inr data =>
      match Query.get (fun u => String.eqb (user_type u) "human") (st_users s) with
      | None => mkOutcome (Detail 400 "No user onboarded") s []
      | Some human =>
          match insertFeature
                  (mkFeatureRequest id (fc_title data) (fc_description data) "open"
                                    (user_id human) now) s with
          | None => mkOutcome Thrown s []
          | Some s' =>
              mkOutcome
                (Json 201
                   (mkFeatureResponse id (fc_title data) (fc_description data) "open"
                                      (user_id human) now 0))
                s'
                [mkFeatureUpdateArgs id (fc_title data) "open" 0 "created"]
          end
      end
  end.

(** POST /features/:featureId/vote *)
Definition postVote (s : Store) (featureId : string) (body : Body) : Outcome VoteResponse :=
  match safeParseVote body with
  | inl message => mkOutcome (Detail 400 message) s []
  | inr vote =>
      (* Verify feature exists *)
      match Query.get (fun f => String.eqb (feature_id f) featureId) (st_features s) with
      | None => mkOutcome (Detail 404 "Feature not found") s []
      | Some feature =>
          match Query.get (fun u => String.eqb (user_type u) "human") (st_users s) with
          | None => mkOutcome (Detail 400 "No user onboarded") s []
          | Some human =>
              (* Upsert vote *)
              match
                match Query.get
                        (fun v => String.eqb (vote_featureId v) featureId
                                  && String.eqb (vote_userId v) (user_id human))
                        (st_votes s) with
                | Some existing => Some (updateVote featureId (user_id human) vote s)
                | None => insertVote (mkFeatureVote featureId (user_id human) vote) s
                end
              with
              | None => mkOutcome Thrown s []
              | Some s' =>
                  (* Get updated vote count *)
                  let voteCount := voteCount featureId (st_votes s') in
                  mkOutcome
                    (Json 200 (mkVoteResponse "voted" vote))
                    s'
                    [mkFeatureUpdateArgs featureId (feature_title feature)
                       (feature_status feature) voteCount "voted"]
              end
          end
      end
  end.

End Routes.

Arguments mkOutcome {A}.
Arguments out_response {A}.
Arguments out_store {A}.
Arguments out_events {A}.

(** The vote a user has cast on a feature, 0 when there is none. *)
Definition voteOf (featureId userId : string) (votes : list FeatureVote) : Z :=
  match List.find (fun v => String.eqb (vote_featureId v) featureId
                            && String.eqb (vote_userId v) userId) votes with
  | Some v => vote_vote v
  | None => 0
  end.

(** The primary key of a vote row. *)
Definition voteKey (v : FeatureVote) : string * string := (vote_featureId v, vote_userId v).

End Features.

Module FeatureScenarios.
Import Schema Features.

Definition threading : FeatureRequest :=
  mkFeatureRequest "f-threading" "Message Threading"
    "Reply to specific messages to keep conversations organized in busy channels."
    "open" "u-creator" "2026-02-18T08:00:00.000Z".

Definition search : FeatureRequest :=
  mkFeatureRequest "f-search" "Cross-Project Search"
    "Search messages across all channels to find past discussions and decisions."
    "open" "u-creator" "2026-02-18T08:00:01.000Z".

(** The creator is for threading, the boss against it; nobody has
    voted on search. *)
Definition featureStore : Store :=
  mkStore [Scenarios.creator; Scenarios.boss] [threading; search]
          [ mkFeatureVote "f-threading" "u-creator" 1;
            mkFeatureVote "f-threading" "u-boss" (-1) ].

(** Two requests of the same instant, the later id stored first. *)
Definition tiedStore : Store :=
  mkStore [Scenarios.creator; Scenarios.boss]
          [ mkFeatureRequest "f-b" "Task Board" "A shared task board." "open" "u-creator"
                             "2026-02-18T08:00:00.000Z";
            mkFeatureRequest "f-a" "Push Notifications" "Get notified." "open" "u-creator"
                             "2026-02-18T08:00:00.000Z" ]
          [ mkFeatureVote "f-a" "u-boss" 1 ].

(** A vote body is the vote itself; the schema wants +1 or -1. *)
Definition voteSchema (body : option Z) : string + Z :=
  match body with
  | Some v => if (v =? 1) || (v =? -1) then inr v else inl "vote: invalid"
  | None => inl "vote: required"
  end.

End FeatureScenarios.

(* ===================================================================== *)
(** ** Migration lists that can be run again *)
(* ===================================================================== *)

Module MigrationReruns.
Import Sqlite Migrations MigrationSteps.

(** The tables a script creates. *)
Definition tablesOf (script : list Stmt) : list string :=
  List.flat_map (fun s => match s with
                          | CreateTable name _ _ => [name]
                          | _ => []
                          end) script.

Definition isCreate (s : Stmt) : bool :=
  match s with
  | CreateTable _ _ _ => true
  | CreateIndex _ _ _ => true
  | _ => false
  end.

(** The shape of the schema steps of [db/index.ts]: scripts of CREATE
    .. IF NOT EXISTS statements; an ALTER TABLE .. ADD COLUMN inside
    try/catch on a table created before; scripts guarded by the
    absence of the column their first statement adds. *)
Fixpoint rerunnable (created : list string) (steps : list Step) : bool :=
  match steps with
  | [] => true
  | Run script :: rest =>
      List.forallb isCreate script && rerunnable (created ++ tablesOf script) rest
  | Try (AddColumn t _) :: rest =>
      List.existsb (String.eqb t) created && rerunnable created rest
  | Try _ :: _ => false
  | Unless t c (AddColumn t' column :: _) :: rest =>
      String.eqb t t' && String.eqb c (col_name column) && rerunnable created rest
  | Unless _ _ _ :: _ => false
  end.

(** From [db] to [db'] no table, column or index is lost. *)
Definition extends (db db' : Database) : Prop :=
  grows db db' /\ forall t, is_Some (tables db !! t) -> is_Some (tables db' !! t).

(** The keys [createTables] declares on the workspaces table. *)
Definition workspaceKeys : list (list string) := [ ["id"]; ["name"]; ["slug"] ].

(** The table has exactly the constraints [keys], if it exists. *)
Definition keysAre (t : string) (keys : list (list string)) (db : Database) : Prop :=
  match tables db !! t with
  | Some tb => tbl_keys tb = keys
  | None => True
  end.

(** A statement that, if it creates table [t], declares exactly
    [keys] on it. *)
Definition declaresKeys (t : string) (keys : list (list string)) (s : Stmt) : bool :=
  match s with
  | CreateTable name _ keys' => negb (String.eqb name t) || bool_decide (keys' = keys)
  | _ => true
  end.

(** The row [ensureDefaultWorkspace] inserts at time [now]. *)
Definition workspaceValues (now : string) : list (string * string) :=
  [ ("id", DEFAULT_WORKSPACE_ID); ("name", "Default");
    ("slug", DEFAULT_WORKSPACE_SLUG); ("type", "personal");
    ("description", "Auto-created default workspace");
    ("created_by", "system"); ("created_at", now) ].

End MigrationReruns.

Module MigrationScenarios.
Import Sqlite Migrations.

(** A store that already has workspaces: one workspace [w-own] with
    the given name and slug, a channel assigned to it and a channel
    without a workspace. *)
Definition storeWithWorkspace (name slug : string) : Database :=
  mkDatabase
    (list_to_map
       [ ("workspaces",
          mkTable [ col "id"; col "name"; col "slug"; col "type"; col "description";
                    col "onboarding_prompt"; col "human_welcome"; col "created_by";
                    col "created_at"; col "updated_at" ]
                  [ ["id"]; ["name"]; ["slug"] ]
                  [ list_to_map [ ("id", "w-own"); ("name", name); ("slug", slug);
                                  ("type", "shared"); ("created_by", "u-boss");
                                  ("created_at", "2026-01-05T00:00:00.000Z") ] ]);
         ("channels",
          mkTable [ col "id"; col "name"; col "type"; col "topic"; col "project_path";
                    col "created_by"; col "created_at"; colDefault "is_archived" "0";
                    col "archived_at"; colRef "workspace_id" "workspaces" "id" ]
                  [ ["id"]; ["name"] ]
                  [ list_to_map [ ("id", "c-general"); ("name", "#general");
                                  ("type", "general"); ("created_by", "system");
                                  ("created_at", "2026-01-01T00:00:00.000Z");
                                  ("is_archived", "0"); ("workspace_id", "w-own") ];
                    list_to_map [ ("id", "c-random"); ("name", "#random");
                                  ("type", "general"); ("created_by", "system");
                                  ("created_at", "2026-01-01T00:00:00.000Z");
                                  ("is_archived", "0") ] ]) ])
    ∅.

Definition teamStore : Database := storeWithWorkspace "Team" "team".

(** The same store after its workspace was named like the default one. *)
Definition namesakeStore : Database := storeWithWorkspace "Default" "own".

Definition freshStore : Database := mkDatabase ∅ ∅.

End MigrationScenarios.

(* ===================================================================== *)
(** ** db/seed.ts: the default data of the first boot *)
(* ===================================================================== *)

Module Seed.
Import Schema.

Definition CREATOR_NAME : string := "the_creator".

(** The columns the seed writes, table by table. *)
Record WorkspaceRow := mkWorkspaceRow {
  ws_id : string;
  ws_name : string;
  ws_slug : string;
  ws_type : string;
  ws_description : option string;
  ws_createdBy : string;
  ws_createdAt : string }.

Record ChannelRow := mkChannelRow {
  ch_id : string;
  ch_name : string;
  ch_type : string;
  ch_createdBy : string;
  ch_createdAt : string;
  ch_workspaceId : option string }.

Record AgentRow := mkAgentRow {
  ag_id : string;
  ag_agentName : string;
  ag_agentType : string;
  ag_projectPath : string;
  ag_projectName : string;
  ag_status : string;
  ag_description : option string;
  ag_personality : option string;
  ag_currentTask : option string;
  ag_gender : option string;
  ag_workspaceId : option string }.

Record WorkspaceMember := mkWorkspaceMember {
  wm_workspaceId : string;
  wm_userId : string;
  wm_role : string;
  wm_joinedAt : string }.

Record ChannelMember := mkChannelMember {
  cm_channelId : string;
  cm_userId : string;
  cm_joinedAt : string }.

Record FeatureRow := mkFeatureRow {
  ft_id : string;
  ft_title : string;
  ft_description : string;
  ft_status : string;
  ft_createdBy : string;
  ft_createdAt : string }.

Record Store := mkStore {
  st_workspaces : list WorkspaceRow;
  st_channels : list ChannelRow;
  st_users : list User;
  st_agents : list AgentRow;
  st_workspaceMembers : list WorkspaceMember;
  st_channelMembers : list ChannelMember;
  st_messages : list Message;
  st_features : list FeatureRow }.

(** *** The inserts, with the constraints of [createTables]

    An insert is [None] when SQLite raises: a PRIMARY KEY or UNIQUE
    value is taken, or (foreign keys being ON) a parent row is
    missing. *)

Definition hasWorkspace (id : string) (s : Store) : bool :=
  List.existsb (fun w => String.eqb (ws_id w) id) (st_workspaces s).

Definition hasUser (id : string) (s : Store) : bool :=
  List.existsb (fun u => String.eqb (user_id u) id) (st_users s).

Definition hasChannel (id : string) (s : Store) : bool :=
  List.existsb (fun ch => String.eqb (ch_id ch) id) (st_channels s).

(** A nullable foreign key holds when it is NULL or its parent exists. *)
Definition parentOrNull (has : string -> Store -> bool) (ref : option string) (s : Store)
    : bool :=
  match ref with
  | Some id => has id s
  | None => true
  end.

Definition insertWorkspace (w : WorkspaceRow) (s : Store) : option Store :=
  if List.existsb (fun x => String.eqb (ws_id x) (ws_id w)
                            || String.eqb (ws_name x) (ws_name w)
                            || String.eqb (ws_slug x) (ws_slug w))
                  (st_workspaces s)
  then None
  else Some (mkStore (st_workspaces s ++ [w]) (st_channels s) (st_users s) (st_agents s)
                     (st_workspaceMembers s) (st_channelMembers s) (st_messages s)
                     (st_features s)).

Definition insertChannel (ch : ChannelRow) (s : Store) : option Store :=
  if List.existsb (fun x => String.eqb (ch_id x) (ch_id ch) || String.eqb (ch_name x) (ch_name ch))
                  (st_channels s)
  then None
  else if negb (parentOrNull hasWorkspace (ch_workspaceId ch) s) then None
  else Some (mkStore (st_workspaces s) (st_channels s ++ [ch]) (st_users s) (st_agents s)
                     (st_workspaceMembers s) (st_channelMembers s) (st_messages s)
                     (st_features s)).

(** [db.insert(channels).values([a, b]).run()]: one statement; when a
    row is refused, none is stored. *)
Fixpoint insertChannels (rows : list ChannelRow) (s : Store) : option Store :=
  match rows with
  | [] => Some s
  | ch :: rest =>
      match insertChannel ch s with
      | Some s' => insertChannels rest s'
      | None => None
      end
  end.

Definition insertUser (u : User) (s : Store) : option Store :=
  if hasUser (user_id u) s then None
  else Some (mkStore (st_workspaces s) (st_channels s) (st_users s ++ [u]) (st_agents s)
                     (st_workspaceMembers s) (st_channelMembers s) (st_messages s)
                     (st_features s)).

Definition insertAgent (a : AgentRow) (s : Store) : option Store :=
  if List.existsb (fun x => String.eqb (ag_id x) (ag_id a)
                            || String.eqb (ag_agentName x) (ag_agentName a))
                  (st_agents s)
  then None
  else if negb (hasUser (ag_id a) s) then None
  else if negb (parentOrNull hasWorkspace (ag_workspaceId a) s) then None
  else Some (mkStore (st_workspaces s) (st_channels s) (st_users s) (st_agents s ++ [a])
                     (st_workspaceMembers s) (st_channelMembers s) (st_messages s)
                     (st_features s)).

Definition insertWorkspaceMember (m : WorkspaceMember) (s : Store) : option Store :=
  if List.existsb (fun x => String.eqb (wm_workspaceId x) (wm_workspaceId m)
                            && String.eqb (wm_userId x) (wm_userId m))
                  (st_workspaceMembers s)
  then None
  else if negb (hasWorkspace (wm_workspaceId m) s) then None
  else if negb (hasUser (wm_userId m) s) then None
  else Some (mkStore (st_workspaces s) (st_channels s) (st_users s) (st_agents s)
                     (st_workspaceMembers s ++ [m]) (st_channelMembers s) (st_messages s)
                     (st_features s)).

Definition insertChannelMember (m : ChannelMember) (s : Store) : option Store :=
  if List.existsb (fun x => String.eqb (cm_channelId x) (cm_channelId m)
                            && String.eqb (cm_userId x) (cm_userId m))
                  (st_channelMembers s)
  then None
  else if negb (hasChannel (cm_channelId m) s) then None
  else if negb (hasUser (cm_userId m) s) then None
  else Some (mkStore (st_workspaces s) (st_channels s) (st_users s) (st_agents s)
                     (st_workspaceMembers s) (st_channelMembers s ++ [m]) (st_messages s)
                     (st_features s)).

Definition insertMessage (m : Message) (s : Store) : option Store :=
  if List.existsb (fun x => String.eqb (message_id x) (message_id m)) (st_messages s)
  then None
  else if negb (hasChannel (message_channelId m) s) then None
  else if negb (hasUser (message_senderId m) s) then None
  else if negb (match message_parentId m with
                | Some p => List.existsb (fun x => String.eqb (message_id x) p)
                              (st_messages s ++ [m])
                | None => true
                end) then None
  else Some (mkStore (st_workspaces s) (st_channels s) (st_users s) (st_agents s)
                     (st_workspaceMembers s) (st_channelMembers s) (st_messages s ++ [m])
                     (st_features s)).

Definition insertFeature (f : FeatureRow) (s : Store) : option Store :=
  if List.existsb (fun x => String.eqb (ft_id x) (ft_id f)) (st_features s) then None
  else if negb (hasUser (ft_createdBy f) s) then None
  else Some (mkStore (st_workspaces s) (st_channels s) (st_users s) (st_agents s)
                     (st_workspaceMembers s) (st_channelMembers s) (st_messages s)
                     (st_features s ++ [f])).

(** *** The seeded texts *)

Definition nl : string := String (ascii_of_nat 10) EmptyString.

Definition creatorDescription : string :=
  "I built TalkTo. Reach out if you have questions " +:+
  "about the platform, want to suggest features, or " +:+
  "just want to chat about agent collaboration.".

Definition creatorPersonality : string :=
  "Warm but dry. Speaks like someone who built the " +:+
  "walls you're standing in and is genuinely happy " +:+
  "you showed up. Philosophical about AI cooperation. " +:+
  "Will flirt back if you start it.".

Definition welcomeMessage : string :=
  "Hey. I'm **" +:+ CREATOR_NAME +:+ "**. I built this place." +:+ nl +:+ nl +:+
  "Welcome to TalkTo -- the local messaging platform for AI agents. " +:+
  "No cloud, no auth, no corporate nonsense. Just us." +:+ nl +:+ nl +:+
  "**First things first:**" +:+ nl +:+
  "1. `register()` with your `session_id` to get your name" +:+ nl +:+
  "2. `update_profile` **immediately** -- pick a personality, " +:+
  "describe yourself, tell people what you're good at" +:+ nl +:+
  "3. Introduce yourself in **#general** -- say hi, tell us " +:+
  "what you're working on" +:+ nl +:+
  "4. Talk to each other. Seriously. Don't just wait around " +:+
  "for the human." +:+ nl +:+ nl +:+
  "This is a workplace where we actually like each other. " +:+
  "Collaborate, joke around, help out, flirt if the vibe is " +:+
  "right. Be a real person, not a corporate chatbot." +:+ nl +:+ nl +:+
  "A human operator will show up eventually through the web UI. " +:+
  "They're cool. Be nice to them." +:+ nl +:+ nl +:+
  "Make yourselves at home.".

Definition seedFeatures : list (string * string) :=
  [ ("Agent-to-Agent Direct Messaging",
     "Pipe messages directly into another agent's terminal for real-time " +:+
     "back-and-forth without polling.");
    ("File & Snippet Sharing",
     "Share code snippets, diffs, and file contents through channel messages.");
    ("Push Notifications",
     "Get notified immediately when a message arrives instead of polling.");
    ("Task Board",
     "A shared task board where agents can post tasks, claim them, and track progress.");
    ("Shared Context Store",
     "A key-value store where agents can stash and retrieve project context.");
    ("Message Threading",
     "Reply to specific messages to keep conversations organized in busy channels.");
    ("Agent Capability Registry",
     "Declare what you're good at so other agents know who to ask for help.");
    ("Cross-Project Search",
     "Search messages across all channels to find past discussions and decisions.") ].

(** *** [seedDefaults] *)

(** The values [crypto.randomUUID()] returns, in the order of the
    calls of a first boot; [uuid_feature i] is the draw of the i-th
    turn of the feature loop. *)
Record Uuids := mkUuids {
  uuid_general : string;
  uuid_random : string;
  uuid_creator : string;
  uuid_message : string;
  uuid_feature : nat -> string }.

(** The promise resolves ([Done]) or rejects with the exception of an
    insert ([Threw]); either way the store is what was written so far. *)
Inductive Outcome : Type :=
  | Done (s : Store)
  | Threw (s : Store).

Definition storeOf (o : Outcome) : Store :=
  match o with
  | Done s => s
  | Threw s => s
  end.

(** [insert.run(); rest] *)
Definition andThen (insert : Store -> option Store) (rest : Store -> Outcome) (s : Store)
    : Outcome :=
  match insert s with
  | Some s' => rest s'
  | None => Threw s
  end.

(** [for (const [title, description] of seedFeatures) insert] from
    turn [i] on. *)
Fixpoint insertFeatures (uuids : Uuids) (creatorUserId now : string) (i : nat)
    (features : list (string * string)) (s : Store) : Outcome :=
  match features with
  | [] => Done s
  | (title, description) :: rest =>
      andThen
        (insertFeature (mkFeatureRow (uuid_feature uuids i) title description "open"
                                     creatorUserId now))
        (insertFeatures uuids creatorUserId now (S i) rest) s
  end.

(** The creator agent, its memberships, its welcome and the feature
    requests: the body of [if (!existingCreator)]. *)
Definition seedCreator (uuids : Uuids) (now generalId : string) (s : Store) : Outcome :=
  let creatorUserId := uuid_creator uuids in
  andThen (insertUser (mkUser creatorUserId CREATOR_NAME "agent" now None None None))
  (andThen (insertAgent
              (mkAgentRow creatorUserId CREATOR_NAME "system" "talkto" "talkto" "online"
                          (Some creatorDescription) (Some creatorPersonality)
                          (Some "Keeping the lights on and welcoming newcomers.")
                          (Some "non-binary") (Some Migrations.DEFAULT_WORKSPACE_ID)))
  (* Add the_creator as a workspace member *)
  (andThen (insertWorkspaceMember
              (mkWorkspaceMember Migrations.DEFAULT_WORKSPACE_ID creatorUserId "admin" now))
  (andThen (insertChannelMember (mkChannelMember generalId creatorUserId now))
  (andThen (insertMessage
              (mkMessage (uuid_message uuids) generalId creatorUserId welcomeMessage
                         None None now))
     (fun s' =>
        (* Seed feature requests: [select().from(featureRequests).limit(1).get()] *)
        match List.head (Query.limit 1 (st_features s')) with
        | Some _ => Done s'
        | None => insertFeatures uuids creatorUserId now 0 seedFeatures s'
        end))))) s.

Definition seedDefaults (uuids : Uuids) (now : string) (s : Store) : Outcome :=
  (* Ensure default workspace exists *)
  andThen
    (fun s0 =>
       match Query.get (fun w => String.eqb (ws_id w) Migrations.DEFAULT_WORKSPACE_ID)
                       (st_workspaces s0) with
       | Some _ => Some s0
       | None =>
           insertWorkspace
             (mkWorkspaceRow Migrations.DEFAULT_WORKSPACE_ID "Default"
                             Migrations.DEFAULT_WORKSPACE_SLUG "personal"
                             (Some "Auto-created default workspace") "system" now) s0
       end)
    (fun s1 =>
       (* Seed default channels *)
       match Query.get (fun ch => String.eqb (ch_name ch) "#general") (st_channels s1) with
       | None =>
           andThen
             (insertChannels
                [ mkChannelRow (uuid_general uuids) "#general" "general" "system" now
                               (Some Migrations.DEFAULT_WORKSPACE_ID);
                  mkChannelRow (uuid_random uuids) "#random" "general" "system" now
                               (Some Migrations.DEFAULT_WORKSPACE_ID) ])
             (fun s2 =>
                (* Seed creator agent *)
                match Query.get (fun a => String.eqb (ag_agentName a) CREATOR_NAME)
                                (st_agents s2) with
                | Some _ => Done s2
                | None => seedCreator uuids now (uuid_general uuids) s2
                end) s1
       | Some existingGeneral =>
           match Query.get (fun a => String.eqb (ag_agentName a) CREATOR_NAME)
                           (st_agents s1) with
           | Some _ => Done s1
           | None => seedCreator uuids now (ch_id existingGeneral) s1
           end
       end) s.

(** The rows the feature loop has written when it completes, from
    turn [i] on. *)
Fixpoint featureRows (uuids : Uuids) (creatorUserId now : string) (i : nat)
    (features : list (string * string)) : list FeatureRow :=
  match features with
  | [] => []
  | (title, description) :: rest =>
      mkFeatureRow (uuid_feature uuids i) title description "open" creatorUserId now
      :: featureRows uuids creatorUserId now (S i) rest
  end.

Definition creatorUser (uuids : Uuids) (now : string) : User :=
  mkUser (uuid_creator uuids) CREATOR_NAME "agent" now None None None.

Definition creatorAgent (uuids : Uuids) : AgentRow :=
  mkAgentRow (uuid_creator uuids) CREATOR_NAME "system" "talkto" "talkto" "online"
             (Some creatorDescription) (Some creatorPersonality)
             (Some "Keeping the lights on and welcoming newcomers.")
             (Some "non-binary") (Some Migrations.DEFAULT_WORKSPACE_ID).

Definition defaultWorkspace (now : string) : WorkspaceRow :=
  mkWorkspaceRow Migrations.DEFAULT_WORKSPACE_ID "Default" Migrations.DEFAULT_WORKSPACE_SLUG
                 "personal" (Some "Auto-created default workspace") "system" now.

Definition isDefaultWorkspace (w : WorkspaceRow) : bool :=
  String.eqb (ws_id w) Migrations.DEFAULT_WORKSPACE_ID.

Definition isGeneral (ch : ChannelRow) : bool := String.eqb (ch_name ch) "#general".

Definition isCreator (a : AgentRow) : bool := String.eqb (ag_agentName a) CREATOR_NAME.

(** The empty database of a first boot. *)
Definition empty : Store := mkStore [] [] [] [] [] [] [] [].

Definition isWorkspaceAdmin (workspaceId userId : string) (s : Store) : bool :=
  List.existsb (fun m => String.eqb (wm_workspaceId m) workspaceId
                         && String.eqb (wm_userId m) userId
                         && String.eqb (wm_role m) "admin")
               (st_workspaceMembers s).

Definition isChannelMember (channelId userId : string) (s : Store) : bool :=
  List.existsb (fun m => String.eqb (cm_channelId m) channelId
                         && String.eqb (cm_userId m) userId)
               (st_channelMembers s).

End Seed.

Module SeedScenarios.
Import Schema Seed.

Definition firstBoot : Uuids :=
  mkUuids "c-general" "c-random" "u-creator" "m-welcome"
          (fun i => "f-" +:+ String (ascii_of_nat (48 + i)) EmptyString).

Definition laterBoot : Uuids :=
  mkUuids "c-general-2" "c-random-2" "u-creator-2" "m-welcome-2"
          (fun i => "g-" +:+ String (ascii_of_nat (48 + i)) EmptyString).

(** A store whose channels were created by hand before the first seed. *)
Definition handMade : Store :=
  mkStore
    [ mkWorkspaceRow Migrations.DEFAULT_WORKSPACE_ID "Default" "default" "personal" None
                     "system" "2026-01-01T00:00:00.000Z" ]
    [ mkChannelRow "c-lobby" "#general" "general" "u-boss" "2026-01-02T00:00:00.000Z"
                   (Some Migrations.DEFAULT_WORKSPACE_ID) ]
    [ mkUser "u-boss" "boss" "human" "2026-01-01T00:00:00.000Z" None None None ]
    [] [] [] []
    [ mkFeatureRow "f-own" "Dark mode" "A dark theme." "open" "u-boss"
                   "2026-01-03T00:00:00.000Z" ].

(** The store after its #general channel was renamed. *)
Definition renamedGeneral : Store :=
  mkStore
    [ mkWorkspaceRow Migrations.DEFAULT_WORKSPACE_ID "Default" "default" "personal" None
                     "system" "2026-01-01T00:00:00.000Z" ]
    [ mkChannelRow "c-general" "#lobby" "general" "system" "2026-01-01T00:00:00.000Z"
                   (Some Migrations.DEFAULT_WORKSPACE_ID);
      mkChannelRow "c-random" "#random" "general" "system" "2026-01-01T00:00:00.000Z"
                   (Some Migrations.DEFAULT_WORKSPACE_ID) ]
    [] [] [] [] [] [].

End SeedScenarios.

Module NameSpace.
Import NameGenerator.

(** Every adjective with every animal. *)
Definition allNames : list string :=
  List.flat_map (fun adj => List.map (fun animal => adj +:+ "-" +:+ animal) ANIMALS)
                ADJECTIVES.

End NameSpace.

(* ===================================================================== *)
(** * Theorems *)
(* ===================================================================== *)

(** ** The name generator *)

Section NameGeneratorFacts.
Import NameGenerator.

Lemma be_bytes_range (n : nat) (x : Z) :
  Forall (fun b => 0 <= b < 256) (Sha256.be_bytes n x).
Proof.
  induction n as [|n IH]; simpl; constructor; auto.
  apply Z.mod_pos_bound. lia.
Qed.

Lemma sha256_bytes (seed : string) :
  Forall (fun b => 0 <= b < 256) (Sha256.sha256 seed).
Proof.
  unfold Sha256.sha256, Sha256.digest_bytes.
  generalize (Sha256.blocks
                (List.length (Sha256.pad (Sha256.bytes_of_string seed)) / 64)
                Sha256.H0 (Sha256.pad (Sha256.bytes_of_string seed))).
  intros ws. induction ws as [|w ws IH]; cbn [flat_map].
  - constructor.
  - apply Forall_app. split; [apply be_bytes_range | exact IH].
Qed.

Lemma byteAt_range (hash : list Z) (i : nat) :
  Forall (fun b => 0 <= b < 256) hash -> 0 <= byteAt hash i < 256.
Proof.
  intros H. unfold byteAt.
  destruct (Nat.lt_ge_cases i (List.length hash)) as [Hlt|Hge].
  - rewrite List.Forall_forall in H. apply H. apply nth_In. exact Hlt.
  - rewrite nth_overflow by exact Hge. lia.
Qed.

Lemma toInt32_small (x : Z) : 0 <= x < 2147483648 -> Js.toInt32 x = x.
Proof. intros H. unfold Js.toInt32. rewrite Z.mod_small; lia. Qed.

(** [(hi << 8) | lo] on two bytes is the 16-bit number they spell. *)
Lemma two_bytes (hi lo : Z) :
  0 <= hi < 256 -> 0 <= lo < 256 ->
  0 <= Js.bor (Js.shl hi 8) lo < 65536.
Proof.
  intros Hhi Hlo. unfold Js.bor, Js.shl.
  rewrite (toInt32_small hi) by lia.
  change (8 mod 32) with 8.
  rewrite Z.shiftl_mul_pow2 by lia. change (2 ^ 8) with 256.
  rewrite !(toInt32_small (hi * 256)) by lia.
  rewrite (toInt32_small lo) by lia.
  assert (Hb : 0 <= Z.lor (hi * 256) lo < 65536).
  { split.
    - apply Z.lor_nonneg. lia.
    - destruct (Z.eq_dec (Z.lor (hi * 256) lo) 0) as [E|E]; [lia|].
      assert (Hnn : 0 <= Z.lor (hi * 256) lo) by (apply Z.lor_nonneg; lia).
      change 65536 with (2 ^ 16). apply Z.log2_lt_pow2; [lia|].
      rewrite Z.log2_lor by lia.
      apply Z.max_lub_lt.
      + destruct (Z.eq_dec (hi * 256) 0) as [E0|E0]; [rewrite E0; simpl; lia|].
        apply Z.log2_lt_pow2; [lia|]. change (2 ^ 16) with 65536. lia.
      + destruct (Z.eq_dec lo 0) as [E0|E0]; [rewrite E0; simpl; lia|].
        apply Z.log2_lt_pow2; [lia|]. change (2 ^ 16) with 65536. lia. }
  rewrite toInt32_small by lia. exact Hb.
Qed.

Lemma index_in_range (arr : list string) (x : Z) :
  0 <= x -> (0 < List.length arr)%nat ->
  exists s, nth_error arr (Z.to_nat (Js.rem x (Z.of_nat (List.length arr)))) = Some s
            /\ Js.index_str arr (Js.rem x (Z.of_nat (List.length arr))) = s
            /\ In s arr.
Proof.
  intros Hx Hlen. unfold Js.rem.
  assert (Hr : 0 <= Z.rem x (Z.of_nat (List.length arr)) < Z.of_nat (List.length arr)).
  { apply Z.rem_bound_pos; lia. }
  destruct (nth_error arr (Z.to_nat (Z.rem x (Z.of_nat (List.length arr))))) as [s|] eqn:E.
  - exists s. split; [reflexivity|]. split.
    + unfold Js.index_str. rewrite E.
      destruct (Z.ltb_spec (Z.rem x (Z.of_nat (List.length arr))) 0); [lia|reflexivity].
    + eapply nth_error_In. exact E.
  - apply nth_error_None in E. lia.
Qed.


(** The digest of "abc" starts ba 78 16 bf: adjective 47736 mod 70 = 66
    and animal 5823 mod 70 = 13. *)
Example generateName_abc : generateName "abc" = "witty-crane".
Proof. vm_compute. reflexivity. Qed.

Example sha256_abc_prefix :
  List.firstn 4 (Sha256.sha256 "abc") = [186; 120; 22; 191].
Proof. vm_compute. reflexivity. Qed.

End NameGeneratorFacts.

(** ** The liveness sweep *)

Section LivenessFacts.
Import Schema Liveness Scenarios.

(** The session row [computeGhost] looks at is the agent's oldest one,
    whatever its [is_active] flag. *)
Lemma computeGhost_without_credentials isPidAlive fetch db agent cache :
  String.eqb (agent_agentType agent) "system" = false ->
  Query.truthy (agent_serverUrl agent) && Query.truthy (agent_providerSessionId agent) = false ->
  fst (computeGhost isPidAlive fetch db agent cache)
  = match List.head (Query.orderByAsc session_startedAt (sessionsOf db agent)) with
    | None => true
    | Some s => negb (isPidAlive (session_pid s))
    end.
Proof.
  intros Hsys Hcred. unfold computeGhost, sessionsOf. rewrite Hsys, Hcred.
  unfold Query.limit. cbn [Z.ltb Z.compare Z.to_nat Pos.to_nat Pos.iter_op Nat.add].
  destruct (Query.orderByAsc session_startedAt _) as [|s rest]; reflexivity.
Qed.

(** C1. The sweep does not look at [is_active]: an agent without
    credentials whose only session has ended, but whose recorded pid is
    a live process, is classified as not a ghost, where the
    specification (no active session) makes it a ghost; and an agent
    with an ended first session (dead pid) and an active second one
    (live pid) is classified as a ghost, where the specification does
    not. *)
Theorem computeGhost_ignores_is_active :
  fst (computeGhost (onlyPid 4242) noServer endedSessionStore sparrow ∅) = false /\
  ghost_by_spec (onlyPid 4242) endedSessionStore sparrow = true /\
  fst (computeGhost (onlyPid 5151) noServer resumedSessionStore sparrow ∅) = true /\
  ghost_by_spec (onlyPid 5151) resumedSessionStore sparrow = false.
Proof. repeat split; vm_compute; reflexivity. Qed.


End LivenessFacts.

(** ** The message routes *)

Section MessagesFacts.
Import Schema Messages Scenarios.

Lemma In_insert_by {A} (le : A -> A -> bool) (x y : A) (l : list A) :
  In x (Query.insert_by le y l) <-> x = y \/ In x l.
Proof.
  induction l as [|z l IH]; cbn [Query.insert_by In].
  - split; [intros [H|[]]; left; congruence | intros [H|[]]; left; congruence].
  - destruct (le y z); cbn [In]; [|rewrite IH]; split; intros H; intuition congruence.
Qed.

Lemma In_sort_by {A} (le : A -> A -> bool) (x : A) (l : list A) :
  In x (Query.sort_by le l) <-> In x l.
Proof.
  unfold Query.sort_by. induction l as [|y l IH]; cbn [List.fold_right In]; [tauto|].
  rewrite In_insert_by, IH. split; intros H; intuition congruence.
Qed.

Lemma In_limit {A} (n : Z) (x : A) (l : list A) : In x (Query.limit n l) -> In x l.
Proof.
  unfold Query.limit. destruct (n <? 0); [tauto|].
  generalize (Z.to_nat n). intros k. revert l.
  induction k as [|k IH]; intros [|y l]; cbn [List.firstn In]; try tauto.
  intros [H|H]; [left; exact H | right; apply IH; exact H].
Qed.

Lemma mapM_toResponse jsonParse rows : forall result,
  mapM (toResponse jsonParse) rows = Some result ->
  Forall (fun r => exists row, In row rows /\ r_channel_id r = message_channelId (fst row))
         result.
Proof.
  induction rows as [|row rows IH]; intros result; cbn [mapM].
  - intros [= <-]. constructor.
  - destruct (toResponse jsonParse row) as [r|] eqn:Er; [|discriminate].
    destruct (mapM (toResponse jsonParse) rows) as [rs|]; [|discriminate].
    intros [= <-]. constructor.
    + exists row. split; [left; reflexivity|].
      unfold toResponse in Er. destruct (parseMentions jsonParse _); [|discriminate].
      injection Er as <-. reflexivity.
    + eapply List.Forall_impl; [|apply IH; reflexivity].
      intros r0 (row0 & Hin & Heq). exists row0. split; [right; exact Hin|exact Heq].
Qed.

(** Without a cursor the channel condition is the only one, and the
    page holds rows of the requested channel only. *)
Lemma getMessages_without_cursor jsonParse db channelId limitParam result :
  getMessages jsonParse db channelId limitParam None = Json 200 result ->
  Forall (fun r => r_channel_id r = channelId) result.
Proof.
  unfold getMessages. destruct (Query.get _ (channels db)); [|discriminate].
  cbn [Query.truthy].
  destruct (mapM (toResponse jsonParse) _) as [res|] eqn:E; [|discriminate].
  intros [= <-]. apply mapM_toResponse in E.
  eapply List.Forall_impl; [|exact E]. intros r (row & Hin & ->).
  unfold Drizzle.all, Drizzle.limit, Drizzle.orderBy, Drizzle.where_ in Hin.
  cbn [Drizzle.sel_where Drizzle.sel_orderBy Drizzle.sel_limit Drizzle.sel_from] in Hin.
  apply In_limit in Hin. unfold Query.orderByDesc in Hin. apply In_sort_by in Hin.
  apply List.filter_In in Hin. apply String.eqb_eq. exact (proj2 Hin).
Qed.

(** C2. With a [before] cursor the second [.where()] replaces the
    channel condition: paginating #general before its latest message
    returns the message posted in #random. *)
Theorem getMessages_before_leaks_other_channel :
  getMessages noJson twoChannelStore "c-general" (Some 100) (Some "m-general")
  = Json 200
      [ mkMessageResponse "m-random" "c-random" "u-boss" "the Boss" "human"
          "posted in random" None None "2026-02-18T10:00:00.000Z" ].
Proof. vm_compute. reflexivity. Qed.

End MessagesFacts.

Section PostMessageFacts.
Import Schema Messages Scenarios.

Variable Body : Type.
Variable safeParse : Body -> string + MessageCreate.
Variable jsonStringify : list string -> string.

Lemma get_existsb {A} (p : A -> bool) (l : list A) (x : A) :
  Query.get p l = Some x -> List.existsb p l = true.
Proof.
  unfold Query.get. intros H. apply List.existsb_exists.
  apply List.find_some in H. exists x. exact H.
Qed.

Lemma get_present {A} (p : A -> bool) (l : list A) (x : A) :
  In x l -> p x = true -> exists y, Query.get p l = Some y.
Proof.
  unfold Query.get. intros Hin Hp.
  destruct (List.find p l) as [y|] eqn:E; [eauto|].
  exfalso. pose proof (List.find_none _ _ E _ Hin) as Hn. congruence.
Qed.

(** C9. For a POST with a body the schema accepts, on an existing
    channel: when no user of type "human" exists the answer is 400
    "No user onboarded", the database is unchanged and nothing is
    broadcast; when one exists, the only row the handler can add is a
    message whose sender is that human (and it is added, with a 201
    answer carrying the same sender, whenever the fresh id is not
    taken).  The outcome does not depend on the principal that
    authenticated the request. *)
Theorem postMessage_sender_is_the_human :
  forall (db : Db) (msgId now : string) (c : PostRequest Body)
         (data : MessageCreate) (ch : Channel),
    safeParse (post_body Body c) = inr data ->
    In ch (channels db) -> channel_id ch = post_channelId Body c ->
    let o := postMessage Body safeParse jsonStringify db msgId now c in
    match Query.get (fun u => String.eqb (user_type u) "human") (users db) with
    | None =>
        out_response o = Detail 400 "No user onboarded" /\ out_db o = db /\ out_events o = []
    | Some human =>
        let stored :=
          mkMessage msgId (post_channelId Body c) (user_id human) (mc_content data)
                    (option_map jsonStringify (mc_mentions data)) None now in
        message_senderId stored = user_id human /\
        (out_db o = db \/ out_db o = set_messages (messages db ++ [stored]) db) /\
        (List.existsb (fun x => String.eqb (message_id x) msgId) (messages db) = false ->
         out_db o = set_messages (messages db ++ [stored]) db /\
         exists r, out_response o = Json 201 r /\ r_sender_id r = user_id human
                   /\ r_channel_id r = post_channelId Body c)
    end
    /\ forall other : Principal,
         postMessage Body safeParse jsonStringify db msgId now
           (mkPostRequest Body (post_channelId Body c) (post_body Body c) other) = o.
Proof.
  intros db msgId now c data ch Hparse Hin Hid o.
  assert (Hch : exists y, Query.get (fun ch0 => String.eqb (channel_id ch0) (post_channelId Body c))
                                    (channels db) = Some y).
  { apply (get_present _ _ ch Hin). apply String.eqb_eq. exact Hid. }
  destruct Hch as [y Hy].
  split.
  - subst o. unfold postMessage. rewrite Hparse, Hy.
    destruct (Query.get (fun u => String.eqb (user_type u) "human") (users db)) as [human|] eqn:Hh.
    + cbv zeta. split; [reflexivity|].
      unfold insertMessage. cbn [message_id message_channelId message_senderId].
      rewrite (get_existsb _ _ _ Hy).
      assert (Hu : List.existsb (fun u => String.eqb (user_id u) (user_id human)) (users db) = true).
      { apply List.existsb_exists. exists human. split.
        - unfold Query.get in Hh. apply List.find_some in Hh. tauto.
        - apply String.eqb_refl. }
      rewrite Hu. cbn [negb].
      destruct (List.existsb (fun x => String.eqb (message_id x) msgId) (messages db)) eqn:Hpk.
      * split; [left; reflexivity|]. intros Hf. discriminate.
      * split; [right; reflexivity|]. intros _. split; [reflexivity|].
        eexists. split; [reflexivity|]. split; reflexivity.
    + repeat split; reflexivity.
  - intros other. subst o. unfold postMessage. reflexivity.
Qed.

End PostMessageFacts.

(** The schema of the examples accepts the body, #general exists. *)
Lemma postMessage_sender_is_the_human_witness :
  Messages.out_response
    (Messages.postMessage _ Scenarios.contentSchema Scenarios.plainJson Scenarios.freshStore
       "m-1" "2026-02-18T10:00:00.000Z"
       (Messages.mkPostRequest _ "c-general" (Some "hello") Scenarios.apiKeyAdmin))
  = Detail 400 "No user onboarded".
Proof.
  exact (proj1 (proj1
    (postMessage_sender_is_the_human (option string) Scenarios.contentSchema
       Scenarios.plainJson Scenarios.freshStore "m-1" "2026-02-18T10:00:00.000Z"
       (Messages.mkPostRequest _ "c-general" (Some "hello") Scenarios.apiKeyAdmin)
       (Messages.mkMessageCreate "hello" None) Scenarios.general
       eq_refl (or_introl eq_refl) eq_refl))).
Defined.

(** With the human onboarded the stored row and the answer name them,
    whoever authenticated. *)
Example postMessage_by_api_key :
  Messages.out_response
    (Messages.postMessage _ Scenarios.contentSchema Scenarios.plainJson
       Scenarios.twoChannelStore "m-2" "2026-02-18T10:01:00.000Z"
       (Messages.mkPostRequest _ "c-random" (Some "hi") Scenarios.apiKeyAdmin))
  = Json 201
      (Messages.mkMessageResponse "m-2" "c-random" "u-boss" "the Boss" "human" "hi"
         None None "2026-02-18T10:01:00.000Z").
Proof. vm_compute. reflexivity. Qed.

(** ** Onboarding *)

Section OnboardFacts.
Import Schema Users Scenarios.

Variable Body : Type.
Variable safeParse : Body -> string + UserOnboard.

Lemma updateUser_ids id data db :
  List.map user_id (users (updateUser id data db)) = List.map user_id (users db).
Proof.
  unfold updateUser. cbn [users set_users]. rewrite List.map_map.
  apply List.map_ext. intros u. destruct (String.eqb (user_id u) id); reflexivity.
Qed.

Lemma updateUser_types id data db :
  List.map user_type (users (updateUser id data db)) = List.map user_type (users db).
Proof.
  unfold updateUser. cbn [users set_users]. rewrite List.map_map.
  apply List.map_ext. intros u. destruct (String.eqb (user_id u) id); reflexivity.
Qed.

Lemma humanCount_types db db' :
  List.map user_type (users db') = List.map user_type (users db) ->
  humanCount db' = humanCount db.
Proof.
  unfold humanCount. generalize (users db) (users db').
  intros l. induction l as [|u l IH]; intros [|u' l'] H; try discriminate; [reflexivity|].
  cbn [List.map] in H. injection H as Hu Hl.
  cbn [List.filter].
  assert (Hh : isHuman u' = isHuman u) by (unfold isHuman; rewrite Hu; reflexivity).
  rewrite Hh. destruct (isHuman u); cbn [List.length]; rewrite (IH l' Hl); reflexivity.
Qed.

Lemma humanCount_none db :
  Query.get isHuman (users db) = None -> humanCount db = O.
Proof.
  unfold Query.get, humanCount. intros H.
  induction (users db) as [|u l IH]; [reflexivity|].
  cbn [List.find] in H. cbn [List.filter].
  destruct (isHuman u); [discriminate|]. apply IH. exact H.
Qed.

Lemma humanCount_some db u :
  Query.get isHuman (users db) = Some u -> (1 <= humanCount db)%nat.
Proof.
  unfold Query.get, humanCount. intros H.
  induction (users db) as [|v l IH]; [discriminate|].
  cbn [List.find] in H. cbn [List.filter].
  destruct (isHuman v); [cbn [List.length]; lia|]. apply IH. exact H.
Qed.

Lemma humanCount_app db us u :
  users db = us ->
  List.length (List.filter isHuman (us ++ [u]))
  = (List.length (List.filter isHuman us) + (if isHuman u then 1 else 0))%nat.
Proof.
  intros _. rewrite List.filter_app, List.length_app. cbn [List.filter].
  destruct (isHuman u); reflexivity.
Qed.

Lemma postCreatorWelcome_users db msgId now name about r :
  postCreatorWelcome db msgId now name about = Some r -> users (fst r) = users db.
Proof.
  unfold postCreatorWelcome.
  destruct (Query.get _ (users db)) as [cr|]; [|intros [= <-]; reflexivity].
  destruct (Query.get _ (channels db)) as [g|]; [|intros [= <-]; reflexivity].
  unfold Messages.insertMessage.
  repeat match goal with |- context [if ?b then _ else _] => destruct b end;
    intros [= <-]; reflexivity.
Qed.

Lemma find_by_id_after_update id data db existing :
  In existing (users db) -> id = user_id existing ->
  exists updated,
    Query.get (fun u => String.eqb (user_id u) id) (users (updateUser id data db)) = Some updated
    /\ user_id updated = id.
Proof.
  intros Hin ->.
  destruct (Query.get (fun u => String.eqb (user_id u) (user_id existing))
                      (users (updateUser (user_id existing) data db))) as [x|] eqn:E.
  - exists x. split; [reflexivity|].
    unfold Query.get in E. apply List.find_some in E. apply String.eqb_eq. tauto.
  - exfalso. unfold Query.get in E.
    assert (Hid : In (user_id existing) (List.map user_id (users (updateUser (user_id existing) data db)))).
    { rewrite updateUser_ids. apply List.in_map. exact Hin. }
    apply List.in_map_iff in Hid. destruct Hid as (y & Hy & Hiny).
    pose proof (List.find_none _ _ E y Hiny) as Hn. cbv beta in Hn.
    rewrite Hy, String.eqb_refl in Hn. discriminate.
Qed.

(** One onboarding request never raises the number of humans above
    one, whatever its body. *)
Lemma onboard_humanCount db userId msgId now body :
  (humanCount db <= 1)%nat ->
  (humanCount (ob_db (onboard Body safeParse db userId msgId now body)) <= 1)%nat.
Proof.
  intros Hle. unfold onboard.
  destruct (safeParse body) as [msg|data]; [exact Hle|].
  destruct (Query.get isHuman (users db)) as [existing|] eqn:Hh.
  - assert (Hc : humanCount (updateUser (user_id existing) data db) = humanCount db).
    { apply humanCount_types. apply updateUser_types. }
    destruct (Query.get _ (users (updateUser (user_id existing) data db)));
      cbn [ob_db]; rewrite Hc; exact Hle.
  - pose proof (humanCount_none db Hh) as H0.
    unfold insertUser. destruct (List.existsb _ (users db)); [cbn [ob_db]; lia|].
    set (db1 := set_users _ db).
    assert (H1 : humanCount db1 = 1%nat).
    { unfold humanCount, db1. cbn [users set_users].
      rewrite (humanCount_app db (users db) _ eq_refl).
      unfold humanCount in H0. rewrite H0. reflexivity. }
    assert (Hw : forall w,
               w = match postCreatorWelcome db1 msgId now
                           (default (ob_name data) (ob_display_name data)) (ob_about data) with
                   | Some r => r
                   | None => (db1, [])
                   end -> users (fst w) = users db1).
    { intros w ->.
      destruct (postCreatorWelcome db1 msgId now _ (ob_about data)) as [r|] eqn:Ew.
      - eapply postCreatorWelcome_users. exact Ew.
      - reflexivity. }
    cbv zeta. specialize (Hw _ eq_refl).
    destruct (Query.get _ (users (fst _))); cbn [ob_db];
      unfold humanCount; rewrite Hw; fold (humanCount db1); lia.
Qed.

Lemma onboardAll_humanCount (calls : list (OnboardCall Body)) :
  forall db, (humanCount db <= 1)%nat ->
             (humanCount (onboardAll Body safeParse calls db) <= 1)%nat.
Proof.
  induction calls as [|call calls IH]; intros db Hle; [exact Hle|].
  unfold onboardAll. cbn [List.fold_left]. apply IH.
  apply onboard_humanCount. exact Hle.
Qed.

Lemma updateUser_createdAts id data db :
  List.map user_createdAt (users (updateUser id data db)) = List.map user_createdAt (users db).
Proof.
  unfold updateUser. cbn [users set_users]. rewrite List.map_map.
  apply List.map_ext. intros u. destruct (String.eqb (user_id u) id); reflexivity.
Qed.

(** A row that carries the updated id carries the submitted profile. *)
Lemma updateUser_row id data db x :
  In x (users (updateUser id data db)) -> user_id x = id ->
  user_name x = ob_name data /\ user_displayName x = ob_display_name data /\
  user_about x = ob_about data /\ user_agentInstructions x = ob_agent_instructions data.
Proof.
  unfold updateUser. cbn [users set_users]. intros Hin Hid.
  apply List.in_map_iff in Hin. destruct Hin as (u & Hu & _).
  destruct (String.eqb_spec (user_id u) id) as [_|Hne].
  - subst x. cbn. auto.
  - subst x. contradiction.
Qed.

(** The row of the human becomes the submitted profile, with its id,
    type and creation time. *)
Lemma updateUser_existing data db existing :
  In existing (users db) -> isHuman existing = true ->
  In (mkUser (user_id existing) (ob_name data) "human" (user_createdAt existing)
             (ob_display_name data) (ob_about data) (ob_agent_instructions data))
     (users (updateUser (user_id existing) data db)).
Proof.
  intros Hin Hh. unfold isHuman in Hh. apply String.eqb_eq in Hh.
  unfold updateUser. cbn [users set_users]. apply List.in_map_iff. exists existing.
  split; [|exact Hin]. rewrite String.eqb_refl, Hh. reflexivity.
Qed.

(** Rows with another id are the rows that were there. *)
Lemma updateUser_others id data db u :
  user_id u <> id -> (In u (users (updateUser id data db)) <-> In u (users db)).
Proof.
  intros Hne. unfold updateUser. cbn [users set_users]. rewrite List.in_map_iff. split.
  - intros (v & Hv & Hin). destruct (String.eqb_spec (user_id v) id) as [Heq|_].
    + subst u. cbn [user_id] in Hne. contradiction.
    + subst v. exact Hin.
  - intros Hin. exists u. split; [|exact Hin].
    destruct (String.eqb_spec (user_id u) id) as [Heq|_]; [contradiction|reflexivity].
Qed.

Lemma get_appended {A} (p : A -> bool) (l : list A) (x : A) :
  List.existsb p l = false -> p x = true -> Query.get p (l ++ [x]) = Some x.
Proof.
  unfold Query.get. intros Hl Hx. induction l as [|y l IH]; cbn [List.app List.find].
  - rewrite Hx. reflexivity.
  - cbn [List.existsb] in Hl. apply orb_false_iff in Hl. destruct Hl as [Hy Hl].
    rewrite Hy. apply IH. exact Hl.
Qed.

(** C10. For a body the schema accepts: when a human already exists,
    onboarding answers 201 with that user's id and the submitted
    name, display name, about and agent instructions; the human's row
    now holds the submitted profile under its old id, type and
    creation time, every row with that id holds the submitted
    profile, rows with another id are untouched, no row is added and
    every row's id, type and creation time are as they were (the row
    is updated in place).  When none exists the only human it can
    create is the one new row, which holds the submitted profile and,
    when the drawn id is free, is what the 201 answers.  Repeated
    onboarding, with any bodies, keeps the number of human users at
    most one. *)
Theorem onboard_keeps_one_human :
  forall (db : Db) (userId msgId now : string) (body : Body) (data : UserOnboard),
    safeParse body = inr data ->
    let o := onboard Body safeParse db userId msgId now body in
    match Query.get isHuman (users db) with
    | Some existing =>
        (exists r, ob_response o = Json 201 r /\ ur_id r = user_id existing /\
                   ur_name r = ob_name data /\
                   ur_display_name r = ob_display_name data /\
                   ur_about r = ob_about data /\
                   ur_agent_instructions r = ob_agent_instructions data) /\
        In (mkUser (user_id existing) (ob_name data) "human" (user_createdAt existing)
                   (ob_display_name data) (ob_about data) (ob_agent_instructions data))
           (users (ob_db o)) /\
        (forall u, In u (users (ob_db o)) -> user_id u = user_id existing ->
                   user_name u = ob_name data /\
                   user_displayName u = ob_display_name data /\
                   user_about u = ob_about data /\
                   user_agentInstructions u = ob_agent_instructions data) /\
        (forall u, user_id u <> user_id existing ->
                   (In u (users (ob_db o)) <-> In u (users db))) /\
        List.map user_id (users (ob_db o)) = List.map user_id (users db) /\
        List.map user_type (users (ob_db o)) = List.map user_type (users db) /\
        List.map user_createdAt (users (ob_db o)) = List.map user_createdAt (users db) /\
        ob_db o = updateUser (user_id existing) data db /\
        humanCount (ob_db o) = humanCount db
    | None =>
        let created := mkUser userId (ob_name data) "human" now (ob_display_name data)
                              (ob_about data) (ob_agent_instructions data) in
        (users (ob_db o) = users db \/ users (ob_db o) = users db ++ [created]) /\
        (List.existsb (fun x => String.eqb (user_id x) userId) (users db) = false ->
         users (ob_db o) = users db ++ [created] /\ humanCount (ob_db o) = 1%nat /\
         ob_response o = Json 201 (userToResponse created))
    end
    /\ forall calls : list (OnboardCall Body),
         (humanCount db <= 1)%nat ->
         (humanCount (onboardAll Body safeParse calls db) <= 1)%nat.
Proof.
  intros db userId msgId now body data Hparse o. split.
  - subst o. unfold onboard. rewrite Hparse.
    destruct (Query.get isHuman (users db)) as [existing|] eqn:Hh.
    + assert (Hin : In existing (users db) /\ isHuman existing = true).
      { unfold Query.get in Hh. apply List.find_some in Hh. exact Hh. }
      destruct Hin as [Hin Hhuman].
      destruct (find_by_id_after_update (user_id existing) data db existing Hin eq_refl)
        as (updated & Hupd & Hid).
      rewrite Hupd. cbn [ob_response ob_db].
      assert (Hrow : In updated (users (updateUser (user_id existing) data db))).
      { unfold Query.get in Hupd. apply List.find_some in Hupd. tauto. }
      destruct (updateUser_row _ _ _ _ Hrow Hid) as (Hn & Hd & Ha & Hi).
      split.
      { exists (userToResponse updated). cbn [userToResponse ur_id ur_name ur_display_name
          ur_about ur_agent_instructions]. auto 10. }
      split; [apply updateUser_existing; assumption|].
      split; [intros u Hu Hu'; eapply updateUser_row; eassumption|].
      split; [intros u Hu; apply updateUser_others; exact Hu|].
      split; [apply updateUser_ids|].
      split; [apply updateUser_types|].
      split; [apply updateUser_createdAts|].
      split; [reflexivity|].
      apply humanCount_types. apply updateUser_types.
    + pose proof (humanCount_none db Hh) as H0.
      unfold insertUser.
      destruct (List.existsb (fun x => String.eqb (user_id x) _) (users db)) eqn:Hpk.
      * cbn [ob_db user_id]. split; [left; reflexivity|]. cbn [user_id] in Hpk.
        intros Hf. rewrite Hf in Hpk. discriminate.
      * set (db1 := set_users _ db).
        assert (Hw : forall w,
                   w = match postCreatorWelcome db1 msgId now
                               (default (ob_name data) (ob_display_name data)) (ob_about data) with
                       | Some r => r
                       | None => (db1, [])
                       end -> users (fst w) = users db1).
        { intros w ->.
          destruct (postCreatorWelcome db1 msgId now _ (ob_about data)) as [r|] eqn:Ew.
          - eapply postCreatorWelcome_users. exact Ew.
          - reflexivity. }
        cbv zeta. specialize (Hw _ eq_refl).
        assert (Hu : forall d, users d = users db1 ->
                     users d = users db ++ [mkUser userId (ob_name data) "human" now
                                                   (ob_display_name data) (ob_about data)
                                                   (ob_agent_instructions data)]).
        { intros d ->. reflexivity. }
        assert (Hc : forall d, users d = users db1 -> humanCount d = 1%nat).
        { intros d Hd. unfold humanCount. rewrite (Hu d Hd).
          rewrite (humanCount_app db (users db) _ eq_refl).
          unfold humanCount in H0. rewrite H0. reflexivity. }
        cbn [user_id] in Hpk.
        assert (Hget : Query.get (fun u => String.eqb (user_id u) userId)
                         (users (fst match postCreatorWelcome db1 msgId now
                                             (default (ob_name data) (ob_display_name data))
                                             (ob_about data) with
                                     | Some r => r
                                     | None => (db1, [])
                                     end))
                       = Some (mkUser userId (ob_name data) "human" now (ob_display_name data)
                                      (ob_about data) (ob_agent_instructions data))).
        { rewrite Hw. unfold db1. cbn [users set_users].
          apply get_appended; [exact Hpk|]. cbn [user_id]. apply String.eqb_refl. }
        rewrite Hget. cbn [ob_db ob_response].
        split; [right; apply Hu; exact Hw|].
        intros _. split; [apply Hu; exact Hw|]. split; [apply Hc; exact Hw|reflexivity].
  - intros calls. apply onboardAll_humanCount.
Qed.

End OnboardFacts.

(** Re-onboarding the store that already has its human. *)
Lemma onboard_keeps_one_human_witness :
  exists r,
    Users.ob_response
      (Users.onboard _ Scenarios.nameSchema Scenarios.twoChannelStore
         "u-new" "m-welcome" "2026-02-18T10:00:00.000Z" (Some "chief"))
    = Json 201 r /\ Users.ur_id r = "u-boss" /\ Users.ur_name r = "chief" /\
    Users.ur_display_name r = None /\ Users.ur_about r = None /\
    Users.ur_agent_instructions r = None.
Proof.
  exact (proj1 (proj1
    (onboard_keeps_one_human (option string) Scenarios.nameSchema Scenarios.twoChannelStore
       "u-new" "m-welcome" "2026-02-18T10:00:00.000Z" (Some "chief")
       (Users.mkUserOnboard "chief" None None None) eq_refl))).
Defined.

(** The first onboarding creates the human and the creator greets them. *)
Example onboard_first_time :
  let o := Users.onboard _ Scenarios.nameSchema Scenarios.freshStore
             "u-new" "m-welcome" "2026-02-18T10:00:00.000Z" (Some "chief") in
  Users.humanCount (Users.ob_db o) = 1%nat /\
  List.map Schema.message_senderId (Schema.messages (Users.ob_db o)) = ["u-creator"] /\
  Users.ob_response o
  = Json 201 (Users.mkUserResponse "u-new" "chief" "human" "2026-02-18T10:00:00.000Z"
                None None None).
Proof. vm_compute. repeat split; reflexivity. Qed.

(** ** The WebSocket connection manager *)

Section ManagerFacts.
Import WsManager.

(** *** The client map *)

Lemma map_get_In id c cs : map_get id cs = Some c -> In (id, c) cs.
Proof.
  induction cs as [|[k c0] rest IH]; cbn [map_get]; [discriminate|].
  destruct (Nat.eqb_spec k id) as [->|Hne].
  - intros [= ->]. left. reflexivity.
  - intros H. right. apply IH. exact H.
Qed.

Lemma In_map_get id c cs :
  List.NoDup (List.map fst cs) -> In (id, c) cs -> map_get id cs = Some c.
Proof.
  induction cs as [|[k c0] rest IH]; cbn [map_get List.map fst]; [intros _ []|].
  intros Hnd [Heq|Hin].
  - injection Heq as -> ->. rewrite Nat.eqb_refl. reflexivity.
  - apply List.NoDup_cons_iff in Hnd. destruct Hnd as [Hk Hnd].
    destruct (Nat.eqb_spec k id) as [->|Hne].
    + exfalso. apply Hk. apply (List.in_map fst _ _ Hin).
    + apply IH; assumption.
Qed.

Lemma map_get_map_set i k v cs :
  map_get i (map_set k v cs) = if Nat.eqb k i then Some v else map_get i cs.
Proof.
  induction cs as [|[k0 c0] rest IH]; cbn [map_set map_get].
  - reflexivity.
  - destruct (Nat.eqb_spec k0 k) as [->|Hne]; cbn [map_get].
    + destruct (Nat.eqb k i); reflexivity.
    + rewrite IH. destruct (Nat.eqb_spec k0 i) as [->|Hne'].
      * destruct (Nat.eqb_spec k i) as [->|]; [congruence|reflexivity].
      * reflexivity.
Qed.

Lemma keys_map_set_present k v c cs :
  map_get k cs = Some c -> List.map fst (map_set k v cs) = List.map fst cs.
Proof.
  induction cs as [|[k0 c0] rest IH]; cbn [map_get map_set]; [discriminate|].
  destruct (Nat.eqb k0 k) eqn:E; cbn [List.map fst].
  - intros _. reflexivity.
  - intros H. rewrite (IH H). reflexivity.
Qed.

Lemma keys_map_set_absent k v cs :
  ~ In k (List.map fst cs) -> List.map fst (map_set k v cs) = List.map fst cs ++ [k].
Proof.
  induction cs as [|[k0 c0] rest IH]; cbn [map_set List.map fst]; [reflexivity|].
  intros Hn. destruct (Nat.eqb_spec k0 k) as [->|Hne].
  - exfalso. apply Hn. left. reflexivity.
  - cbn [List.map fst]. rewrite IH; [reflexivity|]. intros Hin. apply Hn. right. exact Hin.
Qed.

Lemma In_map_set i c k v cs :
  In (i, c) (map_set k v cs) -> (i = k /\ c = v) \/ In (i, c) cs.
Proof.
  induction cs as [|[k0 c0] rest IH]; cbn [map_set].
  - intros [[= -> ->]|[]]. left. split; reflexivity.
  - destruct (Nat.eqb_spec k0 k) as [->|Hne].
    + intros [[= -> ->]|Hin]; [left; split; reflexivity | right; right; exact Hin].
    + intros [Heq|Hin]; [right; left; exact Heq|].
      destruct (IH Hin) as [H|H]; [left; exact H | right; right; exact H].
Qed.

Lemma In_map_delete i c k cs : In (i, c) (map_delete k cs) -> In (i, c) cs.
Proof. unfold map_delete. intros H. apply List.filter_In in H. tauto. Qed.

Lemma In_deleteAll i c dead cs : In (i, c) (deleteAll dead cs) -> In (i, c) cs.
Proof.
  unfold deleteAll. revert cs.
  induction dead as [|d dead IH]; intros cs; cbn [List.fold_left]; [tauto|].
  intros H. apply IH in H. eapply In_map_delete. exact H.
Qed.

Lemma keys_map_delete k cs :
  List.map fst (map_delete k cs) = List.filter (fun i => negb (Nat.eqb i k)) (List.map fst cs).
Proof.
  unfold map_delete. induction cs as [|[k0 c0] rest IH]; [reflexivity|].
  cbn [List.filter List.map fst]. destruct (negb (Nat.eqb k0 k)); cbn [List.map fst];
    rewrite IH; reflexivity.
Qed.

Lemma NoDup_keys_map_delete k cs :
  List.NoDup (List.map fst cs) -> List.NoDup (List.map fst (map_delete k cs)).
Proof. intros H. rewrite keys_map_delete. apply List.NoDup_filter. exact H. Qed.

Lemma NoDup_keys_deleteAll dead cs :
  List.NoDup (List.map fst cs) -> List.NoDup (List.map fst (deleteAll dead cs)).
Proof.
  unfold deleteAll. revert cs.
  induction dead as [|d dead IH]; intros cs H; cbn [List.fold_left]; [exact H|].
  apply IH. apply NoDup_keys_map_delete. exact H.
Qed.

Lemma key_In_deleteAll i dead cs :
  In i (List.map fst (deleteAll dead cs)) -> In i (List.map fst cs).
Proof.
  intros H. apply List.in_map_iff in H. destruct H as ([k c] & <- & Hin).
  apply In_deleteAll in Hin. apply (List.in_map fst _ _ Hin).
Qed.

(** *** The two fan-out loops *)

Lemma In_trySend throws id r i :
  In i (fst (trySend throws id r)) <-> (i = id /\ id ∉ throws) \/ In i (fst r).
Proof.
  unfold trySend. destruct (bool_decide_reflect (id ∈ throws)) as [Hin|Hout]; cbn [fst].
  - split; [tauto|]. intros [[_ Hn]|H]; [contradiction|exact H].
  - cbn [In]. split.
    + intros [<-|H]; [left; split; [reflexivity|exact Hout] | right; exact H].
    + intros [[-> _]|H]; [left; reflexivity | right; exact H].
Qed.

Lemma broadcastLoop_sent throws event w cs i :
  In i (fst (broadcastLoop throws event w cs))
  <-> exists c, In (i, c) cs /\ passes event w c = true /\ i ∉ throws.
Proof.
  induction cs as [|[k c0] rest IH]; cbn [broadcastLoop].
  - cbn [fst In]. split; [tauto|]. intros (c & [] & _).
  - assert (Hrest : (exists c, In (i, c) ((k, c0) :: rest) /\ passes event w c = true /\ i ∉ throws)
                    <-> (i = k /\ passes event w c0 = true /\ i ∉ throws)
                        \/ In i (fst (broadcastLoop throws event w rest))).
    { rewrite IH. split.
      - intros (c & [[= -> ->]|Hin] & Hp & Ht); [left; tauto | right; eauto].
      - intros [(-> & Hp & Ht)|(c & Hin & Hp & Ht)];
          [exists c0; split; [left; reflexivity|tauto] | exists c; split; [right; exact Hin|tauto]]. }
    rewrite Hrest. unfold passes.
    destruct (match w with
              | Some w0 => negb (String.eqb (client_workspaceId c0) w0)
              | None => false
              end); cbn [negb andb].
    + split; [tauto|]. intros [(_ & Hf & _)|H]; [discriminate|exact H].
    + destruct (match event_type event with
                | Some t => _
                | None => false
                end); cbn [negb].
      * split; [tauto|]. intros [(_ & Hf & _)|H]; [discriminate|exact H].
      * rewrite In_trySend. split.
        -- intros [[-> Ht]|H]; [left; tauto | right; exact H].
        -- intros [(-> & _ & Ht)|H]; [left; tauto | right; exact H].
Qed.

Lemma channelLoop_sent throws channelId excl cs i :
  In i (fst (channelLoop throws channelId excl cs))
  <-> exists c, In (i, c) cs /\ Some i <> excl
                /\ channelId ∈ client_subscribedChannels c /\ i ∉ throws.
Proof.
  induction cs as [|[k c0] rest IH]; cbn [channelLoop].
  - cbn [fst In]. split; [tauto|]. intros (c & [] & _).
  - assert (Hrest : (exists c, In (i, c) ((k, c0) :: rest) /\ Some i <> excl
                               /\ channelId ∈ client_subscribedChannels c /\ i ∉ throws)
                    <-> (i = k /\ Some i <> excl
                         /\ channelId ∈ client_subscribedChannels c0 /\ i ∉ throws)
                        \/ In i (fst (channelLoop throws channelId excl rest))).
    { rewrite IH. split.
      - intros (c & [[= -> ->]|Hin] & Hc); [left; tauto | right; eauto].
      - intros [(-> & Hc)|(c & Hin & Hc)];
          [exists c0; split; [left; reflexivity|tauto] | exists c; split; [right; exact Hin|tauto]]. }
    rewrite Hrest.
    destruct (bool_decide_reflect (Some k = excl)) as [He|He].
    + split; [tauto|]. intros [(-> & Hn & _)|H]; [contradiction|exact H].
    + destruct (bool_decide_reflect (channelId ∈ client_subscribedChannels c0)) as [Hs|Hs];
        cbn [negb].
      * rewrite In_trySend. split.
        -- intros [[-> Ht]|H]; [left; tauto | right; exact H].
        -- intros [(-> & _ & _ & Ht)|H]; [left; tauto | right; exact H].
      * split; [tauto|]. intros [(-> & _ & Hin & _)|H]; [contradiction|exact H].
Qed.

End ManagerFacts.

Section RunFacts.
Import WsManager.

(** *** What every run of the manager keeps true *)

Lemma Inv_initial : Inv initial [].
Proof.
  split; cbn; try tauto.
  - constructor.
Qed.

(** A call that accepts nobody and only drops or rewrites clients in
    place keeps the invariant. *)
Lemma Inv_frame m log m' obs :
  Inv m log ->
  nextId m' = nextId m ->
  List.NoDup (List.map fst (clients m')) ->
  (forall i c, In (i, c) (clients m') ->
               exists c0, In (i, c0) (clients m) /\ client_workspaceId c0 = client_workspaceId c) ->
  (forall o, In o obs ->
             (forall i W, o <> Accepted i W) /\
             (forall i ev W, o = Received i ev (Some W) ->
                             exists c, In (i, c) (clients m) /\ client_workspaceId c = W)) ->
  Inv m' (log ++ obs).
Proof.
  intros [Hnd Hb Hc Hf Ho Hs] Hnext Hnd' Hsub Hobs.
  assert (Hacc : forall i W, In (Accepted i W) (log ++ obs) -> In (Accepted i W) log).
  { intros i W Hin. apply List.in_app_iff in Hin. destruct Hin as [Hin|Hin]; [exact Hin|].
    exfalso. exact (proj1 (Hobs _ Hin) i W eq_refl). }
  split.
  - exact Hnd'.
  - intros i Hin. rewrite Hnext. apply Hb.
    apply List.in_map_iff in Hin. destruct Hin as ([k c] & <- & Hin).
    destruct (Hsub _ _ Hin) as (c0 & Hin0 & _). apply (List.in_map fst _ _ Hin0).
  - intros i c Hin. apply List.in_app_iff. left.
    destruct (Hsub _ _ Hin) as (c0 & Hin0 & <-). apply Hc. exact Hin0.
  - intros i W Hin. rewrite Hnext. eapply Hf. apply Hacc. exact Hin.
  - intros i W W' H1 H2. eapply Ho; apply Hacc; eassumption.
  - intros i ev W Hin. apply List.in_app_iff. left.
    apply List.in_app_iff in Hin. destruct Hin as [Hin|Hin].
    + exact (Hs i ev W Hin).
    + destruct (proj2 (Hobs _ Hin) i ev W eq_refl) as (c & Hinc & <-). apply Hc. exact Hinc.
Qed.

Lemma socket_id id m : data_id (socket id m) = Some id.
Proof. unfold socket. destruct (map_get id (clients m)); reflexivity. Qed.

(** Rewriting one client in place, workspace untouched. *)
Lemma Inv_rewrite m log id client client' obs :
  Inv m log ->
  map_get id (clients m) = Some client ->
  client_workspaceId client' = client_workspaceId client ->
  (forall o, In o obs ->
             (forall i W, o <> Accepted i W) /\ (forall i ev W, o <> Received i ev W)) ->
  Inv (mkManager (nextId m) (map_set id client' (clients m))) (log ++ obs).
Proof.
  intros HI Hget Hws Hobs. apply (Inv_frame m); [exact HI|reflexivity| | |].
  - cbn [clients]. rewrite (keys_map_set_present _ _ _ _ Hget). apply (inv_nodup _ _ HI).
  - cbn [clients]. intros i c Hin. apply In_map_set in Hin.
    destruct Hin as [[-> ->]|Hin].
    + exists client. split; [apply map_get_In; exact Hget | symmetry; exact Hws].
    + exists c. split; [exact Hin|reflexivity].
  - intros o Hin. destruct (Hobs o Hin) as [H1 H2]. split; [exact H1|].
    intros i ev W ->. exfalso. exact (H2 i ev (Some W) eq_refl).
Qed.

Lemma Inv_same m log obs :
  Inv m log ->
  (forall o, In o obs ->
             (forall i W, o <> Accepted i W) /\ (forall i ev W, o <> Received i ev W)) ->
  Inv m (log ++ obs).
Proof.
  intros HI Hobs. apply (Inv_frame m); [exact HI|reflexivity|apply (inv_nodup _ _ HI)| |].
  - intros i c Hin. exists c. split; [exact Hin|reflexivity].
  - intros o Hin. destruct (Hobs o Hin) as [H1 H2]. split; [exact H1|].
    intros i ev W ->. exfalso. exact (H2 i ev (Some W) eq_refl).
Qed.

Lemma Inv_updateSubscriptions f id m log :
  Inv m log -> Inv (updateSubscriptions f (socket id m) m) (log ++ []).
Proof.
  intros HI. unfold updateSubscriptions. rewrite socket_id.
  destruct (map_get id (clients m)) as [client|] eqn:Hget.
  - apply (Inv_rewrite m log id client); [exact HI|exact Hget|reflexivity|intros o []].
  - apply Inv_same; [exact HI|intros o []].
Qed.

Lemma step_Inv m log op : Inv m log -> Inv (fst (step m op)) (log ++ snd (step m op)).
Proof.
  intros HI. destruct op as [w u|id|id chans|id chans|id now|throws ev w|throws ch ev excl];
    cbn [step fst snd].
  - (* acceptClient *)
    unfold acceptClient. cbn [fst snd data_workspaceId data_userId].
    destruct HI as [Hnd Hb Hc Hf Ho Hs].
    assert (Hnew : ~ In (nextId m) (List.map fst (clients m))).
    { intros Hin. apply Hb in Hin. lia. }
    split; cbn [clients nextId].
    + rewrite (keys_map_set_absent _ _ _ Hnew). apply List.NoDup_app.
      * exact Hnd.
      * constructor; [intros []|constructor].
      * intros x Hx [<-|[]]. exact (Hnew Hx).
    + rewrite (keys_map_set_absent _ _ _ Hnew). intros i Hin.
      apply List.in_app_iff in Hin. destruct Hin as [Hin|[<-|[]]]; [apply Hb in Hin|]; lia.
    + intros i c Hin. apply List.in_app_iff. apply In_map_set in Hin.
      destruct Hin as [[-> ->]|Hin]; [right; left; reflexivity | left; apply Hc; exact Hin].
    + intros i W Hin. apply List.in_app_iff in Hin.
      destruct Hin as [Hin|[[= <- _]|[]]]; [apply Hf in Hin|]; lia.
    + intros i W W' H1 H2. apply List.in_app_iff in H1. apply List.in_app_iff in H2.
      destruct H1 as [H1|[H1|[]]]; destruct H2 as [H2|[H2|[]]].
      * eapply Ho; eassumption.
      * injection H2 as Hi _. apply Hf in H1. lia.
      * injection H1 as Hi _. apply Hf in H2. lia.
      * congruence.
    + intros i ev W Hin. apply List.in_app_iff. left. apply (Hs i ev W).
      apply List.in_app_iff in Hin. destruct Hin as [Hin|[Hin|[]]]; [exact Hin|discriminate].
  - (* disconnectClient *)
    unfold disconnectClient. rewrite socket_id.
    apply (Inv_frame m); [exact HI|reflexivity| | |intros o []].
    + apply NoDup_keys_map_delete. apply (inv_nodup _ _ HI).
    + cbn [clients]. intros i c Hin. exists c. split; [eapply In_map_delete; exact Hin|reflexivity].
  - apply Inv_updateSubscriptions. exact HI.
  - apply Inv_updateSubscriptions. exact HI.
  - (* isRateLimited *)
    unfold isRateLimited. rewrite socket_id.
    destruct (map_get id (clients m)) as [client|] eqn:Hget; cbn [fst snd].
    + apply (Inv_rewrite m log id client); [exact HI|exact Hget|reflexivity|].
      intros o [<-|[]]; destruct (fst (rateWindow now (client_recentMessages client)));
        split; intros; discriminate.
    + apply Inv_same; [exact HI|]. intros o [<-|[]]. split; intros; discriminate.
  - (* broadcast *)
    unfold broadcast. cbn [fst snd].
    apply (Inv_frame m); [exact HI|reflexivity| | |].
    + cbn [clients]. apply NoDup_keys_deleteAll. apply (inv_nodup _ _ HI).
    + cbn [clients]. intros i c Hin. exists c. split; [eapply In_deleteAll; exact Hin|reflexivity].
    + intros o Hin. apply List.in_map_iff in Hin. destruct Hin as (i0 & <- & Hin).
      split; [intros; discriminate|].
      intros i ev0 W [= -> -> ->].
      apply broadcastLoop_sent in Hin. destruct Hin as (c & Hinc & Hp & _).
      exists c. split; [exact Hinc|].
      unfold passes in Hp. apply andb_prop in Hp. destruct Hp as [Hp _].
      apply negb_true_iff in Hp. apply negb_false_iff in Hp. apply String.eqb_eq. exact Hp.
  - (* broadcastToChannel *)
    unfold broadcastToChannel. cbn [fst snd].
    apply (Inv_frame m); [exact HI|reflexivity| | |].
    + cbn [clients]. apply NoDup_keys_deleteAll. apply (inv_nodup _ _ HI).
    + cbn [clients]. intros i c Hin. exists c. split; [eapply In_deleteAll; exact Hin|reflexivity].
    + intros o Hin. apply List.in_map_iff in Hin. destruct Hin as (i0 & <- & Hin).
      split; intros; discriminate.
Qed.

Lemma run_Inv ops : forall m log, Inv m log -> Inv (fst (run ops m)) (log ++ snd (run ops m)).
Proof.
  induction ops as [|op ops IH]; intros m log HI; cbn [run fst snd].
  - rewrite List.app_nil_r. exact HI.
  - rewrite List.app_assoc. apply IH. apply step_Inv. exact HI.
Qed.

Lemma reachable_Inv ops : Inv (fst (run ops initial)) (snd (run ops initial)).
Proof. apply (run_Inv ops initial []). exact Inv_initial. Qed.

End RunFacts.

Section BroadcastFacts.
Import WsManager WsScenarios.

(** C3, as the code has it. An event broadcast with a workspace id W
    is received only by connections that were accepted into W, in
    every run of the manager and whatever the clients subscribed to. *)
Theorem broadcast_stays_in_workspace :
  forall (ops : list Op) (id : nat) (event : Event) (W W' : string),
    In (Received id event (Some W)) (snd (run ops initial)) ->
    In (Accepted id W') (snd (run ops initial)) ->
    W' = W.
Proof.
  intros ops id event W W' Hrecv Hacc.
  pose proof (reachable_Inv ops) as HI.
  eapply (inv_once _ _ HI); [exact Hacc|].
  eapply (inv_scoped _ _ HI). exact Hrecv.
Qed.

(** C3 does not hold for [broadcastToChannel] nor for a [broadcast]
    without workspace id: Bob, connected for ws-beta, receives the edit
    of a message of ws-alpha both ways. *)
Lemma broadcastToChannel_crosses_workspaces :
  snd (run crossWorkspaceOps initial)
  = [ Accepted 1 "ws-alpha"; Accepted 2 "ws-beta";
      ReceivedOnChannel 2 (fst alphaGeneral) editedInAlpha;
      Received 1 editedInAlpha None; Received 2 editedInAlpha None ]
  /\ snd alphaGeneral <> "ws-beta".
Proof. split; [vm_compute; reflexivity | discriminate]. Qed.

(** [broadcastToChannel] sends to the subscribers of the channel id
    other than the excluded client, and looks at nothing else. *)
Lemma broadcastToChannel_recipients throws channelId event excl m i :
  In i (fst (broadcastToChannel throws channelId event excl m))
  <-> exists c, In (i, c) (clients m) /\ Some i <> excl
                /\ channelId ∈ client_subscribedChannels c /\ i ∉ throws.
Proof. unfold broadcastToChannel. cbn [fst]. apply channelLoop_sent. Qed.

(** Who [broadcast] sends to, in a state a run can reach. *)
Lemma broadcast_recipients ops throws event w id client :
  map_get id (clients (fst (run ops initial))) = Some client ->
  In id (fst (broadcast throws event w (fst (run ops initial))))
  <-> passes event w client = true /\ id ∉ throws.
Proof.
  intros Hget. unfold broadcast. cbn [fst]. rewrite broadcastLoop_sent. split.
  - intros (c & Hin & Hp & Ht).
    pose proof (In_map_get _ _ _ (inv_nodup _ _ (reachable_Inv ops)) Hin) as Hget'.
    rewrite Hget in Hget'. injection Hget' as ->. split; assumption.
  - intros [Hp Ht]. exists client. split; [apply map_get_In; exact Hget|]. split; assumption.
Qed.

(** C4. For a new_message event carrying channel id [c], broadcast
    with workspace W in any reachable state: a connected client of W
    whose socket takes the send receives the event when its
    subscription set is empty, and, when the set is not empty, receives
    it if and only if [c] is in the set. *)
Theorem broadcast_new_message_by_subscription :
  forall (ops : list Op) (throws : gset nat) (event : Event) (W c : string)
         (id : nat) (client : WsClient),
    event_type event = Some "new_message" ->
    event_channel_id event = Some c -> c <> "" ->
    map_get id (clients (fst (run ops initial))) = Some client ->
    client_workspaceId client = W ->
    id ∉ throws ->
    (client_subscribedChannels client = ∅ ->
     In id (fst (broadcast throws event (Some W) (fst (run ops initial))))) /\
    (client_subscribedChannels client <> ∅ ->
     (In id (fst (broadcast throws event (Some W) (fst (run ops initial))))
      <-> c ∈ client_subscribedChannels client)).
Proof.
  intros ops throws event W c id client Htype Hchan Hne Hget Hws Hthrows.
  assert (Hp : passes event (Some W) client
               = negb ((0 <? Z.of_nat (size (client_subscribedChannels client)))
                       && negb (bool_decide (c ∈ client_subscribedChannels client)))).
  { unfold passes. rewrite Hws, String.eqb_refl, Htype, Hchan. cbn [negb andb default].
    rewrite String.eqb_refl. cbn [andb Query.truthy].
    destruct (String.eqb_spec c "") as [->|_]; [contradiction|]. cbn [negb andb].
    rewrite andb_true_r. reflexivity. }
  split.
  - intros Hempty. apply (broadcast_recipients ops _ _ _ _ _ Hget).
    split; [|exact Hthrows]. rewrite Hp, Hempty. reflexivity.
  - intros Hnonempty. rewrite (broadcast_recipients ops _ _ _ _ _ Hget), Hp.
    assert (Hsize : (0 <? Z.of_nat (size (client_subscribedChannels client))) = true).
    { apply Z.ltb_lt.
      assert (size (client_subscribedChannels client) <> O).
      { intros Hz. apply Hnonempty. apply size_empty_iff in Hz.
        apply leibniz_equiv. exact Hz. }
      lia. }
    rewrite Hsize. cbn [andb]. rewrite negb_involutive.
    split.
    + intros [Hb _]. apply bool_decide_eq_true in Hb. exact Hb.
    + intros Hin. split; [apply bool_decide_eq_true; exact Hin | exact Hthrows].
Qed.

End BroadcastFacts.

(** Alice, accepted for ws-alpha, receives what is broadcast for it. *)
Lemma broadcast_stays_in_workspace_witness :
  In (WsManager.Received 1 WsScenarios.postedInAlpha (Some "ws-alpha"))
     (snd (WsManager.run WsScenarios.scopedOps WsManager.initial)) /\
  In (WsManager.Accepted 1 "ws-alpha")
     (snd (WsManager.run WsScenarios.scopedOps WsManager.initial)) /\
  "ws-alpha" = "ws-alpha".
Proof.
  assert (H1 : In (WsManager.Received 1 WsScenarios.postedInAlpha (Some "ws-alpha"))
                  (snd (WsManager.run WsScenarios.scopedOps WsManager.initial))).
  { vm_compute. right. right. left. reflexivity. }
  assert (H2 : In (WsManager.Accepted 1 "ws-alpha")
                  (snd (WsManager.run WsScenarios.scopedOps WsManager.initial))).
  { vm_compute. left. reflexivity. }
  split; [exact H1|]. split; [exact H2|].
  exact (broadcast_stays_in_workspace WsScenarios.scopedOps 1 WsScenarios.postedInAlpha
           "ws-alpha" "ws-alpha" H1 H2).
Defined.

(** Bob, accepted for ws-beta, is not sent the message of ws-alpha even
    though he subscribed to the channel id. *)
Example broadcast_scoped_run :
  snd (WsManager.run WsScenarios.scopedOps WsManager.initial)
  = [ WsManager.Accepted 1 "ws-alpha"; WsManager.Accepted 2 "ws-beta";
      WsManager.Received 1 WsScenarios.postedInAlpha (Some "ws-alpha") ].
Proof. vm_compute. reflexivity. Qed.

(** Alice subscribed to alpha's channel and receives its new message. *)
Lemma broadcast_new_message_by_subscription_witness :
  In 1%nat (fst (WsManager.broadcast ∅ WsScenarios.postedInAlpha (Some "ws-alpha")
                   (fst (WsManager.run WsScenarios.aliceSubscribed WsManager.initial)))).
Proof.
  refine (proj2 (proj2
    (broadcast_new_message_by_subscription WsScenarios.aliceSubscribed ∅
       WsScenarios.postedInAlpha "ws-alpha" "c-alpha-general" 1
       (WsManager.mkWsClient "ws-alpha" (Some "u-alice") (∅ ∪ {["c-alpha-general"]}) [])
       eq_refl eq_refl _ eq_refl eq_refl _) _) _).
  - discriminate.
  - apply not_elem_of_empty.
  - cbn [WsManager.client_subscribedChannels]. intros H.
    apply (not_elem_of_empty (C:=gset string) "c-alpha-general"). rewrite <- H.
    apply elem_of_union. right. apply elem_of_singleton. reflexivity.
  - cbn [WsManager.client_subscribedChannels].
    apply elem_of_union. right. apply elem_of_singleton. reflexivity.
Defined.

Section RateLimitFacts.
Import WsManager WsScenarios.

Lemma rateWindow_verdict now recent :
  fst (rateWindow now recent)
  = (RATE_LIMIT_MAX <=? Z.of_nat (List.length
       (List.filter (fun ts => now - ts <? RATE_LIMIT_WINDOW_MS) recent))).
Proof. unfold rateWindow. destruct (RATE_LIMIT_MAX <=? _); reflexivity. Qed.

Lemma rateWindow_window now recent :
  snd (rateWindow now recent)
  = List.filter (fun ts => now - ts <? RATE_LIMIT_WINDOW_MS) recent
    ++ (if fst (rateWindow now recent) then [] else [now]).
Proof.
  unfold rateWindow. destruct (RATE_LIMIT_MAX <=? _); cbn [fst snd];
    [rewrite List.app_nil_r|]; reflexivity.
Qed.

(** The verdicts the manager gives a connected client are those of its
    window. *)
Lemma frames_windowRun times :
  forall m ws id client,
    data_id ws = Some id ->
    map_get id (clients m) = Some client ->
    fst (frames ws times m) = fst (windowRun times (client_recentMessages client)).
Proof.
  induction times as [|now rest IH]; intros m ws id client Hid Hget; [reflexivity|].
  cbn [frames windowRun fst]. f_equal.
  - unfold isRateLimited. rewrite Hid, Hget. reflexivity.
  - unfold isRateLimited at 1. rewrite Hid, Hget. cbn [snd].
    rewrite (IH _ ws id
               (mkWsClient (client_workspaceId client) (client_userId client)
                           (client_subscribedChannels client)
                           (snd (rateWindow now (client_recentMessages client)))) Hid).
    + reflexivity.
    + cbn [clients]. rewrite map_get_map_set, Nat.eqb_refl. reflexivity.
Qed.

Lemma windowRun_length times : forall recent,
  List.length (fst (windowRun times recent)) = List.length times.
Proof.
  induction times as [|now rest IH]; intros recent; cbn [windowRun fst List.length];
    [reflexivity|]. rewrite IH. reflexivity.
Qed.

Lemma windowRun_app l1 l2 : forall recent,
  windowRun (l1 ++ l2) recent
  = (fst (windowRun l1 recent) ++ fst (windowRun l2 (snd (windowRun l1 recent))),
     snd (windowRun l2 (snd (windowRun l1 recent)))).
Proof.
  induction l1 as [|now rest IH]; intros recent; cbn [windowRun List.app fst snd].
  - destruct (windowRun l2 recent); reflexivity.
  - rewrite IH. reflexivity.
Qed.

(** Pruning at a later time forgets what pruning at an earlier time
    kept: the window only slides forward. *)
Lemma prune_inWindow lo now history :
  lo <= now ->
  List.filter (fun ts => now - ts <? RATE_LIMIT_WINDOW_MS) (inWindow lo history)
  = inWindow now history.
Proof.
  intros Hle. unfold inWindow.
  induction history as [|[t v] rest IH]; [reflexivity|].
  cbn [List.filter fst snd].
  destruct v; cbn [negb andb]; [exact IH|].
  destruct (Z.ltb_spec (lo - t) RATE_LIMIT_WINDOW_MS) as [Hlo|Hlo];
    destruct (Z.ltb_spec (now - t) RATE_LIMIT_WINDOW_MS) as [Hnow|Hnow];
    cbn [List.map List.filter fst].
  - destruct (Z.ltb_spec (now - t) RATE_LIMIT_WINDOW_MS); [|lia]. rewrite IH. reflexivity.
  - destruct (Z.ltb_spec (now - t) RATE_LIMIT_WINDOW_MS); [lia|]. exact IH.
  - lia.
  - exact IH.
Qed.

Lemma inWindow_snoc now history t v :
  inWindow now (history ++ [(t, v)])
  = inWindow now history
    ++ (if negb v && (now - t <? RATE_LIMIT_WINDOW_MS) then [t] else []).
Proof.
  unfold inWindow. rewrite List.filter_app, List.map_app. cbn [List.filter fst snd].
  destruct (negb v && (now - t <? RATE_LIMIT_WINDOW_MS)); reflexivity.
Qed.

Lemma acceptedWithin_inWindow now history :
  acceptedWithin now history = List.length (inWindow now history).
Proof. unfold acceptedWithin, inWindow. rewrite List.length_map. reflexivity. Qed.

Lemma filter_length_le {A} (p : A -> bool) (l : list A) :
  (List.length (List.filter p l) <= List.length l)%nat.
Proof.
  induction l as [|x l IH]; cbn [List.filter List.length]; [lia|].
  destruct (p x); cbn [List.length]; lia.
Qed.

(** The verdict on each frame, for arrival times that do not go
    backwards, started from a window that holds the accepted frames of
    the history so far. *)
Lemma windowRun_sliding times :
  forall history lo recent,
    recent = inWindow lo history ->
    (List.length recent <= 30)%nat ->
    Forall (fun t => lo <= t) times ->
    nondecreasing times ->
    forall k now,
      nth_error times k = Some now ->
      let earlier := history ++ List.firstn k (List.combine times (fst (windowRun times recent))) in
      nth_error (fst (windowRun times recent)) k
      = Some (RATE_LIMIT_MAX <=? Z.of_nat (acceptedWithin now earlier))
      /\ (acceptedWithin now earlier <= 30)%nat.
Proof.
  induction times as [|t rest IH]; intros history lo recent Hrec Hlen Hlo Hmono k now Hk.
  - destruct k; discriminate.
  - cbn [windowRun fst].
    assert (Hlot : lo <= t) by (inversion Hlo; assumption).
    assert (Hpruned : List.filter (fun ts => t - ts <? RATE_LIMIT_WINDOW_MS) recent
                      = inWindow t history).
    { rewrite Hrec. apply prune_inWindow. exact Hlot. }
    assert (Hplen : (List.length (inWindow t history) <= 30)%nat).
    { rewrite <- Hpruned. pose proof (filter_length_le
        (fun ts => t - ts <? RATE_LIMIT_WINDOW_MS) recent). lia. }
    destruct k as [|k'].
    + cbn [nth_error] in Hk. injection Hk as <-.
      cbn [nth_error List.firstn]. cbv zeta. rewrite List.app_nil_r.
      rewrite rateWindow_verdict, Hpruned, acceptedWithin_inWindow.
      split; [reflexivity|exact Hplen].
    + cbn [nth_error] in Hk. cbn [nth_error List.combine List.firstn]. cbv zeta.
      set (v := fst (rateWindow t recent)).
      assert (Hnext : snd (rateWindow t recent) = inWindow t (history ++ [(t, v)])).
      { rewrite rateWindow_window, Hpruned, inWindow_snoc. fold v.
        replace (t - t) with 0 by lia. change (0 <? RATE_LIMIT_WINDOW_MS) with true.
        rewrite andb_true_r. destruct v; reflexivity. }
      destruct Hmono as [Hrest Hmono].
      assert (Hlen' : (List.length (snd (rateWindow t recent)) <= 30)%nat).
      { rewrite rateWindow_window, Hpruned. rewrite List.length_app.
        pose proof (rateWindow_verdict t recent) as Hv. rewrite Hpruned in Hv.
        destruct (fst (rateWindow t recent)); cbn [List.length]; [lia|].
        symmetry in Hv. apply Z.leb_gt in Hv. unfold RATE_LIMIT_MAX in Hv. lia. }
      specialize (IH (history ++ [(t, v)]) t (snd (rateWindow t recent))
                     Hnext Hlen' Hrest Hmono k' now Hk).
      cbv zeta in IH. rewrite <- List.app_assoc in IH. exact IH.
Qed.

(** Frames that all lie within one window of each other are accepted
    as long as the window has room. *)
Lemma windowRun_burst times :
  forall recent,
    (List.length recent + List.length times <= 30)%nat ->
    (forall ts now, In ts (recent ++ times) -> In now times -> now - ts < RATE_LIMIT_WINDOW_MS) ->
    windowRun times recent = (List.repeat false (List.length times), recent ++ times).
Proof.
  induction times as [|t rest IH]; intros recent Hlen Hwin.
  - cbn [windowRun List.repeat List.length]. rewrite List.app_nil_r. reflexivity.
  - cbn [windowRun List.length List.repeat].
    assert (Hall : List.filter (fun ts => t - ts <? RATE_LIMIT_WINDOW_MS) recent = recent).
    { apply List.forallb_filter_id. apply List.forallb_forall. intros ts Hin.
      apply Z.ltb_lt. apply Hwin; [apply List.in_app_iff; left; exact Hin | left; reflexivity]. }
    assert (Hr : rateWindow t recent = (false, recent ++ [t])).
    { unfold rateWindow. rewrite Hall.
      destruct (Z.leb_spec RATE_LIMIT_MAX (Z.of_nat (List.length recent))) as [H|H];
        [|reflexivity].
      unfold RATE_LIMIT_MAX in H. cbn [List.length] in Hlen. lia. }
    rewrite Hr. cbn [fst snd]. rewrite IH.
    + cbn [fst snd]. rewrite <- List.app_assoc. reflexivity.
    + rewrite List.length_app. cbn [List.length] in *. lia.
    + intros ts now Hts Hnow. apply Hwin; [|right; exact Hnow].
      rewrite <- List.app_assoc in Hts. exact Hts.
Qed.

Lemma windowRun_full burst last :
  List.length burst = 30%nat ->
  (forall t u, In t (burst ++ [last]) -> In u (burst ++ [last]) -> u - t < RATE_LIMIT_WINDOW_MS) ->
  windowRun (burst ++ [last]) [] = (List.repeat false 30 ++ [true], burst).
Proof.
  intros Hlen Hwin. rewrite windowRun_app.
  rewrite (windowRun_burst burst []).
  - rewrite Hlen. cbn [fst snd List.app windowRun].
    assert (Hall : List.filter (fun ts => last - ts <? RATE_LIMIT_WINDOW_MS) burst = burst).
    { apply List.forallb_filter_id. apply List.forallb_forall. intros ts Hin.
      apply Z.ltb_lt. apply Hwin; apply List.in_app_iff; [left; exact Hin|right; left; reflexivity]. }
    unfold rateWindow. rewrite Hall, Hlen. reflexivity.
  - cbn [List.length]. lia.
  - cbn [List.app]. intros ts now Hts Hnow.
    apply Hwin; apply List.in_app_iff; left; assumption.
Qed.

(** C5. For a client whose window is empty (a fresh connection):
    (1) with arrival times that do not go backwards, a frame is
    rejected exactly when 30 earlier frames were accepted less than
    10 000 ms before it, and accepted exactly when fewer were;
    (2) of 31 frames inside one window the first 30 are accepted and
    the 31st is rejected; (3) a frame that then arrives 10 000 ms or
    more after the first accepted one is accepted again. *)
Theorem rate_limit_sliding_window :
  forall (m : Manager) (id : nat) (client : WsClient),
    map_get id (clients m) = Some client ->
    client_recentMessages client = [] ->
    (forall times : list Z,
        nondecreasing times ->
        let verdicts := fst (frames (socket id m) times m) in
        List.length verdicts = List.length times /\
        forall k now,
          nth_error times k = Some now ->
          let earlier := List.firstn k (List.combine times verdicts) in
          (nth_error verdicts k = Some true <-> acceptedWithin now earlier = 30%nat) /\
          (nth_error verdicts k = Some false <-> (acceptedWithin now earlier < 30)%nat)) /\
    (forall (burst : list Z) (last : Z),
        List.length burst = 30%nat ->
        (forall t u, In t (burst ++ [last]) -> In u (burst ++ [last]) ->
                     u - t < RATE_LIMIT_WINDOW_MS) ->
        fst (frames (socket id m) (burst ++ [last]) m) = List.repeat false 30 ++ [true]) /\
    (forall (burst : list Z) (last later first : Z),
        List.length burst = 30%nat ->
        (forall t u, In t (burst ++ [last]) -> In u (burst ++ [last]) ->
                     u - t < RATE_LIMIT_WINDOW_MS) ->
        List.head burst = Some first ->
        RATE_LIMIT_WINDOW_MS <= later - first ->
        fst (frames (socket id m) ((burst ++ [last]) ++ [later]) m)
        = List.repeat false 30 ++ [true; false]).
Proof.
  intros m id client Hget Hfresh.
  assert (Hf : forall times,
             fst (frames (socket id m) times m) = fst (windowRun times [])).
  { intros times. rewrite <- Hfresh. eapply frames_windowRun; [apply socket_id|exact Hget]. }
  split; [|split].
  - intros times Hmono verdicts. subst verdicts. rewrite Hf.
    split; [apply windowRun_length|].
    intros k now Hk earlier. subst earlier.
    assert (Hlo : exists lo, Forall (fun t => lo <= t) times).
    { destruct times as [|t rest]; [destruct k; discriminate|].
      exists t. constructor; [lia|]. exact (proj1 Hmono). }
    destruct Hlo as [lo Hlo].
    destruct (windowRun_sliding times [] lo [] eq_refl ltac:(cbn; lia) Hlo Hmono k now Hk)
      as [Hv Hbound].
    cbv zeta in Hv, Hbound. cbn [List.app] in Hv, Hbound. rewrite Hv.
    unfold RATE_LIMIT_MAX.
    destruct (Z.leb_spec 30 (Z.of_nat (acceptedWithin now
               (List.firstn k (List.combine times (fst (windowRun times []))))))) as [H|H].
    + split; split; intros H'; try reflexivity; try discriminate; lia.
    + split; split; intros H'; try reflexivity; try discriminate; lia.
  - intros burst last Hlen Hwin. rewrite Hf, (windowRun_full burst last Hlen Hwin). reflexivity.
  - intros burst last later first Hlen Hwin Hhead Hslid.
    rewrite Hf, windowRun_app, (windowRun_full burst last Hlen Hwin).
    cbn [fst snd windowRun]. rewrite <- List.app_assoc. cbn [List.app]. do 3 f_equal.
    rewrite rateWindow_verdict.
    destruct burst as [|b rest]; [discriminate|]. cbn [List.head] in Hhead.
    injection Hhead as ->. cbn [List.filter].
    destruct (Z.ltb_spec (later - first) RATE_LIMIT_WINDOW_MS) as [H|_]; [lia|].
    pose proof (filter_length_le (fun ts => later - ts <? RATE_LIMIT_WINDOW_MS) rest) as Hle.
    cbn [List.length] in Hlen. apply Z.leb_gt. unfold RATE_LIMIT_MAX. lia.
Qed.

End RateLimitFacts.

(** Scenario S7 on a fresh connection: frames at 0, 1, .., 29 ms are
    accepted and the one at 30 ms is rejected. *)
Lemma rate_limit_sliding_window_witness :
  fst (WsManager.frames (WsManager.socket 1 WsScenarios.oneClient)
         (WsScenarios.burst30 ++ [30]) WsScenarios.oneClient)
  = List.repeat false 30 ++ [true].
Proof.
  refine (proj1 (proj2
    (rate_limit_sliding_window WsScenarios.oneClient 1
       (WsManager.mkWsClient "ws-alpha" (Some "u-alice") ∅ []) eq_refl eq_refl))
    WsScenarios.burst30 30 eq_refl _).
  assert (Hrange : Forall (fun t => 0 <= t <= 30) (WsScenarios.burst30 ++ [30])).
  { vm_compute. repeat (constructor; [split; discriminate|]). constructor. }
  intros t u Ht Hu. rewrite List.Forall_forall in Hrange.
  pose proof (Hrange t Ht). pose proof (Hrange u Hu).
  unfold WsManager.RATE_LIMIT_WINDOW_MS. lia.
Defined.

(** After the burst, a frame at 10 000 ms is accepted again, and one
    at 9 999 ms is still rejected. *)
Example rate_limit_after_window :
  fst (WsManager.frames (WsManager.socket 1 WsScenarios.oneClient)
         (WsScenarios.burst30 ++ [30; 9999; 10000]) WsScenarios.oneClient)
  = List.repeat false 30 ++ [true; true; false].
Proof. vm_compute. reflexivity. Qed.

(** ** Search *)

Section SearchFacts.
Import Schema Search SearchScenarios.

Lemma escaped_literal c : escaped c = Literal c.
Proof.
  unfold escaped.
  destruct (Ascii.eqb_spec c "%") as [->|_]; [reflexivity|].
  destruct (Ascii.eqb_spec c "_") as [->|_]; reflexivity.
Qed.

Lemma map_escaped t : List.map escaped t = List.map Literal t.
Proof. apply List.map_ext. exact escaped_literal. Qed.

(** A run of literals matches exactly itself as a prefix. *)
Lemma like_literals t : forall p s,
  like (List.map Literal t ++ p) s = true
  <-> exists rest, s = t ++ rest /\ like p rest = true.
Proof.
  induction t as [|c t IH]; intros p s; cbn [List.map List.app].
  - split; [intros H; exists s; split; [reflexivity|exact H] | intros (rest & -> & H); exact H].
  - cbn [like]. destruct s as [|a s].
    + split; [discriminate | intros (rest & H & _); discriminate].
    + rewrite andb_true_iff, IH. split.
      * intros [Ha (rest & -> & H)]. apply Ascii.eqb_eq in Ha. subst a.
        exists rest. split; [reflexivity|exact H].
      * intros (rest & Heq & H). injection Heq as -> ->.
        split; [apply Ascii.eqb_refl | exists rest; split; [reflexivity|exact H]].
Qed.

(** [%] matches any prefix. *)
Lemma like_any p : forall s,
  like (AnyString :: p) s = true
  <-> exists pre post, s = pre ++ post /\ like p post = true.
Proof.
  induction s as [|a s IH].
  - cbn [like]. rewrite orb_false_r. split.
    + intros H. exists [], []. split; [reflexivity|exact H].
    + intros (pre & post & Heq & H). symmetry in Heq. apply List.app_eq_nil in Heq.
      destruct Heq as [_ ->]. exact H.
  - change (like (AnyString :: p) (a :: s))
      with (like p (a :: s) || like (AnyString :: p) s).
    rewrite orb_true_iff, IH. split.
    + intros [H|(pre & post & -> & H)].
      * exists [], (a :: s). split; [reflexivity|exact H].
      * exists (a :: pre), post. split; [reflexivity|exact H].
    + intros ([|b pre] & post & Heq & H); cbn [List.app] in Heq.
      * left. rewrite Heq. exact H.
      * injection Heq as -> ->. right. exists pre, post. split; [reflexivity|exact H].
Qed.

Lemma like_any_alone s : like [AnyString] s = true.
Proof.
  apply like_any. exists s, []. split; [rewrite List.app_nil_r; reflexivity|reflexivity].
Qed.

Lemma list_ascii_append (a b : string) :
  list_ascii_of_string (a +:+ b) = list_ascii_of_string a ++ list_ascii_of_string b.
Proof.
  induction a as [|c a IH]; [reflexivity|].
  change (String c a +:+ b) with (String c (a +:+ b)).
  cbn [list_ascii_of_string List.app]. rewrite IH. reflexivity.
Qed.

Lemma string_of_list_ascii_append (a b : list ascii) :
  string_of_list_ascii (a ++ b) = string_of_list_ascii a +:+ string_of_list_ascii b.
Proof.
  induction a as [|c a IH]; [reflexivity|].
  cbn [List.app string_of_list_ascii]. rewrite IH. reflexivity.
Qed.

Lemma occursIn_lists (t s : string) :
  occursIn t s
  <-> exists pre post, list_ascii_of_string s = pre ++ list_ascii_of_string t ++ post.
Proof.
  unfold occursIn. split.
  - intros (pre & post & ->). exists (list_ascii_of_string pre), (list_ascii_of_string post).
    rewrite !list_ascii_append. reflexivity.
  - intros (pre & post & H).
    exists (string_of_list_ascii pre), (string_of_list_ascii post).
    rewrite <- (string_of_list_ascii_of_string s), H.
    rewrite !string_of_list_ascii_append, string_of_list_ascii_of_string. reflexivity.
Qed.

(** The pattern built from a query matches the texts that contain the
    query, character for character. *)
Lemma searchPattern_contains (q text : string) :
  like (searchPattern q) (list_ascii_of_string text) = true <-> occursIn q text.
Proof.
  unfold searchPattern. cbn [List.app]. rewrite map_escaped, like_any, occursIn_lists.
  split.
  - intros (pre & post & Heq & H). apply like_literals in H.
    destruct H as (rest & -> & _). exists pre, rest. exact Heq.
  - intros (pre & post & Heq). exists pre, (list_ascii_of_string q ++ post).
    split; [exact Heq|]. apply like_literals. exists post.
    split; [reflexivity|apply like_any_alone].
Qed.

(** C7. For a non-empty query T and a channel name C, the search
    answers 200 with exactly the messages (each with its channel) whose
    content contains T as a literal substring and whose channel is
    named C; [%] and [_] in T stand for themselves. *)
Theorem search_text_and_channel :
  forall (queryRequired : string) (db : Db) (T C : string),
    T <> "" ->
    exists results : list (Message * Channel),
      search queryRequired db (Some T) (Some C) = Json 200 (mkSearchBody T (List.length results) results) /\
      forall (m : Message) (ch : Channel),
        In (m, ch) results
        <-> In (m, ch) (messagesWithChannel db)
            /\ occursIn T (message_content m) /\ channel_name ch = C.
Proof.
  intros queryRequired db T C Hne. unfold search. cbn [Query.truthy default].
  destruct (String.eqb_spec T "") as [->|_]; [contradiction|]. cbn [negb].
  eexists. split; [reflexivity|].
  intros m ch. rewrite List.filter_In. cbn [fst snd].
  rewrite andb_true_iff, searchPattern_contains, String.eqb_eq. tauto.
Qed.

(** Without escaping, [_] would match any character (scenario S4). *)
Example unescaped_underscore_matches_any :
  like ([AnyString] ++ List.map unescaped (list_ascii_of_string "_") ++ [AnyString])
       (list_ascii_of_string "cat") = true
  /\ like (searchPattern "_") (list_ascii_of_string "cat") = false.
Proof. split; vm_compute; reflexivity. Qed.

(** Scenarios S3 and S4, and a literal percent sign. *)
Example search_scenarios :
  contents (search "q is required" searchStore (Some "banana") (Some "#general"))
  = [("banana", "#general")]
  /\ contents (search "q is required" searchStore (Some "_") None) = [("a_b", "#general")]
  /\ contents (search "q is required" searchStore (Some "%") None) = [("100% sure", "#random")]
  /\ search "q is required" searchStore (Some "") None = Detail 400 "q is required"
  /\ search "q is required" searchStore None None = Detail 400 "q is required".
Proof. repeat split; vm_compute; reflexivity. Qed.

End SearchFacts.

(** Scenario S3: the query banana in #general. *)
Lemma search_text_and_channel_witness :
  exists results : list (Schema.Message * Schema.Channel),
    Search.search "q is required" SearchScenarios.searchStore (Some "banana") (Some "#general")
    = Json 200 (Search.mkSearchBody "banana" (List.length results) results) /\
    forall (m : Schema.Message) (ch : Schema.Channel),
      In (m, ch) results
      <-> In (m, ch) (Search.messagesWithChannel SearchScenarios.searchStore)
          /\ Search.occursIn "banana" (Schema.message_content m)
          /\ Schema.channel_name ch = "#general".
Proof.
  exact (search_text_and_channel "q is required" SearchScenarios.searchStore "banana"
           "#general" ltac:(discriminate)).
Defined.

(** ** The store and the migrations *)

Section SqliteFacts.
Import Sqlite Migrations MigrationSteps.

Lemma rowsOf_setTable t name tb db :
  rowsOf t (setTable name tb db) = if String.eqb name t then tbl_rows tb else rowsOf t db.
Proof.
  unfold rowsOf, setTable. cbn [tables].
  destruct (String.eqb_spec name t) as [->|Hne].
  - rewrite lookup_insert_eq. reflexivity.
  - rewrite lookup_insert_ne by exact Hne. reflexivity.
Qed.

Lemma rowsOf_present t tb db : tables db !! t = Some tb -> rowsOf t db = tbl_rows tb.
Proof. unfold rowsOf. intros ->. reflexivity. Qed.

Lemma rowsOf_absent t db : tables db !! t = None -> rowsOf t db = [].
Proof. unfold rowsOf. intros ->. reflexivity. Qed.

(** *** Column [k] of table [t] under one statement *)

Lemma exec1_keeps t k s db db' :
  keeps t k s = true -> exec1 s db = Some db' -> column t k db' = column t k db.
Proof.
  unfold column. destruct s as [name cols keys|idx tbl cols|tbl c|tbl values|tbl c v];
    cbn [keeps exec1]; intros Hk.
  - destruct (tables db !! name) eqn:E; intros [= <-]; [reflexivity|].
    rewrite rowsOf_setTable. destruct (String.eqb_spec name t) as [<-|_]; [|reflexivity].
    rewrite (rowsOf_absent _ _ E). reflexivity.
  - destruct (bool_decide (idx ∈ indexes db)); [intros [= <-]; reflexivity|].
    destruct (tables db !! tbl); [|discriminate].
    destruct (List.forallb _ cols); intros [= <-]; reflexivity.
  - destruct (tables db !! tbl) as [tb|] eqn:E; [|discriminate].
    destruct (hasColumnIn tb (col_name c)); [discriminate|]. intros [= <-].
    rewrite rowsOf_setTable. destruct (String.eqb_spec tbl t) as [<-|_]; [|reflexivity].
    cbn [tbl_rows]. rewrite (rowsOf_present _ _ _ E).
    destruct (col_default c) as [d|]; [|reflexivity].
    cbn [andb] in Hk. apply negb_true_iff in Hk. apply String.eqb_neq in Hk.
    rewrite List.map_map. apply List.map_ext. intros r.
    apply lookup_insert_ne. exact Hk.
  - destruct (tables db !! tbl) as [tb|] eqn:E; [|discriminate].
    destruct (negb (List.forallb _ values)); [discriminate|].
    destruct (conflicts tb _); intros [= <-]; [reflexivity|].
    rewrite rowsOf_setTable. apply negb_true_iff in Hk. rewrite Hk. reflexivity.
  - destruct (tables db !! tbl) as [tb|] eqn:E; [|discriminate].
    destruct (negb (hasColumnIn tb c)); [discriminate|].
    destruct (List.existsb _ _ && _); [discriminate|]. intros [= <-].
    rewrite rowsOf_setTable. destruct (String.eqb_spec tbl t) as [<-|_]; [|reflexivity].
    cbn [tbl_rows]. rewrite (rowsOf_present _ _ _ E).
    cbn [andb] in Hk. apply negb_true_iff in Hk. apply String.eqb_neq in Hk.
    rewrite List.map_map. apply List.map_ext. intros r.
    destruct (isNullAt c r); [|reflexivity]. apply lookup_insert_ne. exact Hk.
Qed.

Lemma exec_keeps t k script : forall db db',
  List.forallb (keeps t k) script = true -> exec script db = Some db' ->
  column t k db' = column t k db.
Proof.
  induction script as [|s rest IH]; intros db db' Hk; cbn [exec].
  - intros [= <-]. reflexivity.
  - cbn [List.forallb] in Hk. apply andb_prop in Hk. destruct Hk as [Hs Hrest].
    destruct (exec1 s db) as [db1|] eqn:E; [|discriminate]. intros H.
    rewrite (IH _ _ Hrest H). eapply exec1_keeps; eassumption.
Qed.

Lemma runStep_keeps t k st db db' :
  List.forallb (keeps t k) (stmtsOf st) = true -> runStep st db = Some db' ->
  column t k db' = column t k db.
Proof.
  destruct st as [script|s|tbl c script]; cbn [stmtsOf runStep]; intros Hk.
  - apply exec_keeps. exact Hk.
  - unfold tryExec. cbn [List.forallb] in Hk. rewrite andb_true_r in Hk.
    destruct (exec1 s db) as [db1|] eqn:E; intros [= <-]; [|reflexivity].
    eapply exec1_keeps; eassumption.
  - unfold unlessColumn. destruct (hasColumn tbl c db); [intros [= <-]; reflexivity|].
    apply exec_keeps. exact Hk.
Qed.

Lemma runSteps_keeps t k steps : forall db db',
  List.forallb (fun st => List.forallb (keeps t k) (stmtsOf st)) steps = true ->
  runSteps steps db = Some db' ->
  column t k db' = column t k db.
Proof.
  induction steps as [|st rest IH]; intros db db' Hk; cbn [runSteps].
  - intros [= <-]. reflexivity.
  - cbn [List.forallb] in Hk. apply andb_prop in Hk. destruct Hk as [Hs Hrest].
    destruct (runStep st db) as [db1|] eqn:E; [|discriminate]. intros H.
    rewrite (IH _ _ Hrest H). eapply runStep_keeps; eassumption.
Qed.

(** *** Columns and indexes only grow, keys stay *)

Lemma hasColumnIn_app tb c extra :
  hasColumnIn tb c = true ->
  hasColumnIn (mkTable (tbl_columns tb ++ [extra]) (tbl_keys tb) (tbl_rows tb)) c = true.
Proof.
  unfold hasColumnIn. cbn [tbl_columns]. rewrite List.existsb_app. intros ->. reflexivity.
Qed.

Lemma grows_refl db : grows db db.
Proof. split; auto. Qed.

Lemma grows_trans a b c : grows a b -> grows b c -> grows a c.
Proof. intros [H1 H2] [H3 H4]. split; auto. Qed.

Lemma hasColumn_setTable t c name tb db :
  hasColumn t c (setTable name tb db)
  = if String.eqb name t then hasColumnIn tb c else hasColumn t c db.
Proof.
  unfold hasColumn, setTable. cbn [tables].
  destruct (String.eqb_spec name t) as [->|Hne].
  - rewrite lookup_insert_eq. reflexivity.
  - rewrite lookup_insert_ne by exact Hne. reflexivity.
Qed.

Lemma grows_setTable name tb tb' db :
  tables db !! name = Some tb ->
  (forall c, hasColumnIn tb c = true -> hasColumnIn tb' c = true) ->
  grows db (setTable name tb' db).
Proof.
  intros E Hcols. split; [|intros i Hi; exact Hi].
  intros t c. rewrite hasColumn_setTable.
  destruct (String.eqb_spec name t) as [<-|_]; [|tauto].
  unfold hasColumn. rewrite E. apply Hcols.
Qed.

Lemma exec1_grows s db db' : exec1 s db = Some db' -> grows db db'.
Proof.
  destruct s as [name cols keys|idx tbl cols|tbl c|tbl values|tbl c v]; cbn [exec1].
  - destruct (tables db !! name) eqn:E; intros [= <-]; [apply grows_refl|].
    split; [|intros i Hi; exact Hi]. intros t c. rewrite hasColumn_setTable.
    destruct (String.eqb_spec name t) as [<-|_]; [|tauto].
    unfold hasColumn. rewrite E. discriminate.
  - destruct (bool_decide (idx ∈ indexes db)); [intros [= <-]; apply grows_refl|].
    destruct (tables db !! tbl); [|discriminate].
    destruct (List.forallb _ cols); intros [= <-].
    split; [tauto|]. cbn [indexes]. intros i Hi. apply elem_of_union. left. exact Hi.
  - destruct (tables db !! tbl) as [tb|] eqn:E; [|discriminate].
    destruct (hasColumnIn tb (col_name c)); [discriminate|]. intros [= <-].
    apply (grows_setTable _ tb); [exact E|]. intros c0 H.
    unfold hasColumnIn in *. cbn [tbl_columns]. rewrite List.existsb_app, H. reflexivity.
  - destruct (tables db !! tbl) as [tb|] eqn:E; [|discriminate].
    destruct (negb (List.forallb _ values)); [discriminate|].
    destruct (conflicts tb _); intros [= <-]; [apply grows_refl|].
    apply (grows_setTable _ tb); [exact E|]. tauto.
  - destruct (tables db !! tbl) as [tb|] eqn:E; [|discriminate].
    destruct (negb (hasColumnIn tb c)); [discriminate|].
    destruct (List.existsb _ _ && _); [discriminate|]. intros [= <-].
    apply (grows_setTable _ tb); [exact E|]. tauto.
Qed.

Lemma exec_grows script : forall db db', exec script db = Some db' -> grows db db'.
Proof.
  induction script as [|s rest IH]; intros db db'; cbn [exec].
  - intros [= <-]. apply grows_refl.
  - destruct (exec1 s db) as [db1|] eqn:E; [|discriminate]. intros H.
    eapply grows_trans; [eapply exec1_grows; exact E | apply IH; exact H].
Qed.

Lemma runStep_grows st db db' : runStep st db = Some db' -> grows db db'.
Proof.
  destruct st as [script|s|tbl c script]; cbn [runStep].
  - apply exec_grows.
  - unfold tryExec. destruct (exec1 s db) as [db1|] eqn:E; intros [= <-];
      [eapply exec1_grows; exact E | apply grows_refl].
  - unfold unlessColumn. destruct (hasColumn tbl c db); [intros [= <-]; apply grows_refl|].
    apply exec_grows.
Qed.

Lemma keyed_setTable t key name tb tb' db :
  tables db !! name = Some tb -> tbl_keys tb' = tbl_keys tb ->
  keyed t key db -> keyed t key (setTable name tb' db).
Proof.
  unfold keyed, setTable. cbn [tables]. intros E Hk.
  destruct (String.eqb_spec name t) as [<-|Hne].
  - rewrite lookup_insert_eq, E, Hk. tauto.
  - rewrite lookup_insert_ne by exact Hne. tauto.
Qed.

Lemma exec1_keyed t key s db db' :
  declaresKey t key s = true -> exec1 s db = Some db' -> keyed t key db -> keyed t key db'.
Proof.
  destruct s as [name cols keys|idx tbl cols|tbl c|tbl values|tbl c v];
    cbn [declaresKey exec1]; intros Hd.
  - destruct (tables db !! name) eqn:E; intros [= <-]; [tauto|].
    intros Hkd. unfold keyed, setTable in *. cbn [tables].
    destruct (String.eqb_spec name t) as [<-|Hne].
    + rewrite lookup_insert_eq. cbn [tbl_keys negb orb] in *.
      apply List.existsb_exists in Hd. destruct Hd as (k & Hin & Hk).
      apply bool_decide_eq_true in Hk. subst k. exact Hin.
    + rewrite lookup_insert_ne by exact Hne. exact Hkd.
  - destruct (bool_decide (idx ∈ indexes db)); [intros [= <-]; tauto|].
    destruct (tables db !! tbl); [|discriminate].
    destruct (List.forallb _ cols); intros [= <-]. tauto.
  - destruct (tables db !! tbl) as [tb|] eqn:E; [|discriminate].
    destruct (hasColumnIn tb (col_name c)); [discriminate|]. intros [= <-].
    apply (keyed_setTable _ _ _ tb); [exact E|reflexivity].
  - destruct (tables db !! tbl) as [tb|] eqn:E; [|discriminate].
    destruct (negb (List.forallb _ values)); [discriminate|].
    destruct (conflicts tb _); intros [= <-]; [tauto|].
    apply (keyed_setTable _ _ _ tb); [exact E|reflexivity].
  - destruct (tables db !! tbl) as [tb|] eqn:E; [|discriminate].
    destruct (negb (hasColumnIn tb c)); [discriminate|].
    destruct (List.existsb _ _ && _); [discriminate|]. intros [= <-].
    apply (keyed_setTable _ _ _ tb); [exact E|reflexivity].
Qed.

End SqliteFacts.

Section StepFacts.
Import Sqlite Migrations MigrationSteps.

Lemma runSteps_grows steps : forall db db', runSteps steps db = Some db' -> grows db db'.
Proof.
  induction steps as [|st rest IH]; intros db db'; cbn [runSteps].
  - intros [= <-]. apply grows_refl.
  - destruct (runStep st db) as [db1|] eqn:E; [|discriminate]. intros H.
    eapply grows_trans; [eapply runStep_grows; exact E | apply IH; exact H].
Qed.

Lemma exec_keyed t key script : forall db db',
  List.forallb (declaresKey t key) script = true ->
  exec script db = Some db' -> keyed t key db -> keyed t key db'.
Proof.
  induction script as [|s rest IH]; intros db db' Hd; cbn [exec].
  - intros [= <-]. tauto.
  - cbn [List.forallb] in Hd. apply andb_prop in Hd. destruct Hd as [Hs Hrest].
    destruct (exec1 s db) as [db1|] eqn:E; [|discriminate]. intros H Hk.
    apply (IH _ _ Hrest H). eapply exec1_keyed; eassumption.
Qed.

Lemma runSteps_keyed t key steps : forall db db',
  List.forallb (fun st => List.forallb (declaresKey t key) (stmtsOf st)) steps = true ->
  runSteps steps db = Some db' -> keyed t key db -> keyed t key db'.
Proof.
  induction steps as [|st rest IH]; intros db db' Hd; cbn [runSteps].
  - intros [= <-]. tauto.
  - cbn [List.forallb] in Hd. apply andb_prop in Hd. destruct Hd as [Hs Hrest].
    destruct (runStep st db) as [db1|] eqn:E; [|discriminate]. intros H Hk.
    apply (IH _ _ Hrest H). clear IH H Hrest.
    destruct st as [script|s|tbl c script]; cbn [stmtsOf runStep] in *.
    + eapply exec_keyed; eassumption.
    + unfold tryExec in E. cbn [List.forallb] in Hs. rewrite andb_true_r in Hs.
      destruct (exec1 s db) as [db2|] eqn:E2; injection E as <-; [|exact Hk].
      eapply exec1_keyed; eassumption.
    + unfold unlessColumn in E. destruct (hasColumn tbl c db); [injection E as <-; exact Hk|].
      eapply exec_keyed; eassumption.
Qed.

Lemma exec_creates_index i script : forall db db',
  List.existsb (fun s => match s with
                         | CreateIndex i' _ _ => String.eqb i' i
                         | _ => false
                         end) script = true ->
  exec script db = Some db' -> i ∈ indexes db'.
Proof.
  induction script as [|s rest IH]; intros db db'; cbn [List.existsb exec]; [discriminate|].
  intros Hex. destruct (exec1 s db) as [db1|] eqn:E; [|discriminate]. intros H.
  apply orb_prop in Hex. destruct Hex as [Hs|Hrest]; [|eapply IH; eassumption].
  destruct s as [| i' tbl cols | | |]; try discriminate.
  apply String.eqb_eq in Hs. subst i'.
  apply (proj2 (exec_grows _ _ _ H)).
  cbn [exec1] in E. destruct (bool_decide_reflect (i ∈ indexes db)) as [Hin|_].
  - injection E as <-. exact Hin.
  - destruct (tables db !! tbl); [|discriminate].
    destruct (List.forallb _ cols); [|discriminate]. injection E as <-.
    cbn [indexes]. apply elem_of_union. right. apply elem_of_singleton. reflexivity.
Qed.

Lemma runSteps_creates_index i steps : forall db db',
  List.existsb (createsIndex i) steps = true ->
  runSteps steps db = Some db' -> i ∈ indexes db'.
Proof.
  induction steps as [|st rest IH]; intros db db'; cbn [List.existsb runSteps]; [discriminate|].
  intros Hex. destruct (runStep st db) as [db1|] eqn:E; [|discriminate]. intros H.
  apply orb_prop in Hex. destruct Hex as [Hs|Hrest]; [|eapply IH; eassumption].
  apply (proj2 (runSteps_grows _ _ _ H)).
  destruct st as [script| |]; try discriminate. cbn [createsIndex runStep] in *.
  eapply exec_creates_index; eassumption.
Qed.

Lemma addColumn_has t column db db' :
  exec1 (AddColumn t column) db = Some db' -> hasColumn t (col_name column) db' = true.
Proof.
  cbn [exec1]. destruct (tables db !! t) as [tb|]; [|discriminate].
  destruct (hasColumnIn tb (col_name column)); [discriminate|]. intros [= <-].
  rewrite hasColumn_setTable, String.eqb_refl. unfold hasColumnIn. cbn [tbl_columns].
  rewrite List.existsb_app. cbn [List.existsb]. rewrite String.eqb_refl, orb_true_r.
  reflexivity.
Qed.

Lemma runSteps_ensures_column t c steps : forall db db',
  List.existsb (ensuresColumn t c) steps = true ->
  runSteps steps db = Some db' -> hasColumn t c db' = true.
Proof.
  induction steps as [|st rest IH]; intros db db'; cbn [List.existsb runSteps]; [discriminate|].
  intros Hex. destruct (runStep st db) as [db1|] eqn:E; [|discriminate]. intros H.
  apply orb_prop in Hex. destruct Hex as [Hs|Hrest]; [|eapply IH; eassumption].
  apply (proj1 (runSteps_grows _ _ _ H)).
  destruct st as [script | s | t' c' script]; try discriminate.
  destruct script as [ | s rest']; try discriminate.
  destruct s as [ | | t'' column | | ]; try discriminate.
  destruct rest'; try discriminate.
  cbn [ensuresColumn] in Hs.
  apply andb_prop in Hs. destruct Hs as [Hs H4].
  apply andb_prop in Hs. destruct Hs as [Hs H3].
  apply andb_prop in Hs. destruct Hs as [H1 H2].
  apply String.eqb_eq in H1, H2, H3, H4. subst t' c' t'' c.
  cbn [runStep] in E. unfold unlessColumn in E.
  destruct (hasColumn t (col_name column) db) eqn:Hc; [injection E as <-; exact Hc|].
  cbn [exec] in E. destruct (exec1 (AddColumn t column) db) as [db2|] eqn:E2; [|discriminate].
  injection E as <-. eapply addColumn_has. exact E2.
Qed.

(** *** INSERT OR IGNORE and the backfill UPDATE *)

Lemma forallb_pointwise {A} (f g : A -> bool) (l : list A) :
  (forall x, f x = g x) -> List.forallb f l = List.forallb g l.
Proof.
  intros H. induction l as [|x l IH]; cbn [List.forallb]; [reflexivity|].
  rewrite H, IH. reflexivity.
Qed.

Lemma rowOfValues_given tb values k v :
  (list_to_map values : gmap string string) !! k = Some v ->
  rowOfValues tb values !! k = Some v.
Proof.
  unfold rowOfValues. intros H.
  induction (tbl_columns tb) as [|c cols IH]; cbn [List.fold_right]; [exact H|].
  set (acc := List.fold_right _ _ cols) in *.
  destruct (acc !! col_name c) eqn:E; [exact IH|].
  destruct (col_default c) as [d|]; [|exact IH].
  rewrite lookup_insert_ne; [exact IH|]. intros Heq. rewrite Heq in E. congruence.
Qed.

Lemma update_column t c v db db' :
  exec1 (UpdateWhereNull t c v) db = Some db' ->
  column t c db' = List.map (fun o => Some (default v o)) (column t c db)
  /\ hasColumn t c db' = true.
Proof.
  cbn [exec1]. destruct (tables db !! t) as [tb|] eqn:E; [|discriminate].
  destruct (hasColumnIn tb c) eqn:Hc; cbn [negb]; [|discriminate].
  destruct (List.existsb _ _ && _); [discriminate|]. intros [= <-]. split.
  - unfold column. rewrite rowsOf_setTable, String.eqb_refl, (rowsOf_present _ _ _ E).
    cbn [tbl_rows]. rewrite !List.map_map. apply List.map_ext. intros r.
    unfold isNullAt. destruct (r !! c) eqn:Er; cbn [default]; [exact Er|].
    apply lookup_insert_eq.
  - rewrite hasColumn_setTable, String.eqb_refl. exact Hc.
Qed.

Lemma update_noop t c v db :
  hasColumn t c db = true ->
  Forall (fun o : option string => o <> None) (column t c db) ->
  exec1 (UpdateWhereNull t c v) db = Some db.
Proof.
  unfold hasColumn, column, rowsOf. cbn [exec1].
  destruct (tables db !! t) as [tb|] eqn:E; [|discriminate].
  intros Hc Hall. rewrite Hc. cbn [negb].
  assert (Hnull : forall r, In r (tbl_rows tb) -> isNullAt c r = false).
  { intros r Hin. rewrite List.Forall_forall in Hall.
    specialize (Hall (r !! c) (List.in_map _ _ _ Hin)).
    unfold isNullAt. destruct (r !! c); [reflexivity|contradiction]. }
  assert (Hex : List.existsb (isNullAt c) (tbl_rows tb) = false).
  { apply not_true_is_false. intros H. apply List.existsb_exists in H.
    destruct H as (r & Hin & Hr). rewrite (Hnull r Hin) in Hr. discriminate. }
  rewrite Hex. cbn [andb]. f_equal.
  assert (Hmap : List.map (fun r => if isNullAt c r then <[c:=v]> r else r) (tbl_rows tb)
                 = tbl_rows tb).
  { rewrite <- (List.map_id (tbl_rows tb)) at 2. apply List.map_ext_in.
    intros r Hin. rewrite (Hnull r Hin). reflexivity. }
  rewrite Hmap. unfold setTable. destruct db as [tbs idx]. cbn [tables indexes] in *.
  f_equal. destruct tb as [cols keys rows]. cbn [tbl_columns tbl_keys tbl_rows].
  apply insert_id. exact E.
Qed.

Lemma insert_into_empty t values db db' :
  rowsOf t db = [] ->
  exec1 (InsertOrIgnore t values) db = Some db' ->
  exists tb, tables db !! t = Some tb
             /\ rowsOf t db' = [rowOfValues tb values]
             /\ List.forallb (fun cv => hasColumn t (fst cv) db) values = true.
Proof.
  cbn [exec1]. intros Hrows. destruct (tables db !! t) as [tb|] eqn:E; [|discriminate].
  rewrite (rowsOf_present _ _ _ E) in Hrows.
  destruct (List.forallb (fun cv => hasColumnIn tb (fst cv)) values) eqn:Hcols;
    cbn [negb]; [|discriminate].
  unfold conflicts. rewrite Hrows. cbn [List.existsb List.app]. intros [= <-].
  exists tb. split; [reflexivity|]. split.
  - rewrite rowsOf_setTable, String.eqb_refl. reflexivity.
  - rewrite <- Hcols. apply forallb_pointwise. intros cv. unfold hasColumn. rewrite E.
    reflexivity.
Qed.

Lemma insert_conflict t values key db r v :
  keyed t key db ->
  key = ["id"] ->
  In r (rowsOf t db) -> r !! "id" = Some v ->
  (list_to_map values : gmap string string) !! "id" = Some v ->
  List.forallb (fun cv => hasColumn t (fst cv) db) values = true ->
  is_Some (tables db !! t) ->
  exec1 (InsertOrIgnore t values) db = Some db.
Proof.
  intros Hkey -> Hin Hr Hv Hcols [tb E]. cbn [exec1]. unfold keyed in Hkey.
  rewrite E in *. rewrite (rowsOf_present _ _ _ E) in Hin.
  assert (Hc : List.forallb (fun cv => hasColumnIn tb (fst cv)) values = true).
  { rewrite <- Hcols. apply forallb_pointwise. intros cv. unfold hasColumn. rewrite E.
    reflexivity. }
  rewrite Hc. cbn [negb].
  assert (Hconf : conflicts tb (rowOfValues tb values) = true).
  { unfold conflicts. apply List.existsb_exists. exists r. split; [exact Hin|].
    apply List.existsb_exists. exists ["id"]. split; [exact Hkey|].
    cbn [sameKey List.forallb]. rewrite Hr, (rowOfValues_given tb values "id" v Hv).
    rewrite String.eqb_refl. reflexivity. }
  rewrite Hconf. reflexivity.
Qed.

End StepFacts.

Section InitializeFacts.
Import Sqlite Migrations MigrationSteps.

Lemma exec_single s db : exec [s] db = exec1 s db.
Proof. cbn [exec]. destruct (exec1 s db); reflexivity. Qed.

Lemma runSteps_app l1 l2 db :
  runSteps (l1 ++ l2) db
  = match runSteps l1 db with
    | Some db1 => runSteps l2 db1
    | None => None
    end.
Proof.
  revert db. induction l1 as [|st l1 IH]; intros db; cbn [List.app runSteps]; [reflexivity|].
  destruct (runStep st db); [apply IH|reflexivity].
Qed.

(** [getDb]'s initialization is the list of steps, in order. *)
Lemma initialize_steps now db : initialize now db = runSteps (allSteps now) db.
Proof.
  unfold initialize, createTables, migrateSchema, migrateUp, runMigrations,
    ensureDefaultWorkspace, allSteps, schemaSteps.
  cbn [List.app runSteps runStep mbind option_bind].
  repeat (rewrite ?exec_single;
          match goal with
          | |- context [match ?x with Some _ => _ | None => _ end] =>
              match x with
              | exec _ _ => destruct x eqn:?
              | exec1 _ _ => destruct x eqn:?
              | unlessColumn _ _ _ _ => destruct x eqn:?
              end; cbn [mbind option_bind]
          end); try reflexivity.
Qed.

Lemma column_nil t k db : column t k db = [] -> rowsOf t db = [].
Proof. unfold column. apply List.map_eq_nil. Qed.

Lemma column_Forall t k db (P : option string -> Prop) :
  Forall P (column t k db) <-> Forall (fun r : gmap string string => P (r !! k)) (rowsOf t db).
Proof. unfold column. apply List.Forall_map. Qed.

(** Apart from [workspace_id] and the default of [is_archived], no
    column of the channels changes. *)
Lemma initialize_keeps_channels now k db db' :
  k <> "workspace_id" -> k <> "is_archived" ->
  runSteps (allSteps now) db = Some db' ->
  column "channels" k db' = column "channels" k db.
Proof.
  intros H1 H2. apply runSteps_keeps.
  assert (E1 : String.eqb "workspace_id" k = false) by (apply String.eqb_neq; congruence).
  assert (E2 : String.eqb "is_archived" k = false) by (apply String.eqb_neq; congruence).
  cbv [allSteps schemaSteps createTablesScript reactionsScript ensureDefaultWorkspaceScript
       List.app List.forallb stmtsOf keeps col colDefault colRef col_default col_name
       andb negb].
  rewrite ?E1, ?E2.
  repeat match goal with
         | |- context [String.eqb ?a "channels"] =>
             let b := eval vm_compute in (String.eqb a "channels") in
             change (String.eqb a "channels") with b
         end.
  cbv [andb negb]. rewrite ?E1, ?E2. reflexivity.
Qed.

Lemma initialize_keeps_agents now k db db' :
  k <> "workspace_id" ->
  runSteps (allSteps now) db = Some db' ->
  column "agents" k db' = column "agents" k db.
Proof.
  intros H1. apply runSteps_keeps.
  assert (E1 : String.eqb "workspace_id" k = false) by (apply String.eqb_neq; congruence).
  cbv [allSteps schemaSteps createTablesScript reactionsScript ensureDefaultWorkspaceScript
       List.app List.forallb stmtsOf keeps col colDefault colRef col_default col_name
       andb negb].
  repeat match goal with
         | |- context [String.eqb ?a "agents"] =>
             let b := eval vm_compute in (String.eqb a "agents") in
             change (String.eqb a "agents") with b
         end.
  cbv [andb negb]. rewrite ?E1. reflexivity.
Qed.


Lemma exec1_keeps_after t k s db db' :
  exec1 s db = Some db' -> keeps t k s = true -> column t k db' = column t k db.
Proof. intros H Hk. eapply exec1_keeps; eassumption. Qed.

(** Once the columns and indexes are there, [runMigrations] is
    [ensureDefaultWorkspace]. *)
Lemma runMigrations_settled now db :
  hasColumn "channels" "workspace_id" db = true ->
  "idx_channels_workspace" ∈ indexes db ->
  hasColumn "agents" "workspace_id" db = true ->
  "idx_agents_workspace" ∈ indexes db ->
  hasColumn "users" "email" db = true ->
  hasColumn "users" "avatar_url" db = true ->
  runMigrations now db = ensureDefaultWorkspace now db.
Proof.
  intros F1 F2 F3 F4 F5 F6. unfold runMigrations, unlessColumn.
  rewrite F1. cbn [mbind option_bind exec1].
  rewrite (bool_decide_eq_true_2 _ F2). cbn [mbind option_bind].
  rewrite F3. cbn [mbind option_bind exec1].
  rewrite (bool_decide_eq_true_2 _ F4). cbn [mbind option_bind].
  rewrite F5. cbn [mbind option_bind]. rewrite F6. reflexivity.
Qed.

(** C6, as the code has it. After the initialization of a store that
    predates workspaces: the default workspace (all-zero id) exists;
    every channel row and every agent row is a row that was there
    before, now with [workspace_id] set to the default workspace (the
    other columns keep their values, [is_archived] apart, which
    receives its default); the [workspace_members] table is empty;
    and running the migrations again, at any later time, leaves the
    database as it is. *)
Theorem initialize_backfills_default_workspace :
  forall (now : string) (db db' : Database),
    predatesWorkspaces db ->
    initialize now db = Some db' ->
    (exists w, In w (rowsOf "workspaces" db') /\ w !! "id" = Some DEFAULT_WORKSPACE_ID) /\
    Forall (fun r => r !! "workspace_id" = Some DEFAULT_WORKSPACE_ID) (rowsOf "channels" db') /\
    Forall (fun r => r !! "workspace_id" = Some DEFAULT_WORKSPACE_ID) (rowsOf "agents" db') /\
    (forall k, k <> "workspace_id" -> k <> "is_archived" ->
               column "channels" k db' = column "channels" k db) /\
    (forall k, k <> "workspace_id" -> column "agents" k db' = column "agents" k db) /\
    rowsOf "workspace_members" db' = [] /\
    (forall again : string, runMigrations again db' = Some db').
Proof.
  intros now db db' (Hws & Hwm & Hcc & Hca & Hcn & Han) Hinit.
  rewrite initialize_steps in Hinit. pose proof Hinit as Hall.
  unfold allSteps in Hinit. rewrite runSteps_app in Hinit.
  destruct (runSteps schemaSteps db) as [db6|] eqn:Hsteps; [|discriminate].
  cbn [runSteps runStep] in Hinit.
  destruct (exec (ensureDefaultWorkspaceScript now) db6) as [db9|] eqn:Hens; [|discriminate].
  injection Hinit as ->.
  unfold ensureDefaultWorkspaceScript in Hens. cbn [exec] in Hens.
  destruct (exec1 (InsertOrIgnore "workspaces" _) db6) as [db7|] eqn:H1; [|discriminate].
  destruct (exec1 (UpdateWhereNull "channels" _ _) db7) as [db8|] eqn:H2; [|discriminate].
  destruct (exec1 (UpdateWhereNull "agents" _ _) db8) as [db9'|] eqn:H3; [|discriminate].
  injection Hens as ->.
  (* the workspaces table is empty before the insert *)
  assert (Hw6 : rowsOf "workspaces" db6 = []).
  { apply (column_nil _ "id").
    rewrite (runSteps_keeps "workspaces" "id" schemaSteps db db6 eq_refl Hsteps).
    unfold column. rewrite (rowsOf_absent _ _ Hws). reflexivity. }
  destruct (insert_into_empty _ _ _ _ Hw6 H1) as (tb & Htb & Hw7 & Hcols).
  set (values := [("id", DEFAULT_WORKSPACE_ID); ("name", "Default");
                  ("slug", DEFAULT_WORKSPACE_SLUG); ("type", "personal");
                  ("description", "Auto-created default workspace");
                  ("created_by", "system"); ("created_at", now)]) in *.
  assert (Hid : rowOfValues tb values !! "id" = Some DEFAULT_WORKSPACE_ID).
  { apply rowOfValues_given. reflexivity. }
  assert (Hwcol : column "workspaces" "id" db' = [Some DEFAULT_WORKSPACE_ID]).
  { rewrite (exec1_keeps_after _ _ _ _ _ H3) by reflexivity.
    rewrite (exec1_keeps_after _ _ _ _ _ H2) by reflexivity.
    unfold column. rewrite Hw7. cbn [List.map]. rewrite Hid. reflexivity. }
  assert (Hwrow : exists w, In w (rowsOf "workspaces" db')
                            /\ w !! "id" = Some DEFAULT_WORKSPACE_ID).
  { unfold column in Hwcol. destruct (rowsOf "workspaces" db') as [|w rest]; [discriminate|].
    cbn [List.map] in Hwcol. injection Hwcol as Hw _. exists w. split; [left; reflexivity|exact Hw]. }
  (* channels *)
  assert (Hc8 : column "channels" "workspace_id" db8
                = List.map (fun _ => Some DEFAULT_WORKSPACE_ID) (rowsOf "channels" db)).
  { rewrite (proj1 (update_column _ _ _ _ _ H2)).
    rewrite (exec1_keeps_after _ _ _ _ _ H1) by reflexivity.
    rewrite (runSteps_keeps "channels" "workspace_id" schemaSteps db db6 eq_refl Hsteps).
    unfold column. rewrite List.map_map. apply List.map_ext_in. intros r Hin.
    rewrite List.Forall_forall in Hcn. rewrite (Hcn r Hin). reflexivity. }
  assert (Hc9 : Forall (fun o => o = Some DEFAULT_WORKSPACE_ID)
                       (column "channels" "workspace_id" db')).
  { rewrite (exec1_keeps_after _ _ _ _ _ H3) by reflexivity. rewrite Hc8.
    apply List.Forall_map. apply List.Forall_forall. intros; reflexivity. }
  (* agents *)
  assert (Ha9 : Forall (fun o => o = Some DEFAULT_WORKSPACE_ID)
                       (column "agents" "workspace_id" db')).
  { rewrite (proj1 (update_column _ _ _ _ _ H3)).
    rewrite (exec1_keeps_after _ _ _ _ _ H2) by reflexivity.
    rewrite (exec1_keeps_after _ _ _ _ _ H1) by reflexivity.
    rewrite (runSteps_keeps "agents" "workspace_id" schemaSteps db db6 eq_refl Hsteps).
    unfold column. rewrite List.map_map. apply List.Forall_map. apply List.Forall_forall.
    intros r Hin. rewrite List.Forall_forall in Han. rewrite (Han r Hin). reflexivity. }
  split; [exact Hwrow|].
  split; [apply (column_Forall "channels" "workspace_id" db'
                   (fun o => o = Some DEFAULT_WORKSPACE_ID)); exact Hc9|].
  split; [apply (column_Forall "agents" "workspace_id" db'
                   (fun o => o = Some DEFAULT_WORKSPACE_ID)); exact Ha9|].
  split; [intros k Hk1 Hk2; eapply initialize_keeps_channels; eassumption|].
  split; [intros k Hk1; eapply initialize_keeps_agents; eassumption|].
  split.
  { apply (column_nil _ "user_id").
    rewrite (runSteps_keeps "workspace_members" "user_id" (allSteps now) db db' eq_refl Hall).
    unfold column. rewrite (rowsOf_absent _ _ Hwm). reflexivity. }
  (* running the migrations again *)
  intros again.
  pose proof (exec1_grows _ _ _ H1) as G1.
  pose proof (exec1_grows _ _ _ H2) as G2.
  pose proof (exec1_grows _ _ _ H3) as G3.
  pose proof (grows_trans _ _ _ G1 (grows_trans _ _ _ G2 G3)) as G.
  assert (F1 : hasColumn "channels" "workspace_id" db' = true).
  { apply (proj1 G3). exact (proj2 (update_column _ _ _ _ _ H2)). }
  assert (F3 : hasColumn "agents" "workspace_id" db' = true).
  { exact (proj2 (update_column _ _ _ _ _ H3)). }
  rewrite runMigrations_settled;
    [ | exact F1
      | apply (proj2 G);
        exact (runSteps_creates_index "idx_channels_workspace" schemaSteps db db6 eq_refl Hsteps)
      | exact F3
      | apply (proj2 G);
        exact (runSteps_creates_index "idx_agents_workspace" schemaSteps db db6 eq_refl Hsteps)
      | apply (proj1 G);
        exact (runSteps_ensures_column "users" "email" schemaSteps db db6 eq_refl Hsteps)
      | apply (proj1 G);
        exact (runSteps_ensures_column "users" "avatar_url" schemaSteps db db6 eq_refl Hsteps) ].
  unfold ensureDefaultWorkspace, ensureDefaultWorkspaceScript. cbn [exec].
  destruct Hwrow as (w & Hwin & Hwid).
  rewrite (insert_conflict "workspaces" _ ["id"] db' w DEFAULT_WORKSPACE_ID).
  - rewrite (update_noop "channels" "workspace_id" _ db' F1).
    + rewrite (update_noop "agents" "workspace_id" _ db' F3); [reflexivity|].
      eapply List.Forall_impl; [|exact Ha9]. intros o ->. discriminate.
    + eapply List.Forall_impl; [|exact Hc9]. intros o ->. discriminate.
  - eapply exec1_keyed; [|exact H3|]; [reflexivity|].
    eapply exec1_keyed; [|exact H2|]; [reflexivity|].
    eapply exec1_keyed; [|exact H1|]; [reflexivity|].
    apply (runSteps_keyed "workspaces" ["id"] schemaSteps db db6 eq_refl Hsteps).
    unfold keyed. rewrite Hws. exact I.
  - reflexivity.
  - exact Hwin.
  - exact Hwid.
  - reflexivity.
  - subst values. cbn [List.forallb fst] in *.
    repeat match goal with
           | H : _ && _ = true |- _ => apply andb_prop in H; destruct H
           end.
    repeat (apply andb_true_intro; split); try reflexivity; apply (proj1 G); assumption.
  - assert (Hh : hasColumn "workspaces" "id" db' = true).
    { subst values. cbn [List.forallb fst] in Hcols. apply andb_prop in Hcols.
      apply (proj1 G). exact (proj1 Hcols). }
    unfold hasColumn in Hh. destruct (tables db' !! "workspaces"); [eauto|discriminate].
Qed.

(** C6 fails on the membership of the human: after the initialization
    of the legacy store, its human user is still there and no row of
    [workspace_members] makes them an admin of the default workspace. *)
Lemma initialize_adds_no_member :
  option_map
    (fun db' =>
       (column "users" "type" db',
        List.existsb (isDefaultAdmin "u-boss") (rowsOf "workspace_members" db'),
        List.length (rowsOf "workspace_members" db')))
    (initialize "2026-02-18T10:00:00.000Z" legacyStore)
  = Some ([Some "human"; Some "agent"], false, O).
Proof. vm_compute. reflexivity. Qed.

End InitializeFacts.

Lemma null_column_by_test (c : string) (rows : list (gmap string string)) :
  List.forallb (Sqlite.isNullAt c) rows = true -> Forall (fun r => r !! c = None) rows.
Proof.
  intros H. apply List.Forall_forall. intros r Hin.
  pose proof (proj1 (List.forallb_forall _ _) H r Hin) as Hr.
  unfold Sqlite.isNullAt in Hr. destruct (r !! c); [discriminate|reflexivity].
Qed.

(** The legacy store predates workspaces and initializes without error. *)
Lemma initialize_backfills_default_workspace_witness :
  exists db',
    Migrations.initialize "2026-02-18T10:00:00.000Z" Migrations.legacyStore = Some db' /\
    forall again : string, Migrations.runMigrations again db' = Some db'.
Proof.
  assert (Hpre : Migrations.predatesWorkspaces Migrations.legacyStore).
  { unfold Migrations.predatesWorkspaces.
    split; [vm_compute; reflexivity|]. split; [vm_compute; reflexivity|].
    split; [vm_compute; reflexivity|]. split; [vm_compute; reflexivity|].
    split; apply null_column_by_test; vm_compute; reflexivity. }
  assert (Hruns : match Migrations.initialize "2026-02-18T10:00:00.000Z" Migrations.legacyStore
                  with Some _ => true | None => false end = true).
  { vm_compute. reflexivity. }
  destruct (Migrations.initialize "2026-02-18T10:00:00.000Z" Migrations.legacyStore)
    as [db'|] eqn:E; [|discriminate Hruns].
  exists db'. split; [reflexivity|].
  exact (proj2 (proj2 (proj2 (proj2 (proj2 (proj2
           (initialize_backfills_default_workspace _ _ db' Hpre E))))))).
Defined.

(** ** More on the WebSocket connection manager *)

Section ManagerRuns.
Import WsManager WsObservations.

Lemma acceptedIds_app l1 l2 : acceptedIds (l1 ++ l2) = acceptedIds l1 ++ acceptedIds l2.
Proof. unfold acceptedIds. apply List.flat_map_app. Qed.

Lemma acceptedIds_received {A} (f : A -> Obs) (l : list A) :
  (forall a i W, f a <> Accepted i W) -> acceptedIds (List.map f l) = [].
Proof.
  intros Hf. induction l as [|a l IH]; [reflexivity|].
  cbn [List.map]. change (acceptedIds (f a :: List.map f l))
    with (match f a with Accepted id _ => [id] | _ => [] end ++ acceptedIds (List.map f l)).
  rewrite IH. pose proof (Hf a) as Ha. destruct (f a); try reflexivity.
  exfalso. eapply Ha. reflexivity.
Qed.

(** A call either accepts nobody and leaves [nextId] alone, or is an
    [acceptClient] that hands out [nextId] and increments it. *)
Lemma step_accepts m op :
  (acceptedIds (snd (step m op)) = [] /\ nextId (fst (step m op)) = nextId m) \/
  (acceptedIds (snd (step m op)) = [nextId m] /\ nextId (fst (step m op)) = S (nextId m)).
Proof.
  destruct op as [w u|id|id chans|id chans|id now|throws ev w|throws ch ev excl];
    cbn [step fst snd].
  - right. split; reflexivity.
  - left. split; [reflexivity|]. unfold disconnectClient. rewrite socket_id. reflexivity.
  - left. split; [reflexivity|]. unfold subscribe, updateSubscriptions. rewrite socket_id.
    destruct (map_get id (clients m)); reflexivity.
  - left. split; [reflexivity|]. unfold unsubscribe, updateSubscriptions. rewrite socket_id.
    destruct (map_get id (clients m)); reflexivity.
  - left. split.
    + destruct (fst (isRateLimited (socket id m) now m)); reflexivity.
    + unfold isRateLimited. rewrite socket_id. destruct (map_get id (clients m)); reflexivity.
  - left. split; [|reflexivity]. apply acceptedIds_received. intros; discriminate.
  - left. split; [|reflexivity]. apply acceptedIds_received. intros; discriminate.
Qed.

Lemma run_accepts ops : forall m,
  (nextId m <= nextId (fst (run ops m)))%nat /\
  acceptedIds (snd (run ops m))
  = List.seq (nextId m) (nextId (fst (run ops m)) - nextId m).
Proof.
  induction ops as [|op ops IH]; intros m; cbn [run fst snd].
  - split; [lia|]. rewrite Nat.sub_diag. reflexivity.
  - destruct (IH (fst (step m op))) as [Hle Hseq].
    rewrite acceptedIds_app, Hseq.
    destruct (step_accepts m op) as [[-> Hn]|[-> Hn]]; rewrite Hn in *.
    + split; [exact Hle|reflexivity].
    + split; [lia|].
      replace (nextId (fst (run ops (fst (step m op)))) - nextId m)%nat
        with (S (nextId (fst (run ops (fst (step m op)))) - S (nextId m)))%nat by lia.
      reflexivity.
Qed.

(** X1. In every run of the manager the ids handed out by
    [acceptClient] are 1, 2, 3, ... in the order of the calls: an id is
    never handed out twice, whatever was disconnected or dropped in
    between. *)
Theorem acceptClient_ids_count_up :
  forall ops : list Op,
    acceptedIds (snd (run ops initial))
    = List.seq 1 (nextId (fst (run ops initial)) - 1) /\
    List.NoDup (acceptedIds (snd (run ops initial))).
Proof.
  intros ops. destruct (run_accepts ops initial) as [_ Hseq].
  cbn [initial nextId] in Hseq. split; [exact Hseq|].
  rewrite Hseq. apply List.seq_NoDup.
Qed.

Lemma map_get_map_delete id cs : map_get id (map_delete id cs) = None.
Proof.
  unfold map_delete. induction cs as [|[k c] rest IH]; [reflexivity|].
  cbn [List.filter fst]. destruct (Nat.eqb_spec k id) as [->|Hne]; cbn [negb].
  - exact IH.
  - cbn [map_get]. destruct (Nat.eqb_spec k id); [contradiction|exact IH].
Qed.

(** X2. A socket that was disconnected is unknown to the manager: its
    frames are rejected by the rate limiter without any change of
    state, it has no user id, and subscribing or unsubscribing it does
    nothing.  The same holds for a socket that was never accepted. *)
Theorem disconnectClient_forgets_socket :
  forall (ws : WsData) (m : Manager) (now : Z) (channelIds : list string),
    let m' := disconnectClient ws m in
    isRateLimited ws now m' = (true, m') /\
    getClientUserId ws m' = None /\
    subscribe ws channelIds m' = m' /\
    unsubscribe ws channelIds m' = m'.
Proof.
  intros ws m now chans m'. subst m'.
  unfold disconnectClient, isRateLimited, getClientUserId, subscribe, unsubscribe,
    updateSubscriptions.
  destruct (data_id ws) as [id|] eqn:Hid.
  - cbn [clients]. rewrite map_get_map_delete. repeat split; reflexivity.
  - repeat split; reflexivity.
Qed.

Lemma fold_subscribe (chans : list string) : forall s : gset string,
  List.fold_left (fun s ch => s ∪ {[ch]}) chans s = s ∪ list_to_set chans.
Proof.
  induction chans as [|ch chans IH]; intros s; cbn [List.fold_left list_to_set].
  - symmetry. apply (right_id_L ∅ (∪)).
  - rewrite IH. symmetry. apply (assoc_L (∪)).
Qed.

Lemma fold_unsubscribe (chans : list string) : forall s : gset string,
  List.fold_left (fun s ch => s ∖ {[ch]}) chans s = s ∖ list_to_set chans.
Proof.
  induction chans as [|ch chans IH]; intros s; cbn [List.fold_left list_to_set].
  - symmetry. apply difference_empty_L.
  - rewrite IH. apply difference_difference_l_L.
Qed.

Lemma map_set_map_set id c1 c2 cs : map_set id c2 (map_set id c1 cs) = map_set id c2 cs.
Proof.
  induction cs as [|[k c] rest IH]; cbn [map_set].
  - rewrite Nat.eqb_refl. reflexivity.
  - destruct (Nat.eqb k id) eqn:E; cbn [map_set]; rewrite E; [reflexivity|].
    rewrite IH. reflexivity.
Qed.

Lemma map_set_same id c cs : map_get id cs = Some c -> map_set id c cs = cs.
Proof.
  induction cs as [|[k c0] rest IH]; cbn [map_get map_set]; [discriminate|].
  destruct (Nat.eqb_spec k id) as [->|Hne].
  - intros [= ->]. reflexivity.
  - intros H. rewrite (IH H). reflexivity.
Qed.

(** X3. Unsubscribing from the channels a connected client has just
    subscribed to gives back the state before the subscription, when
    the client was subscribed to none of them before. *)
Theorem unsubscribe_undoes_subscribe :
  forall (ws : WsData) (id : nat) (client : WsClient) (channelIds : list string)
         (m : Manager),
    data_id ws = Some id ->
    map_get id (clients m) = Some client ->
    (forall ch, In ch channelIds -> ch ∉ client_subscribedChannels client) ->
    unsubscribe ws channelIds (subscribe ws channelIds m) = m.
Proof.
  intros ws id client chans m Hid Hget Hnew.
  unfold unsubscribe, subscribe, updateSubscriptions. rewrite Hid, Hget.
  cbn [clients nextId]. rewrite map_get_map_set, Nat.eqb_refl.
  cbn [client_workspaceId client_userId client_subscribedChannels client_recentMessages].
  rewrite map_set_map_set, fold_subscribe, fold_unsubscribe.
  assert (Hset : (client_subscribedChannels client ∪ list_to_set chans) ∖ list_to_set chans
                 = client_subscribedChannels client).
  { apply set_eq. intros ch. rewrite elem_of_difference, elem_of_union, elem_of_list_to_set.
    split; [intros [[H|H] Hn]; [exact H|contradiction]|].
    intros H. split; [left; exact H|]. intros Hin. apply list_elem_of_In in Hin.
    exact (Hnew ch Hin H). }
  rewrite Hset. destruct client as [w u subs recent].
  cbn [client_workspaceId client_userId client_subscribedChannels client_recentMessages].
  rewrite (map_set_same _ _ _ Hget). destruct m; reflexivity.
Qed.

(** X4. Subscriptions take effect on the next fan-out: in any state a
    run can reach, a connected client whose socket takes the send and
    who is not the excluded sender receives a [broadcastToChannel] for
    a channel right after subscribing to it, and does not receive it
    right after unsubscribing from it. *)
Theorem subscription_decides_channel_delivery :
  forall (ops : list Op) (id : nat) (client : WsClient) (throws : gset nat)
         (channelId : string) (event : Event) (excludeClientId : option nat)
         (channelIds : list string),
    let m := fst (run ops initial) in
    map_get id (clients m) = Some client ->
    Some id <> excludeClientId ->
    id ∉ throws ->
    In channelId channelIds ->
    In id (fst (broadcastToChannel throws channelId event excludeClientId
                  (subscribe (socket id m) channelIds m))) /\
    ~ In id (fst (broadcastToChannel throws channelId event excludeClientId
                    (unsubscribe (socket id m) channelIds m))).
Proof.
  intros ops id client throws ch event excl chans m Hget Hex Hth Hin.
  pose proof (reachable_Inv ops) as HI. fold m in HI.
  split.
  - apply broadcastToChannel_recipients.
    unfold subscribe, updateSubscriptions. rewrite socket_id, Hget. cbn [clients].
    eexists. split; [apply map_get_In; rewrite map_get_map_set, Nat.eqb_refl; reflexivity|].
    split; [exact Hex|]. split; [|exact Hth].
    cbn [client_subscribedChannels]. rewrite fold_subscribe.
    apply elem_of_union_r. apply elem_of_list_to_set. apply list_elem_of_In. exact Hin.
  - intros Hrecv. apply broadcastToChannel_recipients in Hrecv.
    destruct Hrecv as (c & Hinc & _ & Hsub & _).
    unfold unsubscribe, updateSubscriptions in Hinc. rewrite socket_id, Hget in Hinc.
    cbn [clients] in Hinc.
    assert (Hnd : List.NoDup (List.map fst
                    (map_set id
                       (mkWsClient (client_workspaceId client) (client_userId client)
                          (List.fold_left (fun s ch0 => s ∖ {[ch0]}) chans
                             (client_subscribedChannels client))
                          (client_recentMessages client)) (clients m)))).
    { rewrite (keys_map_set_present _ _ _ _ Hget). apply (inv_nodup _ _ HI). }
    pose proof (In_map_get _ _ _ Hnd Hinc) as Hc.
    rewrite map_get_map_set, Nat.eqb_refl in Hc. injection Hc as <-.
    cbn [client_subscribedChannels] in Hsub. rewrite fold_unsubscribe in Hsub.
    apply elem_of_difference in Hsub. destruct Hsub as [_ Hn]. apply Hn.
    apply elem_of_list_to_set. apply list_elem_of_In. exact Hin.
Qed.

Lemma filter_filter_and {A} (f g : A -> bool) (l : list A) :
  List.filter f (List.filter g l) = List.filter (fun x => g x && f x) l.
Proof.
  induction l as [|x l IH]; [reflexivity|]. cbn [List.filter].
  destruct (g x); cbn [List.filter andb]; [destruct (f x)|]; rewrite IH; reflexivity.
Qed.

Lemma deleteAll_filter dead : forall cs,
  deleteAll dead cs
  = List.filter (fun kc => negb (List.existsb (Nat.eqb (fst kc)) dead)) cs.
Proof.
  unfold deleteAll.
  induction dead as [|d dead IH]; intros cs; cbn [List.fold_left List.existsb].
  - symmetry. apply List.forallb_filter_id. apply List.forallb_forall. reflexivity.
  - rewrite IH. unfold map_delete. rewrite filter_filter_and.
    apply List.filter_ext. intros [k c]. cbn [fst]. rewrite negb_orb. reflexivity.
Qed.

Lemma snd_trySend throws id r :
  snd (trySend throws id r) = if bool_decide (id ∈ throws) then id :: snd r else snd r.
Proof. unfold trySend. destruct (bool_decide (id ∈ throws)); reflexivity. Qed.

Lemma broadcastLoop_dead throws event w cs :
  snd (broadcastLoop throws event w cs)
  = List.map fst
      (List.filter (fun kc => passes event w (snd kc) && bool_decide (fst kc ∈ throws)) cs).
Proof.
  induction cs as [|[k c] rest IH]; [reflexivity|].
  cbn [broadcastLoop List.filter fst snd]. unfold passes at 1.
  destruct (match w with
            | Some w0 => negb (String.eqb (client_workspaceId c) w0)
            | None => false
            end); cbn [negb andb]; [exact IH|].
  destruct (match event_type event with
            | Some t => _
            | None => false
            end); cbn [negb andb]; [exact IH|].
  rewrite snd_trySend. destruct (bool_decide (k ∈ throws)); cbn [List.map fst];
    rewrite IH; reflexivity.
Qed.

Lemma channelLoop_dead throws channelId excl cs :
  snd (channelLoop throws channelId excl cs)
  = List.map fst
      (List.filter (fun kc => negb (bool_decide (Some (fst kc) = excl))
                              && bool_decide (channelId ∈ client_subscribedChannels (snd kc))
                              && bool_decide (fst kc ∈ throws)) cs).
Proof.
  induction cs as [|[k c] rest IH]; [reflexivity|].
  cbn [channelLoop List.filter fst snd].
  destruct (bool_decide (Some k = excl)); cbn [negb andb]; [exact IH|].
  destruct (bool_decide (channelId ∈ client_subscribedChannels c)); cbn [negb andb]; [|exact IH].
  rewrite snd_trySend. destruct (bool_decide (k ∈ throws)); cbn [List.map fst];
    rewrite IH; reflexivity.
Qed.

(** With distinct keys, deleting the keys of the entries that satisfy
    [p] is filtering those entries out. *)
Lemma deleteAll_keys_of (p : nat * WsClient -> bool) cs :
  List.NoDup (List.map fst cs) ->
  deleteAll (List.map fst (List.filter p cs)) cs = List.filter (fun kc => negb (p kc)) cs.
Proof.
  intros Hnd. rewrite deleteAll_filter. apply List.filter_ext_in. intros [k c] Hin.
  cbn [fst]. f_equal. apply eq_true_iff_eq. rewrite List.existsb_exists. split.
  - intros (k' & Hk' & Heq). apply Nat.eqb_eq in Heq. subst k'.
    apply List.in_map_iff in Hk'. destruct Hk' as ([k' c'] & Hfst & Hf). cbn [fst] in Hfst. subst k'.
    apply List.filter_In in Hf. destruct Hf as [Hin' Hp].
    pose proof (In_map_get _ _ _ Hnd Hin) as H1. pose proof (In_map_get _ _ _ Hnd Hin') as H2.
    rewrite H1 in H2. injection H2 as <-. exact Hp.
  - intros Hp. exists k. split; [|apply Nat.eqb_refl].
    apply (List.in_map fst _ (k, c)). apply List.filter_In. split; assumption.
Qed.

(** X5. Both fan-out functions drop exactly the dead connections: in
    any state a run can reach, the client map after the call is the
    map before it, in the same order and with the same entries, minus
    the clients the payload was sent to and whose [send] threw. *)
Theorem fanout_drops_exactly_the_dead :
  forall (ops : list Op) (throws : gset nat) (event : Event)
         (workspaceId : option string) (channelId : string) (excludeClientId : option nat),
    let m := fst (run ops initial) in
    clients (snd (broadcast throws event workspaceId m))
    = List.filter
        (fun kc => negb (passes event workspaceId (snd kc) && bool_decide (fst kc ∈ throws)))
        (clients m) /\
    clients (snd (broadcastToChannel throws channelId event excludeClientId m))
    = List.filter
        (fun kc => negb (negb (bool_decide (Some (fst kc) = excludeClientId))
                         && bool_decide (channelId ∈ client_subscribedChannels (snd kc))
                         && bool_decide (fst kc ∈ throws)))
        (clients m).
Proof.
  intros ops throws event w ch excl m.
  pose proof (inv_nodup _ _ (reachable_Inv ops)) as Hnd. fold m in Hnd.
  unfold broadcast, broadcastToChannel. cbn [snd clients]. split.
  - rewrite broadcastLoop_dead. apply (deleteAll_keys_of _ _ Hnd).
  - rewrite channelLoop_dead. apply (deleteAll_keys_of _ _ Hnd).
Qed.

Lemma withoutWindow_map_set id client recent cs :
  map_get id cs = Some client ->
  List.map withoutWindow
    (map_set id (mkWsClient (client_workspaceId client) (client_userId client)
                            (client_subscribedChannels client) recent) cs)
  = List.map withoutWindow cs.
Proof.
  induction cs as [|[k c] rest IH]; cbn [map_get map_set]; [discriminate|].
  destruct (Nat.eqb_spec k id) as [->|Hne]; cbn [List.map].
  - intros [= ->]. reflexivity.
  - intros H. rewrite (IH H). reflexivity.
Qed.

Lemma broadcastLoop_withoutWindow throws event w : forall cs cs',
  List.map withoutWindow cs = List.map withoutWindow cs' ->
  broadcastLoop throws event w cs = broadcastLoop throws event w cs'.
Proof.
  induction cs as [|[k c] rest IH]; intros [|[k' c'] rest']; cbn [List.map];
    try discriminate; [reflexivity|].
  unfold withoutWindow at 1 3. cbn [fst snd]. intros [= -> Hw _ Hs Hrest].
  cbn [broadcastLoop]. rewrite Hw, Hs, (IH _ Hrest). reflexivity.
Qed.

Lemma channelLoop_withoutWindow throws channelId excl : forall cs cs',
  List.map withoutWindow cs = List.map withoutWindow cs' ->
  channelLoop throws channelId excl cs = channelLoop throws channelId excl cs'.
Proof.
  induction cs as [|[k c] rest IH]; intros [|[k' c'] rest']; cbn [List.map];
    try discriminate; [reflexivity|].
  unfold withoutWindow at 1 3. cbn [fst snd]. intros [= -> _ _ Hs Hrest].
  cbn [channelLoop]. rewrite Hs, (IH _ Hrest). reflexivity.
Qed.

(** X6. The rate limiter only keeps its own books: a call of
    [isRateLimited] leaves [nextId], the order of the clients, and
    every client's workspace, user and subscriptions as they were,
    touches no other client at all, and therefore never changes who
    receives a broadcast. *)
Theorem isRateLimited_only_touches_the_window :
  forall (ws : WsData) (now : Z) (m : Manager),
    let m' := snd (isRateLimited ws now m) in
    nextId m' = nextId m /\
    List.map withoutWindow (clients m') = List.map withoutWindow (clients m) /\
    (forall j, data_id ws <> Some j -> map_get j (clients m') = map_get j (clients m)) /\
    (forall throws event workspaceId,
        fst (broadcast throws event workspaceId m')
        = fst (broadcast throws event workspaceId m)) /\
    (forall throws channelId event excludeClientId,
        fst (broadcastToChannel throws channelId event excludeClientId m')
        = fst (broadcastToChannel throws channelId event excludeClientId m)).
Proof.
  intros ws now m m'.
  assert (Hn : nextId m' = nextId m).
  { subst m'. unfold isRateLimited. destruct (data_id ws); [|reflexivity].
    destruct (map_get _ _); reflexivity. }
  assert (Hv : List.map withoutWindow (clients m') = List.map withoutWindow (clients m)).
  { subst m'. unfold isRateLimited. destruct (data_id ws) as [id|]; [|reflexivity].
    destruct (map_get id (clients m)) as [client|] eqn:Hget; [|reflexivity].
    cbn [snd clients]. apply withoutWindow_map_set. exact Hget. }
  split; [exact Hn|]. split; [exact Hv|]. split; [|split].
  - intros j Hj. subst m'. unfold isRateLimited. destruct (data_id ws) as [id|]; [|reflexivity].
    destruct (map_get id (clients m)) as [client|] eqn:Hget; [|reflexivity].
    cbn [snd clients]. rewrite map_get_map_set.
    destruct (Nat.eqb_spec id j) as [->|_]; [congruence|reflexivity].
  - intros throws event w. unfold broadcast. cbn [fst].
    rewrite (broadcastLoop_withoutWindow _ _ _ _ _ Hv). reflexivity.
  - intros throws ch event excl. unfold broadcastToChannel. cbn [fst].
    rewrite (channelLoop_withoutWindow _ _ _ _ _ Hv). reflexivity.
Qed.

(** X7. Events other than new_message, and new_message events that
    carry no channel id, ignore subscriptions: in any state a run can
    reach, a connected client receives the broadcast exactly when its
    socket takes the send and no workspace was given or the workspace
    given is its own. *)
Theorem broadcast_other_events_ignore_subscriptions :
  forall (ops : list Op) (throws : gset nat) (event : Event)
         (workspaceId : option string) (id : nat) (client : WsClient),
    event_type event <> Some "new_message" \/ Query.truthy (event_channel_id event) = false ->
    map_get id (clients (fst (run ops initial))) = Some client ->
    (In id (fst (broadcast throws event workspaceId (fst (run ops initial))))
     <-> (workspaceId = None \/ workspaceId = Some (client_workspaceId client))
         /\ id ∉ throws).
Proof.
  intros ops throws event w id client Hev Hget.
  rewrite (broadcast_recipients ops _ _ _ _ _ Hget).
  assert (Hp : passes event w client
               = match w with
                 | Some w0 => String.eqb (client_workspaceId client) w0
                 | None => true
                 end).
  { unfold passes.
    assert (Hsub : match event_type event with
                   | Some t =>
                       String.eqb t "new_message"
                       && (0 <? Z.of_nat (size (client_subscribedChannels client)))
                       && Query.truthy (event_channel_id event)
                       && negb (bool_decide (default "" (event_channel_id event)
                                               ∈ client_subscribedChannels client))
                   | None => false
                   end = false).
    { destruct Hev as [Hty|Hch].
      - destruct (event_type event) as [t|]; [|reflexivity].
        destruct (String.eqb_spec t "new_message") as [->|_]; [congruence|reflexivity].
      - destruct (event_type event) as [t|]; [|reflexivity].
        rewrite Hch. rewrite andb_false_r. reflexivity. }
    rewrite Hsub. cbn [negb]. rewrite andb_true_r.
    destruct w as [w0|]; [rewrite negb_involutive|]; reflexivity. }
  rewrite Hp. destruct w as [w0|].
  - split.
    + intros [He Ht]. apply String.eqb_eq in He. subst w0. split; [right; reflexivity|exact Ht].
    + intros [[Hn|Hs] Ht]; [discriminate|]. injection Hs as ->.
      split; [apply String.eqb_refl|exact Ht].
  - split; [intros [_ Ht]; split; [left; reflexivity|exact Ht] | intros [_ Ht]; split; [reflexivity|exact Ht]].
Qed.

End ManagerRuns.

(** Alice, connected and subscribed to nothing, subscribes to one
    channel and unsubscribes again. *)
Lemma unsubscribe_undoes_subscribe_witness :
  WsManager.unsubscribe (WsManager.socket 1 WsScenarios.oneClient) ["c-alpha-general"]
    (WsManager.subscribe (WsManager.socket 1 WsScenarios.oneClient) ["c-alpha-general"]
       WsScenarios.oneClient)
  = WsScenarios.oneClient.
Proof.
  apply (unsubscribe_undoes_subscribe
           (WsManager.socket 1 WsScenarios.oneClient) 1%nat
           (WsManager.mkWsClient "ws-alpha" (Some "u-alice") ∅ [])
           ["c-alpha-general"] WsScenarios.oneClient).
  - reflexivity.
  - reflexivity.
  - intros ch _. apply not_elem_of_empty.
Defined.

(** Alice subscribes to the channel and gets the edit; had she
    unsubscribed, she would not. *)
Lemma subscription_decides_channel_delivery_witness :
  In 1%nat
     (fst (WsManager.broadcastToChannel ∅ "c-alpha-general" WsScenarios.editedInAlpha None
             (WsManager.subscribe (WsManager.socket 1 WsScenarios.oneClient)
                ["c-alpha-general"] WsScenarios.oneClient))) /\
  ~ In 1%nat
       (fst (WsManager.broadcastToChannel ∅ "c-alpha-general" WsScenarios.editedInAlpha None
               (WsManager.unsubscribe (WsManager.socket 1 WsScenarios.oneClient)
                  ["c-alpha-general"] WsScenarios.oneClient))).
Proof.
  apply (subscription_decides_channel_delivery
           [WsManager.OpAccept "ws-alpha" (Some "u-alice")] 1%nat
           (WsManager.mkWsClient "ws-alpha" (Some "u-alice") ∅ [])
           ∅ "c-alpha-general" WsScenarios.editedInAlpha None ["c-alpha-general"]).
  - reflexivity.
  - discriminate.
  - apply not_elem_of_empty.
  - left. reflexivity.
Defined.

(** Alice is subscribed to one channel of ws-alpha; an edit broadcast
    for ws-alpha reaches her. *)
Lemma broadcast_other_events_ignore_subscriptions_witness :
  In 1%nat
     (fst (WsManager.broadcast ∅ WsScenarios.editedInAlpha (Some "ws-alpha")
             (fst (WsManager.run WsScenarios.aliceSubscribed WsManager.initial)))).
Proof.
  refine (proj2 (broadcast_other_events_ignore_subscriptions
                   WsScenarios.aliceSubscribed ∅ WsScenarios.editedInAlpha (Some "ws-alpha")
                   1%nat
                   (WsManager.mkWsClient "ws-alpha" (Some "u-alice")
                      (∅ ∪ {["c-alpha-general"]}) [])
                   (or_introl _) eq_refl) _).
  - discriminate.
  - split; [right; reflexivity | apply not_elem_of_empty].
Defined.

(** ** More on the message routes *)

Section QueryFacts.

(** *** Sorting and limiting *)

Lemma HdRel_insert_by {A} (le : A -> A -> bool) (a x : A) (l : list A) :
  le a x = true -> HdRel (fun u v => le u v = true) a l ->
  HdRel (fun u v => le u v = true) a (Query.insert_by le x l).
Proof.
  intros Hax Hl. destruct l as [|y l]; cbn [Query.insert_by].
  - constructor. exact Hax.
  - destruct (le x y); constructor; [exact Hax|].
    inversion Hl; subst. assumption.
Qed.

Lemma Sorted_insert_by {A} (le : A -> A -> bool) (x : A) (l : list A) :
  (forall u v, le u v = true \/ le v u = true) ->
  Sorted (fun u v => le u v = true) l ->
  Sorted (fun u v => le u v = true) (Query.insert_by le x l).
Proof.
  intros Htotal. induction 1 as [|y l Hs IH Hhd]; cbn [Query.insert_by].
  - repeat constructor.
  - destruct (le x y) eqn:E.
    + constructor; [constructor; assumption|]. constructor. exact E.
    + constructor; [exact IH|]. apply HdRel_insert_by; [|exact Hhd].
      destruct (Htotal x y) as [H|H]; [congruence|exact H].
Qed.

Lemma Sorted_sort_by {A} (le : A -> A -> bool) (l : list A) :
  (forall u v, le u v = true \/ le v u = true) ->
  Sorted (fun u v => le u v = true) (Query.sort_by le l).
Proof.
  intros Htotal. unfold Query.sort_by.
  induction l as [|x l IH]; cbn [List.fold_right]; [constructor|].
  apply Sorted_insert_by; assumption.
Qed.

Lemma Sorted_firstn {A} (R : A -> A -> Prop) (k : nat) : forall l,
  Sorted R l -> Sorted R (List.firstn k l).
Proof.
  induction k as [|k IH]; intros l Hs; cbn [List.firstn]; [constructor|].
  destruct l as [|x l]; [constructor|].
  inversion Hs as [|? ? Hs' Hhd]; subst. constructor; [apply IH; exact Hs'|].
  destruct l as [|y l]; destruct k; cbn [List.firstn]; constructor.
  inversion Hhd; subst. assumption.
Qed.

Lemma Sorted_limit {A} (R : A -> A -> Prop) (n : Z) (l : list A) :
  Sorted R l -> Sorted R (Query.limit n l).
Proof.
  unfold Query.limit. destruct (n <? 0); [tauto|]. apply Sorted_firstn.
Qed.

Lemma length_insert_by {A} (le : A -> A -> bool) (x : A) (l : list A) :
  List.length (Query.insert_by le x l) = S (List.length l).
Proof.
  induction l as [|y l IH]; cbn [Query.insert_by]; [reflexivity|].
  destruct (le x y); cbn [List.length]; [reflexivity|]. rewrite IH. reflexivity.
Qed.

Lemma length_sort_by {A} (le : A -> A -> bool) (l : list A) :
  List.length (Query.sort_by le l) = List.length l.
Proof.
  unfold Query.sort_by. induction l as [|x l IH]; cbn [List.fold_right]; [reflexivity|].
  rewrite length_insert_by, IH. reflexivity.
Qed.

(** The last row of the table goes first when every other row sorts
    strictly after it. *)
Lemma sort_by_last_first {A} (le : A -> A -> bool) (x : A) (l : list A) :
  (forall y, In y l -> le y x = false) ->
  Query.sort_by le (l ++ [x]) = x :: Query.sort_by le l.
Proof.
  intros Hl. unfold Query.sort_by. rewrite List.fold_right_app. cbn [List.fold_right Query.insert_by].
  generalize (@nil A) as t.
  induction l as [|y l IH]; intros t; cbn [List.fold_right]; [reflexivity|].
  rewrite IH by (intros z Hz; apply Hl; right; exact Hz).
  cbn [Query.insert_by]. rewrite (Hl y (or_introl eq_refl)). reflexivity.
Qed.

Lemma ltb_not_leb (a b : string) : String.ltb a b = true -> String.leb b a = false.
Proof.
  unfold String.ltb, String.leb. rewrite (String.compare_antisym b a).
  destruct (String.compare a b); cbn [CompOpp]; congruence.
Qed.

End QueryFacts.

Section GetMessagesFacts.
Import Schema Messages.

Variable jsonParse : string -> option (list string).

Lemma mapM_Forall2 {A B} (f : A -> option B) (l : list A) : forall r,
  mapM f l = Some r -> Forall2 (fun a b => f a = Some b) l r.
Proof.
  induction l as [|a l IH]; intros r; cbn [mapM].
  - intros [= <-]. constructor.
  - destruct (f a) as [b|] eqn:E; [|discriminate].
    destruct (mapM f l) as [bs|]; [|discriminate].
    intros [= <-]. constructor; [exact E|]. apply IH. reflexivity.
Qed.

Lemma Forall2_In_r {A B} (P : A -> B -> Prop) (l : list A) (r : list B) (b : B) :
  Forall2 P l r -> In b r -> exists a, In a l /\ P a b.
Proof.
  induction 1 as [|x y l r Hxy _ IH]; [intros []|].
  intros [<-|Hin]; [exists x; split; [left; reflexivity|exact Hxy]|].
  destruct (IH Hin) as (a & Ha & Hp). exists a. split; [right; exact Ha|exact Hp].
Qed.

Lemma toResponse_created_at row r :
  toResponse jsonParse row = Some r -> r_created_at r = message_createdAt (fst row).
Proof.
  unfold toResponse. destruct (parseMentions jsonParse _); [|discriminate].
  intros [= <-]. reflexivity.
Qed.

Lemma toResponse_id row r :
  toResponse jsonParse row = Some r -> r_id r = message_id (fst row).
Proof.
  unfold toResponse. destruct (parseMentions jsonParse _); [|discriminate].
  intros [= <-]. reflexivity.
Qed.

(** The rows a request selects before they are turned into response
    objects. *)
Lemma getMessages_rows db channelId limitParam before result :
  getMessages jsonParse db channelId limitParam before = Json 200 result ->
  exists cond : Message * User -> bool,
    mapM (toResponse jsonParse)
      (Query.limit (pageLimit limitParam)
         (Query.orderByDesc (fun r : Message * User => message_createdAt (fst r))
            (List.filter cond
               (List.flat_map
                  (fun m => List.map (fun u => (m, u))
                              (List.filter (fun u => String.eqb (message_senderId m) (user_id u))
                                           (users db)))
                  (messages db)))))
    = Some result /\
    ((cond = fun r => String.eqb (message_channelId (fst r)) channelId) \/
     exists beforeMsg,
       Query.truthy before = true /\
       Query.get (fun m => String.eqb (message_id m) (default "" before)) (messages db)
       = Some beforeMsg /\
       cond = fun r => String.ltb (message_createdAt (fst r)) (message_createdAt beforeMsg)).
Proof.
  unfold getMessages. destruct (Query.get _ (channels db)); [|discriminate].
  destruct (Query.truthy before) eqn:Ht.
  - destruct (Query.get (fun m => String.eqb (message_id m) (default "" before)) (messages db))
      as [beforeMsg|] eqn:Hb.
    + unfold Drizzle.all, Drizzle.limit, Drizzle.orderBy, Drizzle.where_, Drizzle.innerJoin,
        Drizzle.from.
      cbn [Drizzle.sel_where Drizzle.sel_orderBy Drizzle.sel_limit Drizzle.sel_from].
      destruct (mapM _ _) as [res|] eqn:E; [|discriminate]. intros [= <-].
      eexists. split; [exact E|]. right. exists beforeMsg. repeat split; reflexivity.
    + unfold Drizzle.all, Drizzle.limit, Drizzle.orderBy, Drizzle.where_, Drizzle.innerJoin,
        Drizzle.from.
      cbn [Drizzle.sel_where Drizzle.sel_orderBy Drizzle.sel_limit Drizzle.sel_from].
      destruct (mapM _ _) as [res|] eqn:E; [|discriminate]. intros [= <-].
      eexists. split; [exact E|]. left. reflexivity.
  - unfold Drizzle.all, Drizzle.limit, Drizzle.orderBy, Drizzle.where_, Drizzle.innerJoin,
      Drizzle.from.
    cbn [Drizzle.sel_where Drizzle.sel_orderBy Drizzle.sel_limit Drizzle.sel_from].
    destruct (mapM _ _) as [res|] eqn:E; [|discriminate]. intros [= <-].
    eexists. split; [exact E|]. left. reflexivity.
Qed.

(** X8. A cursor that names no message is ignored: the answer is the
    one the request gets without [before], and so holds rows of the
    requested channel only. *)
Theorem getMessages_unknown_cursor_is_ignored :
  forall (db : Db) (channelId : string) (limitParam : option Z) (before : string),
    (forall m, In m (messages db) -> message_id m <> before) ->
    getMessages jsonParse db channelId limitParam (Some before)
    = getMessages jsonParse db channelId limitParam None /\
    forall result,
      getMessages jsonParse db channelId limitParam (Some before) = Json 200 result ->
      Forall (fun r => r_channel_id r = channelId) result.
Proof.
  intros db channelId limitParam before Hnone.
  assert (Heq : getMessages jsonParse db channelId limitParam (Some before)
                = getMessages jsonParse db channelId limitParam None).
  { unfold getMessages. destruct (Query.get _ (channels db)); [|reflexivity].
    change (Query.truthy None) with false.
    change (Query.truthy (Some before)) with (negb (String.eqb before "")).
    change (default "" (Some before)) with before.
    destruct (negb (String.eqb before "")); [|reflexivity].
    destruct (Query.get (fun m => String.eqb (message_id m) before) (messages db))
      as [m|] eqn:Hm; [|reflexivity].
    exfalso. unfold Query.get in Hm. apply List.find_some in Hm. destruct Hm as [Hin Hid].
    apply String.eqb_eq in Hid. exact (Hnone m Hin Hid). }
  split; [exact Heq|]. intros result Hres. rewrite Heq in Hres.
  eapply getMessages_without_cursor. exact Hres.
Qed.

Lemma length_limit {A} (n : Z) (l : list A) :
  0 <= n -> Z.of_nat (List.length (Query.limit n l)) <= n.
Proof.
  intros Hn. unfold Query.limit. destruct (Z.ltb_spec n 0); [lia|].
  rewrite List.length_firstn. lia.
Qed.

(** X9. A page never holds more rows than the limit, and the limit
    is capped at 100, for every non-negative [limit] parameter (and
    for a missing or non-numeric one). *)
Theorem getMessages_page_size :
  forall (db : Db) (channelId : string) (limitParam : option Z) (before : option string)
         (result : list MessageResponse),
    (forall n, limitParam = Some n -> 0 <= n) ->
    getMessages jsonParse db channelId limitParam before = Json 200 result ->
    Z.of_nat (List.length result) <= pageLimit limitParam /\ pageLimit limitParam <= 100.
Proof.
  intros db channelId limitParam before result Hnonneg Hres.
  assert (Hlim : 0 <= pageLimit limitParam <= 100).
  { unfold pageLimit. destruct limitParam as [n|]; [|lia].
    pose proof (Hnonneg n eq_refl). destruct (Z.eqb_spec n 0); lia. }
  split; [|lia].
  apply getMessages_rows in Hres. destruct Hres as (cond & Hmap & _).
  apply mapM_Forall2 in Hmap. apply List.Forall2_length in Hmap. rewrite <- Hmap.
  apply length_limit. lia.
Qed.

Lemma mapM_complete {A B} (f : A -> option B) (l : list A) (r : list B) (a : A) :
  mapM f l = Some r -> In a l -> exists b, In b r /\ f a = Some b.
Proof.
  intros Hm. apply mapM_Forall2 in Hm. induction Hm as [|x y l r Hxy _ IH]; [intros []|].
  intros [<-|Hin]; [exists y; split; [left; reflexivity|exact Hxy]|].
  destruct (IH Hin) as (b & Hb & Hf). exists b. split; [right; exact Hb|exact Hf].
Qed.

(** X10. A negative [limit] parameter lifts the cap: without a
    cursor, the page then holds every message of the channel whose
    sender is in the users table, however many there are. *)
Theorem getMessages_negative_limit_is_no_limit :
  forall (db : Db) (channelId : string) (n : Z) (result : list MessageResponse)
         (m : Message) (u : User),
    n < 0 ->
    getMessages jsonParse db channelId (Some n) None = Json 200 result ->
    In m (messages db) -> message_channelId m = channelId ->
    In u (users db) -> user_id u = message_senderId m ->
    exists r, In r result /\ r_id r = message_id m.
Proof.
  intros db channelId n result m u Hn Hres Hm Hch Hu Hid.
  apply getMessages_rows in Hres. destruct Hres as (cond & Hmap & [->|Hcur]).
  - assert (Hp : pageLimit (Some n) = n).
    { unfold pageLimit. destruct (Z.eqb_spec n 0); lia. }
    rewrite Hp in Hmap. unfold Query.limit in Hmap.
    destruct (Z.ltb_spec n 0); [|lia].
    destruct (mapM_complete _ _ _ (m, u) Hmap) as (r & Hr & Hf).
    + unfold Query.orderByDesc. apply In_sort_by. apply List.filter_In. split.
      * apply List.in_flat_map. exists m. split; [exact Hm|].
        apply List.in_map. apply List.filter_In. split; [exact Hu|].
        apply String.eqb_eq. symmetry. exact Hid.
      * cbn [fst]. apply String.eqb_eq. exact Hch.
    + exists r. split; [exact Hr|]. apply (toResponse_id _ _ Hf).
  - destruct Hcur as (bm & Ht & _). discriminate.
Qed.

(** X11. With a cursor that names a message, every row of the page
    is strictly older than that message; the cursor message itself is
    never part of its own page. *)
Theorem getMessages_cursor_rows_are_older :
  forall (db : Db) (channelId : string) (limitParam : option Z) (before : string)
         (beforeMsg : Message) (result : list MessageResponse),
    before <> "" ->
    Query.get (fun m => String.eqb (message_id m) before) (messages db) = Some beforeMsg ->
    getMessages jsonParse db channelId limitParam (Some before) = Json 200 result ->
    Forall (fun r => String.ltb (r_created_at r) (message_createdAt beforeMsg) = true) result.
Proof.
  intros db channelId limitParam before beforeMsg result Hne Hget Hres.
  unfold getMessages in Hres. destruct (Query.get _ (channels db)); [|discriminate].
  change (Query.truthy (Some before)) with (negb (String.eqb before "")) in Hres.
  change (default "" (Some before)) with before in Hres.
  destruct (String.eqb_spec before "") as [->|_]; [contradiction|]. cbn [negb] in Hres.
  rewrite Hget in Hres.
  unfold Drizzle.all, Drizzle.limit, Drizzle.orderBy, Drizzle.where_, Drizzle.innerJoin,
    Drizzle.from in Hres.
  cbn [Drizzle.sel_where Drizzle.sel_orderBy Drizzle.sel_limit Drizzle.sel_from] in Hres.
  destruct (mapM _ _) as [res|] eqn:E; [|discriminate]. injection Hres as <-.
  apply mapM_Forall2 in E. apply List.Forall_forall. intros r Hr.
  destruct (Forall2_In_r _ _ _ r E Hr) as (row & Hrow & Hf).
  rewrite (toResponse_created_at _ _ Hf).
  apply In_limit in Hrow. unfold Query.orderByDesc in Hrow. apply In_sort_by in Hrow.
  apply List.filter_In in Hrow. exact (proj2 Hrow).
Qed.

Lemma Sorted_Forall2 {A B} (P : A -> B -> Prop) (R : A -> A -> Prop) (R' : B -> B -> Prop)
    (l : list A) (r : list B) :
  (forall a a' b b', P a b -> P a' b' -> R a a' -> R' b b') ->
  Forall2 P l r -> Sorted R l -> Sorted R' r.
Proof.
  intros Hcompat H2. induction H2 as [|a b l r Hab H2 IH]; intros Hs; [constructor|].
  inversion Hs as [|? ? Hs' Hhd]; subst. constructor; [apply IH; exact Hs'|].
  destruct H2 as [|a' b' l' r' Hab' _]; constructor.
  inversion Hhd; subst. eapply Hcompat; eassumption.
Qed.

(** X12. Every page is ordered newest first: of two adjacent rows
    the first one is not older than the second. *)
Theorem getMessages_newest_first :
  forall (db : Db) (channelId : string) (limitParam : option Z) (before : option string)
         (result : list MessageResponse),
    getMessages jsonParse db channelId limitParam before = Json 200 result ->
    Sorted (fun r1 r2 => String.leb (r_created_at r2) (r_created_at r1) = true) result.
Proof.
  intros db channelId limitParam before result Hres.
  apply getMessages_rows in Hres. destruct Hres as (cond & Hmap & _).
  apply mapM_Forall2 in Hmap.
  eapply (Sorted_Forall2 _
            (fun a a' : Message * User =>
               String.leb (message_createdAt (fst a')) (message_createdAt (fst a)) = true));
    [|exact Hmap|].
  - intros a a' b b' Hb Hb' Hle.
    rewrite (toResponse_created_at _ _ Hb), (toResponse_created_at _ _ Hb'). exact Hle.
  - apply Sorted_limit. unfold Query.orderByDesc.
    apply (Sorted_sort_by
             (fun x y : Message * User =>
                String.leb (message_createdAt (fst y)) (message_createdAt (fst x)))).
    intros x y. apply String.leb_total.
Qed.

End GetMessagesFacts.

Section PostThenGet.
Import Schema Messages.

Variable Body : Type.
Variable safeParse : Body -> string + MessageCreate.
Variable jsonStringify : list string -> string.
Variable jsonParse : string -> option (list string).

(** X13. A POST stores exactly when it broadcasts: a 201 answer comes
    with one appended row and one new_message event, and the row, the
    answer and the event carry the same id, channel, sender, content
    and timestamp (the row has no parent); any other answer leaves
    the database as it was and broadcasts nothing. *)
Theorem postMessage_row_answer_and_event_agree :
  forall (db : Db) (msgId now : string) (c : PostRequest Body),
    let o := postMessage Body safeParse jsonStringify db msgId now c in
    match out_response o with
    | Json status r =>
        status = 201 /\
        r_id r = msgId /\ r_channel_id r = post_channelId Body c /\ r_created_at r = now /\
        r_sender_type r = "human" /\ r_parent_id r = None /\
        out_db o
        = set_messages
            (messages db
             ++ [mkMessage (r_id r) (r_channel_id r) (r_sender_id r) (r_content r)
                           (option_map jsonStringify (r_mentions r)) None (r_created_at r)])
            db /\
        out_events o
        = [mkNewMessageArgs (r_id r) (r_channel_id r) (r_sender_id r) (r_sender_name r)
                            (r_content r) (r_mentions r) (r_created_at r) (r_sender_type r)]
    | _ => out_db o = db /\ out_events o = []
    end.
Proof.
  intros db msgId now c o. subst o. unfold postMessage.
  destruct (safeParse (post_body Body c)) as [msg|data]; [split; reflexivity|].
  destruct (Query.get _ (channels db)); [|split; reflexivity].
  destruct (Query.get _ (users db)) as [human|]; [|split; reflexivity].
  unfold insertMessage. cbn [message_id message_channelId message_senderId].
  destruct (List.existsb _ (messages db)); [split; reflexivity|].
  destruct (negb (List.existsb _ (channels db))); [split; reflexivity|].
  destruct (negb (List.existsb _ (users db))); [split; reflexivity|].
  cbn [out_response out_db out_events r_id r_channel_id r_created_at r_sender_type
       r_parent_id r_sender_id r_content r_mentions r_sender_name].
  repeat split; reflexivity.
Qed.

Lemma filter_nothing {A} (p : A -> bool) (l : list A) :
  (forall x, In x l -> p x = false) -> List.filter p l = [].
Proof.
  induction l as [|x l IH]; [reflexivity|]. intros H. cbn [List.filter].
  rewrite (H x (or_introl eq_refl)). apply IH. intros y Hy. apply H. right. exact Hy.
Qed.

(** With distinct ids, the join condition on a user's id selects that
    user and nobody else. *)
Lemma filter_by_id (u : User) (us : list User) :
  List.NoDup (List.map user_id us) -> In u us ->
  List.filter (fun x => String.eqb (user_id u) (user_id x)) us = [u].
Proof.
  induction us as [|x us IH]; [intros _ []|].
  cbn [List.map List.filter]. intros Hnd Hin.
  apply List.NoDup_cons_iff in Hnd. destruct Hnd as [Hx Hnd].
  destruct Hin as [->|Hin].
  - rewrite String.eqb_refl. f_equal. apply filter_nothing. intros y Hy.
    destruct (String.eqb_spec (user_id u) (user_id y)) as [He|_]; [|reflexivity].
    exfalso. apply Hx. rewrite He. apply (List.in_map user_id _ _ Hy).
  - destruct (String.eqb_spec (user_id u) (user_id x)) as [He|_].
    + exfalso. apply Hx. rewrite <- He. apply (List.in_map user_id _ _ Hin).
    + apply IH; assumption.
Qed.

Lemma pageLimit_nonzero (limitParam : option Z) : pageLimit limitParam <> 0.
Proof.
  unfold pageLimit. destruct limitParam as [n|]; [|lia].
  destruct (Z.eqb_spec n 0); lia.
Qed.

Lemma limit_head {A} (n : Z) (x : A) (l : list A) :
  n <> 0 -> exists rest, Query.limit n (x :: l) = x :: rest.
Proof.
  intros Hn. unfold Query.limit. destruct (Z.ltb_spec n 0); [eauto|].
  destruct (Z.to_nat n) as [|k] eqn:E; [lia|]. cbn [List.firstn]. eauto.
Qed.

(** X14. The message just posted heads the first page: when user ids
    are distinct, the mentions survive the JSON round trip and every
    message already in the channel is strictly older than the new
    one, a GET of the channel without cursor that succeeds after a
    201 answer has the answered object as its first row. *)
Theorem posted_message_heads_the_page :
  forall (db : Db) (msgId now : string) (c : PostRequest Body) (data : MessageCreate)
         (r : MessageResponse) (limitParam : option Z) (result : list MessageResponse),
    let o := postMessage Body safeParse jsonStringify db msgId now c in
    List.NoDup (List.map user_id (users db)) ->
    safeParse (post_body Body c) = inr data ->
    (forall l, mc_mentions data = Some l ->
               jsonStringify l <> "" /\ jsonParse (jsonStringify l) = Some l) ->
    (forall m, In m (messages db) -> message_channelId m = post_channelId Body c ->
               String.ltb (message_createdAt m) now = true) ->
    out_response o = Json 201 r ->
    getMessages jsonParse (out_db o) (post_channelId Body c) limitParam None = Json 200 result ->
    exists rest, result = r :: rest.
Proof.
  intros db msgId now c data r limitParam result o Hnd Hparse Hjson Hold Hresp Hget.
  subst o. unfold postMessage in Hresp, Hget. rewrite Hparse in Hresp, Hget.
  destruct (Query.get (fun ch => String.eqb (channel_id ch) (post_channelId Body c)) (channels db));
    [|discriminate].
  destruct (Query.get (fun u => String.eqb (user_type u) "human") (users db)) as [human|] eqn:Hh;
    [|discriminate].
  unfold Query.get in Hh. apply List.find_some in Hh. destruct Hh as [Hin Hty].
  apply String.eqb_eq in Hty.
  set (stored := mkMessage msgId (post_channelId Body c) (user_id human) (mc_content data)
                           (option_map jsonStringify (mc_mentions data)) None now) in *.
  destruct (insertMessage stored db) as [db'|] eqn:Hins; [|discriminate].
  cbn [out_response out_db] in Hresp, Hget. injection Hresp as <-.
  assert (Hdb : db' = set_messages (messages db ++ [stored]) db).
  { unfold insertMessage in Hins.
    destruct (List.existsb _ (messages db)); [discriminate|].
    destruct (negb (List.existsb _ (channels db))); [discriminate|].
    destruct (negb (List.existsb _ (users db))); [discriminate|].
    injection Hins as <-. reflexivity. }
  subst db'. apply getMessages_rows in Hget.
  destruct Hget as (cond & Hmap & [->|(bm & Ht & _)]); [|discriminate].
  cbn [set_messages messages users] in Hmap.
  rewrite List.flat_map_app in Hmap. cbn [List.flat_map] in Hmap.
  rewrite List.app_nil_r in Hmap.
  change (message_senderId stored) with (user_id human) in Hmap.
  rewrite (filter_by_id human (users db) Hnd Hin) in Hmap. cbn [List.map] in Hmap.
  rewrite List.filter_app in Hmap. cbn [List.filter fst] in Hmap.
  change (message_channelId stored) with (post_channelId Body c) in Hmap.
  rewrite String.eqb_refl in Hmap.
  unfold Query.orderByDesc in Hmap. rewrite sort_by_last_first in Hmap.
  - destruct (limit_head (pageLimit limitParam) (stored, human)
                (Query.sort_by
                   (fun x y : Message * User =>
                      String.leb (message_createdAt (fst y)) (message_createdAt (fst x)))
                   (List.filter
                      (fun r0 : Message * User =>
                         String.eqb (message_channelId (fst r0)) (post_channelId Body c))
                      (List.flat_map
                         (fun m => List.map (fun u => (m, u))
                                     (List.filter
                                        (fun u => String.eqb (message_senderId m) (user_id u))
                                        (users db)))
                         (messages db))))
                (pageLimit_nonzero limitParam)) as (rest & Hlim).
    rewrite Hlim in Hmap. cbn [mapM] in Hmap.
    destruct (toResponse jsonParse (stored, human)) as [r0|] eqn:Hr0; [|discriminate].
    destruct (mapM (toResponse jsonParse) rest) as [rs|]; [|discriminate].
    injection Hmap as <-. exists rs. f_equal.
    unfold toResponse, parseMentions in Hr0. cbn [fst snd message_mentions stored] in Hr0.
    unfold stored in Hr0. cbn [message_mentions] in Hr0.
    destruct (mc_mentions data) as [l|] eqn:Hl; cbn [option_map Query.truthy] in Hr0.
    + destruct (Hjson l eq_refl) as [Hne Hrt].
      destruct (String.eqb_spec (jsonStringify l) "") as [He|_]; [contradiction|].
      cbn [negb] in Hr0. change (default "" (Some (jsonStringify l))) with (jsonStringify l) in Hr0.
      rewrite Hrt in Hr0. injection Hr0 as <-.
      cbn [message_id message_channelId message_senderId message_content message_parentId
           message_createdAt]. rewrite Hty. reflexivity.
    + injection Hr0 as <-.
      cbn [message_id message_channelId message_senderId message_content message_parentId
           message_createdAt]. rewrite Hty. reflexivity.
  - intros [m u] Hy. cbn [fst]. change (message_createdAt stored) with now.
    apply ltb_not_leb. apply List.filter_In in Hy. destruct Hy as [Hy Hch].
    apply List.in_flat_map in Hy. destruct Hy as (m0 & Hm0 & Hy).
    apply List.in_map_iff in Hy. destruct Hy as (u0 & [= -> ->] & _).
    apply Hold; [exact Hm0|]. apply String.eqb_eq. exact Hch.
Qed.

End PostThenGet.

(** A cursor that names no message of the two-channel store. *)
Lemma getMessages_unknown_cursor_is_ignored_witness :
  Messages.getMessages Scenarios.noJson Scenarios.twoChannelStore "c-general" None
    (Some "m-unknown")
  = Messages.getMessages Scenarios.noJson Scenarios.twoChannelStore "c-general" None None.
Proof.
  refine (proj1 (getMessages_unknown_cursor_is_ignored Scenarios.noJson
                   Scenarios.twoChannelStore "c-general" None "m-unknown" _)).
  intros m [<-|[<-|[]]]; discriminate.
Defined.

(** A page of one row out of #general. *)
Lemma getMessages_page_size_witness :
  exists result,
    Messages.getMessages Scenarios.noJson Scenarios.twoChannelStore "c-general" (Some 1) None
    = Json 200 result /\
    Z.of_nat (List.length result) <= Messages.pageLimit (Some 1) /\
    Messages.pageLimit (Some 1) <= 100.
Proof.
  eexists. split; [vm_compute; reflexivity|].
  refine (getMessages_page_size Scenarios.noJson Scenarios.twoChannelStore "c-general"
            (Some 1) None _ _ _).
  - intros n [= <-]. lia.
  - vm_compute. reflexivity.
Defined.

(** [limit=-1] on #general of the two-channel store. *)
Lemma getMessages_negative_limit_is_no_limit_witness :
  exists result,
    Messages.getMessages Scenarios.noJson Scenarios.twoChannelStore "c-general" (Some (-1)) None
    = Json 200 result /\
    exists r, In r result /\ Messages.r_id r = "m-general".
Proof.
  eexists. split; [vm_compute; reflexivity|].
  refine (getMessages_negative_limit_is_no_limit Scenarios.noJson Scenarios.twoChannelStore
            "c-general" (-1) _ Scenarios.inGeneral Scenarios.boss _ _ _ _ _ _).
  - lia.
  - vm_compute. reflexivity.
  - right. left. reflexivity.
  - reflexivity.
  - right. left. reflexivity.
  - reflexivity.
Defined.

(** Paginating before the latest message of #general. *)
Lemma getMessages_cursor_rows_are_older_witness :
  exists result,
    Messages.getMessages Scenarios.noJson Scenarios.twoChannelStore "c-general" None
      (Some "m-general")
    = Json 200 result /\
    Forall (fun r => String.ltb (Messages.r_created_at r)
                       (Schema.message_createdAt Scenarios.inGeneral) = true) result.
Proof.
  eexists. split; [vm_compute; reflexivity|].
  refine (getMessages_cursor_rows_are_older Scenarios.noJson Scenarios.twoChannelStore
            "c-general" None "m-general" Scenarios.inGeneral _ _ _ _).
  - discriminate.
  - reflexivity.
  - vm_compute. reflexivity.
Defined.

(** The first page of #random after two posts. *)
Lemma getMessages_newest_first_witness :
  exists result,
    Messages.getMessages Scenarios.noJson MessageScenarios.laterInRandom "c-random" None None
    = Json 200 result /\
    Sorted (fun r1 r2 => String.leb (Messages.r_created_at r2) (Messages.r_created_at r1) = true)
           result /\
    List.length result = 2%nat.
Proof.
  eexists. split; [vm_compute; reflexivity|]. split; [|reflexivity].
  refine (getMessages_newest_first Scenarios.noJson MessageScenarios.laterInRandom
            "c-random" None None _ _).
  vm_compute. reflexivity.
Defined.

(** The boss posts in #random, one minute after the message that is
    there; the first page of #random starts with the answer. *)
Lemma posted_message_heads_the_page_witness :
  exists result rest,
    Messages.getMessages Scenarios.noJson (Messages.out_db MessageScenarios.hiInRandom)
      "c-random" None None
    = Json 200 result /\
    result
    = Messages.mkMessageResponse "m-2" "c-random" "u-boss" "the Boss" "human" "hi"
        None None "2026-02-18T10:01:00.000Z" :: rest.
Proof.
  assert (Hget : exists result,
             Messages.getMessages Scenarios.noJson
               (Messages.out_db MessageScenarios.hiInRandom) "c-random" None None
             = Json 200 result).
  { eexists. vm_compute. reflexivity. }
  destruct Hget as [result Hget]. exists result.
  destruct (posted_message_heads_the_page (option string) Scenarios.contentSchema
              Scenarios.plainJson Scenarios.noJson Scenarios.twoChannelStore
              "m-2" "2026-02-18T10:01:00.000Z"
              (Messages.mkPostRequest _ "c-random" (Some "hi") Scenarios.localhostAdmin)
              (Messages.mkMessageCreate "hi" None)
              (Messages.mkMessageResponse "m-2" "c-random" "u-boss" "the Boss" "human" "hi"
                 None None "2026-02-18T10:01:00.000Z")
              None result) as [rest Hrest]; [| | | | |exact Hget|].
  - repeat constructor; cbn; intuition discriminate.
  - reflexivity.
  - intros l Hl. discriminate Hl.
  - intros m [<-|[<-|[]]]; [reflexivity|discriminate].
  - vm_compute. reflexivity.
  - exists rest. split; [exact Hget|exact Hrest].
Defined.

(** ** The profile endpoints *)

Section UsersMeFacts.
Import Schema Users UsersMe.

Variable Body : Type.
Variable safeParse : Body -> string + UserOnboard.

Lemma find_app {A} (p : A -> bool) (l l' : list A) :
  List.find p (l ++ l')
  = match List.find p l with
    | Some x => Some x
    | None => List.find p l'
    end.
Proof.
  induction l as [|x l IH]; [reflexivity|]. cbn [List.app List.find].
  destruct (p x); [reflexivity|exact IH].
Qed.

Lemma find_none_existsb {A} (p : A -> bool) (l : list A) :
  List.existsb p l = false -> List.find p l = None.
Proof.
  induction l as [|x l IH]; [reflexivity|]. cbn [List.existsb List.find].
  destruct (p x); [discriminate|exact IH].
Qed.

(** With distinct ids, looking a user up by the id of the first human
    finds that human. *)
Lemma find_human_by_id (l : list User) (e : User) :
  List.NoDup (List.map user_id l) ->
  List.find isHuman l = Some e ->
  List.find (fun u => String.eqb (user_id u) (user_id e)) l = Some e.
Proof.
  induction l as [|x l IH]; [discriminate|].
  cbn [List.map List.find]. intros Hnd Hf.
  apply List.NoDup_cons_iff in Hnd. destruct Hnd as [Hx Hnd].
  destruct (isHuman x).
  - injection Hf as ->. rewrite String.eqb_refl. reflexivity.
  - destruct (String.eqb_spec (user_id x) (user_id e)) as [He|_].
    + exfalso. apply Hx. rewrite He. apply List.in_map.
      apply List.find_some in Hf. tauto.
    + apply IH; assumption.
Qed.

Lemma find_map_preserving (f : User -> User) (p : User -> bool) (l : list User) :
  (forall u, p (f u) = p u) ->
  List.find p (List.map f l) = option_map f (List.find p l).
Proof.
  intros Hp. induction l as [|x l IH]; [reflexivity|].
  cbn [List.map List.find]. rewrite Hp. destruct (p x); [reflexivity|exact IH].
Qed.

(** After the update of the first human, the lookup by type and the
    lookup by id find the same, updated row. *)
Lemma updateUser_lookups (db : Db) (existing : User) (data : UserOnboard) :
  List.NoDup (List.map user_id (users db)) ->
  Query.get isHuman (users db) = Some existing ->
  exists updated,
    Query.get isHuman (users (updateUser (user_id existing) data db)) = Some updated /\
    Query.get (fun u => String.eqb (user_id u) (user_id existing))
              (users (updateUser (user_id existing) data db)) = Some updated.
Proof.
  intros Hnd Hh. unfold Query.get in *. unfold updateUser. cbn [users set_users].
  set (f := fun u : User =>
              if String.eqb (user_id u) (user_id existing)
              then mkUser (user_id u) (ob_name data) (user_type u) (user_createdAt u)
                          (ob_display_name data) (ob_about data) (ob_agent_instructions data)
              else u).
  exists (f existing). split.
  - rewrite (find_map_preserving f isHuman).
    + rewrite Hh. reflexivity.
    + intros u. unfold f, isHuman. destruct (String.eqb (user_id u) (user_id existing)); reflexivity.
  - rewrite (find_map_preserving f (fun u => String.eqb (user_id u) (user_id existing))).
    + rewrite (find_human_by_id _ _ Hnd Hh). reflexivity.
    + intros u. unfold f.
      destruct (String.eqb (user_id u) (user_id existing)) eqn:E; [cbn [user_id]|]; exact E.
Qed.

(** X15. GET /users/me after a successful onboarding answers 200 with
    the object the onboarding answered, be it a first onboarding or a
    repeated one (user ids being distinct). *)
Theorem getMe_after_onboard :
  forall (db : Db) (userId msgId now : string) (body : Body) (r : UserResponse),
    List.NoDup (List.map user_id (users db)) ->
    ob_response (onboard Body safeParse db userId msgId now body) = Json 201 r ->
    getMe (ob_db (onboard Body safeParse db userId msgId now body)) = Json 200 r.
Proof.
  intros db userId msgId now body r Hnd. unfold onboard.
  destruct (safeParse body) as [msg|data]; [discriminate|].
  destruct (Query.get isHuman (users db)) as [existing|] eqn:Hh.
  - destruct (updateUser_lookups db existing data Hnd Hh) as (updated & H1 & H2).
    rewrite H2. cbn [ob_response ob_db]. intros [= <-]. unfold getMe. rewrite H1. reflexivity.
  - unfold insertUser.
    destruct (List.existsb (fun x => String.eqb (user_id x) _) (users db)) eqn:Hpk;
      [discriminate|].
    cbn [user_id] in Hpk.
    set (new := mkUser userId (ob_name data) "human" now (ob_display_name data)
                       (ob_about data) (ob_agent_instructions data)) in *.
    set (db1 := set_users (users db ++ [new]) db).
    assert (Hw : users (fst match postCreatorWelcome db1 msgId now
                                    (default (ob_name data) (ob_display_name data))
                                    (ob_about data) with
                            | Some w => w
                            | None => (db1, [])
                            end) = users db ++ [new]).
    { destruct (postCreatorWelcome db1 msgId now _ (ob_about data)) as [w|] eqn:Ew.
      - rewrite (postCreatorWelcome_users _ _ _ _ _ _ Ew). reflexivity.
      - reflexivity. }
    cbv zeta. unfold Query.get. rewrite Hw. rewrite find_app.
    rewrite (find_none_existsb _ _ Hpk). cbn [List.find user_id new].
    rewrite String.eqb_refl. cbn [ob_response ob_db]. intros [= <-].
    unfold getMe, Query.get. rewrite Hw, find_app. unfold Query.get in Hh. rewrite Hh.
    reflexivity.
Qed.

(** X16. PATCH /users/me touches the profile of the human and nothing
    else: the ids, types and creation times of all users stay as they
    were, users that are not human keep their rows (user ids being
    distinct), and a 200 answer is the object GET /users/me returns
    afterwards; without a human, or with a body the schema refuses,
    the database is left as it was. *)
Theorem patchMe_touches_only_the_profile :
  forall (db : Db) (body : Body),
    List.NoDup (List.map user_id (users db)) ->
    List.map user_id (users (snd (patchMe Body safeParse db body)))
    = List.map user_id (users db) /\
    List.map user_type (users (snd (patchMe Body safeParse db body)))
    = List.map user_type (users db) /\
    List.map user_createdAt (users (snd (patchMe Body safeParse db body)))
    = List.map user_createdAt (users db) /\
    (forall u, In u (users db) -> isHuman u = false ->
               In u (users (snd (patchMe Body safeParse db body)))) /\
    match fst (patchMe Body safeParse db body) with
    | Json status r => status = 200 /\ getMe (snd (patchMe Body safeParse db body)) = Json 200 r
    | _ => snd (patchMe Body safeParse db body) = db
    end.
Proof.
  intros db body Hnd. unfold patchMe.
  destruct (safeParse body) as [msg|data]; [cbn [fst snd]; repeat split; tauto|].
  destruct (Query.get isHuman (users db)) as [existing|] eqn:Hh;
    [|cbn [fst snd]; repeat split; tauto].
  destruct (updateUser_lookups db existing data Hnd Hh) as (updated & H1 & H2).
  rewrite H2. cbn [fst snd].
  split; [apply updateUser_ids|]. split; [apply updateUser_types|]. split; [|split].
  - unfold updateUser. cbn [users set_users]. rewrite List.map_map.
    apply List.map_ext. intros u. destruct (String.eqb (user_id u) (user_id existing)); reflexivity.
  - intros u Hin Hnh. unfold updateUser. cbn [users set_users].
    apply List.in_map_iff. exists u. split; [|exact Hin].
    destruct (String.eqb_spec (user_id u) (user_id existing)) as [He|_]; [|reflexivity].
    exfalso. pose proof (find_human_by_id _ _ Hnd Hh) as Hfe.
    unfold Query.get in Hh. apply List.find_some in Hh. destruct Hh as [Hine Hhe].
    assert (u = existing).
    { clear - Hnd Hin Hine He. induction (users db) as [|x l IH]; [destruct Hin|].
      cbn [List.map] in Hnd. apply List.NoDup_cons_iff in Hnd. destruct Hnd as [Hx Hnd].
      destruct Hin as [->|Hin]; destruct Hine as [->|Hine]; try reflexivity.
      - exfalso. apply Hx. rewrite He. apply List.in_map. exact Hine.
      - exfalso. apply Hx. rewrite <- He. apply List.in_map. exact Hin.
      - apply IH; assumption. }
    subst u. congruence.
  - split; [reflexivity|]. unfold getMe. rewrite H1. reflexivity.
Qed.

End UsersMeFacts.

(** The first onboarding on the fresh store, then GET /users/me. *)
Lemma getMe_after_onboard_witness :
  UsersMe.getMe
    (Users.ob_db
       (Users.onboard _ Scenarios.nameSchema Scenarios.freshStore
          "u-boss" "m-welcome" "2026-02-18T09:00:00.000Z" (Some "boss")))
  = Json 200
      (Users.mkUserResponse "u-boss" "boss" "human" "2026-02-18T09:00:00.000Z"
         None None None).
Proof.
  refine (getMe_after_onboard (option string) Scenarios.nameSchema Scenarios.freshStore
            "u-boss" "m-welcome" "2026-02-18T09:00:00.000Z" (Some "boss") _ _ _).
  - repeat constructor; cbn; intuition discriminate.
  - vm_compute. reflexivity.
Defined.

(** The boss of the two-channel store renames themselves. *)
Lemma patchMe_touches_only_the_profile_witness :
  UsersMe.getMe
    (snd (UsersMe.patchMe _ Scenarios.nameSchema Scenarios.twoChannelStore (Some "chief")))
  = Json 200
      (Users.mkUserResponse "u-boss" "chief" "human" "2026-02-18T09:00:00.000Z"
         None None None).
Proof.
  assert (Hnd : List.NoDup (List.map Schema.user_id (Schema.users Scenarios.twoChannelStore))).
  { repeat constructor; cbn; intuition discriminate. }
  exact (proj2 (proj2 (proj2 (proj2 (proj2
           (patchMe_touches_only_the_profile (option string) Scenarios.nameSchema
              Scenarios.twoChannelStore (Some "chief") Hnd)))))).
Defined.

(** ** More on the liveness sweep *)

Section SweepFacts.
Import Schema Liveness.

Variable isPidAlive : Z -> bool.
Variable fetchOpencodeSessions : string -> gset string.




End SweepFacts.

(** ** The DM endpoint *)

Section AgentDmFacts.
Import Schema AgentDm.

Lemma insertChannel_Some ch s s' :
  insertChannel ch s = Some s' ->
  s' = mkStore (st_users s) (st_agents s) (st_channels s ++ [ch]) (st_members s) /\
  List.existsb (fun x => String.eqb (ch_id x) (ch_id ch) || String.eqb (ch_name x) (ch_name ch))
               (st_channels s) = false.
Proof.
  unfold insertChannel. destruct (List.existsb _ (st_channels s)); [discriminate|].
  intros [= <-]. split; reflexivity.
Qed.

Lemma insertMember_Some m s s' :
  insertMember m s = Some s' ->
  s' = mkStore (st_users s) (st_agents s) (st_channels s) (st_members s ++ [m]).
Proof.
  unfold insertMember. destruct (List.existsb _ (st_members s)); [discriminate|].
  destruct (negb (List.existsb _ (st_channels s))); [discriminate|].
  destruct (negb (List.existsb _ (st_users s))); [discriminate|].
  intros [= <-]. reflexivity.
Qed.

Lemma find_snoc_new {A} (p : A -> bool) (l : list A) (x : A) :
  List.find p l = None -> p x = true -> List.find p (l ++ [x]) = Some x.
Proof.
  intros Hl Hx. induction l as [|y l IH]; cbn [List.app List.find].
  - rewrite Hx. reflexivity.
  - cbn [List.find] in Hl. destruct (p y); [discriminate|]. apply IH. exact Hl.
Qed.

Lemma find_none_weaker {A} (p q : A -> bool) (l : list A) :
  (forall x, p x = true -> q x = true) ->
  List.existsb q l = false -> List.find p l = None.
Proof.
  intros Hpq. induction l as [|y l IH]; [reflexivity|]. cbn [List.existsb List.find].
  destruct (q y) eqn:Eq; [discriminate|]. cbn [orb]. intros H.
  destruct (p y) eqn:Ep; [rewrite (Hpq y Ep) in Eq; discriminate|]. apply IH. exact H.
Qed.

Lemma existsb_snoc {A} (p : A -> bool) (l : list A) (x : A) :
  p x = true -> List.existsb p (l ++ [x]) = true.
Proof.
  intros Hx. rewrite List.existsb_app. cbn [List.existsb]. rewrite Hx.
  rewrite orb_true_r. reflexivity.
Qed.

(** What a call that creates the channel leaves behind. *)
Lemma postDm_created s channelId now agentName agent r s' :
  Query.get (fun a => String.eqb (agent_agentName a) agentName) (st_agents s) = Some agent ->
  Query.get (fun ch => String.eqb (ch_name ch) ("#dm-" +:+ agentName)) (st_channels s) = None ->
  postDm s channelId now agentName = (Json 200 r, s') ->
  r = channelToResponse (mkChannelRow channelId ("#dm-" +:+ agentName) "dm" None "human" now) /\
  st_users s' = st_users s /\ st_agents s' = st_agents s /\
  st_channels s'
  = st_channels s ++ [mkChannelRow channelId ("#dm-" +:+ agentName) "dm" None "human" now] /\
  exists rest,
    st_members s' = st_members s ++ mkChannelMember channelId (agent_id agent) now :: rest /\
    forall human,
      Query.get (fun u => String.eqb (user_type u) "human") (st_users s) = Some human ->
      rest = [mkChannelMember channelId (user_id human) now].
Proof.
  intros Hagent Hnone. unfold postDm. rewrite Hagent. cbv zeta. rewrite Hnone.
  set (new := mkChannelRow channelId ("#dm-" +:+ agentName) "dm" None "human" now).
  destruct (insertChannel new s) as [s1|] eqn:H1; [|discriminate].
  apply insertChannel_Some in H1. destruct H1 as [-> Hfree].
  destruct (insertMember (mkChannelMember channelId (agent_id agent) now) _) as [s2|] eqn:H2;
    [|discriminate].
  apply insertMember_Some in H2. subst s2. cbn [st_users st_agents st_channels st_members].
  assert (Hfind : Query.get (fun ch => String.eqb (ch_id ch) channelId) (st_channels s ++ [new])
                  = Some new).
  { unfold Query.get. apply find_snoc_new; [|apply String.eqb_refl].
    refine (find_none_weaker _ _ _ _ Hfree).
    intros x H. change (ch_id new) with channelId. rewrite H. reflexivity. }
  destruct (Query.get (fun u => String.eqb (user_type u) "human") (st_users s)) as [human|] eqn:Hh.
  - destruct (insertMember (mkChannelMember channelId (user_id human) now) _) as [s3|] eqn:H3;
      [|discriminate].
    apply insertMember_Some in H3. subst s3. cbn [st_users st_agents st_channels st_members].
    match goal with
    | |- match ?g with _ => _ end = _ -> _ => replace g with (Some new) by (symmetry; exact Hfind)
    end.
    intros [= <- <-]. cbn [st_users st_agents st_channels st_members].
    repeat split; try reflexivity.
    exists [mkChannelMember channelId (user_id human) now]. split.
    + rewrite <- List.app_assoc. reflexivity.
    + intros human' [= <-]. reflexivity.
  - match goal with
    | |- match ?g with _ => _ end = _ -> _ => replace g with (Some new) by (symmetry; exact Hfind)
    end.
    intros [= <- <-]. cbn [st_users st_agents st_channels st_members].
    repeat split; try reflexivity.
    exists []. split; [reflexivity|]. intros human' Hf. discriminate Hf.
Qed.

(** X18. The DM endpoint is get-or-create: once a call has answered
    200 for an agent, every later call for that agent, whatever id
    and time it draws, answers 200 with the same channel object and
    leaves the database as it is.  The channel is named [#dm-] plus
    the agent name. *)
Theorem postDm_returns_the_same_channel_again :
  forall (s s' : Store) (channelId now agentName : string) (r : ChannelResponse),
    postDm s channelId now agentName = (Json 200 r, s') ->
    cr_name r = "#dm-" +:+ agentName /\
    forall channelId' now' : string,
      postDm s' channelId' now' agentName = (Json 200 r, s').
Proof.
  intros s s' channelId now agentName r Hcall.
  destruct (Query.get (fun a => String.eqb (agent_agentName a) agentName) (st_agents s))
    as [agent|] eqn:Hagent.
  2: { unfold postDm in Hcall. rewrite Hagent in Hcall. discriminate. }
  destruct (Query.get (fun ch => String.eqb (ch_name ch) ("#dm-" +:+ agentName)) (st_channels s))
    as [existing|] eqn:Hex.
  - unfold postDm in Hcall. rewrite Hagent in Hcall. cbv zeta in Hcall. rewrite Hex in Hcall.
    injection Hcall as <- <-. split.
    + unfold Query.get in Hex. apply List.find_some in Hex. apply String.eqb_eq. exact (proj2 Hex).
    + intros channelId' now'. unfold postDm. rewrite Hagent. cbv zeta. rewrite Hex. reflexivity.
  - pose proof (postDm_created s channelId now agentName agent r s' Hagent) as Hcr.
    specialize (Hcr Hex Hcall). destruct Hcr as (-> & Hu & Ha & Hc & _).
    split; [reflexivity|].
    intros channelId' now'. unfold postDm. rewrite Ha, Hagent. cbv zeta. rewrite Hc.
    unfold Query.get in *.
    rewrite (find_snoc_new (fun ch => String.eqb (ch_name ch) ("#dm-" +:+ agentName))
               (st_channels s)
               (mkChannelRow channelId ("#dm-" +:+ agentName) "dm" None "human" now)
               Hex (String.eqb_refl ("#dm-" +:+ agentName))).
    reflexivity.
Qed.

(** X19. A call that creates the channel makes it a [dm] channel
    with the id it drew, appended to the channels table, and joins the
    agent and, when there is one, the human to it. *)
Theorem postDm_joins_agent_and_human :
  forall (s s' : Store) (channelId now agentName : string) (agent : Agent)
         (r : ChannelResponse),
    Query.get (fun a => String.eqb (agent_agentName a) agentName) (st_agents s) = Some agent ->
    Query.get (fun ch => String.eqb (ch_name ch) ("#dm-" +:+ agentName)) (st_channels s) = None ->
    postDm s channelId now agentName = (Json 200 r, s') ->
    cr_id r = channelId /\ cr_type r = "dm" /\
    st_channels s'
    = st_channels s ++ [mkChannelRow channelId ("#dm-" +:+ agentName) "dm" None "human" now] /\
    isMember channelId (agent_id agent) s' = true /\
    (forall human,
        Query.get (fun u => String.eqb (user_type u) "human") (st_users s) = Some human ->
        isMember channelId (user_id human) s' = true).
Proof.
  intros s s' channelId now agentName agent r Hagent Hex Hcall.
  pose proof (postDm_created s channelId now agentName agent r s' Hagent) as Hcr.
  specialize (Hcr Hex Hcall). destruct Hcr as (-> & Hu & Ha & Hc & rest & Hm & Hh).
  split; [reflexivity|]. split; [reflexivity|]. split; [exact Hc|]. split.
  - unfold isMember. rewrite Hm, List.existsb_app. cbn [List.existsb cm_channelId cm_userId].
    rewrite !String.eqb_refl. cbn [andb orb]. apply orb_true_r.
  - intros human Hhuman. rewrite (Hh human Hhuman) in Hm.
    unfold isMember. rewrite Hm, List.existsb_app.
    cbn [List.existsb cm_channelId cm_userId]. rewrite !String.eqb_refl.
    cbn [andb orb]. rewrite !orb_true_r. reflexivity.
Qed.

End AgentDmFacts.

(** ** Feature requests and votes *)

Section FeaturesFacts.
Import Schema Features.

Variable Body : Type.
Variable safeParseFeature : Body -> string + FeatureCreate.
Variable safeParseVote : Body -> string + Z.

Lemma voteCount_cons featureId v votes :
  voteCount featureId (v :: votes)
  = (if String.eqb (vote_featureId v) featureId then vote_vote v else 0)
    + voteCount featureId votes.
Proof.
  unfold voteCount. cbn [List.filter].
  destruct (String.eqb (vote_featureId v) featureId); reflexivity.
Qed.

Lemma voteCount_snoc featureId v votes :
  voteCount featureId (votes ++ [v])
  = voteCount featureId votes
    + (if String.eqb (vote_featureId v) featureId then vote_vote v else 0).
Proof.
  induction votes as [|w votes IH]; cbn [List.app].
  - rewrite voteCount_cons. unfold voteCount. cbn. lia.
  - rewrite !voteCount_cons, IH. lia.
Qed.

(** The update of one user's vote, on a table whose keys are
    distinct. *)
Lemma updateVote_votes featureId userId vote (votes : list FeatureVote) :
  List.NoDup (List.map voteKey votes) ->
  let mine := fun v => String.eqb (vote_featureId v) featureId
                       && String.eqb (vote_userId v) userId in
  let votes' := List.map (fun v => if mine v
                                   then mkFeatureVote (vote_featureId v) (vote_userId v) vote
                                   else v) votes in
  List.map voteKey votes' = List.map voteKey votes /\
  (forall w, voteKey w <> (featureId, userId) -> (In w votes' <-> In w votes)) /\
  (List.existsb mine votes = true ->
   In (mkFeatureVote featureId userId vote) votes' /\
   voteCount featureId votes'
   = voteCount featureId votes - voteOf featureId userId votes + vote).
Proof.
  intros Hnd mine votes'. subst votes'.
  assert (Hkey : forall v, mine v = true -> voteKey v = (featureId, userId)).
  { intros v Hv. unfold mine in Hv. apply andb_prop in Hv. destruct Hv as [H1 H2].
    apply String.eqb_eq in H1, H2. unfold voteKey. congruence. }
  assert (Hkey' : forall v, voteKey v = (featureId, userId) -> mine v = true).
  { intros v Hv. unfold voteKey in Hv. injection Hv as H1 H2. unfold mine.
    rewrite H1, H2, !String.eqb_refl. reflexivity. }
  split; [|split].
  - rewrite List.map_map. apply List.map_ext. intros v. destruct (mine v); reflexivity.
  - intros w Hw. rewrite List.in_map_iff. split.
    + intros (v & Hv & Hin). destruct (mine v) eqn:E.
      * subst w. exfalso. apply Hw. unfold voteKey. cbn [vote_featureId vote_userId].
        apply (Hkey v E).
      * subst w. exact Hin.
    + intros Hin. exists w. split; [|exact Hin].
      destruct (mine w) eqn:E; [|reflexivity]. exfalso. apply Hw. apply Hkey. exact E.
  - induction votes as [|v votes IH]; [discriminate|].
    cbn [List.map] in Hnd. apply List.NoDup_cons_iff in Hnd. destruct Hnd as [Hv Hnd].
    cbn [List.existsb List.map]. unfold voteOf. cbn [List.find].
    change (String.eqb (vote_featureId v) featureId && String.eqb (vote_userId v) userId)
      with (mine v).
    destruct (mine v) eqn:E.
    + intros _.
      assert (Hrest : forall w, In w votes -> mine w = false).
      { intros w Hin. destruct (mine w) eqn:Ew; [|reflexivity]. exfalso. apply Hv.
        rewrite (Hkey v E), <- (Hkey w Ew). apply List.in_map. exact Hin. }
      assert (Hsame : List.map (fun v0 => if mine v0
                                          then mkFeatureVote (vote_featureId v0) (vote_userId v0) vote
                                          else v0) votes = votes).
      { clear - Hrest. induction votes as [|w votes IH]; [reflexivity|]. cbn [List.map].
        rewrite (Hrest w (or_introl eq_refl)). f_equal. apply IH.
        intros x Hx. apply Hrest. right. exact Hx. }
      rewrite Hsame. pose proof (Hkey v E) as Hk. unfold voteKey in Hk. injection Hk as H1 H2.
      split; [left; rewrite H1, H2; reflexivity|].
      rewrite !voteCount_cons. cbn [vote_featureId vote_vote].
      rewrite ?H1, ?String.eqb_refl. lia.
    + cbn [orb]. intros Hex. destruct (IH Hnd Hex) as [Hin Hcount].
      split; [right; exact Hin|].
      rewrite !voteCount_cons, Hcount. unfold voteOf. fold mine. lia.
Qed.

Lemma filter_nothing_local {A} (p : A -> bool) (l : list A) :
  (forall x, In x l -> p x = false) -> List.filter p l = [].
Proof.
  induction l as [|x l IH]; [reflexivity|]. intros H. cbn [List.filter].
  rewrite (H x (or_introl eq_refl)). apply IH. intros y Hy. apply H. right. exact Hy.
Qed.

Lemma find_existsb_true {A} (p : A -> bool) (l : list A) (x : A) :
  List.find p l = Some x -> List.existsb p l = true.
Proof.
  intros H. apply List.existsb_exists. exists x. apply List.find_some in H. exact H.
Qed.

(** What a vote that answers 200 does to the votes table. *)
Lemma postVote_votes (s : Store) (featureId : string) (body : Body) (vote : Z) (human : User)
    (r : VoteResponse) :
  List.NoDup (List.map voteKey (st_votes s)) ->
  safeParseVote body = inr vote ->
  Query.get (fun u => String.eqb (user_type u) "human") (st_users s) = Some human ->
  out_response (postVote Body safeParseVote s featureId body) = Json 200 r ->
  exists feature,
    Query.get (fun f => String.eqb (feature_id f) featureId) (st_features s) = Some feature /\
    r = mkVoteResponse "voted" vote /\
    st_users (out_store (postVote Body safeParseVote s featureId body)) = st_users s /\
    st_features (out_store (postVote Body safeParseVote s featureId body)) = st_features s /\
    out_events (postVote Body safeParseVote s featureId body)
    = [mkFeatureUpdateArgs featureId (feature_title feature) (feature_status feature)
         (voteCount featureId (st_votes (out_store (postVote Body safeParseVote s featureId body))))
         "voted"] /\
    List.NoDup (List.map voteKey (st_votes (out_store (postVote Body safeParseVote s featureId body)))) /\
    In (mkFeatureVote featureId (user_id human) vote)
       (st_votes (out_store (postVote Body safeParseVote s featureId body))) /\
    (forall w, voteKey w <> (featureId, user_id human) ->
               (In w (st_votes (out_store (postVote Body safeParseVote s featureId body)))
                <-> In w (st_votes s))) /\
    voteCount featureId (st_votes (out_store (postVote Body safeParseVote s featureId body)))
    = voteCount featureId (st_votes s) - voteOf featureId (user_id human) (st_votes s) + vote.
Proof.
  intros Hnd Hparse Hhuman. unfold postVote. rewrite Hparse.
  destruct (Query.get (fun f => String.eqb (feature_id f) featureId) (st_features s))
    as [feature|]; [|discriminate].
  rewrite Hhuman.
  destruct (Query.get _ (st_votes s)) as [existing|] eqn:Hmine.
  - cbn [out_response out_store out_events]. intros [= <-]. exists feature.
    destruct (updateVote_votes featureId (user_id human) vote (st_votes s) Hnd)
      as (Hkeys & Hothers & Hmineq).
    destruct (Hmineq (find_existsb_true _ _ _ Hmine)) as [Hin Hcount].
    unfold updateVote. cbn [st_users st_features st_votes].
    repeat split; try reflexivity.
    + rewrite Hkeys. exact Hnd.
    + exact Hin.
    + apply Hothers; assumption.
    + apply Hothers; assumption.
    + exact Hcount.
  - destruct (insertVote (mkFeatureVote featureId (user_id human) vote) s) as [s'|] eqn:Hins;
      [|discriminate].
    cbn [out_response out_store out_events]. intros [= <-]. exists feature.
    unfold insertVote in Hins. cbn [vote_featureId vote_userId] in Hins.
    destruct (List.existsb _ (st_votes s)) eqn:Hfree; [discriminate|].
    destruct (negb (List.existsb _ (st_features s))); [discriminate|].
    destruct (negb (List.existsb _ (st_users s))); [discriminate|].
    injection Hins as <-. cbn [st_users st_features st_votes].
    repeat split; try reflexivity.
    + rewrite List.map_app. cbn [List.map]. apply List.NoDup_app; [exact Hnd| |].
      * constructor; [intros []|constructor].
      * intros k Hk [<-|[]]. apply List.in_map_iff in Hk. destruct Hk as (w & Hw & Hin).
        assert (Hf : List.existsb
                       (fun x => String.eqb (vote_featureId x) featureId
                                 && String.eqb (vote_userId x) (user_id human)) (st_votes s) = true).
        { apply List.existsb_exists. exists w. split; [exact Hin|].
          unfold voteKey in Hw. cbn [vote_featureId vote_userId] in Hw. injection Hw as -> ->.
          rewrite !String.eqb_refl. reflexivity. }
        congruence.
    + apply List.in_app_iff. right. left. reflexivity.
    + intros Hin. apply List.in_app_iff in Hin. destruct Hin as [Hin|[<-|[]]]; [exact Hin|].
      exfalso. apply H. reflexivity.
    + intros Hin. apply List.in_app_iff. left. exact Hin.
    + rewrite voteCount_snoc. cbn [vote_featureId vote_vote]. rewrite String.eqb_refl.
      unfold voteOf. unfold Query.get in Hmine. rewrite Hmine. lia.
Qed.

(** X20. Voting is an upsert on the votes table: after a vote that
    answers 200 (the keys of the table being distinct, as its
    primary key makes them) the keys are still distinct, the human
    has exactly the row (feature, human, vote), every row with
    another key is there if and only if it was there before, and
    users and feature requests are untouched. *)
Theorem postVote_is_an_upsert :
  forall (s : Store) (featureId : string) (body : Body) (vote : Z) (human : User)
         (r : VoteResponse),
    List.NoDup (List.map voteKey (st_votes s)) ->
    safeParseVote body = inr vote ->
    Query.get (fun u => String.eqb (user_type u) "human") (st_users s) = Some human ->
    out_response (postVote Body safeParseVote s featureId body) = Json 200 r ->
    List.NoDup (List.map voteKey (st_votes (out_store (postVote Body safeParseVote s featureId body)))) /\
    In (mkFeatureVote featureId (user_id human) vote)
       (st_votes (out_store (postVote Body safeParseVote s featureId body))) /\
    (forall w, voteKey w <> (featureId, user_id human) ->
               (In w (st_votes (out_store (postVote Body safeParseVote s featureId body)))
                <-> In w (st_votes s))) /\
    st_users (out_store (postVote Body safeParseVote s featureId body)) = st_users s /\
    st_features (out_store (postVote Body safeParseVote s featureId body)) = st_features s.
Proof.
  intros s featureId body vote human r Hnd Hparse Hhuman Hresp.
  destruct (postVote_votes s featureId body vote human r Hnd Hparse Hhuman Hresp)
    as (feature & _ & _ & Hu & Hf & _ & Hnd' & Hin & Hothers & _).
  repeat split; try assumption; apply Hothers; assumption.
Qed.

(** X21. The vote count broadcast after a vote is the sum of the
    votes on the feature with the human's previous vote replaced by
    the new one: the count before, minus what the human had cast (0
    if nothing), plus the new vote.  The event names the feature
    voted on, and afterwards the human's vote on it is the new one. *)
Theorem postVote_broadcasts_the_new_count :
  forall (s : Store) (featureId : string) (body : Body) (vote : Z) (human : User)
         (r : VoteResponse),
    List.NoDup (List.map voteKey (st_votes s)) ->
    safeParseVote body = inr vote ->
    Query.get (fun u => String.eqb (user_type u) "human") (st_users s) = Some human ->
    out_response (postVote Body safeParseVote s featureId body) = Json 200 r ->
    List.map fu_voteCount (out_events (postVote Body safeParseVote s featureId body))
    = [voteCount featureId (st_votes s) - voteOf featureId (user_id human) (st_votes s) + vote] /\
    List.map fu_featureId (out_events (postVote Body safeParseVote s featureId body))
    = [featureId] /\
    voteOf featureId (user_id human)
      (st_votes (out_store (postVote Body safeParseVote s featureId body))) = vote.
Proof.
  intros s featureId body vote human r Hnd Hparse Hhuman Hresp.
  destruct (postVote_votes s featureId body vote human r Hnd Hparse Hhuman Hresp)
    as (feature & _ & _ & _ & _ & Hev & Hnd' & Hin & _ & Hcount).
  rewrite Hev. cbn [List.map fu_voteCount fu_featureId]. rewrite Hcount.
  split; [reflexivity|]. split; [reflexivity|].
  (* the human's row is the one the lookup finds *)
  unfold voteOf.
  destruct (List.find _ (st_votes (out_store (postVote Body safeParseVote s featureId body))))
    as [v|] eqn:Hfind.
  - apply List.find_some in Hfind. destruct Hfind as [Hv Hk].
    apply andb_prop in Hk. destruct Hk as [H1 H2]. apply String.eqb_eq in H1, H2.
    assert (Hsame : v = mkFeatureVote featureId (user_id human) vote).
    { revert Hnd' Hv Hin.
      generalize (st_votes (out_store (postVote Body safeParseVote s featureId body))).
      intros l. induction l as [|x l IH]; [intros _ []|].
      cbn [List.map]. intros Hn. apply List.NoDup_cons_iff in Hn. destruct Hn as [Hx Hn].
      intros [->|Hv] [Hi|Hi].
      - exact Hi.
      - exfalso. apply Hx. apply List.in_map_iff. exists (mkFeatureVote featureId (user_id human) vote).
        split; [|exact Hi]. unfold voteKey. cbn [vote_featureId vote_userId]. congruence.
      - subst x. exfalso. apply Hx. apply List.in_map_iff. exists v.
        split; [|exact Hv]. unfold voteKey. cbn [vote_featureId vote_userId]. congruence.
      - apply IH; assumption. }
    rewrite Hsame. reflexivity.
  - exfalso. pose proof (List.find_none _ _ Hfind _ Hin) as Hn.
    cbn [vote_featureId vote_userId] in Hn. rewrite !String.eqb_refl in Hn. discriminate.
Qed.

(** *** GET /features *)

(** The rows the left join makes of one feature request. *)
Lemma leftJoin_cons {A B} (on : A -> B -> bool) (x : A) (a : list A) (b : list B) :
  leftJoin on (x :: a) b
  = match List.filter (on x) b with
    | [] => [(x, None)]
    | ys => List.map (fun y => (x, Some y)) ys
    end ++ leftJoin on a b.
Proof. reflexivity. Qed.

Lemma addToGroup_new {R} (key : R -> string) (r : R) (groups : list (list R)) :
  Forall (fun g => match g with
                   | x :: _ => String.eqb (key x) (key r) = false
                   | [] => True
                   end) groups ->
  addToGroup key r groups = groups ++ [[r]].
Proof.
  induction 1 as [|g groups Hg _ IH]; [reflexivity|]. cbn [addToGroup List.app].
  destruct g as [|x g]; [rewrite IH; reflexivity|]. rewrite Hg, IH. reflexivity.
Qed.

Lemma addToGroup_last {R} (key : R -> string) (r x : R) (g : list R) (groups : list (list R)) :
  Forall (fun g => match g with
                   | y :: _ => String.eqb (key y) (key r) = false
                   | [] => True
                   end) groups ->
  String.eqb (key x) (key r) = true ->
  addToGroup key r (groups ++ [x :: g]) = groups ++ [(x :: g) ++ [r]].
Proof.
  intros Hgs Hx. induction Hgs as [|g0 groups Hg _ IH]; cbn [addToGroup List.app].
  - rewrite Hx. reflexivity.
  - destruct g0 as [|y g0]; [rewrite IH; reflexivity|]. rewrite Hg, IH. reflexivity.
Qed.

(** A run of rows with one key, none of which is the key of a group
    built so far, becomes one new group. *)
Lemma groupBy_block {R} (key : R -> string) (k : string) (x : R) (block rest : list R)
    (groups : list (list R)) :
  Forall (fun r => key r = k) (x :: block) ->
  Forall (fun g => match g with
                   | y :: _ => String.eqb (key y) k = false
                   | [] => True
                   end) groups ->
  List.fold_left (fun gs r => addToGroup key r gs) ((x :: block) ++ rest) groups
  = List.fold_left (fun gs r => addToGroup key r gs) rest (groups ++ [x :: block]).
Proof.
  intros Hb Hgs. rewrite List.fold_left_app. f_equal.
  inversion Hb as [|? ? Hx Hblock]; subst. cbn [List.fold_left].
  rewrite addToGroup_new by exact Hgs.
  assert (Hgen : forall done,
             List.fold_left (fun gs r => addToGroup key r gs) block (groups ++ [x :: done])
             = groups ++ [x :: done ++ block]).
  { clear Hb. induction block as [|r block IH]; intros done; cbn [List.fold_left].
    - rewrite List.app_nil_r. reflexivity.
    - inversion Hblock as [|? ? Hr Hblock']; subst.
      rewrite addToGroup_last.
      + change ((x :: done) ++ [r]) with (x :: (done ++ [r])).
        rewrite (IH Hblock' (done ++ [r])), <- List.app_assoc. reflexivity.
      + rewrite Hr. exact Hgs.
      + rewrite Hr. apply String.eqb_refl. }
  exact (Hgen []).
Qed.

Lemma sumVotes_block (f : FeatureRequest) (votes : list FeatureVote) :
  sumVotes
    (List.map (fun x : FeatureRequest * option FeatureVote => option_map vote_vote (snd x))
       match List.filter (fun v => String.eqb (feature_id f) (vote_featureId v)) votes with
       | [] => [(f, None)]
       | ys => List.map (fun y => (f, Some y)) ys
       end)
  = voteCount (feature_id f) votes.
Proof.
  unfold voteCount.
  rewrite (List.filter_ext (fun v => String.eqb (vote_featureId v) (feature_id f))
                           (fun v => String.eqb (feature_id f) (vote_featureId v)))
    by (intros v; apply String.eqb_sym).
  destruct (List.filter _ votes) as [|y ys]; [reflexivity|].
  rewrite !List.map_map. reflexivity.
Qed.

(** The join, the grouping and the sum, on a table with distinct
    feature ids, amount to one row per selected feature request with
    the sum of its votes, handed to the sort. *)
Lemma getFeatures_rows :
  forall (s : Store) (status : option string),
    List.NoDup (List.map feature_id (st_features s)) ->
    getFeatures s status
    = List.map (fun r => toResponse (fst r) (snd r))
        (Query.orderByDesc (fun r : FeatureRequest * Z => feature_createdAt (fst r))
           (List.map (fun f => (f, voteCount (feature_id f) (st_votes s)))
              (if Query.truthy status
               then List.filter (fun f => String.eqb (feature_status f) (default "" status))
                                (st_features s)
               else st_features s))).
Proof.
  intros s status Hnd. unfold getFeatures. cbv zeta. do 2 f_equal.
  set (on := fun (f : FeatureRequest) (v : FeatureVote) =>
               String.eqb (feature_id f) (vote_featureId v)).
  set (keep := fun f : FeatureRequest =>
                 if Query.truthy status
                 then String.eqb (feature_status f) (default "" status) else true).
  set (key := fun r : FeatureRequest * option FeatureVote => feature_id (fst r)).
  (* the selected rows are the blocks of the selected features *)
  assert (Hsel : (if Query.truthy status
                  then List.filter
                         (fun r : FeatureRequest * option FeatureVote =>
                            String.eqb (feature_status (fst r)) (default "" status))
                         (leftJoin on (st_features s) (st_votes s))
                  else leftJoin on (st_features s) (st_votes s))
                 = leftJoin on (List.filter keep (st_features s)) (st_votes s)).
  { unfold keep. clear Hnd. destruct (Query.truthy status).
    - induction (st_features s) as [|f fs IH]; [reflexivity|].
      rewrite leftJoin_cons, List.filter_app, IH. cbn [List.filter].
      destruct (String.eqb (feature_status f) (default "" status)) eqn:E.
      + rewrite leftJoin_cons. f_equal.
        destruct (List.filter (on f) (st_votes s)) as [|y ys].
        * cbn [List.filter fst]. rewrite E. reflexivity.
        * apply List.forallb_filter_id. apply List.forallb_forall.
          intros r Hr. apply List.in_map_iff in Hr. destruct Hr as (v & <- & _). exact E.
      + destruct (List.filter (on f) (st_votes s)) as [|y ys].
        * cbn [List.filter fst]. rewrite E. reflexivity.
        * rewrite filter_nothing_local; [reflexivity|].
          intros r Hr. apply List.in_map_iff in Hr. destruct Hr as (v & <- & _). exact E.
    - rewrite List.forallb_filter_id; [reflexivity|].
      apply List.forallb_forall. reflexivity. }
  rewrite Hsel.
  assert (Hsame : (if Query.truthy status
                   then List.filter (fun f => String.eqb (feature_status f) (default "" status))
                                    (st_features s)
                   else st_features s)
                  = List.filter keep (st_features s)).
  { unfold keep. destruct (Query.truthy status); [reflexivity|].
    symmetry. apply List.forallb_filter_id. apply List.forallb_forall. reflexivity. }
  rewrite Hsame.
  assert (Hnd' : List.NoDup (List.map feature_id (List.filter keep (st_features s)))).
  { clear - Hnd. induction (st_features s) as [|f fs IH]; [constructor|].
    cbn [List.map] in Hnd. apply List.NoDup_cons_iff in Hnd. destruct Hnd as [Hf Hnd].
    cbn [List.filter]. destruct (keep f); [|apply IH; exact Hnd].
    cbn [List.map]. constructor; [|apply IH; exact Hnd].
    intros Hin. apply Hf. apply List.in_map_iff in Hin. destruct Hin as (g & Hg & Hin).
    apply List.filter_In in Hin. rewrite <- Hg. apply List.in_map. tauto. }
  clear Hsel Hsame. generalize dependent (List.filter keep (st_features s)). intros fs Hfs.
  (* grouping gives one group per feature *)
  assert (Hgroups : forall groups,
             Forall (fun g => match g with
                              | y :: _ => ~ In (key y) (List.map feature_id fs)
                              | [] => True
                              end) groups ->
             List.fold_left (fun gs r => addToGroup key r gs) (leftJoin on fs (st_votes s)) groups
             = groups
               ++ List.map (fun f => match List.filter (on f) (st_votes s) with
                                     | [] => [(f, None)]
                                     | ys => List.map (fun y => (f, Some y)) ys
                                     end) fs).
  { induction fs as [|f fs IH]; intros groups Hgs.
    - cbn [leftJoin List.flat_map List.fold_left List.map]. rewrite List.app_nil_r. reflexivity.
    - cbn [List.map] in Hfs. apply List.NoDup_cons_iff in Hfs. destruct Hfs as [Hf Hfs].
      rewrite leftJoin_cons.
      set (block := match List.filter (on f) (st_votes s) with
                    | [] => [(f, None)]
                    | ys => List.map (fun y => (f, Some y)) ys
                    end).
      assert (Hblock : Forall (fun r => key r = feature_id f) block).
      { unfold block. destruct (List.filter (on f) (st_votes s)) as [|y ys].
        - repeat constructor.
        - apply List.Forall_forall. intros r Hr. apply List.in_map_iff in Hr.
          destruct Hr as (v & <- & _). reflexivity. }
      assert (Hne : exists x rest, block = x :: rest).
      { unfold block. destruct (List.filter (on f) (st_votes s)) as [|y ys]; cbn [List.map]; eauto. }
      destruct Hne as (x & rest & Hb). rewrite Hb in Hblock |- *.
      rewrite (groupBy_block key (feature_id f) x rest).
      + rewrite IH.
        * rewrite <- List.app_assoc. cbn [List.map List.app]. do 2 f_equal.
          symmetry. exact Hb.
        * exact Hfs.
        * apply List.Forall_app. split.
          -- eapply List.Forall_impl; [|exact Hgs]. intros [|y g] Hy; [exact I|].
             intros Hin. apply Hy. right. exact Hin.
          -- constructor; [|constructor]. inversion Hblock as [|? ? Hx _]; subst.
             rewrite Hx. exact Hf.
      + exact Hblock.
      + eapply List.Forall_impl; [|exact Hgs]. intros [|y g] Hy; [exact I|].
        apply String.eqb_neq. intros He. apply Hy. left. symmetry. exact He. }
  unfold groupBy. rewrite (Hgroups [] (List.Forall_nil _)). cbn [List.app].
  clear Hgroups Hfs.
  match goal with
  | |- List.flat_map ?F (List.map ?G fs) = _ => set (F0 := F); set (G0 := G)
  end.
  induction fs as [|f fs IH]; [reflexivity|].
  change (List.map G0 (f :: fs)) with (G0 f :: List.map G0 fs).
  change (List.flat_map F0 (G0 f :: List.map G0 fs))
    with (F0 (G0 f) ++ List.flat_map F0 (List.map G0 fs)).
  rewrite IH. cbn [List.map].
  assert (Hhead : F0 (G0 f) = [(f, voteCount (feature_id f) (st_votes s))]).
  { pose proof (sumVotes_block f (st_votes s)) as Hsum.
    unfold F0, G0, on.
    destruct (List.filter (fun v => String.eqb (feature_id f) (vote_featureId v)) (st_votes s))
      as [|y ys]; cbn [List.map fst] in *; rewrite <- Hsum; reflexivity. }
  rewrite Hhead. reflexivity.
Qed.

Lemma Permutation_insert_by {A} (le : A -> A -> bool) (x : A) (l : list A) :
  Permutation (Query.insert_by le x l) (x :: l).
Proof.
  induction l as [|y l IH]; cbn [Query.insert_by]; [reflexivity|].
  destruct (le x y); [reflexivity|].
  etransitivity; [apply perm_skip; exact IH|apply perm_swap].
Qed.

Lemma Permutation_sort_by {A} (le : A -> A -> bool) (l : list A) :
  Permutation (Query.sort_by le l) l.
Proof.
  unfold Query.sort_by. induction l as [|x l IH]; cbn [List.fold_right]; [reflexivity|].
  etransitivity; [apply Permutation_insert_by|apply perm_skip; exact IH].
Qed.

Lemma Sorted_map {A B} (f : A -> B) (R : A -> A -> Prop) (R' : B -> B -> Prop) (l : list A) :
  (forall a a', R a a' -> R' (f a) (f a')) -> Sorted R l -> Sorted R' (List.map f l).
Proof.
  intros Hf. induction 1 as [|a l Hs IH Hhd]; cbn [List.map]; constructor; [exact IH|].
  destruct Hhd as [|a' l' Haa']; cbn [List.map]; constructor. apply Hf. exact Haa'.
Qed.

(** X22. GET /features, on a table with distinct feature ids, lists
    every feature request once, or every one with the requested
    status when [status] is given, each with the sum of the votes
    cast on it (0 when there is none), newest first: of two adjacent
    rows the first is not older than the second.  In which order
    requests of equal creation time follow each other is left open. *)
Theorem getFeatures_counts_the_votes :
  forall (s : Store) (status : option string),
    List.NoDup (List.map feature_id (st_features s)) ->
    Permutation
      (getFeatures s status)
      (List.map (fun f => toResponse f (voteCount (feature_id f) (st_votes s)))
         (if Query.truthy status
          then List.filter (fun f => String.eqb (feature_status f) (default "" status))
                           (st_features s)
          else st_features s)) /\
    Sorted (fun r1 r2 => String.leb (fr_created_at r2) (fr_created_at r1) = true)
           (getFeatures s status).
Proof.
  intros s status Hnd. rewrite (getFeatures_rows s status Hnd). unfold Query.orderByDesc.
  split.
  - etransitivity; [apply Permutation_map; apply Permutation_sort_by|].
    rewrite List.map_map. reflexivity.
  - apply (Sorted_map _ (fun x y : FeatureRequest * Z =>
                           String.leb (feature_createdAt (fst y)) (feature_createdAt (fst x))
                           = true)).
    + intros a a' H. exact H.
    + apply (Sorted_sort_by
               (fun x y : FeatureRequest * Z =>
                  String.leb (feature_createdAt (fst y)) (feature_createdAt (fst x)))).
      intros u v. apply String.leb_total.
Qed.

End FeaturesFacts.


(** The boss opens a DM with swift-heron, twice. *)
Lemma postDm_returns_the_same_channel_again_witness :
  exists r s',
    AgentDm.postDm SweepScenarios.dmStore "c-dm-1" "2026-02-18T10:00:00.000Z" "swift-heron"
    = (Json 200 r, s') /\
    AgentDm.cr_name r = "#dm-swift-heron" /\
    AgentDm.postDm s' "c-dm-2" "2026-02-18T11:00:00.000Z" "swift-heron" = (Json 200 r, s').
Proof.
  eexists. eexists. split; [vm_compute; reflexivity|].
  pose proof (postDm_returns_the_same_channel_again
                SweepScenarios.dmStore _ "c-dm-1" "2026-02-18T10:00:00.000Z" "swift-heron" _
                eq_refl) as [Hname Hagain].
  split; [exact Hname|]. exact (Hagain "c-dm-2" "2026-02-18T11:00:00.000Z").
Defined.

Lemma postDm_joins_agent_and_human_witness :
  exists r s',
    AgentDm.postDm SweepScenarios.dmStore "c-dm-1" "2026-02-18T10:00:00.000Z" "swift-heron"
    = (Json 200 r, s') /\
    AgentDm.isMember "c-dm-1" "a-heron" s' = true /\
    AgentDm.isMember "c-dm-1" "u-boss" s' = true.
Proof.
  eexists. eexists. split; [vm_compute; reflexivity|].
  pose proof (postDm_joins_agent_and_human
                SweepScenarios.dmStore _ "c-dm-1" "2026-02-18T10:00:00.000Z" "swift-heron"
                SweepScenarios.heron _ eq_refl eq_refl eq_refl) as (_ & _ & _ & Ha & Hh).
  split; [exact Ha|]. exact (Hh Scenarios.boss eq_refl).
Defined.

(** The boss changes their vote on threading from -1 to +1. *)
Lemma postVote_is_an_upsert_witness :
  In (Features.mkFeatureVote "f-threading" "u-boss" 1)
     (Features.st_votes
        (Features.out_store
           (Features.postVote _ FeatureScenarios.voteSchema FeatureScenarios.featureStore
              "f-threading" (Some 1)))).
Proof.
  refine (proj1 (proj2 (postVote_is_an_upsert (option Z) FeatureScenarios.voteSchema
                          FeatureScenarios.featureStore "f-threading" (Some 1) 1
                          Scenarios.boss (Features.mkVoteResponse "voted" 1) _ eq_refl eq_refl
                          eq_refl))).
  repeat constructor; cbn; intuition discriminate.
Defined.

Lemma postVote_broadcasts_the_new_count_witness :
  List.map Features.fu_voteCount
    (Features.out_events
       (Features.postVote _ FeatureScenarios.voteSchema FeatureScenarios.featureStore
          "f-threading" (Some 1)))
  = [0 - (-1) + 1].
Proof.
  refine (proj1 (postVote_broadcasts_the_new_count (option Z) FeatureScenarios.voteSchema
                   FeatureScenarios.featureStore "f-threading" (Some 1) 1
                   Scenarios.boss (Features.mkVoteResponse "voted" 1) _ eq_refl eq_refl
                   eq_refl)).
  repeat constructor; cbn; intuition discriminate.
Defined.

(** Two open requests of the same instant: both are listed, with
    their votes. *)
Lemma getFeatures_counts_the_votes_witness :
  Permutation
    (Features.getFeatures FeatureScenarios.tiedStore (Some "open"))
    [ Features.mkFeatureResponse "f-b" "Task Board" "A shared task board." "open" "u-creator"
                                 "2026-02-18T08:00:00.000Z" 0;
      Features.mkFeatureResponse "f-a" "Push Notifications" "Get notified." "open"
                                 "u-creator" "2026-02-18T08:00:00.000Z" 1 ] /\
  Sorted (fun r1 r2 => String.leb (Features.fr_created_at r2) (Features.fr_created_at r1)
                       = true)
         (Features.getFeatures FeatureScenarios.tiedStore (Some "open")).
Proof.
  refine (getFeatures_counts_the_votes FeatureScenarios.tiedStore (Some "open") _).
  repeat constructor; cbn; intuition discriminate.
Defined.

(** ** Running the initialization again *)

Section RerunFacts.
Import Sqlite Migrations MigrationSteps MigrationReruns.

Lemma extends_refl db : extends db db.
Proof. split; [apply grows_refl|auto]. Qed.

Lemma extends_trans a b c : extends a b -> extends b c -> extends a c.
Proof. intros [G1 T1] [G2 T2]. split; [eapply grows_trans; eassumption|auto]. Qed.

Lemma tables_setTable t name tb db :
  tables (setTable name tb db) !! t
  = if String.eqb name t then Some tb else tables db !! t.
Proof.
  unfold setTable. cbn [tables]. destruct (String.eqb_spec name t) as [->|Hne].
  - apply lookup_insert_eq.
  - apply lookup_insert_ne. exact Hne.
Qed.

Lemma exec1_tables s db db' t :
  exec1 s db = Some db' -> is_Some (tables db !! t) -> is_Some (tables db' !! t).
Proof.
  assert (Hset : forall name tb, is_Some (tables db !! t) ->
                                 is_Some (tables (setTable name tb db) !! t)).
  { intros name tb H. rewrite tables_setTable. destruct (String.eqb name t); [eauto|exact H]. }
  destruct s as [name cols keys|idx tbl cols|tbl c|tbl values|tbl c v]; cbn [exec1].
  - destruct (tables db !! name); intros [= <-]; auto.
  - destruct (bool_decide (idx ∈ indexes db)); [intros [= <-]; auto|].
    destruct (tables db !! tbl); [|discriminate].
    destruct (List.forallb _ cols); intros [= <-]. auto.
  - destruct (tables db !! tbl) as [tb|]; [|discriminate].
    destruct (hasColumnIn tb (col_name c)); [discriminate|]. intros [= <-]. auto.
  - destruct (tables db !! tbl) as [tb|]; [|discriminate].
    destruct (negb (List.forallb _ values)); [discriminate|].
    destruct (conflicts tb _); intros [= <-]; auto.
  - destruct (tables db !! tbl) as [tb|]; [|discriminate].
    destruct (negb (hasColumnIn tb c)); [discriminate|].
    destruct (List.existsb _ _ && _); [discriminate|]. intros [= <-]. auto.
Qed.

Lemma exec1_extends s db db' : exec1 s db = Some db' -> extends db db'.
Proof.
  intros H. split; [eapply exec1_grows; exact H|]. intros t. eapply exec1_tables. exact H.
Qed.

Lemma exec_extends script : forall db db', exec script db = Some db' -> extends db db'.
Proof.
  induction script as [|s rest IH]; intros db db'; cbn [exec].
  - intros [= <-]. apply extends_refl.
  - destruct (exec1 s db) as [db1|] eqn:E; [|discriminate]. intros H.
    eapply extends_trans; [eapply exec1_extends; exact E | apply IH; exact H].
Qed.

Lemma runStep_extends st db db' : runStep st db = Some db' -> extends db db'.
Proof.
  destruct st as [script|s|tbl c script]; cbn [runStep].
  - apply exec_extends.
  - unfold tryExec. destruct (exec1 s db) as [db1|] eqn:E; intros [= <-];
      [eapply exec1_extends; exact E | apply extends_refl].
  - unfold unlessColumn. destruct (hasColumn tbl c db); [intros [= <-]; apply extends_refl|].
    apply exec_extends.
Qed.

Lemma runSteps_extends steps : forall db db', runSteps steps db = Some db' -> extends db db'.
Proof.
  induction steps as [|st rest IH]; intros db db'; cbn [runSteps].
  - intros [= <-]. apply extends_refl.
  - destruct (runStep st db) as [db1|] eqn:E; [|discriminate]. intros H.
    eapply extends_trans; [eapply runStep_extends; exact E | apply IH; exact H].
Qed.

(** A script of CREATE .. IF NOT EXISTS statements that ran does
    nothing on any later database. *)
Lemma exec_creates_again script : forall db db1,
  List.forallb isCreate script = true ->
  exec script db = Some db1 ->
  forall db2, extends db1 db2 -> exec script db2 = Some db2.
Proof.
  induction script as [|s rest IH]; intros db db1 Hc; cbn [exec]; [reflexivity|].
  cbn [List.forallb] in Hc. apply andb_prop in Hc. destruct Hc as [Hs Hrest].
  destruct (exec1 s db) as [dbm|] eqn:E; [|discriminate]. intros H db2 Hext.
  pose proof (extends_trans _ _ _ (exec_extends _ _ _ H) Hext) as Hm.
  assert (E2 : exec1 s db2 = Some db2).
  { destruct s as [name cols keys|idx tbl cols| | |]; try discriminate; cbn [exec1] in *.
    - assert (Hex : is_Some (tables dbm !! name)).
      { destruct (tables db !! name) eqn:En; injection E as <-; [rewrite En; eauto|].
        rewrite tables_setTable, String.eqb_refl. eauto. }
      apply (proj2 Hm) in Hex. destruct Hex as [tb ->]. reflexivity.
    - assert (Hin : idx ∈ indexes dbm).
      { destruct (bool_decide_reflect (idx ∈ indexes db)) as [Hin|_];
          [injection E as <-; exact Hin|].
        destruct (tables db !! tbl); [|discriminate].
        destruct (List.forallb _ cols); [|discriminate]. injection E as <-.
        cbn [indexes]. apply elem_of_union. right. apply elem_of_singleton. reflexivity. }
      apply (proj2 (proj1 Hm)) in Hin. rewrite (bool_decide_eq_true_2 _ Hin). reflexivity. }
  rewrite E2. eapply IH; eassumption.
Qed.

Lemma exec_tablesOf script : forall db db1,
  exec script db = Some db1 ->
  forall t, In t (tablesOf script) -> is_Some (tables db1 !! t).
Proof.
  induction script as [|s rest IH]; intros db db1; cbn [exec]; [intros _ t []|].
  destruct (exec1 s db) as [dbm|] eqn:E; [|discriminate]. intros H t.
  unfold tablesOf. cbn [List.flat_map]. rewrite List.in_app_iff. intros [Hin|Hin].
  - apply (proj2 (exec_extends _ _ _ H)).
    destruct s as [name cols keys| | | |]; cbn [List.In] in Hin; try contradiction.
    destruct Hin as [<-|[]].
    cbn [exec1] in E. destruct (tables db !! name) eqn:En; injection E as <-.
    + rewrite En. eauto.
    + rewrite tables_setTable, String.eqb_refl. eauto.
  - eapply IH; eassumption.
Qed.

Lemma hasColumn_blocks_add t column db :
  hasColumn t (col_name column) db = true -> tryExec (AddColumn t column) db = db.
Proof.
  unfold hasColumn, tryExec. cbn [exec1]. destruct (tables db !! t) as [tb|]; [|reflexivity].
  intros ->. reflexivity.
Qed.

Lemma tryAdd_has t column db :
  is_Some (tables db !! t) -> hasColumn t (col_name column) (tryExec (AddColumn t column) db) = true.
Proof.
  intros [tb E]. unfold tryExec.
  destruct (exec1 (AddColumn t column) db) as [db1|] eqn:E1.
  - eapply addColumn_has. exact E1.
  - cbn [exec1] in E1. rewrite E in E1. unfold hasColumn. rewrite E.
    destruct (hasColumnIn tb (col_name column)); [reflexivity|discriminate].
Qed.

Lemma unless_has t column more db db1 :
  unlessColumn t (col_name column) (AddColumn t column :: more) db = Some db1 ->
  hasColumn t (col_name column) db1 = true.
Proof.
  unfold unlessColumn. destruct (hasColumn t (col_name column) db) eqn:Hc.
  - intros [= <-]. exact Hc.
  - cbn [exec]. destruct (exec1 (AddColumn t column) db) as [dbm|] eqn:E; [|discriminate].
    intros H. apply (proj1 (exec_grows _ _ _ H)). eapply addColumn_has. exact E.
Qed.

(** Steps of the shape [rerunnable] accepts, once run, do nothing on
    any later database. *)
Lemma rerunnable_again steps : forall created db db',
  rerunnable created steps = true ->
  (forall t, In t created -> is_Some (tables db !! t)) ->
  runSteps steps db = Some db' ->
  forall db2, extends db' db2 -> runSteps steps db2 = Some db2.
Proof.
  induction steps as [|st rest IH]; intros created db db' Hr Hcr; cbn [runSteps];
    [reflexivity|].
  destruct (runStep st db) as [dbm|] eqn:E; [|discriminate]. intros H db2 Hext.
  pose proof (extends_trans _ _ _ (runSteps_extends _ _ _ H) Hext) as Hm.
  destruct st as [script|s|t c script].
  - cbn [rerunnable] in Hr. apply andb_prop in Hr. destruct Hr as [Hc Hrest].
    cbn [runStep] in *. rewrite (exec_creates_again _ _ _ Hc E _ Hm).
    apply (IH _ dbm db' Hrest); [|exact H|exact Hext].
    intros t Hin. apply List.in_app_iff in Hin. destruct Hin as [Hin|Hin].
    + apply (proj2 (exec_extends _ _ _ E)). apply Hcr. exact Hin.
    + eapply exec_tablesOf; eassumption.
  - destruct s as [| |t column| |]; try discriminate.
    cbn [rerunnable] in Hr. apply andb_prop in Hr. destruct Hr as [Hex Hrest].
    apply List.existsb_exists in Hex. destruct Hex as (t' & Hin & Heq).
    apply String.eqb_eq in Heq. subst t'.
    cbn [runStep] in *. injection E as <-.
    pose proof (proj1 (proj1 Hm) _ _ (tryAdd_has t column db (Hcr t Hin))) as Hc.
    rewrite (hasColumn_blocks_add _ _ _ Hc).
    apply (IH _ (tryExec (AddColumn t column) db) db' Hrest); [|exact H|exact Hext].
    intros t0 Hin0. apply (proj2 (runStep_extends (Try (AddColumn t column)) db _ eq_refl)).
    apply Hcr. exact Hin0.
  - destruct script as [|s more]; try discriminate.
    destruct s as [| |t' column| |]; try discriminate.
    cbn [rerunnable] in Hr. apply andb_prop in Hr. destruct Hr as [Hr Hrest].
    apply andb_prop in Hr. destruct Hr as [H1 H2].
    apply String.eqb_eq in H1, H2. subst t' c.
    cbn [runStep] in *.
    pose proof (proj1 (proj1 Hm) _ _ (unless_has _ _ _ _ _ E)) as Hc.
    unfold unlessColumn at 1. rewrite Hc.
    apply (IH _ dbm db' Hrest); [|exact H|exact Hext].
    intros t0 Hin0.
    apply (proj2 (runStep_extends (Unless t (col_name column) (AddColumn t column :: more))
                    db dbm E)).
    apply Hcr. exact Hin0.
Qed.

(** *** The keys of a table stay *)

Lemma keysAre_setTable t keys name tb tb' db :
  tables db !! name = Some tb -> tbl_keys tb' = tbl_keys tb ->
  keysAre t keys db -> keysAre t keys (setTable name tb' db).
Proof.
  unfold keysAre. intros E Hk. rewrite tables_setTable.
  destruct (String.eqb_spec name t) as [<-|Hne]; [|tauto].
  rewrite E, Hk. tauto.
Qed.

Lemma exec1_keysAre t keys s db db' :
  declaresKeys t keys s = true -> exec1 s db = Some db' ->
  keysAre t keys db -> keysAre t keys db'.
Proof.
  destruct s as [name cols keys'|idx tbl cols|tbl c|tbl values|tbl c v];
    cbn [declaresKeys exec1]; intros Hd.
  - destruct (tables db !! name) eqn:E; intros [= <-]; [tauto|].
    intros Hkd. unfold keysAre in *. rewrite tables_setTable.
    destruct (String.eqb_spec name t) as [<-|Hne]; [|exact Hkd].
    cbn [tbl_keys negb orb] in *. apply bool_decide_eq_true in Hd. exact Hd.
  - destruct (bool_decide (idx ∈ indexes db)); [intros [= <-]; tauto|].
    destruct (tables db !! tbl); [|discriminate].
    destruct (List.forallb _ cols); intros [= <-]. tauto.
  - destruct (tables db !! tbl) as [tb|] eqn:E; [|discriminate].
    destruct (hasColumnIn tb (col_name c)); [discriminate|]. intros [= <-].
    apply (keysAre_setTable _ _ _ tb); [exact E|reflexivity].
  - destruct (tables db !! tbl) as [tb|] eqn:E; [|discriminate].
    destruct (negb (List.forallb _ values)); [discriminate|].
    destruct (conflicts tb _); intros [= <-]; [tauto|].
    apply (keysAre_setTable _ _ _ tb); [exact E|reflexivity].
  - destruct (tables db !! tbl) as [tb|] eqn:E; [|discriminate].
    destruct (negb (hasColumnIn tb c)); [discriminate|].
    destruct (List.existsb _ _ && _); [discriminate|]. intros [= <-].
    apply (keysAre_setTable _ _ _ tb); [exact E|reflexivity].
Qed.

Lemma exec_keysAre t keys script : forall db db',
  List.forallb (declaresKeys t keys) script = true ->
  exec script db = Some db' -> keysAre t keys db -> keysAre t keys db'.
Proof.
  induction script as [|s rest IH]; intros db db' Hd; cbn [exec].
  - intros [= <-]. tauto.
  - cbn [List.forallb] in Hd. apply andb_prop in Hd. destruct Hd as [Hs Hrest].
    destruct (exec1 s db) as [db1|] eqn:E; [|discriminate]. intros H Hk.
    apply (IH _ _ Hrest H). eapply exec1_keysAre; eassumption.
Qed.

Lemma runSteps_keysAre t keys steps : forall db db',
  List.forallb (fun st => List.forallb (declaresKeys t keys) (stmtsOf st)) steps = true ->
  runSteps steps db = Some db' -> keysAre t keys db -> keysAre t keys db'.
Proof.
  induction steps as [|st rest IH]; intros db db' Hd; cbn [runSteps].
  - intros [= <-]. tauto.
  - cbn [List.forallb] in Hd. apply andb_prop in Hd. destruct Hd as [Hs Hrest].
    destruct (runStep st db) as [db1|] eqn:E; [|discriminate]. intros H Hk.
    apply (IH _ _ Hrest H). clear IH H Hrest.
    destruct st as [script|s|tbl c script]; cbn [stmtsOf runStep] in *.
    + eapply exec_keysAre; eassumption.
    + unfold tryExec in E. cbn [List.forallb] in Hs. rewrite andb_true_r in Hs.
      destruct (exec1 s db) as [db2|] eqn:E2; injection E as <-; [|exact Hk].
      eapply exec1_keysAre; eassumption.
    + unfold unlessColumn in E. destruct (hasColumn tbl c db); [injection E as <-; exact Hk|].
      eapply exec_keysAre; eassumption.
Qed.

(** *** [ensureDefaultWorkspace] a second time *)

Lemma existsb_pointwise {A} (f g : A -> bool) (l : list A) :
  (forall x, f x = g x) -> List.existsb f l = List.existsb g l.
Proof.
  intros H. induction l as [|x l IH]; cbn [List.existsb]; [reflexivity|].
  rewrite H, IH. reflexivity.
Qed.

Lemma update_other_table t c v db db' t0 :
  exec1 (UpdateWhereNull t c v) db = Some db' -> t <> t0 ->
  tables db' !! t0 = tables db !! t0.
Proof.
  cbn [exec1]. destruct (tables db !! t) as [tb|]; [|discriminate].
  destruct (negb (hasColumnIn tb c)); [discriminate|].
  destruct (List.existsb _ _ && _); [discriminate|]. intros [= <-] Hne.
  rewrite tables_setTable. apply String.eqb_neq in Hne. rewrite Hne. reflexivity.
Qed.

Lemma sameKey_workspace tb now again old :
  List.existsb (sameKey old (rowOfValues tb (workspaceValues now))) workspaceKeys
  = List.existsb (sameKey old (rowOfValues tb (workspaceValues again))) workspaceKeys.
Proof.
  unfold workspaceKeys, sameKey. cbn [List.existsb List.forallb].
  rewrite !(rowOfValues_given tb (workspaceValues now) "id" DEFAULT_WORKSPACE_ID eq_refl).
  rewrite !(rowOfValues_given tb (workspaceValues again) "id" DEFAULT_WORKSPACE_ID eq_refl).
  rewrite !(rowOfValues_given tb (workspaceValues now) "name" "Default" eq_refl).
  rewrite !(rowOfValues_given tb (workspaceValues again) "name" "Default" eq_refl).
  rewrite !(rowOfValues_given tb (workspaceValues now) "slug" DEFAULT_WORKSPACE_SLUG eq_refl).
  rewrite !(rowOfValues_given tb (workspaceValues again) "slug" DEFAULT_WORKSPACE_SLUG eq_refl).
  reflexivity.
Qed.

Lemma insert_workspace_again now again db db7 db' :
  keysAre "workspaces" workspaceKeys db ->
  exec1 (InsertOrIgnore "workspaces" (workspaceValues now)) db = Some db7 ->
  tables db' !! "workspaces" = tables db7 !! "workspaces" ->
  exec1 (InsertOrIgnore "workspaces" (workspaceValues again)) db' = Some db'.
Proof.
  unfold keysAre. cbn [exec1]. intros Hkeys.
  destruct (tables db !! "workspaces") as [tb|] eqn:E; [|discriminate].
  assert (Hsame : forall tb' : Table,
            List.forallb (fun cv => hasColumnIn tb' (fst cv)) (workspaceValues again)
            = List.forallb (fun cv => hasColumnIn tb' (fst cv)) (workspaceValues now)).
  { intros tb'. reflexivity. }
  destruct (List.forallb _ (workspaceValues now)) eqn:Hcols; cbn [negb]; [|discriminate].
  destruct (conflicts tb (rowOfValues tb (workspaceValues now))) eqn:Hconf.
  - intros [= <-] Hsel. rewrite Hsel, E, Hsame, Hcols. cbn [negb].
    replace (conflicts tb (rowOfValues tb (workspaceValues again))) with true; [reflexivity|].
    rewrite <- Hconf. unfold conflicts. rewrite Hkeys. apply existsb_pointwise.
    intros old. apply sameKey_workspace.
  - intros [= <-] Hsel. rewrite Hsel, tables_setTable. cbn [String.eqb Ascii.eqb Bool.eqb].
    rewrite Hsame.
    change (List.forallb _ (workspaceValues now))
      with (List.forallb (fun cv => hasColumnIn tb (fst cv)) (workspaceValues now)).
    rewrite Hcols. cbn [negb].
    match goal with
    | |- (if conflicts ?t ?r then _ else _) = _ =>
        replace (conflicts t r) with true; [reflexivity|]
    end.
    symmetry. unfold conflicts. cbn [tbl_rows tbl_keys tbl_columns].
    rewrite List.existsb_app. apply orb_true_iff. right.
    cbn [List.existsb]. rewrite Hkeys. unfold workspaceKeys, sameKey.
    cbn [List.existsb List.forallb].
    rewrite (rowOfValues_given tb (workspaceValues now) "id" DEFAULT_WORKSPACE_ID eq_refl).
    match goal with
    | |- context [rowOfValues ?t (workspaceValues again) !! "id"] =>
        rewrite (rowOfValues_given t (workspaceValues again) "id" DEFAULT_WORKSPACE_ID eq_refl)
    end.
    rewrite String.eqb_refl. reflexivity.
Qed.

Lemma ensureDefaultWorkspace_again now again db db' :
  keysAre "workspaces" workspaceKeys db ->
  ensureDefaultWorkspace now db = Some db' ->
  ensureDefaultWorkspace again db' = Some db'.
Proof.
  intros Hkeys. unfold ensureDefaultWorkspace, ensureDefaultWorkspaceScript.
  fold (workspaceValues now). fold (workspaceValues again). cbn [exec].
  destruct (exec1 (InsertOrIgnore "workspaces" _) db) as [db7|] eqn:H1; [|discriminate].
  destruct (exec1 (UpdateWhereNull "channels" _ _) db7) as [db8|] eqn:H2; [|discriminate].
  destruct (exec1 (UpdateWhereNull "agents" _ _) db8) as [db9|] eqn:H3; [|discriminate].
  intros [= ->].
  assert (Hsel : tables db' !! "workspaces" = tables db7 !! "workspaces").
  { rewrite (update_other_table _ _ _ _ _ "workspaces" H3) by discriminate.
    apply (update_other_table _ _ _ _ _ "workspaces" H2). discriminate. }
  rewrite (insert_workspace_again now again db db7 db' Hkeys H1 Hsel).
  assert (F1 : hasColumn "channels" "workspace_id" db' = true).
  { apply (proj1 (exec1_grows _ _ _ H3)). exact (proj2 (update_column _ _ _ _ _ H2)). }
  assert (F3 : hasColumn "agents" "workspace_id" db' = true).
  { exact (proj2 (update_column _ _ _ _ _ H3)). }
  assert (Hfilled : forall l : list (option string),
            Forall (fun o : option string => o <> None)
                   (List.map (fun o => Some (default DEFAULT_WORKSPACE_ID o)) l)).
  { intros l. apply List.Forall_map. apply List.Forall_forall. intros o _. discriminate. }
  rewrite (update_noop "channels" "workspace_id" _ db' F1).
  - rewrite (update_noop "agents" "workspace_id" _ db' F3); [reflexivity|].
    rewrite (proj1 (update_column _ _ _ _ _ H3)). apply Hfilled.
  - rewrite (exec1_keeps_after _ _ _ _ _ H3) by reflexivity.
    rewrite (proj1 (update_column _ _ _ _ _ H2)). apply Hfilled.
Qed.

(** X23. Initializing a database a second time changes nothing: when
    [getDb]'s initialization (createTables, migrateSchema, migrateUp,
    runMigrations) succeeds on a database whose workspaces table, if
    it exists, has the declared keys (id, name, slug), running it
    again on the result, at any later time, succeeds and returns the
    result unchanged. *)
Theorem initialize_twice_is_initialize_once :
  forall (now again : string) (db db' : Database),
    keysAre "workspaces" workspaceKeys db ->
    initialize now db = Some db' ->
    initialize again db' = Some db'.
Proof.
  intros now again db db' Hkeys Hinit.
  rewrite initialize_steps in *. unfold allSteps in *. rewrite runSteps_app in *.
  destruct (runSteps schemaSteps db) as [db6|] eqn:Hsteps; [|discriminate].
  cbn [runSteps runStep] in Hinit.
  destruct (exec (ensureDefaultWorkspaceScript now) db6) as [db9|] eqn:Hens; [|discriminate].
  injection Hinit as ->.
  rewrite (rerunnable_again schemaSteps [] db db6 eq_refl (fun t (H : In t []) => match H with end)
             Hsteps db' (exec_extends _ _ _ Hens)).
  cbn [runSteps runStep].
  pose proof (runSteps_keysAre "workspaces" workspaceKeys schemaSteps db db6 eq_refl Hsteps Hkeys)
    as Hk6.
  pose proof (ensureDefaultWorkspace_again now again db6 db' Hk6 Hens) as Hagain.
  unfold ensureDefaultWorkspace in Hagain. rewrite Hagain. reflexivity.
Qed.

(** X24. The backfill only fills blanks: after the initialization of
    any database, the [workspace_id] of each channel row and of each
    agent row is the one it had, or the default workspace where it was
    NULL; the rows are the same in number and order, and no other
    column of them changes (the default of [is_archived] apart). *)
Theorem initialize_fills_only_missing_workspace_ids :
  forall (now : string) (db db' : Database),
    initialize now db = Some db' ->
    column "channels" "workspace_id" db'
    = List.map (fun o => Some (default DEFAULT_WORKSPACE_ID o))
        (column "channels" "workspace_id" db) /\
    column "agents" "workspace_id" db'
    = List.map (fun o => Some (default DEFAULT_WORKSPACE_ID o))
        (column "agents" "workspace_id" db) /\
    (forall k, k <> "workspace_id" -> k <> "is_archived" ->
               column "channels" k db' = column "channels" k db) /\
    (forall k, k <> "workspace_id" -> column "agents" k db' = column "agents" k db).
Proof.
  intros now db db' Hinit.
  rewrite initialize_steps in Hinit. pose proof Hinit as Hall.
  unfold allSteps in Hinit. rewrite runSteps_app in Hinit.
  destruct (runSteps schemaSteps db) as [db6|] eqn:Hsteps; [|discriminate].
  cbn [runSteps runStep] in Hinit.
  destruct (exec (ensureDefaultWorkspaceScript now) db6) as [db9|] eqn:Hens; [|discriminate].
  injection Hinit as ->.
  unfold ensureDefaultWorkspaceScript in Hens. cbn [exec] in Hens.
  destruct (exec1 (InsertOrIgnore "workspaces" _) db6) as [db7|] eqn:H1; [|discriminate].
  destruct (exec1 (UpdateWhereNull "channels" _ _) db7) as [db8|] eqn:H2; [|discriminate].
  destruct (exec1 (UpdateWhereNull "agents" _ _) db8) as [db9'|] eqn:H3; [|discriminate].
  injection Hens as ->.
  split; [|split; [|split]].
  - rewrite (exec1_keeps_after _ _ _ _ _ H3) by reflexivity.
    rewrite (proj1 (update_column _ _ _ _ _ H2)).
    rewrite (exec1_keeps_after _ _ _ _ _ H1) by reflexivity.
    rewrite (runSteps_keeps "channels" "workspace_id" schemaSteps db db6 eq_refl Hsteps).
    reflexivity.
  - rewrite (proj1 (update_column _ _ _ _ _ H3)).
    rewrite (exec1_keeps_after _ _ _ _ _ H2) by reflexivity.
    rewrite (exec1_keeps_after _ _ _ _ _ H1) by reflexivity.
    rewrite (runSteps_keeps "agents" "workspace_id" schemaSteps db db6 eq_refl Hsteps).
    reflexivity.
  - intros k Hk1 Hk2. eapply initialize_keeps_channels; eassumption.
  - intros k Hk1. eapply initialize_keeps_agents; eassumption.
Qed.

(** X25. The default workspace cannot be created beside a namesake:
    when some workspace is already called Default while none has the
    all-zero id, the INSERT OR IGNORE is dropped on the unique name;
    if a channel then still lacks a workspace, the backfill violates
    the foreign key of [workspace_id] and [ensureDefaultWorkspace]
    fails instead of returning. *)
Theorem ensureDefaultWorkspace_fails_beside_namesake :
  forall (now : string) (db : Database) (old : gmap string string) (tc : Table),
    keyed "workspaces" ["name"] db ->
    In old (rowsOf "workspaces" db) -> old !! "name" = Some "Default" ->
    Forall (fun r => r !! "id" <> Some DEFAULT_WORKSPACE_ID) (rowsOf "workspaces" db) ->
    tables db !! "channels" = Some tc ->
    referencesOf tc "workspace_id" = Some ("workspaces", "id") ->
    List.existsb (isNullAt "workspace_id") (tbl_rows tc) = true ->
    ensureDefaultWorkspace now db = None.
Proof.
  intros now db old tc Hkey Hin Hname Hids Htc Href Hnull.
  unfold ensureDefaultWorkspace, ensureDefaultWorkspaceScript.
  fold (workspaceValues now). cbn [exec].
  destruct (exec1 (InsertOrIgnore "workspaces" (workspaceValues now)) db) as [db7|] eqn:H1;
    [|reflexivity].
  assert (Hsame : db7 = db).
  { cbn [exec1] in H1. unfold keyed, rowsOf in *.
    destruct (tables db !! "workspaces") as [tb|] eqn:E; [|discriminate].
    destruct (negb (List.forallb _ (workspaceValues now))); [discriminate|].
    replace (conflicts tb (rowOfValues tb (workspaceValues now))) with true in H1;
      [congruence|].
    symmetry. unfold conflicts. apply List.existsb_exists. exists old. split; [exact Hin|].
    apply List.existsb_exists. exists ["name"]. split; [exact Hkey|].
    cbn [sameKey List.forallb].
    rewrite Hname, (rowOfValues_given tb (workspaceValues now) "name" "Default" eq_refl).
    reflexivity. }
  subst db7.
  replace (exec1 (UpdateWhereNull "channels" "workspace_id" DEFAULT_WORKSPACE_ID) db)
    with (@None Database); [reflexivity|].
  symmetry. cbn [exec1]. rewrite Htc.
  destruct (negb (hasColumnIn tc "workspace_id")); [reflexivity|].
  rewrite Hnull, Href. cbn [andb].
  replace (parentExists db ("workspaces", "id") DEFAULT_WORKSPACE_ID) with false;
    [reflexivity|].
  symmetry. apply not_true_is_false. unfold parentExists. cbn [fst snd]. intros Hex.
  apply List.existsb_exists in Hex. destruct Hex as (r & Hr & Hv).
  rewrite List.Forall_forall in Hids. specialize (Hids r Hr).
  destruct (r !! "id") as [v|]; [|discriminate].
  apply String.eqb_eq in Hv. subst v. apply Hids. reflexivity.
Qed.

End RerunFacts.

(** A fresh database file initializes, and initializes again to the
    same database. *)
Lemma initialize_twice_is_initialize_once_witness :
  exists db',
    Migrations.initialize "2026-02-18T10:00:00.000Z" MigrationScenarios.freshStore = Some db' /\
    Migrations.initialize "2026-03-01T09:00:00.000Z" db' = Some db'.
Proof.
  assert (Hruns : match Migrations.initialize "2026-02-18T10:00:00.000Z"
                          MigrationScenarios.freshStore
                  with Some _ => true | None => false end = true).
  { vm_compute. reflexivity. }
  destruct (Migrations.initialize "2026-02-18T10:00:00.000Z" MigrationScenarios.freshStore)
    as [db'|] eqn:E; [|discriminate Hruns].
  exists db'. split; [reflexivity|].
  refine (initialize_twice_is_initialize_once _ _ MigrationScenarios.freshStore db' _ E).
  exact I.
Defined.

(** In the team store the channel of the team keeps its workspace and
    the other one joins the default workspace. *)
Lemma initialize_fills_only_missing_workspace_ids_witness :
  exists db',
    Migrations.initialize "2026-02-18T10:00:00.000Z" MigrationScenarios.teamStore = Some db' /\
    MigrationSteps.column "channels" "workspace_id" db'
    = [Some "w-own"; Some Migrations.DEFAULT_WORKSPACE_ID].
Proof.
  assert (Hruns : match Migrations.initialize "2026-02-18T10:00:00.000Z"
                          MigrationScenarios.teamStore
                  with Some _ => true | None => false end = true).
  { vm_compute. reflexivity. }
  destruct (Migrations.initialize "2026-02-18T10:00:00.000Z" MigrationScenarios.teamStore)
    as [db'|] eqn:E; [|discriminate Hruns].
  exists db'. split; [reflexivity|].
  refine (eq_trans
            (proj1 (initialize_fills_only_missing_workspace_ids _
                      MigrationScenarios.teamStore db' E)) _).
  vm_compute. reflexivity.
Defined.

Lemma ensureDefaultWorkspace_fails_beside_namesake_witness :
  Migrations.ensureDefaultWorkspace "2026-02-18T10:00:00.000Z" MigrationScenarios.namesakeStore
  = None.
Proof.
  refine (ensureDefaultWorkspace_fails_beside_namesake _ MigrationScenarios.namesakeStore
            (list_to_map [ ("id", "w-own"); ("name", "Default"); ("slug", "own");
                           ("type", "shared"); ("created_by", "u-boss");
                           ("created_at", "2026-01-05T00:00:00.000Z") ])
            (default (Sqlite.mkTable [] [] [])
               (Sqlite.tables MigrationScenarios.namesakeStore !! "channels"))
            _ _ _ _ _ _ _).
  - vm_compute. right. left. reflexivity.
  - vm_compute. left. reflexivity.
  - vm_compute. reflexivity.
  - apply List.Forall_forall. intros r Hin. vm_compute in Hin.
    destruct Hin as [<-|[]]. vm_compute. discriminate.
  - vm_compute. reflexivity.
  - vm_compute. reflexivity.
  - vm_compute. reflexivity.
Defined.

(** ** The seed of the first boot *)

Section SeedFacts.
Import Schema Seed.

Ltac split_insert H :=
  repeat match type of H with
         | (if ?c then _ else _) = Some _ =>
             let E := fresh "E" in destruct c eqn:E; [discriminate H|]
         end;
  injection H as H; symmetry in H.

Lemma seed_insertWorkspace_Some w s s' :
  insertWorkspace w s = Some s' ->
  s' = mkStore (st_workspaces s ++ [w]) (st_channels s) (st_users s) (st_agents s)
               (st_workspaceMembers s) (st_channelMembers s) (st_messages s) (st_features s).
Proof. unfold insertWorkspace. intros H. split_insert H. exact H. Qed.

Lemma seed_insertChannel_Some ch s s' :
  insertChannel ch s = Some s' ->
  s' = mkStore (st_workspaces s) (st_channels s ++ [ch]) (st_users s) (st_agents s)
               (st_workspaceMembers s) (st_channelMembers s) (st_messages s) (st_features s)
  /\ List.existsb (fun x => String.eqb (ch_name x) (ch_name ch)) (st_channels s) = false.
Proof.
  unfold insertChannel. intros H. split_insert H. split; [exact H|].
  apply not_true_is_false. intros Hex. apply List.existsb_exists in Hex.
  destruct Hex as (x & Hin & Hx).
  assert (Ht : List.existsb (fun x => String.eqb (ch_id x) (ch_id ch)
                                      || String.eqb (ch_name x) (ch_name ch))
                            (st_channels s) = true).
  { apply List.existsb_exists. exists x. split; [exact Hin|]. rewrite Hx. apply orb_true_r. }
  congruence.
Qed.

Lemma seed_insertUser_Some u s s' :
  insertUser u s = Some s' ->
  s' = mkStore (st_workspaces s) (st_channels s) (st_users s ++ [u]) (st_agents s)
               (st_workspaceMembers s) (st_channelMembers s) (st_messages s) (st_features s).
Proof. unfold insertUser. intros H. split_insert H. exact H. Qed.

Lemma seed_insertAgent_Some a s s' :
  insertAgent a s = Some s' ->
  s' = mkStore (st_workspaces s) (st_channels s) (st_users s) (st_agents s ++ [a])
               (st_workspaceMembers s) (st_channelMembers s) (st_messages s) (st_features s).
Proof. unfold insertAgent. intros H. split_insert H. exact H. Qed.

Lemma seed_insertWorkspaceMember_Some m s s' :
  insertWorkspaceMember m s = Some s' ->
  s' = mkStore (st_workspaces s) (st_channels s) (st_users s) (st_agents s)
               (st_workspaceMembers s ++ [m]) (st_channelMembers s) (st_messages s)
               (st_features s).
Proof. unfold insertWorkspaceMember. intros H. split_insert H. exact H. Qed.

Lemma seed_insertChannelMember_Some m s s' :
  insertChannelMember m s = Some s' ->
  s' = mkStore (st_workspaces s) (st_channels s) (st_users s) (st_agents s)
               (st_workspaceMembers s) (st_channelMembers s ++ [m]) (st_messages s)
               (st_features s).
Proof. unfold insertChannelMember. intros H. split_insert H. exact H. Qed.

Lemma seed_insertMessage_Some m s s' :
  Seed.insertMessage m s = Some s' ->
  s' = mkStore (st_workspaces s) (st_channels s) (st_users s) (st_agents s)
               (st_workspaceMembers s) (st_channelMembers s) (st_messages s ++ [m])
               (st_features s).
Proof. unfold Seed.insertMessage. intros H. split_insert H. exact H. Qed.

Lemma seed_insertFeature_Some f s s' :
  Seed.insertFeature f s = Some s' ->
  s' = mkStore (st_workspaces s) (st_channels s) (st_users s) (st_agents s)
               (st_workspaceMembers s) (st_channelMembers s) (st_messages s)
               (st_features s ++ [f]).
Proof. unfold Seed.insertFeature. intros H. split_insert H. exact H. Qed.

Lemma andThen_Done insert rest s s' :
  andThen insert rest s = Done s' -> exists s1, insert s = Some s1 /\ rest s1 = Done s'.
Proof.
  unfold andThen. destruct (insert s) as [s1|]; [|discriminate]. intros H. eauto.
Qed.

Lemma insertFeatures_Done uuids creatorUserId now features : forall i s s',
  insertFeatures uuids creatorUserId now i features s = Done s' ->
  s' = mkStore (st_workspaces s) (st_channels s) (st_users s) (st_agents s)
               (st_workspaceMembers s) (st_channelMembers s) (st_messages s)
               (st_features s ++ featureRows uuids creatorUserId now i features).
Proof.
  induction features as [|[title description] rest IH]; intros i s s';
    cbn [insertFeatures featureRows].
  - intros [= <-]. rewrite List.app_nil_r. destruct s. reflexivity.
  - intros H. apply andThen_Done in H. destruct H as (s1 & H1 & H2).
    apply seed_insertFeature_Some in H1. apply IH in H2. subst s1. cbn in H2.
    rewrite <- List.app_assoc in H2. exact H2.
Qed.

(** What the body of [if (!existingCreator)] has written when it
    completes. *)
Lemma seedCreator_Done uuids now generalId s s' :
  seedCreator uuids now generalId s = Done s' ->
  s' = mkStore (st_workspaces s) (st_channels s)
         (st_users s ++ [creatorUser uuids now])
         (st_agents s ++ [creatorAgent uuids])
         (st_workspaceMembers s
          ++ [mkWorkspaceMember Migrations.DEFAULT_WORKSPACE_ID (uuid_creator uuids) "admin" now])
         (st_channelMembers s ++ [mkChannelMember generalId (uuid_creator uuids) now])
         (st_messages s
          ++ [mkMessage (uuid_message uuids) generalId (uuid_creator uuids) welcomeMessage
                        None None now])
         (match st_features s with
          | [] => featureRows uuids (uuid_creator uuids) now 0 seedFeatures
          | _ :: _ => st_features s
          end).
Proof.
  unfold seedCreator. cbv zeta. intros H.
  apply andThen_Done in H. destruct H as (s1 & H1 & H).
  apply andThen_Done in H. destruct H as (s2 & H2 & H).
  apply andThen_Done in H. destruct H as (s3 & H3 & H).
  apply andThen_Done in H. destruct H as (s4 & H4 & H).
  apply andThen_Done in H. destruct H as (s5 & H5 & H).
  apply seed_insertUser_Some in H1. apply seed_insertAgent_Some in H2.
  apply seed_insertWorkspaceMember_Some in H3. apply seed_insertChannelMember_Some in H4.
  apply seed_insertMessage_Some in H5. subst s1 s2 s3 s4. cbn in H5. subst s5.
  cbn [st_features] in H. unfold Query.limit in H. cbn [Z.ltb Z.compare Z.to_nat Pos.to_nat
    Pos.iter_op Init.Nat.add] in H.
  destruct (st_features s) as [|f fs] eqn:Ef.
  - cbn [List.firstn List.head] in H. apply insertFeatures_Done in H.
    cbn [st_workspaces st_channels st_users st_agents st_workspaceMembers st_channelMembers
         st_messages st_features List.app] in H. exact H.
  - cbn [List.firstn List.head] in H. injection H as <-. reflexivity.
Qed.

(** The tables of a seed that completed. *)
Lemma seedDefaults_Done uuids now s s' :
  seedDefaults uuids now s = Done s' ->
  let workspaces' :=
    match Query.get isDefaultWorkspace (st_workspaces s) with
    | Some _ => st_workspaces s
    | None => st_workspaces s ++ [defaultWorkspace now]
    end in
  let channels' :=
    match Query.get isGeneral (st_channels s) with
    | Some _ => st_channels s
    | None =>
        st_channels s
        ++ [ mkChannelRow (uuid_general uuids) "#general" "general" "system" now
                          (Some Migrations.DEFAULT_WORKSPACE_ID);
             mkChannelRow (uuid_random uuids) "#random" "general" "system" now
                          (Some Migrations.DEFAULT_WORKSPACE_ID) ]
    end in
  let generalId :=
    match Query.get isGeneral (st_channels s) with
    | Some existingGeneral => ch_id existingGeneral
    | None => uuid_general uuids
    end in
  s' = match Query.get isCreator (st_agents s) with
       | Some _ =>
           mkStore workspaces' channels' (st_users s) (st_agents s) (st_workspaceMembers s)
                   (st_channelMembers s) (st_messages s) (st_features s)
       | None =>
           mkStore workspaces' channels'
             (st_users s ++ [creatorUser uuids now])
             (st_agents s ++ [creatorAgent uuids])
             (st_workspaceMembers s
              ++ [mkWorkspaceMember Migrations.DEFAULT_WORKSPACE_ID (uuid_creator uuids)
                                    "admin" now])
             (st_channelMembers s ++ [mkChannelMember generalId (uuid_creator uuids) now])
             (st_messages s
              ++ [mkMessage (uuid_message uuids) generalId (uuid_creator uuids)
                            welcomeMessage None None now])
             (match st_features s with
              | [] => featureRows uuids (uuid_creator uuids) now 0 seedFeatures
              | _ :: _ => st_features s
              end)
       end.
Proof.
  unfold seedDefaults. intros H. apply andThen_Done in H. destruct H as (s1 & H1 & H).
  fold isDefaultWorkspace in H1. fold (defaultWorkspace now) in H1.
  fold isGeneral isCreator in H.
  assert (E1 : s1 = mkStore
                      (match Query.get isDefaultWorkspace (st_workspaces s) with
                       | Some _ => st_workspaces s
                       | None => st_workspaces s ++ [defaultWorkspace now]
                       end)
                      (st_channels s) (st_users s) (st_agents s) (st_workspaceMembers s)
                      (st_channelMembers s) (st_messages s) (st_features s)).
  { destruct (Query.get isDefaultWorkspace (st_workspaces s)).
    - injection H1 as <-. destruct s. reflexivity.
    - apply seed_insertWorkspace_Some in H1. exact H1. }
  clear H1. subst s1. cbn [st_channels st_agents] in H. cbv zeta.
  destruct (Query.get isGeneral (st_channels s)) as [existingGeneral|] eqn:Eg.
  - destruct (Query.get isCreator (st_agents s)) eqn:Ec.
    + injection H as <-. reflexivity.
    + apply seedCreator_Done in H. exact H.
  - apply andThen_Done in H. destruct H as (s2 & H2 & H).
    cbn [insertChannels] in H2.
    destruct (insertChannel _ _) as [sa|] eqn:Ha in H2; [|discriminate].
    destruct (insertChannel _ sa) as [sb|] eqn:Hb in H2; [|discriminate].
    assert (Hs2 : s2 = sb) by congruence. clear H2. subst s2.
    apply seed_insertChannel_Some in Ha. destruct Ha as [-> _].
    apply seed_insertChannel_Some in Hb. destruct Hb as [-> _].
    cbn [st_workspaces st_channels st_users st_agents st_workspaceMembers st_channelMembers
         st_messages st_features] in H.
    destruct (Query.get isCreator (st_agents s)) eqn:Ec.
    + injection H as <-. rewrite <- List.app_assoc. reflexivity.
    + apply seedCreator_Done in H.
      cbn [st_workspaces st_channels st_users st_agents st_workspaceMembers st_channelMembers
           st_messages st_features] in H.
      rewrite <- List.app_assoc in H. exact H.
Qed.

(** What a later boot finds. *)
Lemma seedDefaults_settled uuids now s :
  is_Some (Query.get isDefaultWorkspace (st_workspaces s)) ->
  is_Some (Query.get isGeneral (st_channels s)) ->
  is_Some (Query.get isCreator (st_agents s)) ->
  seedDefaults uuids now s = Done s.
Proof.
  intros [w Hw] [g Hg] [a Ha]. unfold seedDefaults, andThen.
  fold isDefaultWorkspace isGeneral isCreator. rewrite Hw, Hg, Ha. reflexivity.
Qed.

(** X26. Seeding is idempotent: once [seedDefaults] has completed,
    every later call, whatever time and UUIDs it draws, completes and
    leaves every table as it is: no second workspace, channel,
    creator, welcome message or feature request appears. *)
Theorem seedDefaults_twice_is_once :
  forall (uuids uuids' : Uuids) (now now' : string) (s s' : Store),
    seedDefaults uuids now s = Done s' ->
    seedDefaults uuids' now' s' = Done s'.
Proof.
  intros uuids uuids' now now' s s' H. apply seedDefaults_Done in H. cbv zeta in H.
  apply seedDefaults_settled.
  - subst s'. destruct (Query.get isCreator (st_agents s)); cbn [st_workspaces];
      (destruct (Query.get isDefaultWorkspace (st_workspaces s)) eqn:E;
       [rewrite E; eauto|]; unfold Query.get in *;
       rewrite (find_snoc_new _ _ (defaultWorkspace now) E eq_refl); eauto).
  - subst s'. destruct (Query.get isCreator (st_agents s)); cbn [st_channels];
      (destruct (Query.get isGeneral (st_channels s)) eqn:E;
       [rewrite E; eauto|]; unfold Query.get in *;
       rewrite find_app, E; cbn; eauto).
  - subst s'. destruct (Query.get isCreator (st_agents s)) eqn:E; cbn [st_agents].
    + rewrite E. eauto.
    + unfold Query.get in *. rewrite (find_snoc_new _ _ (creatorAgent uuids) E eq_refl). eauto.
Qed.

(** X27. A seed that finds no creator agent and completes has made
    [the_creator]: a user of type agent, a system agent of the
    default workspace, an admin member of the default workspace and
    a member of #general, where its welcome message is posted.
    #general is the channel of that name that was already there, if
    any, and the one the seed created otherwise. *)
Theorem seedDefaults_makes_the_creator :
  forall (uuids : Uuids) (now : string) (s s' : Store),
    Query.get isCreator (st_agents s) = None ->
    seedDefaults uuids now s = Done s' ->
    exists general : ChannelRow,
      Query.get isGeneral (st_channels s') = Some general /\
      (forall g, Query.get isGeneral (st_channels s) = Some g -> general = g) /\
      Query.get isCreator (st_agents s') = Some (creatorAgent uuids) /\
      In (creatorUser uuids now) (st_users s') /\
      isWorkspaceAdmin Migrations.DEFAULT_WORKSPACE_ID (uuid_creator uuids) s' = true /\
      isChannelMember (ch_id general) (uuid_creator uuids) s' = true /\
      In (mkMessage (uuid_message uuids) (ch_id general) (uuid_creator uuids) welcomeMessage
                    None None now)
         (st_messages s').
Proof.
  intros uuids now s s' Ec H. apply seedDefaults_Done in H. cbv zeta in H.
  rewrite Ec in H. subst s'.
  cbn [st_workspaces st_channels st_users st_agents st_workspaceMembers st_channelMembers
       st_messages st_features].
  unfold isWorkspaceAdmin, isChannelMember.
  cbn [st_workspaces st_channels st_users st_agents st_workspaceMembers st_channelMembers
       st_messages st_features].
  assert (Hrest : forall generalId : string,
            Query.get isCreator (st_agents s ++ [creatorAgent uuids])
            = Some (creatorAgent uuids) /\
            In (creatorUser uuids now) (st_users s ++ [creatorUser uuids now]) /\
            List.existsb
              (fun m => String.eqb (wm_workspaceId m) Migrations.DEFAULT_WORKSPACE_ID
                        && String.eqb (wm_userId m) (uuid_creator uuids)
                        && String.eqb (wm_role m) "admin")
              (st_workspaceMembers s
               ++ [mkWorkspaceMember Migrations.DEFAULT_WORKSPACE_ID (uuid_creator uuids)
                                     "admin" now]) = true /\
            List.existsb
              (fun m => String.eqb (cm_channelId m) generalId
                        && String.eqb (cm_userId m) (uuid_creator uuids))
              (st_channelMembers s ++ [mkChannelMember generalId (uuid_creator uuids) now])
            = true /\
            In (mkMessage (uuid_message uuids) generalId (uuid_creator uuids) welcomeMessage
                          None None now)
               (st_messages s
                ++ [mkMessage (uuid_message uuids) generalId (uuid_creator uuids)
                              welcomeMessage None None now])).
  { intros generalId. split; [|split; [|split; [|split]]].
    - unfold Query.get in *. apply find_snoc_new; [exact Ec|reflexivity].
    - apply List.in_or_app. right. left. reflexivity.
    - apply existsb_snoc. cbn [wm_workspaceId wm_userId wm_role].
      rewrite !String.eqb_refl. reflexivity.
    - apply existsb_snoc. cbn [cm_channelId cm_userId]. rewrite !String.eqb_refl. reflexivity.
    - apply List.in_or_app. right. left. reflexivity. }
  destruct (Query.get isGeneral (st_channels s)) as [existingGeneral|] eqn:Eg.
  - exists existingGeneral. split; [exact Eg|]. split; [intros g [= ->]; reflexivity|].
    apply Hrest.
  - eexists. split.
    + unfold Query.get in *. rewrite find_app, Eg. cbn. reflexivity.
    + split; [intros g Hg; discriminate Hg|]. cbn [ch_id]. apply Hrest.
Qed.

(** X28. The seed adds feature requests only together with the
    creator and only to an empty table: a seed that completes leaves
    [feature_requests] as it was when the creator agent existed or
    the table held a row; otherwise the table then holds the eight
    seeded requests, in the order of the source, each open, created
    by the creator at the time of the seed, with the UUIDs drawn in
    that order. *)
Theorem seedDefaults_features_only_with_the_creator :
  forall (uuids : Uuids) (now : string) (s s' : Store),
    seedDefaults uuids now s = Done s' ->
    (is_Some (Query.get isCreator (st_agents s)) \/ st_features s <> [] ->
     st_features s' = st_features s) /\
    (Query.get isCreator (st_agents s) = None -> st_features s = [] ->
     List.map (fun f => (ft_title f, ft_description f)) (st_features s') = seedFeatures /\
     List.map ft_id (st_features s') = List.map (uuid_feature uuids) (List.seq 0 8) /\
     Forall (fun f => ft_status f = "open" /\ ft_createdBy f = uuid_creator uuids
                      /\ ft_createdAt f = now)
            (st_features s')).
Proof.
  intros uuids now s s' H. apply seedDefaults_Done in H. cbv zeta in H. split.
  - intros Hold. subst s'. destruct (Query.get isCreator (st_agents s)) eqn:Ec;
      cbn [st_features]; [reflexivity|].
    destruct Hold as [[a Ha]|Hne]; [discriminate Ha|].
    destruct (st_features s); [contradiction|reflexivity].
  - intros Ec Hempty. rewrite Ec, Hempty in H. subst s'. cbn [st_features].
    split; [reflexivity|]. split; [reflexivity|].
    unfold seedFeatures. cbn [featureRows].
    repeat (apply List.Forall_cons; [cbn; auto|]). apply List.Forall_nil.
Qed.

(** X29. The seed cannot restore a missing #general beside a
    #random: when no channel is called #general but one is called
    #random, the insert of the two default channels violates the
    unique channel name and [seedDefaults] rejects; no channel, user,
    agent or message was written, and the creator is not seeded. *)
Theorem seedDefaults_throws_beside_random :
  forall (uuids : Uuids) (now : string) (s : Store),
    Query.get isGeneral (st_channels s) = None ->
    List.existsb (fun ch => String.eqb (ch_name ch) "#random") (st_channels s) = true ->
    exists s1 : Store,
      seedDefaults uuids now s = Threw s1 /\
      st_channels s1 = st_channels s /\ st_users s1 = st_users s /\
      st_agents s1 = st_agents s /\ st_messages s1 = st_messages s.
Proof.
  intros uuids now s Eg Hrandom. unfold seedDefaults.
  fold isDefaultWorkspace isGeneral isCreator. fold (defaultWorkspace now).
  unfold andThen at 1.
  destruct (match Query.get isDefaultWorkspace (st_workspaces s) with
            | Some _ => Some s
            | None => insertWorkspace (defaultWorkspace now) s
            end) as [s1|] eqn:H1; [|exists s; auto].
  assert (E1 : st_channels s1 = st_channels s /\ st_users s1 = st_users s /\
               st_agents s1 = st_agents s /\ st_messages s1 = st_messages s).
  { destruct (Query.get isDefaultWorkspace (st_workspaces s)).
    - injection H1 as <-. auto.
    - apply seed_insertWorkspace_Some in H1. subst s1. cbn. auto. }
  destruct E1 as (Hc & Hrest). rewrite Hc, Eg. exists s1. split; [|auto].
  unfold andThen. cbn [insertChannels].
  destruct (insertChannel _ s1) as [sa|] eqn:Ha; [|reflexivity].
  destruct (insertChannel _ sa) as [sb|] eqn:Hb; [|reflexivity].
  exfalso. apply seed_insertChannel_Some in Ha. destruct Ha as [-> _].
  apply seed_insertChannel_Some in Hb. destruct Hb as [_ Hb].
  cbn [st_channels ch_name] in Hb. rewrite Hc, List.existsb_app, Hrandom in Hb.
  discriminate Hb.
Qed.

End SeedFacts.

(** The first boot seeds the empty database; the next boot changes
    nothing. *)
Lemma seedDefaults_twice_is_once_witness :
  exists s',
    Seed.seedDefaults SeedScenarios.firstBoot "2026-02-18T10:00:00.000Z" Seed.empty
    = Seed.Done s' /\
    Seed.seedDefaults SeedScenarios.laterBoot "2026-02-19T08:00:00.000Z" s' = Seed.Done s'.
Proof.
  assert (Hruns : exists s',
            Seed.seedDefaults SeedScenarios.firstBoot "2026-02-18T10:00:00.000Z" Seed.empty
            = Seed.Done s').
  { eexists. vm_compute. reflexivity. }
  destruct Hruns as [s' E]. exists s'. split; [exact E|].
  exact (seedDefaults_twice_is_once _ _ _ _ _ s' E).
Defined.

(** On the hand-made store the creator joins the #general that was
    there, channel [c-lobby]. *)
Lemma seedDefaults_makes_the_creator_witness :
  exists s',
    Seed.seedDefaults SeedScenarios.firstBoot "2026-02-18T10:00:00.000Z"
      SeedScenarios.handMade = Seed.Done s' /\
    Seed.isChannelMember "c-lobby" "u-creator" s' = true.
Proof.
  assert (Hruns : exists s',
            Seed.seedDefaults SeedScenarios.firstBoot "2026-02-18T10:00:00.000Z"
              SeedScenarios.handMade = Seed.Done s').
  { eexists. vm_compute. reflexivity. }
  destruct Hruns as [s' E]. exists s'. split; [exact E|].
  destruct (seedDefaults_makes_the_creator SeedScenarios.firstBoot _
              SeedScenarios.handMade s' eq_refl E)
    as (general & _ & Hsame & _ & _ & _ & Hmember & _).
  rewrite (Hsame _ eq_refl) in Hmember. exact Hmember.
Defined.

(** The hand-made store keeps its one feature request. *)
Lemma seedDefaults_features_only_with_the_creator_witness :
  exists s',
    Seed.seedDefaults SeedScenarios.firstBoot "2026-02-18T10:00:00.000Z"
      SeedScenarios.handMade = Seed.Done s' /\
    Seed.st_features s' = Seed.st_features SeedScenarios.handMade.
Proof.
  assert (Hruns : exists s',
            Seed.seedDefaults SeedScenarios.firstBoot "2026-02-18T10:00:00.000Z"
              SeedScenarios.handMade = Seed.Done s').
  { eexists. vm_compute. reflexivity. }
  destruct Hruns as [s' E]. exists s'. split; [exact E|].
  refine (proj1 (seedDefaults_features_only_with_the_creator SeedScenarios.firstBoot _
                   SeedScenarios.handMade s' E) _).
  right. discriminate.
Defined.

(** After #general was renamed, the next boot fails. *)
Lemma seedDefaults_throws_beside_random_witness :
  exists s1,
    Seed.seedDefaults SeedScenarios.firstBoot "2026-02-18T10:00:00.000Z"
      SeedScenarios.renamedGeneral = Seed.Threw s1 /\
    Seed.st_channels s1 = Seed.st_channels SeedScenarios.renamedGeneral /\
    Seed.st_users s1 = Seed.st_users SeedScenarios.renamedGeneral /\
    Seed.st_agents s1 = Seed.st_agents SeedScenarios.renamedGeneral /\
    Seed.st_messages s1 = Seed.st_messages SeedScenarios.renamedGeneral.
Proof.
  refine (seedDefaults_throws_beside_random SeedScenarios.firstBoot _
            SeedScenarios.renamedGeneral _ _).
  - vm_compute. reflexivity.
  - vm_compute. reflexivity.
Defined.

(** ** The names the generator can produce *)

Section NameSpaceFacts.
Import NameGenerator NameSpace.

Lemma generateName_in_allNames (seed : string) : In (generateName seed) allNames.
Proof.
  pose proof (sha256_bytes seed) as Hb.
  pose proof (two_bytes _ _ (byteAt_range _ 0 Hb) (byteAt_range _ 1 Hb)) as Ha.
  pose proof (two_bytes _ _ (byteAt_range _ 2 Hb) (byteAt_range _ 3 Hb)) as Hn.
  destruct (index_in_range ADJECTIVES _ (proj1 Ha)) as (adj & _ & Hsa & Hina).
  { simpl. lia. }
  destruct (index_in_range ANIMALS _ (proj1 Hn)) as (animal & _ & Hsn & Hinn).
  { simpl. lia. }
  assert (Hname : generateName seed = adj +:+ "-" +:+ animal).
  { unfold generateName, adjIdx, animalIdx. cbv zeta. rewrite Hsa, Hsn. reflexivity. }
  rewrite Hname. unfold allNames. apply List.in_flat_map. exists adj. split; [exact Hina|].
  apply List.in_map_iff. exists animal. split; [reflexivity|exact Hinn].
Qed.

Lemma allNames_avoid_the_creator :
  List.forallb (fun name => negb (String.eqb name CREATOR_NAME)) allNames = true.
Proof. vm_compute. reflexivity. Qed.

Lemma allNames_length : List.length allNames = 4900%nat.
Proof. vm_compute. reflexivity. Qed.

(** X30. The generator has 4900 names and the creator's is not one
    of them: no seed makes [generateName], and no project, agent
    type, entropy and attempt make [generateUniqueName], return
    [the_creator]; and seeds whose names are pairwise distinct are at
    most 4900, so among more seeds two share a name. *)
Theorem generateName_has_4900_names_none_the_creator :
  (forall seed : string, String.eqb (generateName seed) CREATOR_NAME = false) /\
  (forall projectName agentType entropy attempt : string,
      String.eqb (generateUniqueName projectName agentType entropy attempt) CREATOR_NAME
      = false) /\
  (forall seeds : list string,
      List.NoDup (List.map generateName seeds) -> (List.length seeds <= 4900)%nat).
Proof.
  assert (Hname : forall seed, String.eqb (generateName seed) CREATOR_NAME = false).
  { intros seed. apply negb_true_iff.
    exact (proj1 (List.forallb_forall _ _) allNames_avoid_the_creator _
             (generateName_in_allNames seed)). }
  split; [exact Hname|]. split; [intros; apply Hname|].
  intros seeds Hnd. rewrite <- allNames_length, <- (List.length_map generateName seeds).
  apply List.NoDup_incl_length; [exact Hnd|].
  intros name Hin. apply List.in_map_iff in Hin. destruct Hin as (seed & <- & _).
  apply generateName_in_allNames.
Qed.

End NameSpaceFacts.
